(* ===== verification/_CoqProject ===== *)
-Q . S2P
Prelude.v
CStd.v
Memory.v
Calendar.v
Endian.v
StdMap.v
Kv.v
KvRef.v
Json.v
MiniJson.v
V8.v
MiniV8.v
Engine.v
Timers.v
HttpResponse.v
Heap.v
Bucket.v
N1ql.v
Queue.v
Deployment.v
Regex.v
Preprocess.v
Scan.v
Debug.v
DebugSync.v
DebugRest.v
Mail.v
ExceptionFmt.v
Host.v
HostSafety.v
Worker.v
WorkerFacts.v
GoTimers.v
TimerRace.v
GoFeed.v
FeedRace.v
Construct.v
Lifecycle.v
Terminate.v
Session.v
Redeploy.v
Spec.v
Refine.v
FeedLoop.v
RefineEvents.v
Agenda.v
LocalTcpClient.v
MiniWorld.v
