(* ===== verification/Prelude.v ===== *)
(** * Verification of the V8 worker binding of couchbase eventing (root file)

    ** The program

    Couchbase eventing runs JavaScript handlers on the mutations of a bucket.  A
    Go program (src/go_eventing, src/worker/worker.go) receives mutations, HTTP
    requests and the ticks of a clock and hands them to a C++ library over V8, the
    binding (src/worker/binding), through the C functions of binding.h.  The
    binding compiles the handler code, calls the handlers and gives them objects
    whose properties are documents of a bucket (bucket.cc), rows of a query
    (n1ql.cc), pushes on a redis list (queue.cc) and the reply of a request
    (http_response.cc), and functions for logging, mail and timers (worker.cc).
    This development models the C and C++ code, with the parts of the Go code that
    meet it, and proves what it does and where it goes wrong.

    ** How the model is built

    A piece of code that can fail returns an [outcome]: [AssertFailed],
    [Exited], [Uncaught] or [Undefined] for undefined behaviour (an overflow, an
    indeterminate or dangling pointer).  Code with a state is a [prog] over the
    state, which survives a failure; a component is written over any state that
    has the part it needs ([Lens]), and Host.v puts all parts into one [world].
    Strings are byte strings; integers are [Z] with their width written out
    where it matters.

    What is not in the repository is a type class: its operations, and as laws
    what the binding relies on.  [Lcb], [LcbLaws], [LcbN1ql] (libcouchbase;
    [LcbHealthy]: no request fails), [Redis] (hiredis), [Curl], [RapidJson] with
    [RapidJsonLaws], [V8] with [V8Laws], [Engine] with [EngineLaws] (compilation
    and execution of JavaScript), [Sockets]; [QueryService] with [QueryLaws] for
    queries that only read.  KvRef.v, MiniJson.v, MiniV8.v and
    MiniWorld.v have small executable instances; only witnesses and examples use
    them.

    ** Files, and the sources they follow

    - Prelude, CStd, StdMap, Memory: programs, lenses and their tactics ([step],
      [run], the hint database [prog]); the C and C++ library ([c_str], [atoi],
      [stoi], [sprintf] into a fixed buffer, [std::map], [malloc]); the array
      buffer allocator of worker.h.
    - Calendar: [ConvertToISO8601] with [gmtime] and [strftime]; Endian:
      [htonll_64] and the keys made of a CAS.
    - Kv, KvRef: requests to libcouchbase and the callbacks of worker.cc and
      bucket.cc that write through their cookies.
    - Json, MiniJson, V8, MiniV8, Engine: the interfaces to RapidJSON and V8, and
      the conversions of worker.cc on top of them.  A handler is a finite tree of
      its calls into the binding ([js_prog]).
    - Timers: [RegisterCallback], [SendTimerCallback] and the documents between
      them; GoTimers: the routine of proccess_timer_callbacks.go that reads and
      removes these documents, and the time of its ticks; TimerRace: registrations
      and a tick whose requests interleave in any way.  GoFeed: [handleDcpEvent] of v8_worker.go, which
      hands mutations to the worker, except those that handlers made; FeedRace:
      its requests and those of [BucketSet] in any interleaving.
    - HttpResponse, Bucket, N1ql, Queue: the classes of these names.  Heap: how an
      internal field leads to a C++ object.
    - Deployment: [ParseDeployment].  Regex, Preprocess, Scan: the rewriting of
      handler code in [WorkerLoad].
    - Debug: the handlers of debugger messages; DebugSync: the requests that wait
      for them, as a step relation with the worker's updates; DebugRest: that this
      ends.
    - Mail: [SendMail], [PostMail] and the receiver in http_handlers.go;
      ExceptionFmt: [ExceptionString].
    - Host: the world and the calls that JavaScript makes; HostSafety: its
      invariant.  Worker, WorkerFacts, Construct, Lifecycle: the class [Worker]
      and the C functions.  Terminate: handlers as machines that may run for
      ever, and [worker_terminate_execution].  Session: the Go wrapper worker.go,
      with its table of workers.  Redeploy: the goroutines of the deployments of
      one application (application_setup, runWorker, the feed, the timer routine
      and the handler that saves an application), as a step machine over their
      channels, tables and lock.
    - Spec, Refine, RefineEvents: an abstract specification and the proof that
      the binding implements it.  Agenda: a coarser specification of the timers,
      a map from seconds to document ids and from ids to callbacks.  FeedLoop: the
      closed loop of a bucket, its feed, the worker and the writes that handlers
      make to the bucket that feeds them.
    - LocalTcpClient: the separate program src/tcp/local_tcp_client.c, with the
      greeting of its server (main.go).
    - MiniWorld: a small engine, a worker over it, and the theorems about the
      whole worker applied to it.

    ** What the theorems show

    - The whole: [worker_implements_spec].  On servers where no request fails,
      every sequence of updates, deletions, requests and ticks does to the
      servers what Spec.v says of a plain store, with the same answers.  The text
      of a reply is the one that the returned pointer pointed to; that its buffer
      is gone by then is [reply_pointer_dangles].
    - Timers: [code_follows_agenda] (the documents of the metadata bucket
      implement the agenda, for every sequence of registrations and ticks) and
      [timer_called_on_time] (a timer that is registered in time is called by the
      first tick that reaches its second, when every id is set at most once),
      [tick_reads_marker] (which tick reads a marker).
    - The feedback loop: [own_writes_are_not_fed_back].  The markers of
      [BucketSet] are those that the feed looks for, on either byte order, once
      they are stored.  So the loop of writes and mutations comes to an end, [feedback_loop_ends].  When
      the feed may overtake the markers, [own_writes_skipped_or_leaked].
    - Redeployment: [orderly_redeployments_settle] (when each save waits for
      the one before, every schedule ends with the newest deployment in service,
      and what is left of older ones is at most a [startBucket] that waits for room
      in its channel); [full_channel_keeps_bucket] (such a one waits for ever); and
      without the order, [three_saves_hang] and
      [early_registration_stops_successor].
    - Safety, whatever requests fail: [reachable_invariant] and
      [property_access_is_safe] (every object is used as what it is, and no
      property access stops the process), [bucket_survives_faults],
      [marker_survives_faults].
    - Round trips: [timers_fire_in_order] (register, store, read, call),
      [set_then_get], [mail_arrives].
    - Concurrency on the timer documents: [timers_called_at_most_once],
      [timers_called_or_waiting] and the two ways to lose a timer
      ([late_append_is_lost], [append_after_delete_is_lost]).
    - Stopping a handler: [terminated_worker_is_sound], [interrupted_runs_are_prefixes]
      (what stopped handlers do is what finite trees do), [SendUpdate_interrupted].
    - Entry points: [WorkerLoad_codes], [SendUpdate_runs_handler],
      [Worker_new_builds], [initialize_installs_three],
      [loading_needs_bucket_and_queue], [exceptions_are_not_told].
    - Components: [ParseDeployment_functional] and [ParseDeployment_shape],
      [reply_lists_last_values], [enqueue_pushes], [queue_constructor],
      [n1ql_rows_in_order], [ExceptionString_layout], the theorems of Calendar
      and Endian.
    - Preprocessing: [script_to_execute_scans] says what the regular expressions
      do on every text, [script_to_execute_rewrites] that simple calls are
      rewritten as meant.
    - Debugger: [handler_signals], [mutual_exclusion], [request_answered],
      [comes_to_rest] (a request that is alone is answered), and what can go wrong ([lost_wakeup],
      [update_returns_stale_result], [second_request_takes_answer], the two
      buffers).
    - Faults of the code are theorems too, on the modelled code as it is:
      [missing_timer_drops_the_rest], [second_timer_replaces_first],
      [n1ql_failure_is_silent], [long_name_pushes_elsewhere], [client_main] and
      others.

    ** Fuel and bounds

    [prefix_of] takes a number of moves as fuel on purpose: the theorems quantify
    over it.  [run_loop] (the loop around [regex_search]) has one more unit of fuel than
    the text has bytes: each match of these patterns consumes at least one byte
    ([run_loop_total]), so the fuel is never used up.  [gmtime] and the other
    functions are structural or arithmetic.  MiniJson's parser has fuel for its
    text; it serves witnesses only.  [feedback_loop_ends] has its bound in its
    statement, a number of rounds that depends on the versions at the start; it
    asks of the servers as many unused CAS values as that.  Redeploy.v's machine
    stops by a measure that every step decreases.  Times are before the year
    10000, where the texts of seconds all have the same length.

    ** What is not modelled

    - V8's scopes and garbage collection, and its locks: the calls into one
      isolate exclude each other, and are modelled so; the destructors of the
      binding, which nothing calls.
    - When V8 notices a request to terminate, and whether it does: Terminate.v
      lets it stop at any moment after the request, or never.  The callbacks of a
      tick are one step of TimerRace.v.  The clock stands still during one event,
      not between events.
    - What the debugger does with a command, beyond its text: the answer is a
      parameter of DebugSync.v, and [ProcessDebugMessages] one of Worker.v.  Data
      races on the result strings: each step of DebugSync.v is atomic.
    - builtin.js, which is appended to every script and executed by V8: its text
      is a parameter.  event_assert.h: a failed assertion is [AssertFailed].
    - Redeploy.v leaves out what an application has beside its worker (static
      assets, HTTP servers, the channel of mails, the ticker of statistics) and
      the regions under the lock that only log.  Of sendMail the SMTP side is left
      out.
    - The rest of the Go program (DCP clients, HTTP servers, set-up), the Node.js
      experiment, the user interface, tests and build. *)

From stdpp Require Export base list strings option numbers.
From Stdlib Require Export ZArith Lia Ascii.

(** ** Outcomes and effectful programs *)

(** How a piece of the program can stop without returning. *)
Inductive failure : Type :=
  | AssertFailed              (** [assert] / [cb_assert] / [RAPIDJSON_ASSERT] *)
  | Exited (code : Z)         (** [exit(code)] *)
  | Uncaught (what : string)  (** a C++ exception nobody catches: [std::terminate] *)
  | Undefined (what : string) (** undefined behaviour: overflow of a buffer, a bad pointer *).

#[export] Instance failure_eq_dec : EqDecision failure.
Proof. solve_decision. Defined.

Inductive outcome (A : Type) : Type :=
  | Ok (a : A)
  | Fail (f : failure).
Arguments Ok {A} a.
Arguments Fail {A} f.

#[export] Instance outcome_ret : MRet outcome := @Ok.
#[export] Instance outcome_bind : MBind outcome := λ A B f m,
  match m with Ok a => f a | Fail e => Fail e end.
#[export] Instance outcome_fmap : FMap outcome := λ A B f m,
  match m with Ok a => Ok (f a) | Fail e => Fail e end.

Definition is_ok {A} (m : outcome A) : bool :=
  match m with Ok _ => true | Fail _ => false end.

Lemma outcome_bind_Ok {A B} (m : outcome A) (f : A → outcome B) b :
  (m ≫= f) = Ok b → ∃ a, m = Ok a ∧ f a = Ok b.
Proof. destruct m as [a|]; [eauto|done]. Qed.

(** Splits every bind of a computation known to succeed. *)
Ltac outcome_inv :=
  repeat match goal with
         | H : (_ ≫= _) = Ok _ |- _ => apply outcome_bind_Ok in H as (? & ? & H); cbv beta in H
         | H : mret _ = Ok _ |- _ => injection H as H
         end.

Lemma outcome_bind_eq {A B} (m : outcome A) (f : A → outcome B) a :
  m = Ok a → (m ≫= f) = f a.
Proof. by intros ->. Qed.

(** Runs one bind whose first step is known to succeed. *)
Ltac outcome_step :=
  erewrite outcome_bind_eq by (first [eassumption | reflexivity]); cbv beta.

(** A program over a state [S]: the state survives a failure, because what the
    program already sent to a server stays there when the process dies. *)
Definition prog (S A : Type) : Type := S → S * outcome A.

#[export] Instance prog_ret {S} : MRet (prog S) := λ A a s, (s, Ok a).
#[export] Instance prog_bind {S} : MBind (prog S) := λ A B f m s,
  match m s with
  | (s', Ok a) => f a s'
  | (s', Fail e) => (s', Fail e)
  end.

Definition get {S} : prog S S := λ s, (s, Ok s).
Definition put {S} (s : S) : prog S unit := λ _, (s, Ok tt).
Definition gets {S A} (f : S → A) : prog S A := λ s, (s, Ok (f s)).
Definition modify {S} (f : S → S) : prog S unit := λ s, (f s, Ok tt).
Definition throw {S A} (e : failure) : prog S A := λ s, (s, Fail e).
Definition lift {S A} (m : outcome A) : prog S A := λ s, (s, m).

(** [assert(b)]. *)
Definition assert_true {S} (b : bool) : prog S unit :=
  if b then mret tt else throw AssertFailed.

(** A part [T] of a state [S]. *)
Class Lens (S T : Type) := {
  view : S → T;
  update : T → S → S;
  view_update t s : view (update t s) = t;
  update_view s : update (view s) s = s;
  update_update t u s : update t (update u s) = update t s
}.

#[export] Program Instance lens_id {S} : Lens S S | 10 :=
  {| view s := s; update t _ := t |}.
Solve Obligations with done.

(** Parts of a pair. *)
Program Definition lens_fst {A B T} `{!Lens A T} : Lens (A * B) T :=
  {| view s := view s.1; update t s := (update t s.1, s.2) |}.
Next Obligation. intros. cbn. apply view_update. Qed.
Next Obligation. intros A B T L [a b]. cbn. by rewrite update_view. Qed.
Next Obligation. intros. cbn. by rewrite update_update. Qed.

Program Definition lens_snd {A B T} `{!Lens B T} : Lens (A * B) T :=
  {| view s := view s.2; update t s := (s.1, update t s.2) |}.
Next Obligation. intros. cbn. apply view_update. Qed.
Next Obligation. intros A B T L [a b]. cbn. by rewrite update_view. Qed.
Next Obligation. intros. cbn. by rewrite update_update. Qed.

(** A program on a part of the state. *)
Definition zoom {S T A} `{Lens S T} (m : prog T A) : prog S A :=
  λ s, let '(t, r) := m (view s) in (update t s, r).

Fixpoint for_each {S A} (f : A → prog S unit) (l : list A) : prog S unit :=
  match l with
  | [] => mret tt
  | x :: l => _ ← f x; for_each f l
  end.

(** ** Equations *)

Section prog_laws.
Context {S : Type}.
Implicit Types s : S.

Lemma bind_Ok {A B} (m : prog S A) (f : A → prog S B) s s' a :
  m s = (s', Ok a) → (m ≫= f) s = f a s'.
Proof. intros H. unfold mbind, prog_bind. by rewrite H. Qed.

Lemma bind_Fail {A B} (m : prog S A) (f : A → prog S B) s s' e :
  m s = (s', Fail e) → (m ≫= f) s = (s', Fail e).
Proof. intros H. unfold mbind, prog_bind. by rewrite H. Qed.

Lemma bind_Ok_inv {A B} (m : prog S A) (f : A → prog S B) s s' b :
  (m ≫= f) s = (s', Ok b) → ∃ s1 a, m s = (s1, Ok a) ∧ f a s1 = (s', Ok b).
Proof. unfold mbind, prog_bind. destruct (m s) as [s1 [a|e]]; [eauto|done]. Qed.

Lemma for_each_app {A} (f : A → prog S unit) l k s s' :
  for_each f l s = (s', Ok tt) → for_each f (l ++ k) s = for_each f k s'.
Proof.
  revert s. induction l as [|x l IH]; intros s; cbn [for_each app]; [by intros [= ->]|].
  intros (s1 & [] & H1 & H2)%bind_Ok_inv. erewrite bind_Ok by exact H1. by apply IH.
Qed.

Lemma lift_Ok {A} (a : A) s : lift (Ok a) s = (s, Ok a).
Proof. done. Qed.

Lemma lift_Ok_eq {A} (m : outcome A) a s : m = Ok a → lift m s = (s, Ok a).
Proof. by intros ->. Qed.

Lemma zoom_Ok {T A} `{Lens S T} (m : prog T A) s t r :
  m (view s) = (t, r) → zoom m s = (update t s, r).
Proof. intros Hm. unfold zoom. by rewrite Hm. Qed.

Lemma zoom_get {T} `{Lens S T} s : zoom (get (S:=T)) s = (s, Ok (view s)).
Proof. unfold zoom. cbn. by rewrite update_view. Qed.

Lemma zoom_gets {T A} `{Lens S T} (f : T → A) s : zoom (gets f) s = (s, Ok (f (view s))).
Proof. unfold zoom. cbn. by rewrite update_view. Qed.

Lemma zoom_modify {T} `{Lens S T} (f : T → T) s :
  zoom (modify f) s = (update (f (view s)) s, Ok tt).
Proof. done. Qed.

Lemma zoom_put {T} `{Lens S T} (t : T) s : zoom (put t) s = (update t s, Ok tt).
Proof. done. Qed.

Lemma zoom_view {T A} `{Lens S T} (m : prog T A) s :
  view (zoom m s).1 = (m (view s)).1.
Proof. unfold zoom. destruct (m (view s)). apply view_update. Qed.

(** A property of states that every step of a program keeps. *)
Definition keeps {A} (P : S → Prop) (m : prog S A) : Prop := ∀ s, P s → P (m s).1.

Lemma keeps_ret {A} P (a : A) : keeps P (mret a).
Proof. by intros s. Qed.

Lemma keeps_lift {A} P (m : outcome A) : keeps P (lift m).
Proof. by intros s. Qed.

Lemma keeps_throw {A} P e : keeps P (throw (A:=A) e).
Proof. by intros s. Qed.

Lemma keeps_bind {A B} P (m : prog S A) (f : A → prog S B) :
  keeps P m → (∀ a, keeps P (f a)) → keeps P (m ≫= f).
Proof.
  intros Hm Hf s Hs. unfold mbind, prog_bind. specialize (Hm s Hs).
  destruct (m s) as [s' [a|e]]; [by apply Hf|done].
Qed.

Lemma keeps_for_each {A} P (f : A → prog S unit) l :
  (∀ x, keeps P (f x)) → keeps P (for_each f l).
Proof.
  intros Hf. induction l as [|x l IH]; [apply keeps_ret|].
  apply keeps_bind; [apply Hf|done].
Qed.
End prog_laws.

Create HintDb prog.
#[export] Hint Resolve keeps_ret keeps_lift keeps_throw keeps_bind keeps_for_each : prog.

(** Runs one binding whose first step always succeeds. *)
Ltac step :=
  erewrite bind_Ok by
    (first [apply zoom_get | apply zoom_gets | apply zoom_modify | apply zoom_put | apply lift_Ok
           | apply lift_Ok_eq; first [eassumption | reflexivity] | eassumption | reflexivity]);
  cbv beta.

(** Runs one binding whose first step is known to succeed. *)
Tactic Notation "run" uconstr(H) := erewrite bind_Ok by (first [exact H | apply H]); cbv beta.
