(* ===== verification/CStd.v ===== *)
(** * The C and C++ standard library calls of the binding

    Strings are byte strings ([string] over 8-bit [ascii]).  This file models
    what the sources use of libc and the C++ library: NUL-terminated views,
    [strstr], [std::string::find/substr/erase], [getline], [atoi],
    [std::stoi], decimal printing and [sprintf] into a fixed buffer. *)

From S2P Require Import Prelude.
#[local] Open Scope Z_scope.

(** ** Byte strings *)

Definition nul : ascii := "000"%char.
Definition dquote : ascii := "034"%char.

(** A string literal in which the character ' stands for a double quote. *)
Fixpoint dquoted (s : string) : string :=
  match s with
  | EmptyString => EmptyString
  | String c s => String (if Ascii.eqb c "'" then dquote else c) (dquoted s)
  end.

(** The bytes a C string function sees: up to the first NUL.  This is also
    what [std::string(const char* )] copies. *)
Fixpoint c_str (s : string) : string :=
  match s with
  | EmptyString => EmptyString
  | String c s => if Ascii.eqb c nul then EmptyString else String c (c_str s)
  end.

(** Every byte of [s] satisfies [p]. *)
Fixpoint sforall (p : ascii → bool) (s : string) : bool :=
  match s with
  | EmptyString => true
  | String c s => p c && sforall p s
  end.

Definition nul_free (s : string) : bool := sforall (λ c, negb (Ascii.eqb c nul)) s.

(** [s] has no byte [d]. *)
Definition lacks (d : ascii) (s : string) : bool := sforall (λ c, negb (Ascii.eqb c d)) s.

(** A [const char*] that a function returns: to a live buffer, or to one that
    its own return has freed, with the text it held until then. *)
Inductive char_ptr : Type :=
  | Valid (text : string)
  | Dangling (text : string).

Definition pointed_text (p : char_ptr) : string :=
  match p with Valid s | Dangling s => s end.

(** Reading through the pointer. *)
Definition read_ptr (p : char_ptr) : outcome string :=
  match p with
  | Valid s => Ok (c_str s)
  | Dangling _ => Fail (Undefined "read of a freed buffer")
  end.

Definition is_empty (s : string) : bool :=
  match s with EmptyString => true | _ => false end.

Definition slen (s : string) : Z := Z.of_nat (String.length s).

(** [n] copies of [c]. *)
Fixpoint srepeat (c : ascii) (n : nat) : string :=
  match n with
  | O => EmptyString
  | S n => String c (srepeat c n)
  end.

(** The first [n] bytes of [s]. *)
Fixpoint stake (n : nat) (s : string) : string :=
  match n, s with
  | S n, String c s => String c (stake n s)
  | _, _ => EmptyString
  end.

(** [s] without its first [n] bytes ([std::string::erase(0, n)]). *)
Fixpoint sdrop (n : nat) (s : string) : string :=
  match n, s with
  | S n, String _ s => sdrop n s
  | _, _ => s
  end.

(** [s] starts with [p]; the rest of it. *)
Fixpoint strip_prefix (p s : string) : option string :=
  match p, s with
  | EmptyString, _ => Some s
  | String a p, String b s => if Ascii.eqb a b then strip_prefix p s else None
  | String _ _, EmptyString => None
  end.

(** [s.find(p)]: position of the first occurrence, [None] for [npos]. *)
Fixpoint sfind (p s : string) : option nat :=
  match strip_prefix p s with
  | Some _ => Some 0%nat
  | None => match s with
            | EmptyString => None
            | String _ s => S <$> sfind p s
            end
  end.

(** [strstr(s, p) != NULL]. *)
Definition strstr (s p : string) : bool :=
  match sfind p (c_str s) with Some _ => true | None => false end.

(** ** [while (getline(ss, item, delim)) elems.push_back(item)] *)

(** [cur] is the item read so far; a trailing item is pushed only when it is
    not empty, because [getline] fails when it reads nothing before the end. *)
Fixpoint getline_all (delim : ascii) (cur : string) (s : string) : list string :=
  match s with
  | EmptyString => if is_empty cur then [] else [cur]
  | String c s =>
      if Ascii.eqb c delim then cur :: getline_all delim EmptyString s
      else getline_all delim (cur +:+ String c EmptyString) s
  end.

(** ** Integers *)

Definition int_min : Z := -2147483648.
Definition int_max : Z := 2147483647.
Definition in_int (z : Z) : bool := (int_min <=? z) && (z <=? int_max).
Definition u32 (z : Z) : Z := z mod 2 ^ 32.
Definition u64 (z : Z) : Z := z mod 2 ^ 64.

Definition byte_val (c : ascii) : Z := Z.of_N (N_of_ascii c).
Definition is_digit (c : ascii) : bool := (48 <=? byte_val c) && (byte_val c <=? 57).
Definition digit (d : Z) : ascii := ascii_of_N (Z.to_N (48 + d)).

(** The value of the leading decimal digits of [s], starting from [acc]. *)
Fixpoint digits_val (acc : Z) (s : string) : Z :=
  match s with
  | String c s => if is_digit c then digits_val (acc * 10 + (byte_val c - 48)) s else acc
  | EmptyString => acc
  end.

Definition starts_with_digit (s : string) : bool :=
  match s with String c _ => is_digit c | EmptyString => false end.

Fixpoint skip_space (s : string) : string :=
  match s with
  | String c s' => if Ascii.is_space c then skip_space s' else s
  | EmptyString => s
  end.

(** [strtol(s, _, 10)] without a width: [None] when no conversion happens. *)
Definition scan_dec (s : string) : option Z :=
  let s := skip_space s in
  let '(sign, s) := match s with
                    | String c s' => if Ascii.eqb c "-" then (-1, s')
                                     else if Ascii.eqb c "+" then (1, s') else (1, s)
                    | EmptyString => (1, s)
                    end in
  if starts_with_digit s then Some (sign * digits_val 0 s) else None.

(** [atoi]: 0 when nothing converts; the C standard leaves a value that does
    not fit an [int] undefined. *)
Definition atoi (s : string) : outcome Z :=
  match scan_dec (c_str s) with
  | None => Ok 0
  | Some z => if in_int z then Ok z else Fail (Undefined "atoi: value out of range")
  end.

(** [std::stoi]: throws instead. *)
Definition stoi (s : string) : outcome Z :=
  match scan_dec (c_str s) with
  | None => Fail (Uncaught "std::invalid_argument")
  | Some z => if in_int z then Ok z else Fail (Uncaught "std::out_of_range")
  end.

(** Decimal printing ([%d], [%i], [ostream << uint64_t]). *)
Fixpoint dec_go (fuel : nat) (n : Z) (acc : string) : string :=
  match fuel with
  | O => acc
  | S fuel =>
      let acc := String (digit (n mod 10)) acc in
      if n / 10 =? 0 then acc else dec_go fuel (n / 10) acc
  end.

(** A number has at most as many decimal digits as binary ones. *)
Definition dec_nonneg (n : Z) : string := dec_go (S (Z.to_nat (Z.log2 n))) n EmptyString.

Definition dec (z : Z) : string :=
  if z <? 0 then String "-" (dec_nonneg (- z)) else dec_nonneg z.

(** [sprintf(buf, ...)] where the formatted text is [s] and [buf] has [size]
    bytes: the text and its NUL must fit. *)
Definition sprintf (size : Z) (s : string) : outcome string :=
  if slen s + 1 <=? size then Ok s else Fail (Undefined "sprintf: buffer overflow").

Arguments is_digit : simpl never.
Arguments byte_val : simpl never.
Arguments digit : simpl never.

(** ** Lemmas on strings *)

Lemma sapp_nil_r s : s +:+ EmptyString = s.
Proof. induction s as [|c s IH]; [done|]. by change (String c (s +:+ EmptyString) = String c s); rewrite IH. Qed.

Lemma sapp_assoc a b c : (a +:+ b) +:+ c = a +:+ b +:+ c.
Proof. induction a as [|x a IH]; [done|]. by change (String x ((a +:+ b) +:+ c) = String x (a +:+ b +:+ c)); rewrite IH. Qed.

Lemma sapp_cons c a b : String c a +:+ b = String c (a +:+ b).
Proof. done. Qed.

Lemma sapp_nil_l a : EmptyString +:+ a = a.
Proof. done. Qed.

(** Computes appends of a constructor before [cbn]. *)
Ltac sapp_cbn := rewrite ?sapp_cons, ?sapp_nil_l; cbn.

Lemma slength_app a b : String.length (a +:+ b) = (String.length a + String.length b)%nat.
Proof. induction a as [|x a IH]; [done|]. rewrite sapp_cons. cbn. by rewrite IH. Qed.

Lemma slen_app a b : slen (a +:+ b) = slen a + slen b.
Proof. unfold slen. rewrite slength_app. lia. Qed.

Lemma slen_cons c s : slen (String c s) = 1 + slen s.
Proof. unfold slen. cbn [String.length]. lia. Qed.

Lemma slen_nonneg s : 0 <= slen s.
Proof. unfold slen. lia. Qed.

Lemma sforall_app p a b : sforall p (a +:+ b) = sforall p a && sforall p b.
Proof. induction a as [|c a IH]; [done|]. rewrite sapp_cons. cbn. by rewrite IH, andb_assoc. Qed.

Lemma lacks_app d a b : lacks d (a +:+ b) = lacks d a && lacks d b.
Proof. apply sforall_app. Qed.

Lemma sforall_impl (p q : ascii → bool) s :
  (∀ c, p c = true → q c = true) → sforall p s = true → sforall q s = true.
Proof.
  intros Himp. induction s as [|c s IH]; [done|]. cbn. rewrite !andb_true_iff.
  intros [??]; auto.
Qed.

Lemma c_str_id s : nul_free s = true → c_str s = s.
Proof.
  induction s as [|c s IH]; [done|]. cbn. destruct (Ascii.eqb c nul); [done|].
  cbn. intros. by rewrite IH.
Qed.

Lemma c_str_nul_free s : nul_free (c_str s) = true.
Proof.
  induction s as [|c s IH]; [done|]. cbn. destruct (Ascii.eqb c nul) eqn:E; [done|].
  cbn. by rewrite E.
Qed.

Lemma c_str_idemp s : c_str (c_str s) = c_str s.
Proof. apply c_str_id, c_str_nul_free. Qed.

Lemma sapp_inj_r a b c : a +:+ b = a +:+ c → b = c.
Proof. apply (inj (String.append a)). Qed.

Lemma sapp_eq_len a b c d :
  String.length a = String.length c → a +:+ b = c +:+ d → a = c ∧ b = d.
Proof.
  revert c. induction a as [|x a IH]; intros [|y c]; [done..|]. cbn [String.length].
  rewrite !sapp_cons. intros [= Hl] [= -> Heq]. by destruct (IH _ Hl Heq) as [-> ->].
Qed.

(** Two ways to cut one string. *)
Lemma sapp_split x y a b :
  x +:+ y = a +:+ b →
  (∃ c, x = a +:+ c ∧ b = c +:+ y) ∨ (∃ c, y = c +:+ b ∧ a = x +:+ c).
Proof.
  revert a. induction x as [|h x IH]; intros a; [intros E; right; by exists a|].
  destruct a as [|g a]; rewrite ?sapp_cons, ?sapp_nil_l.
  - intros <-. left. by exists (String h x).
  - intros [= -> [(c & -> & ->)|(c & -> & ->)]%IH]; [left|right]; by exists c.
Qed.

Lemma stake_app a b : stake (String.length a) (a +:+ b) = a.
Proof. induction a as [|c a IH]; [by destruct b|]. rewrite sapp_cons. cbn. by rewrite IH. Qed.

Lemma sdrop_app a b : sdrop (String.length a) (a +:+ b) = b.
Proof. induction a as [|c a IH]; [by destruct b|]. by rewrite sapp_cons. Qed.

Lemma stake_all n s : (String.length s <= n)%nat → stake n s = s.
Proof.
  revert s. induction n as [|n IH]; intros [|c s]; cbn; try done; [lia|]. intros Hs. by rewrite IH by lia.
Qed.

Lemma stake_sdrop n s : stake n s +:+ sdrop n s = s.
Proof.
  revert s. induction n as [|n IH]; intros [|c s]; try done.
  cbn [stake sdrop]. by rewrite sapp_cons, IH.
Qed.

Lemma strip_prefix_spec p s r : strip_prefix p s = Some r ↔ s = p +:+ r.
Proof.
  revert s. induction p as [|a p IH]; intros s.
  - split; [by intros [= ->]|by intros ->].
  - destruct s as [|b s]; [split; discriminate|]. cbn.
    destruct (Ascii.eqb_spec a b) as [->|Hne].
    + rewrite IH, sapp_cons. split; [by intros ->|by intros [= ->]].
    + split; [done|]. rewrite sapp_cons. by intros [= ->].
Qed.

Lemma strip_prefix_app p r : strip_prefix p (p +:+ r) = Some r.
Proof. by apply strip_prefix_spec. Qed.

Lemma sfind_app p s n :
  sfind p s = Some n → s = stake n s +:+ p +:+ sdrop (String.length p) (sdrop n s).
Proof.
  revert n. induction s as [|c s IH]; intros n; cbn [sfind].
  - destruct (strip_prefix p EmptyString) as [r|] eqn:E; [|done].
    intros [= <-]. by destruct p.
  - destruct (strip_prefix p (String c s)) as [r|] eqn:E.
    + intros [= <-]. apply strip_prefix_spec in E as ->. cbn [stake].
      change (sdrop 0 ?x) with x. by rewrite sdrop_app.
    + destruct (sfind p s) as [k|]; [|done]. intros [= <-]. cbn [stake sdrop].
      rewrite sapp_cons. f_equal. by apply IH.
Qed.

(** A pattern with a byte that the text lacks is not found. *)
Lemma sfind_lacks d p s : lacks d p = false → lacks d s = true → sfind p s = None.
Proof.
  intros Hp Hs. destruct (sfind p s) as [n|] eqn:E; [|done]. exfalso.
  apply sfind_app in E. rewrite E in Hs. unfold lacks in *. rewrite !sforall_app, Hp in Hs.
  by rewrite andb_false_r in Hs.
Qed.

(** The first occurrence of a one-byte pattern ends the part that lacks it. *)
Lemma sfind_char d a b :
  lacks d a = true → sfind (String d EmptyString) (a +:+ String d b) = Some (String.length a).
Proof.
  induction a as [|c a IH]; sapp_cbn.
  - by rewrite Ascii.eqb_refl.
  - rewrite Ascii.eqb_sym. destruct (Ascii.eqb d c) eqn:E; [done|]. cbn.
    intros H. by rewrite IH.
Qed.

Lemma sfind_char_none d a : lacks d a = true → sfind (String d EmptyString) a = None.
Proof.
  induction a as [|c a IH]; [done|]. cbn. rewrite Ascii.eqb_sym.
  destruct (Ascii.eqb d c) eqn:E; [done|]. cbn. intros H. by rewrite IH.
Qed.

(** ** Lemmas on [getline] *)

(** Items each followed by the delimiter. *)
Fixpoint join_term (delim : ascii) (l : list string) : string :=
  match l with
  | [] => EmptyString
  | x :: l => x +:+ String delim (join_term delim l)
  end.

Lemma join_term_app d l k : join_term d (l ++ k) = join_term d l +:+ join_term d k.
Proof. induction l as [|x l IH]; [done|]. cbn. by rewrite IH, sapp_assoc, sapp_cons. Qed.

Lemma getline_item d cur x rest :
  lacks d x = true →
  getline_all d cur (x +:+ String d rest) = (cur +:+ x) :: getline_all d EmptyString rest.
Proof.
  revert cur. induction x as [|c x IH]; intros cur; sapp_cbn.
  - by rewrite Ascii.eqb_refl, sapp_nil_r.
  - destruct (Ascii.eqb c d); [done|]. cbn. intros H.
    rewrite IH by done. by rewrite sapp_assoc.
Qed.

Lemma getline_tail d cur x :
  lacks d x = true →
  getline_all d cur x = if is_empty (cur +:+ x) then [] else [cur +:+ x].
Proof.
  revert cur. induction x as [|c x IH]; intros cur; cbn.
  - by rewrite sapp_nil_r.
  - destruct (Ascii.eqb c d); [done|]. cbn. intros H. rewrite IH by done.
    by rewrite sapp_assoc.
Qed.

Lemma getline_join d l rest :
  Forall (λ x, lacks d x = true) l →
  getline_all d EmptyString (join_term d l +:+ rest) = l ++ getline_all d EmptyString rest.
Proof.
  induction 1 as [|x l Hx Hl IH]; [done|]. cbn [join_term].
  rewrite sapp_assoc, sapp_cons, getline_item by done. cbn. by rewrite IH.
Qed.

Lemma getline_join_term d l :
  Forall (λ x, lacks d x = true) l → getline_all d EmptyString (join_term d l) = l.
Proof.
  intros H. rewrite <-(sapp_nil_r (join_term d l)), getline_join by done.
  cbn. by rewrite app_nil_r.
Qed.

Lemma getline_lacks d cur s :
  lacks d cur = true → Forall (λ x, lacks d x = true) (getline_all d cur s).
Proof.
  revert cur. induction s as [|c s IH]; intros cur Hcur; cbn.
  - destruct (is_empty cur); auto.
  - destruct (Ascii.eqb c d) eqn:E.
    + constructor; [done|by apply IH].
    + apply IH. unfold lacks in *. rewrite sforall_app, Hcur. cbn. by rewrite E.
Qed.

Lemma length_list_ascii s : length (String.list_ascii_of_string s) = String.length s.
Proof. induction s as [|c s IH]; [done|]. cbn. by rewrite IH. Qed.

(** ** Lemmas on decimals *)

(** [lia] with division and remainder. *)
Ltac dlia := Z.to_euclidean_division_equations; lia.

Lemma byte_val_digit d : 0 <= d < 10 → byte_val (digit d) = 48 + d.
Proof. intros. unfold byte_val, digit. rewrite N_ascii_embedding; lia. Qed.

Lemma is_digit_digit d : 0 <= d < 10 → is_digit (digit d) = true.
Proof. intros. unfold is_digit. rewrite byte_val_digit by done. lia. Qed.

Definition all_digits (s : string) : bool := sforall is_digit s.

Lemma digits_val_app acc s t :
  all_digits s = true → digits_val acc (s +:+ t) = digits_val (digits_val acc s) t.
Proof.
  revert acc. induction s as [|c s IH]; intros acc; [done|]. sapp_cbn.
  intros [Hc Hs]%andb_true_iff. rewrite Hc. by apply IH.
Qed.

Lemma digits_val_linear a s :
  all_digits s = true → digits_val a s = a * 10 ^ slen s + digits_val 0 s.
Proof.
  revert a. induction s as [|c s IH]; intros a; cbn [digits_val all_digits sforall].
  - intros _. change (slen EmptyString) with 0. rewrite Z.pow_0_r. lia.
  - intros [Hc Hs]%andb_true_iff. rewrite Hc, (IH (a * 10 + _)), (IH (0 * 10 + _)) by done.
    rewrite slen_cons, Z.pow_add_r by (pose proof (slen_nonneg s); lia). lia.
Qed.

Lemma dec_go_app fuel n acc : dec_go fuel n acc = dec_go fuel n EmptyString +:+ acc.
Proof.
  revert n acc. induction fuel as [|fuel IH]; intros n acc; [done|].
  cbn [dec_go]. destruct (n / 10 =? 0); [done|].
  rewrite IH, (IH (n / 10) (String _ EmptyString)), sapp_assoc. done.
Qed.

Lemma dec_go_digits fuel n : 0 <= n → all_digits (dec_go fuel n EmptyString) = true.
Proof.
  revert n. induction fuel as [|fuel IH]; intros n Hn; [done|].
  assert (is_digit (digit (n mod 10)) = true) as Hd by (apply is_digit_digit; dlia).
  cbn [dec_go]. destruct (n / 10 =? 0); [by cbn; rewrite Hd|].
  rewrite dec_go_app. unfold all_digits in *. rewrite sforall_app, IH by dlia. cbn. by rewrite Hd.
Qed.

Lemma dec_go_val fuel n :
  0 <= n < 10 ^ Z.of_nat fuel → digits_val 0 (dec_go fuel n EmptyString) = n.
Proof.
  revert n. induction fuel as [|fuel IH]; intros n Hn; [cbn in *; lia|].
  rewrite Nat2Z.inj_succ, Z.pow_succ_r in Hn by lia.
  assert (Hd : 0 <= n mod 10 < 10) by dlia.
  cbn [dec_go]. destruct (Z.eqb_spec (n / 10) 0) as [E|E].
  - cbn. rewrite is_digit_digit, byte_val_digit by done. dlia.
  - rewrite dec_go_app, digits_val_app by (apply dec_go_digits; dlia).
    rewrite IH by dlia. cbn. rewrite is_digit_digit, byte_val_digit by done. dlia.
Qed.

Lemma dec_nonneg_digits n : 0 <= n → all_digits (dec_nonneg n) = true.
Proof. apply dec_go_digits. Qed.

Lemma dec_go_nonempty fuel n : is_empty (dec_go (S fuel) n EmptyString) = false.
Proof.
  revert n. induction fuel as [|fuel IH]; intros n.
  - cbn. by destruct (n / 10 =? 0).
  - remember (S fuel) as k. cbn [dec_go]. destruct (n / 10 =? 0); [done|].
    rewrite dec_go_app. specialize (IH (n / 10)). by destruct (dec_go k (n / 10) _).
Qed.

Lemma dec_go_length fuel n : slen (dec_go fuel n EmptyString) <= Z.of_nat fuel.
Proof.
  revert n. induction fuel as [|fuel IH]; intros n; [done|]. cbn [dec_go].
  destruct (n / 10 =? 0); [change (slen (String (digit (n mod 10)) EmptyString)) with 1; lia|].
  rewrite dec_go_app, slen_app. specialize (IH (n / 10)).
  change (slen (String (digit (n mod 10)) EmptyString)) with 1. lia.
Qed.

(** A number of [k] bits has between 1 and [k] digits. *)
Lemma dec_nonneg_length n k :
  0 <= n < 2 ^ k → 0 < k → 0 < slen (dec_nonneg n) <= k.
Proof.
  intros Hn Hk. split.
  - pose proof (dec_go_nonempty (Z.to_nat (Z.log2 n)) n) as He. fold (dec_nonneg n) in He.
    destruct (dec_nonneg n); [done|]. rewrite slen_cons. pose proof (slen_nonneg s). lia.
  - etransitivity; [apply dec_go_length|]. pose proof (Z.log2_nonneg n).
    destruct (Z.eq_dec n 0) as [->|]; [cbn; lia|].
    assert (Z.log2 n < k) by (apply Z.log2_lt_pow2; lia). lia.
Qed.

Lemma dec_fuel n : 0 <= n → n < 10 ^ Z.of_nat (S (Z.to_nat (Z.log2 n))).
Proof.
  intros Hn. destruct (Z.eq_dec n 0) as [->|]; [done|].
  pose proof (Z.log2_nonneg n). pose proof (Z.log2_spec n ltac:(lia)) as [_ Hlt].
  rewrite Nat2Z.inj_succ, Z2Nat.id by done.
  eapply Z.lt_le_trans; [exact Hlt|]. apply Z.pow_le_mono_l. lia.
Qed.

Lemma dec_nonneg_val n : 0 <= n → digits_val 0 (dec_nonneg n) = n.
Proof. intros. apply dec_go_val. pose proof (dec_fuel n). lia. Qed.

(** The number of digits, from both sides. *)
Lemma dec_go_upper fuel n k :
  0 <= n < 10 ^ Z.of_nat (S k) → slen (dec_go fuel n EmptyString) <= Z.of_nat (S k).
Proof.
  revert n k. induction fuel as [|fuel IH]; intros n k Hn; [cbn [dec_go]; change (slen EmptyString) with 0; lia|]. cbn [dec_go].
  assert (slen (String (digit (n mod 10)) EmptyString) = 1) as H1 by done.
  destruct (Z.eqb_spec (n / 10) 0); [lia|]. rewrite dec_go_app, slen_app.
  rewrite Nat2Z.inj_succ, Z.pow_succ_r in Hn by lia. destruct k as [|k]; [cbn in Hn; dlia|].
  specialize (IH (n / 10) k). rewrite H1. assert (0 <= n / 10 < 10 ^ Z.of_nat (S k)) by dlia. lia.
Qed.

Lemma dec_go_lower fuel n k :
  0 <= k → 10 ^ k <= n → n < 10 ^ Z.of_nat fuel → k < slen (dec_go fuel n EmptyString).
Proof.
  revert n k. induction fuel as [|fuel IH]; intros n k Hk Hn Hf.
  { cbn in Hf. pose proof (Z.pow_pos_nonneg 10 k). lia. }
  cbn [dec_go]. assert (slen (String (digit (n mod 10)) EmptyString) = 1) as H1 by done.
  destruct (Z.eq_dec k 0) as [->|].
  { destruct (n / 10 =? 0); [lia|]. rewrite dec_go_app, slen_app, H1.
    pose proof (slen_nonneg (dec_go fuel (n / 10) EmptyString)). lia. }
  replace k with (Z.succ (k - 1)) in Hn by lia. rewrite Z.pow_succ_r in Hn by lia.
  pose proof (Z.pow_pos_nonneg 10 (k - 1)). rewrite Nat2Z.inj_succ, Z.pow_succ_r in Hf by lia.
  destruct (Z.eqb_spec (n / 10) 0); [dlia|]. rewrite dec_go_app, slen_app, H1.
  specialize (IH (n / 10) (k - 1)). assert (10 ^ (k - 1) <= n / 10 < 10 ^ Z.of_nat fuel) by dlia. lia.
Qed.

Lemma dec_digits_le n k : 0 <= n < 10 ^ k → 0 < k → slen (dec n) <= k.
Proof.
  intros Hn Hk. unfold dec. destruct (Z.ltb_spec n 0); [lia|].
  pose proof (dec_go_upper (S (Z.to_nat (Z.log2 n))) n (Z.to_nat (k - 1))) as H0.
  rewrite Nat2Z.inj_succ, Z2Nat.id in H0 by lia. replace (Z.succ (k - 1)) with k in H0 by lia.
  by apply H0.
Qed.

Lemma dec_digits_ge n k : 0 <= k → 10 ^ k <= n → k < slen (dec n).
Proof.
  intros Hk Hn. unfold dec. pose proof (Z.pow_pos_nonneg 10 k). destruct (Z.ltb_spec n 0); [lia|].
  apply dec_go_lower; [done|done|]. apply dec_fuel. lia.
Qed.

Lemma dec_nonempty n : 0 <= n → 0 < slen (dec n).
Proof.
  intros Hn. destruct (Z.eq_dec n 0) as [->|Hne]; [done|]. apply (dec_digits_ge n 0); lia.
Qed.

Lemma dec_nonneg_head n :
  0 <= n → ∃ c s, dec_nonneg n = String c s ∧ is_digit c = true.
Proof.
  intros Hn. pose proof (dec_nonneg_digits n Hn) as Hd.
  pose proof (dec_go_nonempty (Z.to_nat (Z.log2 n)) n) as He. fold (dec_nonneg n) in He.
  destruct (dec_nonneg n) as [|c s]; [done|]. exists c, s. split; [done|].
  by cbn in Hd; apply andb_true_iff in Hd as [? _].
Qed.

(** A digit is no space, no sign and no NUL. *)
Lemma digit_plain c :
  is_digit c = true →
  Ascii.is_space c = false ∧ Ascii.eqb c nul = false ∧
  Ascii.eqb c "-" = false ∧ Ascii.eqb c "+" = false.
Proof.
  intros Hc. destruct c as [[] [] [] [] [] [] [] []];
    vm_compute in Hc; first [discriminate Hc | vm_compute; auto].
Qed.

Lemma all_digits_nul_free s : all_digits s = true → nul_free s = true.
Proof. apply sforall_impl. intros c Hc. cbn. by destruct (digit_plain c Hc) as (_ & -> & _). Qed.

Lemma scan_dec_plain c s :
  is_digit c = true → scan_dec (String c s) = Some (digits_val 0 (String c s)).
Proof.
  intros Hc. unfold scan_dec. cbn [skip_space].
  destruct (digit_plain c Hc) as (-> & _ & -> & ->). cbn [starts_with_digit].
  by rewrite Hc, Z.mul_1_l.
Qed.

(** Text that does not continue a number. *)
Definition no_digit_head (s : string) : bool := negb (starts_with_digit s).

Lemma digits_val_stop acc s : no_digit_head s = true → digits_val acc s = acc.
Proof.
  destruct s as [|c s]; [done|]. unfold no_digit_head. cbn. by destruct (is_digit c).
Qed.

Lemma scan_dec_nonneg n rest :
  0 <= n → no_digit_head rest = true → scan_dec (dec_nonneg n +:+ rest) = Some n.
Proof.
  intros Hn Hr. destruct (dec_nonneg_head n Hn) as (c & s & E & Hc).
  rewrite E, sapp_cons, scan_dec_plain by done.
  rewrite <-sapp_cons, <-E, digits_val_app by (by apply dec_nonneg_digits).
  by rewrite dec_nonneg_val, digits_val_stop.
Qed.

Lemma scan_dec_dec z rest : no_digit_head rest = true → scan_dec (dec z +:+ rest) = Some z.
Proof.
  intros Hr. unfold dec. destruct (Z.ltb_spec z 0); [|by apply scan_dec_nonneg].
  pose proof (scan_dec_nonneg (- z) rest ltac:(lia) Hr) as IH.
  destruct (dec_nonneg_head (- z) ltac:(lia)) as (c & s & E & Hc).
  rewrite E in IH |- *. rewrite !sapp_cons in *. rewrite scan_dec_plain in IH by done.
  unfold scan_dec. cbn -[digits_val]. rewrite Hc.
  assert (digits_val 0 (String c (s +:+ rest)) = - z) as -> by congruence. f_equal. lia.
Qed.

Lemma dec_nul_free z : nul_free (dec z) = true.
Proof.
  unfold dec. destruct (Z.ltb_spec z 0); cbn; apply all_digits_nul_free, dec_nonneg_digits; lia.
Qed.

(** A decimal has no byte but digits and the sign. *)
Lemma dec_lacks d z : is_digit d || Ascii.eqb d "-" = false → lacks d (dec z) = true.
Proof.
  intros [Hd Hm]%orb_false_iff. unfold dec, lacks.
  assert (∀ n, 0 <= n → sforall (λ c, negb (Ascii.eqb c d)) (dec_nonneg n) = true) as Hn.
  { intros n Hn. apply (sforall_impl is_digit); [|by apply dec_nonneg_digits].
    intros c Hc. destruct (Ascii.eqb_spec c d) as [->|]; [congruence|done]. }
  destruct (Z.ltb_spec z 0); [|by apply Hn]. cbn [sforall]. rewrite Hn by lia.
  rewrite Ascii.eqb_sym, Hm. done.
Qed.

Lemma c_str_app a b : nul_free a = true → c_str (a +:+ b) = a +:+ c_str b.
Proof.
  induction a as [|c a IH]; [done|]. sapp_cbn. destruct (Ascii.eqb c nul); [done|].
  cbn. intros. by rewrite IH.
Qed.

Lemma no_digit_head_c_str s : no_digit_head s = true → no_digit_head (c_str s) = true.
Proof.
  destruct s as [|c s]; [done|]. unfold no_digit_head. cbn. by destruct (Ascii.eqb c nul).
Qed.

(** [atoi] reads back what [%d] prints, whatever text follows. *)
Lemma atoi_dec z rest :
  in_int z = true → no_digit_head rest = true → atoi (dec z +:+ rest) = Ok z.
Proof.
  intros Hz Hr. unfold atoi. rewrite c_str_app by apply dec_nul_free.
  rewrite scan_dec_dec by (by apply no_digit_head_c_str). by rewrite Hz.
Qed.

Lemma stoi_dec z rest :
  in_int z = true → no_digit_head rest = true → stoi (dec z +:+ rest) = Ok z.
Proof.
  intros Hz Hr. unfold stoi. rewrite c_str_app by apply dec_nul_free.
  rewrite scan_dec_dec by (by apply no_digit_head_c_str). by rewrite Hz.
Qed.

#[export] Instance dec_inj : Inj (=) (=) dec.
Proof.
  intros x y E. apply (f_equal scan_dec) in E.
  pose proof (scan_dec_dec x EmptyString eq_refl) as Hx.
  pose proof (scan_dec_dec y EmptyString eq_refl) as Hy.
  rewrite !sapp_nil_r in *. congruence.
Qed.

(** An [atoi] or [stoi] result is an [int]. *)
Lemma atoi_in_int s z : atoi s = Ok z → in_int z = true.
Proof.
  unfold atoi. destruct (scan_dec _) as [v|]; [|by intros [= <-]].
  destruct (in_int v) eqn:E; [|done]. by intros [= <-].
Qed.

Create HintDb strs.
Create Rewrite HintDb strs.
#[export] Hint Rewrite sapp_nil_r sapp_assoc slength_app slen_app sforall_app : strs.
#[export] Hint Resolve c_str_nul_free dec_nul_free all_digits_nul_free dec_nonneg_digits : strs.
