(* ===== verification/Memory.v ===== *)
(** * Memory from [malloc]

    Buffers whose bytes may be indeterminate, C strings in them, and the
    allocator that the worker gives to V8 (class [ArrayBufferAllocator],
    worker.h). *)

From stdpp Require Import gmap.
From S2P Require Import Prelude CStd.
#[local] Open Scope Z_scope.

(** ** Buffers *)

(** Bytes of memory; [None] is indeterminate, as [malloc] leaves them. *)
Definition buffer : Type := list (option ascii).

(** The first bytes of [buf] overwritten; it must be large enough. *)
Definition fill (bytes : string) (buf : buffer) : buffer :=
  (Some <$> String.list_ascii_of_string bytes) ++ drop (String.length bytes) buf.

(** The C string at the start of [buf], as [%s] reads it. *)
Fixpoint cstring (buf : buffer) : outcome string :=
  match buf with
  | [] => Fail (Undefined "read past the end of the buffer")
  | None :: _ => Fail (Undefined "indeterminate byte")
  | Some c :: buf => if Ascii.eqb c nul then Ok EmptyString else String c <$> cstring buf
  end.

Lemma cstring_spec bytes n :
  cstring ((Some <$> String.list_ascii_of_string bytes) ++ repeat None n)
  = if nul_free bytes
    then Fail (Undefined (match n with O => "read past the end of the buffer" | S _ => "indeterminate byte" end))
    else Ok (c_str bytes).
Proof.
  induction bytes as [|c bytes IH]; [by destruct n|]. cbn. change (Ascii.eqb c "000") with (Ascii.eqb c nul).
  destruct (Ascii.eqb c nul); [done|]. cbn in IH. rewrite IH. unfold nul_free. by destruct (sforall _ bytes).
Qed.

Lemma fill_spec bytes n :
  slen bytes <= Z.of_nat n →
  fill bytes (repeat None n)
  = (Some <$> String.list_ascii_of_string bytes) ++ repeat None (n - String.length bytes)%nat.
Proof.
  intros Hn. unfold fill. f_equal. unfold slen in Hn.
  replace n with (String.length bytes + (n - String.length bytes))%nat at 1 by lia.
  rewrite repeat_app, drop_app_length'; [done|]. by rewrite repeat_length.
Qed.

(** ** The array buffer allocator *)

(** The allocated blocks by address. *)
Notation heap := (gmap Z buffer).

(** [malloc(length)]; [answer] is the address of the new block, if there is one. *)
Definition malloc (answer : option Z) (length : nat) : prog heap (option Z) :=
  match answer with
  | Some p => _ ← modify <[p := repeat None length]>; mret (Some p)
  | None => mret None
  end.

(** [memset(data, value, length)]. *)
Definition memset (data : Z) (value : ascii) (length : nat) : prog heap unit :=
  h ← get;
  match h !! data with
  | Some block =>
      if (length <=? List.length block)%nat
      then put (<[data := repeat (Some value) length ++ drop length block]> h)
      else throw (Undefined "memset past the end of a block")
  | None => throw (Undefined "memset of no block")
  end.

Definition free (data : option Z) : prog heap unit :=
  match data with
  | None => mret tt
  | Some p =>
      h ← get;
      match h !! p with
      | Some _ => put (delete p h)
      | None => throw (Undefined "free of no block")
      end
  end.

Definition AllocateUninitialized (answer : option Z) (length : nat) : prog heap (option Z) := malloc answer length.

Definition Allocate (answer : option Z) (length : nat) : prog heap (option Z) :=
  data ← AllocateUninitialized answer length;
  match data with
  | None => mret None
  | Some p => _ ← memset p "000" length; mret (Some p)
  end.

Definition Free (data : option Z) : prog heap unit := free data.

(** An array buffer starts as zeros, and [Free] takes exactly it away. *)
Lemma Allocate_zeroed answer length h :
  (∀ p, answer = Some p → h !! p = None) →
  ∃ h', Allocate answer length h = (h', Ok answer) ∧ Free answer h' = (h, Ok tt) ∧
    ∀ p, answer = Some p → h' = <[p := repeat (Some "000"%char) length]> h.
Proof.
  intros Hfresh. destruct answer as [p|]; [|by exists h].
  exists (<[p := repeat (Some "000"%char) length]> h). split_and!.
  - unfold Allocate, AllocateUninitialized, malloc.
    erewrite bind_Ok by (by erewrite bind_Ok by reflexivity). cbv beta iota.
    assert (memset p "000" length (<[p := repeat None length]> h)
            = (<[p := repeat (Some "000"%char) length]> h, Ok tt)) as E.
    { unfold memset. erewrite bind_Ok by reflexivity. cbv beta. rewrite lookup_insert_eq, repeat_length, Nat.leb_refl.
      unfold put. by rewrite insert_insert_eq, drop_ge, app_nil_r by (by rewrite repeat_length). }
    by erewrite bind_Ok by exact E.
  - unfold Free, free. erewrite bind_Ok by reflexivity. cbv beta. rewrite lookup_insert_eq. unfold put.
    by rewrite delete_insert_id by auto.
  - by intros q [= <-].
Qed.
