(* ===== verification/Calendar.v ===== *)
(** * Timestamps: [gmtime], [strftime "%FT%T"] and [ConvertToISO8601]

    [ConvertToISO8601] (worker.cc) turns an expiry into the key of a timer
    marker.  The theorems show that the text always fits the 20-byte buffer,
    has 19 bytes, and that different seconds give different keys. *)

From S2P Require Import Prelude CStd.
#[local] Open Scope Z_scope.

(** ** [struct tm] and [gmtime] *)

(** [tm_year] counts from 1900 and [tm_mon] from 0, as in C. *)
Record tm := Tm {
  tm_year : Z; tm_mon : Z; tm_mday : Z;
  tm_hour : Z; tm_min : Z; tm_sec : Z
}.

#[export] Instance tm_eq_dec : EqDecision tm.
Proof. solve_decision. Defined.

(** Month lengths from March on; February closes the year. *)
Definition month_lengths : list Z := [31; 30; 31; 30; 31; 31; 30; 31; 30; 31; 31; 29].

(** Month (March is 0) and day (from 0) of day [r] of a year that starts in March. *)
Fixpoint find_month (lens : list Z) (m r : Z) : Z * Z :=
  match lens with
  | len :: lens => if r <? len then (m, r) else find_month lens (m + 1) (r - len)
  | [] => (m, r)
  end.

(** Year (that starts in March), month and day of a day number, counted from
    2000-03-01, by 400-, 100-, 4- and 1-year cycles. *)
Definition civil (days : Z) : Z * Z * Z :=
  let qc := days / 146097 in
  let r := days mod 146097 in
  let c := Z.min (r / 36524) 3 in
  let r := r - c * 36524 in
  let q := Z.min (r / 1461) 24 in
  let r := r - q * 1461 in
  let y := Z.min (r / 365) 3 in
  let r := r - y * 365 in
  let '(m, d) := find_month month_lengths 0 r in
  (2000 + y + 4 * q + 100 * c + 400 * qc, m, d).

(** 2000-03-01 is day 11017 of the epoch. *)
Definition gmtime (t : Z) : option tm :=
  let '(y, m, d) := civil (t / 86400 - 11017) in
  let s := t mod 86400 in
  let year := (if m <? 10 then y else y + 1) - 1900 in
  if in_int year
  then Some (Tm year (if m <? 10 then m + 2 else m - 10) (d + 1)
                (s / 3600) (s mod 3600 / 60) (s mod 60))
  else None.

(** ** [strftime(buf, size, "%FT%T", tm)] *)

Definition pad2 (n : Z) : string :=
  String (digit (n / 10)) (String (digit (n mod 10)) EmptyString).

Definition format_iso (x : tm) : string :=
  dec (tm_year x + 1900) +:+ "-" +:+ pad2 (tm_mon x + 1) +:+ "-" +:+ pad2 (tm_mday x)
  +:+ "T" +:+ pad2 (tm_hour x) +:+ ":" +:+ pad2 (tm_min x) +:+ ":" +:+ pad2 (tm_sec x).

(** The text does not fit: [strftime] returns 0, the buffer is indeterminate,
    and the callers read it all the same. *)
Definition strftime_iso (size : Z) (x : tm) : outcome string :=
  if slen (format_iso x) + 1 <=? size then Ok (format_iso x)
  else Fail (Undefined "strftime: indeterminate buffer").

(** [strftime(buf, sizeof buf, "%FT%T", gmtime(&now))], 20 bytes in [buf]. *)
Definition iso8601 (now : Z) : outcome string :=
  match gmtime now with
  | None => Fail (Undefined "gmtime: null result")
  | Some x => strftime_iso 20 x
  end.

(** ** [ConvertToISO8601] *)

(** The bound of worker.cc line 415. *)
Definition expiry_bound : Z := 25920000.

(** The second an expiry stands for, when the clock reads [now]. *)
Definition expiry_time (now timerValue : Z) : Z :=
  if expiry_bound <? timerValue then timerValue else now + timerValue.

Definition ConvertToISO8601 (now : Z) (timestamp : string) : outcome string :=
  timerValue ← atoi timestamp;
  iso8601 (expiry_time now timerValue).

(** ** The Gregorian calendar, as a specification *)

Definition leap (y : Z) : bool :=
  ((y mod 4 =? 0) && negb (y mod 100 =? 0)) || (y mod 400 =? 0).

(** Month [m] is 0 for January. *)
Definition days_in_month (y m : Z) : Z :=
  if m =? 1 then if leap y then 29 else 28
  else if (m =? 3) || (m =? 5) || (m =? 8) || (m =? 10) then 30 else 31.

(** The day after a date (year, month from 0, day from 1). *)
Definition next_day (x : Z * Z * Z) : Z * Z * Z :=
  let '(y, m, d) := x in
  if d <? days_in_month y m then (y, m, d + 1)
  else if m <? 11 then (y, m + 1, 1) else (y + 1, 0, 1).

(** Days from 2000-03-01 to March 1 of [2000 + y]. *)
Definition year_days (y : Z) : Z := 365 * y + y / 4 - y / 100 + y / 400.

Definition month_offset (m : Z) : Z :=
  nth (Z.to_nat m) [0; 31; 61; 92; 122; 153; 184; 214; 245; 275; 306; 337] 0.

(** Length of month [m] (March is 0) of the March year [y]. *)
Definition month_length (y m : Z) : Z :=
  if m =? 11 then if leap (y + 1) then 29 else 28
  else nth (Z.to_nat m) month_lengths 0.

Definition valid_civil (x : Z * Z * Z) : Prop :=
  let '(y, m, d) := x in 0 <= m <= 11 ∧ 0 <= d < month_length y m.

Definition day_number (x : Z * Z * Z) : Z :=
  let '(y, m, d) := x in year_days (y - 2000) + month_offset m + d.

(** Cases on a month number. *)
Ltac month_cases m :=
  let H := fresh in
  assert (m = 0 ∨ m = 1 ∨ m = 2 ∨ m = 3 ∨ m = 4 ∨ m = 5 ∨ m = 6 ∨ m = 7 ∨ m = 8 ∨ m = 9 ∨
          m = 10 ∨ m = 11) as H by lia;
  destruct H as [-> | [-> | [-> | [-> | [-> | [-> | [-> | [-> | [-> | [-> | [-> | ->]]]]]]]]]]].

(** Evaluates the tables at a literal month. *)
Ltac month_compute :=
  cbv beta iota zeta;
  repeat match goal with
  | |- context [month_offset ?a] =>
      let c := eval vm_compute in (month_offset a) in change (month_offset a) with c
  | |- context [nth (Z.to_nat ?a) month_lengths 0] =>
      let c := eval vm_compute in (nth (Z.to_nat a) month_lengths 0) in
      change (nth (Z.to_nat a) month_lengths 0) with c
  | |- context [?a =? 11] =>
      let c := eval vm_compute in (a =? 11) in change (a =? 11) with c
  end;
  cbv beta iota zeta.

Lemma find_month_spec r :
  0 <= r < 366 →
  let '(m, d) := find_month month_lengths 0 r in
  0 <= m <= 11 ∧ r = month_offset m + d ∧ 0 <= d ∧
  (if m =? 11 then d <= 28 else d < nth (Z.to_nat m) month_lengths 0).
Proof.
  intros Hr. unfold month_lengths at 1. cbn [find_month].
  repeat match goal with
  | |- context [?a + 1] => let c := eval vm_compute in (a + 1) in change (a + 1) with c
  end.
  repeat match goal with
  | |- context [if ?a <? ?b then _ else _] =>
      destruct (Z.ltb_spec a b); [month_compute; lia|]
  end. lia.
Qed.

Lemma leap_spec y : leap y = true ↔ (y mod 4 = 0 ∧ y mod 100 ≠ 0) ∨ y mod 400 = 0.
Proof. unfold leap. lia. Qed.

Lemma div_succ y k : 0 < k → (y + 1) / k = y / k + (if (y + 1) mod k =? 0 then 1 else 0).
Proof.
  intros Hk. pose proof (Z.div_mod y k ltac:(lia)). pose proof (Z.mod_pos_bound y k Hk).
  destruct (Z.eqb_spec ((y + 1) mod k) 0) as [E|E].
  - pose proof (Z.div_mod (y + 1) k ltac:(lia)). nia.
  - pose proof (Z.div_mod (y + 1) k ltac:(lia)). pose proof (Z.mod_pos_bound (y + 1) k Hk). nia.
Qed.

Lemma leap_shift y : leap (2000 + y) = leap y.
Proof.
  unfold leap. replace (2000 + y) with (y + 500 * 4) at 1 by lia.
  replace (2000 + y) with (y + 20 * 100) at 1 by lia.
  replace (2000 + y) with (y + 5 * 400) by lia. by rewrite !Z_mod_plus_full.
Qed.

Lemma year_days_succ y :
  year_days (y + 1) = year_days y + (if leap (2000 + y + 1) then 366 else 365).
Proof.
  replace (2000 + y + 1) with (2000 + (y + 1)) by lia. rewrite leap_shift.
  unfold year_days. rewrite !div_succ by lia. unfold leap.
  assert ((y + 1) mod 400 = 0 → (y + 1) mod 100 = 0) by dlia.
  assert ((y + 1) mod 100 = 0 → (y + 1) mod 4 = 0) by dlia.
  repeat case_match; lia.
Qed.

Lemma year_days_mono y z : y <= z → year_days y <= year_days z.
Proof. unfold year_days. intros. dlia. Qed.

Lemma month_length_offset y m :
  0 <= m <= 11 →
  month_offset m + month_length y m
  = if m =? 11 then (if leap (y + 1) then 366 else 365) else month_offset (m + 1).
Proof.
  intros Hm. unfold month_length.
  month_cases m; change (11 =? 11) with true; cbv iota; [done..|].
  change (month_offset 11) with 337. case_match; lia.
Qed.

Lemma month_offset_mono m n : 0 <= m → n <= 11 → m <= n → month_offset m <= month_offset n.
Proof.
  intros. assert (0 <= m <= 11) by lia. assert (0 <= n <= 11) by lia.
  month_cases m; month_cases n; month_compute; lia.
Qed.

Lemma civil_spec n : valid_civil (civil n) ∧ day_number (civil n) = n.
Proof.
  unfold civil, valid_civil, day_number.
  set (qc := n / 146097). set (r0 := n mod 146097).
  assert (n = 146097 * qc + r0 ∧ 0 <= r0 < 146097) as [En Hr0] by (subst qc r0; dlia).
  clearbody qc r0.
  set (c := Z.min (r0 / 36524) 3). set (r1 := r0 - c * 36524).
  assert (0 <= c <= 3 ∧ 0 <= r1 ∧ (c < 3 → r1 < 36524) ∧ r1 < 36525) as (Hc & Hr1 & Hr1a & Hr1b)
    by (subst c r1; dlia).
  assert (r0 = 36524 * c + r1) as Er0 by (subst r1; lia). clearbody c r1.
  set (q := Z.min (r1 / 1461) 24). set (r2 := r1 - q * 1461).
  assert (0 <= q <= 24 ∧ 0 <= r2 < 1461 ∧ r1 = 1461 * q + r2) as (Hq & Hr2 & Er1)
    by (subst q r2; dlia). clearbody q r2.
  set (y := Z.min (r2 / 365) 3). set (r3 := r2 - y * 365).
  assert (0 <= y <= 3 ∧ 0 <= r3 < 366 ∧ (y < 3 → r3 < 365) ∧ r2 = 365 * y + r3)
    as (Hy & Hr3 & Hr3a & Er2) by (subst y r3; dlia). clearbody y r3.
  pose proof (find_month_spec r3 Hr3) as Hm.
  destruct (find_month month_lengths 0 r3) as [m d]. destruct Hm as (Hm & Er3 & Hd & Hlen).
  split; [split; [done|]|].
  - unfold month_length. destruct (Z.eqb_spec m 11) as [->|]; [|by lia].
    change (month_offset 11) with 337 in *.
    destruct (leap _) eqn:E; [lia|].
    assert (r3 < 365); [|lia].
    destruct (decide (y < 3)); [auto|]. assert (y = 3) as -> by lia.
    destruct (decide (q = 24 ∧ c < 3)) as [[-> ?]|Hqc]; [lia|].
    exfalso. revert E. apply not_false_iff_true, leap_spec.
    destruct (decide (q = 24)) as [->|Hne]; [right|left].
    + assert (c = 3) as -> by (clear - Hc Hqc; lia). clear. dlia.
    + assert (0 <= q < 24) as Hq' by (clear - Hq Hne; lia). clear - Hq'. split; dlia.
  - unfold year_days. cut (365 * (y + 4 * q + 100 * c + 400 * qc) + (q + 25 * c + 100 * qc)
      - (c + 4 * qc) + qc + month_offset m + d = n); [|lia].
    intros <-. f_equal. f_equal.
    replace (2000 + y + 4 * q + 100 * c + 400 * qc - 2000) with (y + 4 * q + 100 * c + 400 * qc) by lia.
    f_equal; [f_equal; [f_equal|]|]; dlia.
Qed.

(** A March year holds fewer days than the distance to the next one. *)
Lemma day_in_year y m d :
  valid_civil (y, m, d) →
  year_days (y - 2000) <= day_number (y, m, d) < year_days (y - 2000 + 1).
Proof.
  intros [Hm Hd]. unfold day_number. rewrite year_days_succ.
  replace (2000 + (y - 2000) + 1) with (y + 1) by lia.
  pose proof (month_length_offset y m Hm) as Hl.
  assert (0 <= month_offset m) by (change 0 with (month_offset 0); apply month_offset_mono; lia).
  destruct (Z.eqb_spec m 11); [lia|].
  pose proof (month_offset_mono (m + 1) 11 ltac:(lia) ltac:(lia) ltac:(lia)) as Hmono.
  change (month_offset 11) with 337 in *. case_match; lia.
Qed.

Lemma day_number_inj x1 x2 :
  valid_civil x1 → valid_civil x2 → day_number x1 = day_number x2 → x1 = x2.
Proof.
  destruct x1 as [[y1 m1] d1], x2 as [[y2 m2] d2]. intros H1 H2 E.
  pose proof (day_in_year _ _ _ H1). pose proof (day_in_year _ _ _ H2).
  assert (y1 = y2) as ->.
  { destruct (Z.lt_trichotomy y1 y2) as [Hlt|[?|Hlt]]; [|done|].
    - pose proof (year_days_mono (y1 - 2000 + 1) (y2 - 2000) ltac:(lia)). lia.
    - pose proof (year_days_mono (y2 - 2000 + 1) (y1 - 2000) ltac:(lia)). lia. }
  destruct H1 as [Hm1 Hd1], H2 as [Hm2 Hd2].
  pose proof (month_length_offset y2 m1 Hm1). pose proof (month_length_offset y2 m2 Hm2).
  unfold day_number in E.
  assert (m1 = m2) as ->.
  { destruct (Z.lt_trichotomy m1 m2) as [Hlt|[?|Hlt]]; [|done|].
    - pose proof (month_offset_mono (m1 + 1) m2 ltac:(lia) ltac:(lia) ltac:(lia)).
      destruct (Z.eqb_spec m1 11); lia.
    - pose proof (month_offset_mono (m2 + 1) m1 ltac:(lia) ltac:(lia) ltac:(lia)).
      destruct (Z.eqb_spec m2 11); lia. }
  assert (d1 = d2) as -> by lia. done.
Qed.

(** [civil] is the only date with its day number. *)
Lemma civil_unique x : valid_civil x → civil (day_number x) = x.
Proof. intros H. destruct (civil_spec (day_number x)). by apply day_number_inj. Qed.

(** The date [gmtime] shows, month from 0 for January and day from 1. *)
Definition calendar_of (x : Z * Z * Z) : Z * Z * Z :=
  let '(y, m, d) := x in
  (if m <? 10 then y else y + 1, if m <? 10 then m + 2 else m - 10, d + 1).

(** The day after, on March years. *)
Definition next_civil (x : Z * Z * Z) : Z * Z * Z :=
  let '(y, m, d) := x in
  if d + 1 <? month_length y m then (y, m, d + 1)
  else if m <? 11 then (y, m + 1, 0) else (y + 1, 0, 0).

Lemma next_civil_spec x :
  valid_civil x → valid_civil (next_civil x) ∧ day_number (next_civil x) = day_number x + 1.
Proof.
  destruct x as [[y m] d]. intros [Hm Hd]. unfold next_civil.
  pose proof (month_length_offset y m Hm) as Hl.
  destruct (Z.ltb_spec (d + 1) (month_length y m)); [|destruct (Z.ltb_spec m 11)].
  - unfold valid_civil, day_number. lia.
  - destruct (Z.eqb_spec m 11); [lia|]. unfold valid_civil, day_number.
    split; [split; [lia|split; [lia|]]|lia].
    unfold month_length. assert (0 <= m + 1 <= 11) by lia.
    generalize dependent (m + 1). intros k **. month_cases k; month_compute; try lia.
    case_match; lia.
  - assert (m = 11) as -> by lia. change (11 =? 11) with true in Hl. cbv iota in Hl.
    unfold valid_civil, day_number. change (month_length (y + 1) 0) with 31.
    change (month_offset 0) with 0. change (month_offset 11) with 337 in *.
    replace (y + 1 - 2000) with (y - 2000 + 1) by lia. rewrite year_days_succ.
    replace (2000 + (y - 2000) + 1) with (y + 1) by lia. case_match; lia.
Qed.

Lemma days_in_month_calendar y m :
  0 <= m <= 11 →
  days_in_month (if m <? 10 then y else y + 1) (if m <? 10 then m + 2 else m - 10)
  = month_length y m.
Proof. intros Hm. unfold days_in_month, month_length. month_cases m; reflexivity. Qed.

Lemma calendar_next x : valid_civil x → calendar_of (next_civil x) = next_day (calendar_of x).
Proof.
  destruct x as [[y m] d]. intros [Hm Hd]. unfold next_civil, calendar_of, next_day.
  rewrite days_in_month_calendar by done.
  destruct (d + 1 <? month_length y m); [done|]. clear Hd.
  month_cases m; reflexivity.
Qed.

Lemma civil_next n : calendar_of (civil (n + 1)) = next_day (calendar_of (civil n)).
Proof.
  destruct (civil_spec n) as [Hv Hn]. destruct (next_civil_spec _ Hv) as [Hv' Hn'].
  rewrite <-calendar_next by done. f_equal.
  rewrite Hn in Hn'. rewrite <-Hn'. by apply civil_unique.
Qed.

(** ** [gmtime] *)

Definition date_of (x : tm) : Z * Z * Z := (tm_year x + 1900, tm_mon x, tm_mday x).
Definition second_of_day (x : tm) : Z := 3600 * tm_hour x + 60 * tm_min x + tm_sec x.

(** The fields in the ranges the C standard gives. *)
Definition valid_tm (x : tm) : Prop :=
  0 <= tm_mon x <= 11 ∧ 1 <= tm_mday x <= 31 ∧
  0 <= tm_hour x <= 23 ∧ 0 <= tm_min x <= 59 ∧ 0 <= tm_sec x <= 59.

Lemma month_length_bound y m : 0 <= m <= 11 → 0 <= month_length y m <= 31.
Proof. intros Hm. unfold month_length. month_cases m; month_compute; try lia. case_match; lia. Qed.

Lemma gmtime_spec t x :
  gmtime t = Some x →
  date_of x = calendar_of (civil (t / 86400 - 11017)) ∧
  second_of_day x = t mod 86400 ∧ valid_tm x.
Proof.
  unfold gmtime. destruct (civil_spec (t / 86400 - 11017)) as [Hv _].
  destruct (civil _) as [[y m] d]. case_match; [|done]. intros [= <-].
  destruct Hv as [Hm Hd]. pose proof (month_length_bound y m Hm).
  unfold date_of, second_of_day, valid_tm, calendar_of. cbn [tm_year tm_mon tm_mday tm_hour tm_min tm_sec].
  split; [|split].
  - f_equal. f_equal. lia.
  - clear. dlia.
  - destruct (Z.ltb_spec m 10); repeat split; try lia; clear; dlia.
Qed.

Lemma calendar_of_inj x1 x2 :
  valid_civil x1 → valid_civil x2 → calendar_of x1 = calendar_of x2 → x1 = x2.
Proof.
  destruct x1 as [[y1 m1] d1], x2 as [[y2 m2] d2]. intros [Hm1 _] [Hm2 _]. cbn.
  intros [= Hy Hm Hd]. destruct (Z.ltb_spec m1 10), (Z.ltb_spec m2 10); repeat f_equal; lia.
Qed.

Lemma gmtime_inj t1 t2 x : gmtime t1 = Some x → gmtime t2 = Some x → t1 = t2.
Proof.
  intros (D1 & S1 & _)%gmtime_spec (D2 & S2 & _)%gmtime_spec.
  destruct (civil_spec (t1 / 86400 - 11017)) as [V1 N1].
  destruct (civil_spec (t2 / 86400 - 11017)) as [V2 N2].
  rewrite D1 in D2. apply calendar_of_inj in D2; [|done..].
  rewrite D2, N2 in N1. rewrite S1 in S2. clear - N1 S2. dlia.
Qed.

(** The year of a time between the given bounds. *)
Lemma civil_year_bounds n a b :
  year_days (a - 2000) <= n < year_days (b - 2000 + 1) →
  let '(y, _, _) := civil n in a <= y <= b.
Proof.
  intros Hn. destruct (civil_spec n) as [Hv Hd]. destruct (civil n) as [[y m] d].
  pose proof (day_in_year y m d Hv) as Hy. rewrite Hd in Hy. split.
  - destruct (Z.le_gt_cases a y); [done|].
    pose proof (year_days_mono (y - 2000 + 1) (a - 2000) ltac:(lia)). lia.
  - destruct (Z.le_gt_cases y b); [done|].
    pose proof (year_days_mono (b - 2000 + 1) (y - 2000) ltac:(lia)). lia.
Qed.

(** From 1900-03-01 to the end of 9999. *)
Lemma gmtime_four_digit_year t :
  -2203891200 <= t < 253402300800 →
  ∃ x, gmtime t = Some x ∧ 1900 <= tm_year x + 1900 <= 9999.
Proof.
  intros Ht. unfold gmtime.
  pose proof (civil_year_bounds (t / 86400 - 11017) 1900 9999) as Hy.
  change (year_days (1900 - 2000)) with (-36525) in Hy.
  change (year_days (9999 - 2000 + 1)) with 2921940 in Hy.
  specialize (Hy ltac:(dlia)).
  destruct (civil_spec (t / 86400 - 11017)) as [Hv Hn]. destruct (civil _) as [[y m] d].
  set (year := (if m <? 10 then y else y + 1) - 1900).
  assert (0 <= year <= 8099) as Hb.
  { subst year. destruct (Z.ltb_spec m 10); [lia|].
    destruct (decide (y = 9999)) as [->|]; [exfalso|lia].
    destruct Hv as [Hm Hd]. unfold day_number in Hn. change (year_days (9999 - 2000)) with 2921574 in Hn.
    pose proof (month_offset_mono 10 m ltac:(lia) ltac:(lia) ltac:(lia)) as Ho.
    change (month_offset 10) with 306 in Ho. dlia. }
  assert (in_int year = true) as -> by (unfold in_int, int_min, int_max; lia).
  eexists; split; [done|]. cbn. lia.
Qed.

(** ** The timestamp text *)

Lemma pad2_length n : slen (pad2 n) = 2.
Proof. done. Qed.

Lemma digit_inj a b : 0 <= a < 10 → 0 <= b < 10 → digit a = digit b → a = b.
Proof. intros Ha Hb E%(f_equal byte_val). rewrite !byte_val_digit in E by done. lia. Qed.

Lemma pad2_inj a b : 0 <= a < 100 → 0 <= b < 100 → pad2 a = pad2 b → a = b.
Proof.
  intros Ha Hb. unfold pad2. intros [= E1 E2].
  apply digit_inj in E1; [|clear - Ha Hb; dlia..]. apply digit_inj in E2; [|clear; dlia..]. dlia.
Qed.

Lemma format_iso_length x : slen (format_iso x) = slen (dec (tm_year x + 1900)) + 15.
Proof.
  unfold format_iso. rewrite !slen_app, !pad2_length.
  change (slen "-") with 1. change (slen "T") with 1. change (slen ":") with 1. lia.
Qed.

Lemma format_iso_inj x1 x2 :
  valid_tm x1 → valid_tm x2 → format_iso x1 = format_iso x2 → x1 = x2.
Proof.
  intros V1 V2 E.
  assert (String.length (dec (tm_year x1 + 1900)) = String.length (dec (tm_year x2 + 1900))) as Hl.
  { pose proof (f_equal slen E) as L. rewrite !format_iso_length in L. unfold slen in L. lia. }
  unfold format_iso in E. unfold valid_tm in *.
  apply sapp_eq_len in E as [Ey%(inj dec) E]; [|done].
  repeat (apply sapp_inj_r, sapp_eq_len in E as [?%pad2_inj E]; [|lia|lia|done]).
  apply sapp_inj_r, pad2_inj in E; [|lia..].
  destruct x1, x2; cbn in *. f_equal; lia.
Qed.

Lemma iso8601_ok t s :
  iso8601 t = Ok s → ∃ x, gmtime t = Some x ∧ s = format_iso x.
Proof.
  unfold iso8601, strftime_iso. destruct (gmtime t) as [x|]; [|done].
  case_match; [|done]. intros [= <-]. eauto.
Qed.

(** Different seconds have different texts. *)
Lemma iso8601_inj t1 t2 s1 s2 : iso8601 t1 = Ok s1 → iso8601 t2 = Ok s2 → s1 = s2 ↔ t1 = t2.
Proof.
  intros E1 E2. split; [|congruence]. intros ->.
  apply iso8601_ok in E1 as (x1 & G1 & ->), E2 as (x2 & G2 & F).
  apply gmtime_spec in G1 as V1. apply gmtime_spec in G2 as V2.
  apply format_iso_inj in F as ->; [by eapply gmtime_inj|apply V1|apply V2].
Qed.

Lemma dec_four_digits y : 1000 <= y <= 9999 → slen (dec y) = 4.
Proof.
  intros Hy. unfold dec, dec_nonneg. destruct (Z.ltb_spec y 0); [lia|].
  assert (9 <= Z.log2 y) as Hl by (change 9 with (Z.log2 1000); apply Z.log2_le_mono; lia).
  replace (S (Z.to_nat (Z.log2 y))) with (4 + (Z.to_nat (Z.log2 y) - 3))%nat by lia.
  cbn [dec_go Nat.add].
  destruct (Z.eqb_spec (y / 10) 0); [dlia|].
  destruct (Z.eqb_spec (y / 10 / 10) 0); [dlia|].
  destruct (Z.eqb_spec (y / 10 / 10 / 10) 0); [dlia|].
  destruct (Z.eqb_spec (y / 10 / 10 / 10 / 10) 0); [done|dlia].
Qed.

(** Every second up to the year 9999 has a text of 19 bytes. *)
Lemma iso8601_total t :
  -2203891200 <= t < 253402300800 → ∃ s, iso8601 t = Ok s ∧ slen s = 19.
Proof.
  intros Ht. destruct (gmtime_four_digit_year t Ht) as (x & Hx & Hy).
  unfold iso8601. rewrite Hx. unfold strftime_iso.
  rewrite format_iso_length, dec_four_digits by lia. cbn.
  eexists; split; [done|]. by rewrite format_iso_length, dec_four_digits by lia.
Qed.

(** The seconds that an expiry can stand for. *)
Lemma expiry_time_range now v :
  0 <= now < 253402300800 - expiry_bound → in_int v = true → -2203891200 <= expiry_time now v < 253402300800.
Proof. unfold in_int, int_min, int_max, expiry_time, expiry_bound. intros Hn Hv. case_match; lia. Qed.

(** ** Properties *)

(** The date [gmtime] gives for a second [t] of the epoch is the one
    reached from January 1, 1970 by counting [t / 86400] days one by one with
    the Gregorian rules, and the time of day is the remainder. *)
Theorem gmtime_counts_days t x :
  0 <= t → gmtime t = Some x →
  date_of x = Nat.iter (Z.to_nat (t / 86400)) next_day (1970, 0, 1) ∧
  second_of_day x = t mod 86400 ∧ valid_tm x.
Proof.
  intros Ht (Hd & Hs & Hv)%gmtime_spec. split; [|done]. rewrite Hd.
  assert (0 <= t / 86400) as Hn by dlia. revert Hn. generalize (t / 86400). clear. intros n Hn.
  pattern n. apply natlike_ind; [reflexivity| |done]. clear n Hn. intros n Hn IH.
  rewrite Z2Nat.inj_succ, Nat.iter_succ by done.
  rewrite <-IH, <-civil_next. do 2 f_equal. lia.
Qed.

Lemma gmtime_counts_days_witness :
  ∃ x, 0 <= 1470737472 ∧ gmtime 1470737472 = Some x ∧
  date_of x = Nat.iter (Z.to_nat (1470737472 / 86400)) next_day (1970, 0, 1).
Proof.
  eexists. split; [lia|]. split; [vm_compute; reflexivity|].
  apply (gmtime_counts_days 1470737472); [lia|vm_compute; reflexivity].
Defined.

(** C35: for every clock reading up to the year 9999 (less the largest
    relative expiry), [ConvertToISO8601] fits its 20-byte buffer on every
    expiry that [atoi] can read, negative ones included: it returns a text of
    exactly 19 bytes and never reads an indeterminate buffer. *)
Theorem ConvertToISO8601_fits now timestamp v :
  0 <= now < 253402300800 - expiry_bound → atoi timestamp = Ok v →
  ∃ s, ConvertToISO8601 now timestamp = Ok s ∧ slen s = 19 ∧
       iso8601 (expiry_time now v) = Ok s.
Proof.
  intros Hn Hv. unfold ConvertToISO8601. rewrite Hv. cbn.
  apply atoi_in_int in Hv. destruct (iso8601_total _ (expiry_time_range now v Hn Hv)) as (s & Hs & Hl).
  by exists s.
Qed.

Lemma ConvertToISO8601_fits_witness :
  0 <= 1470737472 < 253402300800 - expiry_bound ∧ atoi "86400" = Ok 86400 ∧
  ∃ s, ConvertToISO8601 1470737472 "86400" = Ok s ∧ slen s = 19 ∧
       iso8601 (expiry_time 1470737472 86400) = Ok s.
Proof.
  split; [vm_compute; split; congruence|]. split; [reflexivity|].
  apply (ConvertToISO8601_fits 1470737472 "86400" 86400);
    [vm_compute; split; congruence|reflexivity].
Defined.

(** Two timers share a marker key exactly when they are due in the
    same second, whatever the clock readings when they were registered. *)
Theorem ConvertToISO8601_key_inj now1 now2 ts1 ts2 v1 v2 s1 s2 :
  atoi ts1 = Ok v1 → atoi ts2 = Ok v2 →
  ConvertToISO8601 now1 ts1 = Ok s1 → ConvertToISO8601 now2 ts2 = Ok s2 →
  s1 = s2 ↔ expiry_time now1 v1 = expiry_time now2 v2.
Proof.
  unfold ConvertToISO8601. intros -> ->. cbn. apply iso8601_inj.
Qed.

Lemma ConvertToISO8601_key_inj_witness :
  "1970-12-01T00:00:00"%string = "1970-12-01T00:00:00" ↔
  expiry_time 0 28857600 = expiry_time 28857590 10.
Proof.
  apply (ConvertToISO8601_key_inj 0 28857590 "28857600" "10" 28857600 10);
    vm_compute; reflexivity.
Defined.

(** The comment above [ConvertToISO8601] says that an expiry of more
    than 30 days (2592000 seconds) is an absolute epoch time.  The code
    compares with 25920000, so every expiry from 2592001 to 25920000 is taken
    as an offset from the clock. *)
Theorem thirty_day_rule_is_three_hundred now v :
  30 * 86400 < v <= 300 * 86400 →
  expiry_time now v = now + v ∧ expiry_time now (300 * 86400 + 1) = 300 * 86400 + 1.
Proof. intros Hv. unfold expiry_time, expiry_bound. repeat case_match; lia. Qed.

Lemma thirty_day_rule_is_three_hundred_witness :
  30 * 86400 < 2592001 <= 300 * 86400 ∧
  (expiry_time 1470737472 2592001 = 1470737472 + 2592001 ∧
   expiry_time 1470737472 (300 * 86400 + 1) = 300 * 86400 + 1).
Proof. split; [lia|]. apply (thirty_day_rule_is_three_hundred 1470737472 2592001). lia. Defined.

(** The handler example in go_eventing/handle_event.js registers its
    callback with an ISO 8601 text.  [atoi] stops at the first dash, so the
    callback is due as many seconds from now as the text's year. *)
Theorem ConvertToISO8601_of_iso_text now t s x :
  gmtime t = Some x → 1 <= tm_year x + 1900 <= 9999 → iso8601 t = Ok s →
  ConvertToISO8601 now s = iso8601 (now + (tm_year x + 1900)).
Proof.
  intros Hx Hy (x' & Hx' & ->)%iso8601_ok. assert (x' = x) as -> by congruence.
  unfold ConvertToISO8601, format_iso. rewrite atoi_dec; [|unfold in_int, int_min, int_max; lia|done].
  cbn. unfold expiry_time, expiry_bound. by case_match; [lia|].
Qed.

Lemma ConvertToISO8601_of_iso_text_witness :
  ConvertToISO8601 1470737472 "2016-08-09T10:11:12" = iso8601 (1470737472 + 2016).
Proof.
  apply (ConvertToISO8601_of_iso_text 1470737472 1470737472 _ (Tm 116 7 9 10 11 12));
    vm_compute; [reflexivity|split; congruence|reflexivity].
Defined.
