(* ===== verification/Endian.v ===== *)
(** * Byte order: [htonll_64] of bucket.cc

    [BucketSet] turns the CAS value of a store into the decimal key of a
    marker; [htonll_64] reverses the bytes of the CAS first.  The host's byte
    order is the argument [little]. *)

From S2P Require Import Prelude CStd.
#[local] Open Scope Z_scope.

(** ** Bytes of an unsigned integer, least significant first *)

Fixpoint le_split (n : nat) (v : Z) : list Z :=
  match n with
  | O => []
  | S n => v mod 256 :: le_split n (v / 256)
  end.

Fixpoint le_combine (l : list Z) : Z :=
  match l with
  | [] => 0
  | b :: l => b + 256 * le_combine l
  end.

(** The bytes of an [n]-byte integer in memory, at increasing addresses. *)
Definition memory (little : bool) (n : nat) (v : Z) : list Z :=
  if little then le_split n v else rev (le_split n v).

(** ** [htonl] and [htonll_64] *)

(** [htonl] of the C library: the value whose memory is big-endian. *)
Definition htonl (little : bool) (v : Z) : Z :=
  if little then le_combine (rev (le_split 4 v)) else v.

(** [*reinterpret_cast<const char*>(&num)] for an [int] [num]. *)
Definition first_byte (little : bool) (num : Z) : Z := nth 0 (memory little 4 num) 0.

Definition htonll_64 (little : bool) (value : Z) : Z :=
  let num := 42 in
  if first_byte little num =? num then
    let high_part := htonl little (u32 (Z.shiftr value 32)) in
    let low_part := htonl little (u32 (Z.land value 0xFFFFFFFF)) in
    Z.lor (u64 (Z.shiftl low_part 32)) high_part
  else value.

(** The key of a marker: [out << htonll_64(result.cas)]. *)
Definition cas_key (little : bool) (cas : Z) : string := dec (htonll_64 little cas).

(** ** Lemmas *)

Lemma length_le_split n v : length (le_split n v) = n.
Proof. revert v. induction n; intros v; [done|]. cbn. by f_equal. Qed.

Lemma le_split_bytes n v : Forall (λ b, 0 <= b < 256) (le_split n v).
Proof. revert v. induction n; intros v; constructor; [dlia|done]. Qed.

Lemma le_combine_split n v : le_combine (le_split n v) = v mod 256 ^ Z.of_nat n.
Proof.
  revert v. induction n as [|n IH]; intros v; [by rewrite Z.mod_1_r|].
  cbn [le_split le_combine]. rewrite IH, Nat2Z.inj_succ, Z.pow_succ_r by lia.
  rewrite Z.rem_mul_r by lia. lia.
Qed.

Lemma le_split_combine l : Forall (λ b, 0 <= b < 256) l → le_split (length l) (le_combine l) = l.
Proof.
  induction 1 as [|b l Hb Hl IH]; [done|]. cbn [length le_split le_combine].
  replace ((b + 256 * le_combine l) mod 256) with b by dlia.
  replace ((b + 256 * le_combine l) / 256) with (le_combine l) by dlia. by rewrite IH.
Qed.

Lemma le_combine_bound l :
  Forall (λ b, 0 <= b < 256) l → 0 <= le_combine l < 256 ^ Z.of_nat (length l).
Proof.
  induction 1 as [|b l Hb Hl IH]; [done|].
  cbn [length le_combine]. rewrite Nat2Z.inj_succ, Z.pow_succ_r by lia. lia.
Qed.

Lemma le_split_app n m v :
  le_split (n + m) v = le_split n (v mod 256 ^ Z.of_nat n) ++ le_split m (v / 256 ^ Z.of_nat n).
Proof.
  revert v. induction n as [|n IH]; intros v; [by rewrite Z.div_1_r|].
  cbn [Nat.add le_split app]. rewrite Nat2Z.inj_succ, Z.pow_succ_r by lia.
  assert (0 < 256 ^ Z.of_nat n) by (apply Z.pow_pos_nonneg; lia).
  f_equal.
  - rewrite Z.rem_mul_r by lia. replace (v mod 256 + 256 * _) with
      (v mod 256 + (v / 256) mod 256 ^ Z.of_nat n * 256) by lia.
    rewrite Z_mod_plus_full. by rewrite Z.mod_mod by lia.
  - rewrite IH. f_equal.
    + f_equal. rewrite Z.rem_mul_r by lia.
      rewrite (Z.mul_comm 256 (_ mod _)), Z.div_add by lia.
      rewrite (Z.div_small (v mod 256)) by dlia. lia.
    + by rewrite Z.div_div by lia.
Qed.

Lemma htonl_bytes v : le_split 4 (htonl true v) = rev (le_split 4 v).
Proof.
  unfold htonl. pose proof (le_split_combine (rev (le_split 4 v))) as H.
  rewrite length_rev, length_le_split in H. apply H, Forall_rev, le_split_bytes.
Qed.

Lemma htonl_bound v : 0 <= htonl true v < 2 ^ 32.
Proof.
  unfold htonl. pose proof (le_combine_bound (rev (le_split 4 v))) as H.
  rewrite length_rev, length_le_split in H. apply H, Forall_rev, le_split_bytes.
Qed.

(** Joining two halves with [<<] and [|] is addition. *)
Lemma lor_halves low high :
  0 <= low < 2 ^ 32 → 0 <= high < 2 ^ 32 →
  Z.lor (u64 (Z.shiftl low 32)) high = low * 2 ^ 32 + high.
Proof.
  intros Hl Hh. unfold u64. rewrite Z.shiftl_mul_pow2 by lia.
  rewrite Z.mod_small by lia. rewrite <-Z.shiftl_mul_pow2 by lia.
  rewrite Z.add_comm. rewrite <-Z.lxor_lor, Z.add_nocarry_lxor; [by rewrite Z.lxor_comm| |].
  all: apply Z.bits_inj'; intros n Hn; rewrite Z.land_spec, Z.bits_0;
    destruct (Z.lt_ge_cases n 32);
    [rewrite Z.shiftl_spec_low by done; by rewrite ?andb_false_r|].
  all: assert (Z.testbit high n = false) as ->
    by (rewrite <-(Z.mod_small high (2 ^ 32)) by done; apply Z.mod_pow2_bits_high; lia).
  all: by rewrite ?andb_false_r.
Qed.

Lemma htonll_64_little v :
  0 <= v < 2 ^ 64 →
  htonll_64 true v = htonl true (v mod 2 ^ 32) * 2 ^ 32 + htonl true (v / 2 ^ 32).
Proof.
  intros Hv. unfold htonll_64. change (first_byte true 42 =? 42) with true. cbv iota zeta.
  rewrite lor_halves by apply htonl_bound. unfold u32.
  change 0xFFFFFFFF with (Z.ones 32). rewrite Z.land_ones, Z.mod_mod by lia.
  rewrite Z.shiftr_div_pow2 by lia. rewrite (Z.mod_small (v / 2 ^ 32)) by dlia. done.
Qed.

Lemma htonll_64_le_split v :
  0 <= v < 2 ^ 64 →
  le_split 8 (htonll_64 true v) = rev (le_split 8 v) ∧ 0 <= htonll_64 true v < 2 ^ 64.
Proof.
  intros Hv. rewrite htonll_64_little by done.
  pose proof (htonl_bound (v mod 2 ^ 32)) as Hl.
  pose proof (htonl_bound (v / 2 ^ 32)) as Hh. split; [|lia].
  change 8%nat with (4 + 4)%nat. rewrite !(le_split_app 4 4).
  change (256 ^ Z.of_nat 4) with (2 ^ 32).
  rewrite rev_app_distr, <-!htonl_bytes. f_equal; f_equal; [|dlia].
  rewrite Z.add_comm, Z_mod_plus_full. by apply Z.mod_small.
Qed.

Lemma le_split_inj v w :
  0 <= v < 2 ^ 64 → 0 <= w < 2 ^ 64 → le_split 8 v = le_split 8 w → v = w.
Proof.
  intros Hv Hw E. apply (f_equal le_combine) in E. rewrite !le_combine_split in E.
  change (256 ^ Z.of_nat 8) with (2 ^ 64) in E. by rewrite !Z.mod_small in E.
Qed.

Lemma htonll_64_twice little v :
  0 <= v < 2 ^ 64 → htonll_64 little (htonll_64 little v) = v.
Proof.
  intros Hv. destruct little; [|done].
  destruct (htonll_64_le_split v Hv) as [Hm Hb].
  destruct (htonll_64_le_split _ Hb) as [Hm' Hb'].
  apply le_split_inj; [done..|]. by rewrite Hm', Hm, rev_involutive.
Qed.

Lemma htonll_64_range little v : 0 <= v < 2 ^ 64 → 0 <= htonll_64 little v < 2 ^ 64.
Proof. intros Hv. destruct little; [by apply htonll_64_le_split|done]. Qed.

Lemma cas_key_length little c : 0 <= c < 2 ^ 64 → 0 < slen (cas_key little c) <= 64.
Proof.
  intros Hc. pose proof (htonll_64_range little c Hc) as Hr. unfold cas_key, dec.
  destruct (Z.ltb_spec (htonll_64 little c) 0); [lia|]. by apply dec_nonneg_length.
Qed.

Lemma cas_key_inj little c1 c2 :
  0 <= c1 < 2 ^ 64 → 0 <= c2 < 2 ^ 64 → cas_key little c1 = cas_key little c2 → c1 = c2.
Proof.
  intros H1 H2 E%(inj dec). by rewrite <-(htonll_64_twice little c1), <-(htonll_64_twice little c2), E.
Qed.

Lemma cas_key_digits little c : 0 <= c < 2 ^ 64 → all_digits (cas_key little c) = true.
Proof.
  intros Hc. pose proof (htonll_64_range little c Hc) as Hr. unfold cas_key, dec.
  destruct (Z.ltb_spec (htonll_64 little c) 0); [lia|]. by apply dec_nonneg_digits.
Qed.

(** ** Properties *)

(** On either kind of host, the 8 bytes of [htonll_64 value] in
    memory are the bytes of [value] with the most significant first, as the
    comment above the function says; the result is again a [uint64_t]. *)
Theorem htonll_64_big_endian little value :
  0 <= value < 2 ^ 64 →
  memory little 8 (htonll_64 little value) = rev (le_split 8 value) ∧
  0 <= htonll_64 little value < 2 ^ 64.
Proof. intros Hv. destruct little; [by apply htonll_64_le_split|done]. Qed.

Lemma htonll_64_big_endian_witness :
  0 <= 0x0102030405060708 < 2 ^ 64 ∧
  memory true 8 (htonll_64 true 0x0102030405060708) = [1; 2; 3; 4; 5; 6; 7; 8] ∧
  0 <= htonll_64 true 0x0102030405060708 < 2 ^ 64.
Proof.
  split; [lia|]. change [1; 2; 3; 4; 5; 6; 7; 8] with (rev (le_split 8 0x0102030405060708)).
  apply (htonll_64_big_endian true 0x0102030405060708). lia.
Defined.

(** The decimal marker keys of two stores are equal exactly when
    their CAS values are, and the key of a byte-reversed CAS is the plain
    decimal of the CAS, which is how the event feed looks the marker up. *)
Theorem cas_key_faithful little c1 c2 :
  0 <= c1 < 2 ^ 64 → 0 <= c2 < 2 ^ 64 →
  (cas_key little c1 = cas_key little c2 ↔ c1 = c2) ∧
  cas_key little (htonll_64 little c1) = dec c1.
Proof.
  intros H1 H2. unfold cas_key. rewrite htonll_64_twice by done. split; [|done].
  split; [|congruence]. intros E%(inj dec)%(f_equal (htonll_64 little)).
  by rewrite !htonll_64_twice in E.
Qed.

Lemma cas_key_faithful_witness :
  (cas_key true 7 = cas_key true 42949672960 ↔ 7 = 42949672960) ∧
  cas_key true (htonll_64 true 7) = dec 7.
Proof. apply (cas_key_faithful true 7 42949672960); lia. Defined.
