(* ===== verification/StdMap.v ===== *)
(** * [std::map] with string keys

    The contents are a finite map; what [std::map] adds is that iteration
    follows the order of the keys, compared byte by byte as unsigned values. *)

From stdpp Require Import sorting.
From stdpp Require Export base list gmap.
From S2P Require Import Prelude CStd.
#[local] Open Scope Z_scope.

Abbreviation string_map := (gmap string string).

(** ** Key order *)

Definition key_le {A} (p q : string * A) : Prop := String.leb p.1 q.1 = true.
Definition key_lt {A} (p q : string * A) : Prop := String.ltb p.1 q.1 = true.

#[export] Instance key_le_dec {A} : RelDecision (@key_le A).
Proof. intros p q. unfold key_le. apply _. Defined.

(** Strictly increasing keys. *)
Definition key_sorted {A} : list (string * A) → Prop := StronglySorted key_lt.

(** The elements as [begin()..end()] visits them. *)
Definition in_order {A} (m : gmap string A) : list (string * A) :=
  merge_sort key_le (map_to_list m).

(** ** Lemmas *)

Lemma ascii_compare_lt_trans a b c :
  Ascii.compare a b = Lt → Ascii.compare b c = Lt → Ascii.compare a c = Lt.
Proof. unfold Ascii.compare. rewrite !N.compare_lt_iff. lia. Qed.

Lemma ascii_compare_eq a b : Ascii.compare a b = Eq → a = b.
Proof. apply Ascii.compare_eq_iff. Qed.

Lemma ascii_compare_refl a : Ascii.compare a a = Eq.
Proof. unfold Ascii.compare. apply N.compare_refl. Qed.

Lemma string_compare_refl s : String.compare s s = Eq.
Proof. induction s as [|c s IH]; [done|]. cbn. by rewrite ascii_compare_refl. Qed.

Lemma string_compare_trans a b c :
  String.compare a b = Lt → String.compare b c = Lt → String.compare a c = Lt.
Proof.
  revert b c. induction a as [|x a IH]; intros [|y b] [|z c]; try done. cbn.
  destruct (Ascii.compare x y) eqn:Exy; [|intros _|done];
    (destruct (Ascii.compare y z) eqn:Eyz; [| |done]).
  - apply ascii_compare_eq in Exy as ->, Eyz as ->. rewrite ascii_compare_refl. eauto.
  - apply ascii_compare_eq in Exy as ->. by rewrite Eyz.
  - apply ascii_compare_eq in Eyz as ->. by rewrite Exy.
  - by rewrite (ascii_compare_lt_trans _ _ _ Exy Eyz).
Qed.

Lemma string_ltb_trans a b c : String.ltb a b = true → String.ltb b c = true → String.ltb a c = true.
Proof.
  unfold String.ltb. destruct (String.compare a b) eqn:E1, (String.compare b c) eqn:E2; try done.
  by rewrite (string_compare_trans _ _ _ E1 E2).
Qed.

Lemma string_leb_cases a b : String.leb a b = true ↔ String.ltb a b = true ∨ a = b.
Proof.
  unfold String.leb, String.ltb. destruct (String.compare a b) eqn:E.
  - apply String.compare_eq_iff in E. naive_solver.
  - naive_solver.
  - split; [done|]. intros [| ->]; [done|]. by rewrite string_compare_refl in E.
Qed.

Lemma string_ltb_irrefl a : String.ltb a a = false.
Proof. unfold String.ltb. by rewrite string_compare_refl. Qed.

Lemma string_ltb_asym a b : String.ltb a b = true → String.ltb b a = false.
Proof.
  intros Hab. destruct (String.ltb b a) eqn:Hba; [|done].
  pose proof (string_ltb_trans _ _ _ Hab Hba) as H. by rewrite string_ltb_irrefl in H.
Qed.

Lemma string_leb_total a b : String.leb a b = true ∨ String.leb b a = true.
Proof.
  destruct (String.leb a b) eqn:E; [by left|right].
  destruct (String.leb_total a b) as [H|H]; congruence.
Qed.

#[export] Instance key_le_trans {A} : Transitive (@key_le A).
Proof.
  intros p q r. unfold key_le. rewrite !string_leb_cases.
  intros [H1| ->] [H2|E2]; [|rewrite <-E2| |]; eauto using string_ltb_trans.
Qed.

#[export] Instance key_le_total {A} : Total (@key_le A).
Proof. intros p q. apply string_leb_total. Qed.

Section in_order.
Context {A : Type}.
Implicit Types m : gmap string A.

Lemma in_order_perm m : in_order m ≡ₚ map_to_list m.
Proof. apply merge_sort_Permutation. Qed.

Lemma elem_of_in_order m k v : (k, v) ∈ in_order m ↔ m !! k = Some v.
Proof. by rewrite in_order_perm, elem_of_map_to_list. Qed.

Lemma NoDup_in_order m : NoDup (in_order m).*1.
Proof. rewrite in_order_perm. apply NoDup_fst_map_to_list. Qed.

(** Every element comes before all those of larger keys. *)
Lemma in_order_sorted m : key_sorted (in_order m).
Proof.
  assert (StronglySorted key_le (in_order m)) as Hs by apply (StronglySorted_merge_sort _).
  pose proof (NoDup_in_order m) as Hnd. induction Hs as [|p l Hs IH Hp]; [constructor|].
  cbn in Hnd. apply list.NoDup_cons in Hnd as [Hnotin Hnd]. constructor; [by apply IH|].
  rewrite list.Forall_forall in Hp |- *. intros q Hq. specialize (Hp q Hq).
  unfold key_le, key_lt in *. apply string_leb_cases in Hp as [|E]; [done|].
  exfalso. apply Hnotin. rewrite E. apply list_elem_of_fmap. by exists q.
Qed.

(** A strictly sorted listing of the map is the iteration. *)
Lemma in_order_unique m l :
  key_sorted l → (∀ k v, (k, v) ∈ l ↔ m !! k = Some v) → in_order m = l.
Proof.
  intros Hs Hl. pose proof (in_order_sorted m) as Hm.
  assert (∀ p, p ∈ in_order m ↔ p ∈ l) as Hiff.
  { intros [k v]. by rewrite elem_of_in_order, Hl. }
  clear Hl. revert l Hs Hiff. induction Hm as [|p k Hk IH Hp]; intros l Hs Hiff.
  { destruct l as [|q l]; [done|]. exfalso. apply (not_elem_of_nil q), Hiff. by left. }
  destruct Hs as [|q l Hs Hq].
  { exfalso. apply (not_elem_of_nil p), Hiff. by left. }
  rewrite list.Forall_forall in Hp, Hq.
  assert (p = q) as <-.
  { pose proof (proj1 (Hiff p) ltac:(by left)) as [? | ?]%elem_of_cons; [done|].
    pose proof (proj2 (Hiff q) ltac:(by left)) as [? | ?]%elem_of_cons; [done|].
    pose proof (Hq p ltac:(done)) as H1. pose proof (Hp q ltac:(done)) as H2.
    unfold key_lt in *. by rewrite (string_ltb_asym _ _ H1) in H2. }
  f_equal. apply IH; [done|]. intros r. specialize (Hiff r). rewrite !elem_of_cons in Hiff.
  pose proof (string_ltb_irrefl p.1) as Hirr. unfold key_lt in *. split; intros Hr.
  - destruct (proj1 Hiff) as [-> | ]; [by right| |done]. specialize (Hp p Hr). congruence.
  - destruct (proj2 Hiff) as [-> | ]; [by right| |done]. specialize (Hq p Hr). congruence.
Qed.

Lemma in_order_empty : in_order (∅ : gmap string A) = [].
Proof. unfold in_order. by rewrite map_to_list_empty. Qed.

Lemma in_order_nil_inv m : in_order m = [] → m = ∅.
Proof.
  intros E. apply map_empty. intros k. destruct (m !! k) as [v|] eqn:Hk; [|done].
  apply elem_of_in_order in Hk. rewrite E in Hk. by apply not_elem_of_nil in Hk.
Qed.
End in_order.
