(* ===== verification/Kv.v ===== *)
(** * The key-value client (libcouchbase) as an interface

    libcouchbase and the servers behind it are not part of the repository:
    [Lcb] is what the binding calls, [LcbLaws] what it relies on, faults
    included, and [LcbHealthy] the case where no request fails.  The callbacks
    that the binding installs (worker.cc, bucket.cc) are modelled in full. *)

From stdpp Require Export gmap.
From S2P Require Import Prelude CStd.
#[local] Open Scope Z_scope.

(** ** Requests and responses *)

Definition LCB_SUCCESS : Z := 0.
Definition LCB_ERROR : Z := 10.

Inductive lcb_operation := LCB_ADD | LCB_SET | LCB_APPEND.

Record lcb_CMDSTORE := CmdStore {
  cmd_key : string; cmd_value : string; cmd_operation : lcb_operation; cmd_flags : Z
}.

(** The item flags of JSON documents. *)
Definition json_flags : Z := 0x2000000.

Record lcb_RESPGET := RespGet {
  get_rc : Z; get_value : string; get_cas : Z; get_itmflags : Z
}.

Record lcb_RESPSTORE := RespStore { store_rc : Z; store_cas : Z }.

(** A document on the server. *)
Record doc := Doc { doc_value : string; doc_flags : Z; doc_cas : Z }.

#[export] Instance doc_eq_dec : EqDecision doc.
Proof. solve_decision. Defined.

(** What a store that the server applies does to a bucket; [None] when the
    server refuses it. *)
Definition apply_store (cmd : lcb_CMDSTORE) (cas : Z) (m : gmap string doc)
    : option (gmap string doc) :=
  let k := cmd_key cmd in
  let fresh := Doc (cmd_value cmd) (cmd_flags cmd) cas in
  match cmd_operation cmd, m !! k with
  | LCB_SET, _ => Some (<[k := fresh]> m)
  | LCB_ADD, None => Some (<[k := fresh]> m)
  | LCB_ADD, Some _ => None
  | LCB_APPEND, Some d =>
      Some (<[k := Doc (doc_value d +:+ cmd_value cmd) (doc_flags d) cas]> m)
  | LCB_APPEND, None => None
  end.

(** ** The library *)

(** A connection is named by its connection string.  A request that the library
    refuses to schedule has no response, and no callback runs. *)
Class Lcb := {
  cluster : Type;
  lcb_get3 : string → string → cluster → cluster * option lcb_RESPGET;
  lcb_store3 : string → lcb_CMDSTORE → cluster → cluster * option lcb_RESPSTORE;
  lcb_remove3 : string → string → cluster → cluster * option Z
}.

Definition get_ok (r : option lcb_RESPGET) : bool :=
  match r with Some r => get_rc r =? LCB_SUCCESS | None => false end.

Definition store_ok (r : option lcb_RESPSTORE) : bool :=
  match r with Some r => store_rc r =? LCB_SUCCESS | None => false end.

(** [contents c b] is what the bucket behind connection [b] holds.  A store that
    reports failure may still have been applied (a timeout). *)
Class LcbLaws `{Lcb} := {
  contents : cluster → string → gmap string doc;
  get_contents b k c b' : contents (lcb_get3 b k c).1 b' = contents c b';
  get_sound b k c c' r :
    lcb_get3 b k c = (c', Some r) → get_rc r = LCB_SUCCESS →
    ∃ d, contents c b !! k = Some d ∧ get_value r = doc_value d ∧
         get_cas r = doc_cas d ∧ get_itmflags r = doc_flags d;
  store_contents b cmd c c' r :
    lcb_store3 b cmd c = (c', r) →
    ((∀ b', contents c' b' = contents c b') ∧ store_ok r = false) ∨
    (∃ cas m', apply_store cmd cas (contents c b) = Some m' ∧ contents c' b = m' ∧
       (∀ b', b' ≠ b → contents c' b' = contents c b') ∧
       (∀ x, r = Some x → store_rc x = LCB_SUCCESS → store_cas x = cas));
  store_refused b cmd c c' :
    lcb_store3 b cmd c = (c', None) → ∀ b', contents c' b' = contents c b';
  store_cas_range b cmd c c' r :
    lcb_store3 b cmd c = (c', Some r) → 0 <= store_cas r < 2 ^ 64;
  remove_contents b k c c' r :
    lcb_remove3 b k c = (c', r) →
    (∀ b', b' ≠ b → contents c' b' = contents c b') ∧
    ((contents c' b = contents c b ∧ r ≠ Some LCB_SUCCESS) ∨
     contents c' b = delete k (contents c b))
}.

(** Key and value sizes the servers accept. *)
Definition valid_key (k : string) : bool := (0 <? slen k) && (slen k <=? 250).
Definition max_value : Z := 20971520.

(** No request fails without a reason. *)
Class LcbHealthy `{LcbLaws} := {
  healthy_get b k c :
    valid_key k = true →
    ∃ x, (lcb_get3 b k c).2 = Some x ∧
         (is_Some (contents c b !! k) → get_rc x = LCB_SUCCESS);
  healthy_store b cmd c m' :
    apply_store cmd 0 (contents c b) = Some m' → valid_key (cmd_key cmd) = true →
    (∀ d, m' !! cmd_key cmd = Some d → slen (doc_value d) <= max_value) →
    store_ok (lcb_store3 b cmd c).2 = true;
  healthy_remove b k c :
    is_Some (contents c b !! k) → valid_key k = true →
    (lcb_remove3 b k c).2 = Some LCB_SUCCESS
}.

(** ** [struct Result] and the callbacks *)

Record Result := { value : string; cas : Z; itmflags : Z; status : Z }.

Definition Result_new : Result :=
  {| value := EmptyString; cas := 0; itmflags := 0; status := LCB_SUCCESS |}.

(** A [void* cookie]: the [Result] it points to, or [NULL]. *)
Definition cookie : Type := option Result.

Definition null_cookie {A} : outcome A := Fail (Undefined "null cookie").

(** worker.cc: fills every field; the value only on success. *)
Definition op_get_callback (ck : cookie) (resp : lcb_RESPGET) : outcome cookie :=
  match ck with
  | None => null_cookie
  | Some _ =>
      Ok (Some {| status := get_rc resp; cas := get_cas resp; itmflags := get_itmflags resp;
                  value := if get_rc resp =? LCB_SUCCESS then get_value resp else EmptyString |})
  end.

(** worker.cc: ignores the response and never touches its cookie. *)
Definition op_set_callback (ck : cookie) (resp : lcb_RESPSTORE) : outcome cookie := Ok ck.

(** bucket.cc: status and value only. *)
Definition get_callback (ck : cookie) (resp : lcb_RESPGET) : outcome cookie :=
  match ck with
  | None => null_cookie
  | Some result =>
      Ok (Some {| status := get_rc resp; cas := cas result; itmflags := itmflags result;
                  value := if get_rc resp =? LCB_SUCCESS then get_value resp else EmptyString |})
  end.

(** bucket.cc: status and CAS. *)
Definition set_callback (ck : cookie) (resp : lcb_RESPSTORE) : outcome cookie :=
  match ck with
  | None => null_cookie
  | Some result =>
      Ok (Some {| status := store_rc resp; cas := store_cas resp;
                  itmflags := itmflags result; value := value result |})
  end.

(** A connected handle: its connection string and its installed callbacks. *)
Record lcb_t := LcbT {
  connstr : string;
  on_get : cookie → lcb_RESPGET → outcome cookie;
  on_store : cookie → lcb_RESPSTORE → outcome cookie
}.

(** The worker's handle and a bucket's handle. *)
Definition worker_handle (connstr : string) : lcb_t := LcbT connstr op_get_callback op_set_callback.
Definition bucket_handle_of (connstr : string) : lcb_t := LcbT connstr get_callback set_callback.

Section requests.
Context `{Lcb}.

(** [lcb_sched_enter; lcb_get3(h, cookie, cmd); lcb_sched_leave; lcb_wait]. *)
Definition lcb_get_wait (h : lcb_t) (ck : cookie) (key : string) : prog cluster cookie :=
  λ c, match lcb_get3 (connstr h) key c with
       | (c, Some resp) => (c, on_get h ck resp)
       | (c, None) => (c, Ok ck)
       end.

Definition lcb_store_wait (h : lcb_t) (ck : cookie) (cmd : lcb_CMDSTORE) : prog cluster cookie :=
  λ c, match lcb_store3 (connstr h) cmd c with
       | (c, Some resp) => (c, on_store h ck resp)
       | (c, None) => (c, Ok ck)
       end.

(** No remove callback is installed anywhere. *)
Definition lcb_remove_wait (h : lcb_t) (key : string) : prog cluster unit :=
  λ c, ((lcb_remove3 (connstr h) key c).1, Ok tt).

(** The [Result] a cookie points to after the wait. *)
Definition the_result (ck : cookie) : outcome Result :=
  match ck with Some r => Ok r | None => null_cookie end.
End requests.

(** ** Effects of requests *)

Section effects.
Context `{LcbLaws}.
Implicit Types c : cluster.

(** Only the documents [ks] of bucket [b] may differ. *)
Definition frame (b : string) (ks : gset string) c c' : Prop :=
  ∀ b' k, b' ≠ b ∨ k ∉ ks → contents c' b' !! k = contents c b' !! k.

Lemma frame_refl b ks c : frame b ks c c.
Proof. by intros b' k. Qed.

Lemma frame_trans b ks c1 c2 c3 : frame b ks c1 c2 → frame b ks c2 c3 → frame b ks c1 c3.
Proof. intros F1 F2 b' k Hk. by rewrite F2, F1. Qed.

Lemma frame_weaken b ks ks' c c' : ks ⊆ ks' → frame b ks c c' → frame b ks' c c'.
Proof. intros Hs F b' k Hk. apply F. set_solver. Qed.

Lemma apply_store_ne cmd cas m m' k :
  apply_store cmd cas m = Some m' → k ≠ cmd_key cmd → m' !! k = m !! k.
Proof.
  unfold apply_store. intros E Hk.
  destruct (cmd_operation cmd), (m !! cmd_key cmd); simplify_eq; by simplify_map_eq.
Qed.

(** A store touches its own document only, whatever happens. *)
Lemma store_frame b cmd c : frame b {[cmd_key cmd]} c (lcb_store3 b cmd c).1.
Proof.
  destruct (lcb_store3 b cmd c) as [c' r] eqn:E. cbn. intros b' k Hk.
  destruct (store_contents b cmd c c' r E) as [[Hc _]|(ca & m' & Ha & Hb & Ho & _)];
    [by rewrite Hc|].
  destruct (decide (b' = b)) as [->|]; [|by rewrite Ho].
  rewrite Hb. apply (apply_store_ne _ _ _ _ _ Ha). set_solver.
Qed.

Lemma store_frame_in b ks cmd c : cmd_key cmd ∈ ks → frame b ks c (lcb_store3 b cmd c).1.
Proof. intros Hk. eapply frame_weaken, store_frame. set_solver. Qed.

Lemma get_frame b ks k c b' : frame b ks c (lcb_get3 b' k c).1.
Proof. intros b'' k' _. by rewrite get_contents. Qed.

Lemma remove_frame b k c : frame b {[k]} c (lcb_remove3 b k c).1.
Proof.
  destruct (lcb_remove3 b k c) as [c' r] eqn:E. cbn. intros b' k' Hk.
  destruct (remove_contents b k c c' r E) as [Ho [[Hb _]|Hb]];
    (destruct (decide (b' = b)) as [->|]; [|by rewrite Ho]); rewrite Hb; [done|].
  apply lookup_delete_ne. set_solver.
Qed.

Lemma store_response_range b cmd c x :
  (lcb_store3 b cmd c).2 = Some x → 0 <= store_cas x < 2 ^ 64.
Proof.
  destruct (lcb_store3 b cmd c) as [c' r] eqn:E. cbn. intros ->. by apply (store_cas_range _ _ _ _ _ E).
Qed.

(** The document of a store after the request: as before, or as applied. *)
Lemma store_doc b cmd c :
  let c' := (lcb_store3 b cmd c).1 in
  contents c' b !! cmd_key cmd = contents c b !! cmd_key cmd ∨
  ∃ ca m', apply_store cmd ca (contents c b) = Some m' ∧
           contents c' b !! cmd_key cmd = m' !! cmd_key cmd.
Proof.
  destruct (lcb_store3 b cmd c) as [c' r] eqn:E. cbn.
  destruct (store_contents b cmd c c' r E) as [[Hc _]|(ca & m' & Ha & Hb & _ & _)];
    [left; by rewrite Hc|right]. exists ca, m'. by rewrite Hb.
Qed.

(** A get of an absent document never reports success. *)
Lemma get_absent b k c : contents c b !! k = None → get_ok (lcb_get3 b k c).2 = false.
Proof.
  intros Hn. destruct (lcb_get3 b k c) as [c' [x|]] eqn:E; [|done]. cbn.
  apply Z.eqb_neq. intros Hok. destruct (get_sound b k c c' x E Hok) as (d' & Hd' & _). congruence.
Qed.

(** A worker handle never runs into a null cookie on a store. *)
Lemma worker_store_wait b ck cmd c :
  lcb_store_wait (worker_handle b) ck cmd c = ((lcb_store3 b cmd c).1, Ok ck).
Proof. unfold lcb_store_wait. cbn. by destruct (lcb_store3 b cmd c) as [c' [r|]]. Qed.

(** A get through either kind of handle, with a fresh [Result]: the contents
    stay, and the [Result] holds a value only on success. *)
Lemma get_wait_fresh h key c :
  (∃ b, h = worker_handle b ∨ h = bucket_handle_of b) →
  ∃ r, lcb_get_wait h (Some Result_new) key c
       = ((lcb_get3 (connstr h) key c).1, Ok (Some r)) ∧
       value r = (match (lcb_get3 (connstr h) key c).2 with
                  | Some x => if get_rc x =? LCB_SUCCESS then get_value x else EmptyString
                  | None => EmptyString
                  end) ∧
       status r = (match (lcb_get3 (connstr h) key c).2 with
                   | Some x => get_rc x
                   | None => LCB_SUCCESS
                   end).
Proof.
  intros [b [-> | ->]]; unfold lcb_get_wait; cbn;
    destruct (lcb_get3 b key c) as [c' [x|]]; cbn; eexists; eauto.
Qed.
End effects.

Section healthy_effects.
Context `{LcbHealthy}.
Implicit Types c : cluster.

(** A store that can be applied is applied. *)
Lemma healthy_store_applied b cmd c m0 :
  apply_store cmd 0 (contents c b) = Some m0 → valid_key (cmd_key cmd) = true →
  (∀ d, m0 !! cmd_key cmd = Some d → slen (doc_value d) <= max_value) →
  ∃ ca m', apply_store cmd ca (contents c b) = Some m' ∧
           contents (lcb_store3 b cmd c).1 b = m' ∧
           (∀ b', b' ≠ b → contents (lcb_store3 b cmd c).1 b' = contents c b').
Proof.
  intros Ha Hk Hv. pose proof (healthy_store b cmd c m0 Ha Hk Hv) as Hok.
  destruct (lcb_store3 b cmd c) as [c' r] eqn:E. cbn in *.
  destruct (store_contents b cmd c c' r E) as [[_ Hf]|(ca & m' & Hm)]; [congruence|].
  exists ca, m'. naive_solver.
Qed.

Lemma healthy_set b k v fl c :
  valid_key k = true → slen v <= max_value →
  ∃ ca, contents (lcb_store3 b (CmdStore k v LCB_SET fl) c).1 b
        = <[k := Doc v fl ca]> (contents c b).
Proof.
  intros Hk Hv.
  destruct (healthy_store_applied b (CmdStore k v LCB_SET fl) c _ eq_refl Hk) as (ca & m' & Ha & <- & _).
  - cbn. intros d. rewrite lookup_insert_eq. by intros [= <-].
  - cbn in Ha. injection Ha as <-. eauto.
Qed.

Lemma healthy_add b k v fl c :
  contents c b !! k = None → valid_key k = true → slen v <= max_value →
  ∃ ca, contents (lcb_store3 b (CmdStore k v LCB_ADD fl) c).1 b
        = <[k := Doc v fl ca]> (contents c b).
Proof.
  intros Hn Hk Hv. set (cmd := CmdStore k v LCB_ADD fl).
  destruct (healthy_store_applied b cmd c (<[k := Doc v fl 0]> (contents c b))) as (ca & m' & Ha & <- & _);
    [unfold apply_store; cbn; by rewrite Hn|done|cbn; intros d; rewrite lookup_insert_eq; by intros [= <-]|].
  unfold apply_store in Ha. cbn in Ha. rewrite Hn in Ha. injection Ha as <-. eauto.
Qed.

Lemma healthy_append b k v fl c d :
  contents c b !! k = Some d → valid_key k = true → slen (doc_value d +:+ v) <= max_value →
  ∃ ca, contents (lcb_store3 b (CmdStore k v LCB_APPEND fl) c).1 b
        = <[k := Doc (doc_value d +:+ v) (doc_flags d) ca]> (contents c b).
Proof.
  intros Hd Hk Hv. set (cmd := CmdStore k v LCB_APPEND fl).
  destruct (healthy_store_applied b cmd c
    (<[k := Doc (doc_value d +:+ v) (doc_flags d) 0]> (contents c b))) as (ca & m' & Ha & <- & _);
    [unfold apply_store; cbn; by rewrite Hd|done|cbn; intros d'; rewrite lookup_insert_eq; by intros [= <-]|].
  unfold apply_store in Ha. cbn in Ha. rewrite Hd in Ha. injection Ha as <-. eauto.
Qed.

(** The response of a set carries the CAS of the stored document. *)
Lemma healthy_set_response b k v fl c :
  valid_key k = true → slen v <= max_value →
  ∃ x, (lcb_store3 b (CmdStore k v LCB_SET fl) c).2 = Some x ∧
       contents (lcb_store3 b (CmdStore k v LCB_SET fl) c).1 b
       = <[k := Doc v fl (store_cas x)]> (contents c b) ∧
       ∀ b', b' ≠ b → contents (lcb_store3 b (CmdStore k v LCB_SET fl) c).1 b' = contents c b'.
Proof.
  intros Hk Hv. pose proof (healthy_store b (CmdStore k v LCB_SET fl) c _ eq_refl Hk) as Hok.
  destruct (lcb_store3 b _ c) as [c' r] eqn:E. cbn [fst snd] in *.
  assert (store_ok r = true) as Hr.
  { apply Hok. cbn. intros d. rewrite lookup_insert_eq. by intros [= <-]. }
  destruct r as [x|]; [|done]. exists x. split; [done|]. cbn in Hr. apply Z.eqb_eq in Hr.
  destruct (store_contents b _ c c' _ E) as [[_ Hf]|(ca & m' & Ha & Hc & Ho & Hx)].
  - cbn in Hf. rewrite Hr in Hf. by apply Z.eqb_neq in Hf.
  - cbn in Ha. injection Ha as <-. rewrite (Hx x eq_refl Hr). by split.
Qed.

(** A get of a present document returns its value. *)
Lemma healthy_get_value b k c d :
  contents c b !! k = Some d → valid_key k = true →
  ∃ x, (lcb_get3 b k c).2 = Some x ∧ get_rc x = LCB_SUCCESS ∧ get_value x = doc_value d.
Proof.
  intros Hd Hk. destruct (healthy_get b k c Hk) as (x & Hx & Hok).
  rewrite Hd in Hok. specialize (Hok (mk_is_Some _ _ eq_refl)).
  destruct (lcb_get3 b k c) as [c' r] eqn:E. cbn in Hx. subst r.
  destruct (get_sound b k c c' x E Hok) as (d' & Hd' & Hv & _).
  exists x. naive_solver congruence.
Qed.

(** A get of an absent document is answered, without success. *)
Lemma healthy_get_absent b k c :
  contents c b !! k = None → valid_key k = true →
  ∃ x, (lcb_get3 b k c).2 = Some x ∧ get_rc x ≠ LCB_SUCCESS.
Proof.
  intros Hn Hk. destruct (healthy_get b k c Hk) as (x & Hx & _). exists x. split; [done|].
  destruct (lcb_get3 b k c) as [c' r] eqn:E. cbn in Hx. subst r. intros Hok.
  destruct (get_sound b k c c' x E Hok) as (d' & Hd' & _). congruence.
Qed.

(** A removal of a legal key: the document is gone, if it was there. *)
Lemma healthy_delete b k c :
  valid_key k = true →
  contents (lcb_remove3 b k c).1 b = delete k (contents c b) ∧
  ∀ b', b' ≠ b → contents (lcb_remove3 b k c).1 b' = contents c b'.
Proof.
  intros Hk. destruct (lcb_remove3 b k c) as [c1 r] eqn:E.
  destruct (remove_contents _ _ _ _ _ E) as [Ho [[Hs Hf]|Hr]]; [|done]. split; [|exact Ho].
  cbn. rewrite Hs. destruct (contents c b !! k) as [d|] eqn:Hl; [|by rewrite delete_id].
  exfalso. apply Hf. rewrite <-(healthy_remove b k c); [by rewrite E|by rewrite Hl|done].
Qed.
End healthy_effects.
