(* ===== verification/KvRef.v ===== *)
(** * A fault-free key-value service

    An executable instance of [Lcb] with its laws, on which the witnesses run.
    The theorems about the program never use it. *)

From S2P Require Import Prelude CStd Kv.
#[local] Open Scope Z_scope.

(** Buckets by connection string, and the CAS of the next store. *)
Record ref_cluster := RefCluster {
  ref_buckets : gmap string (gmap string doc);
  ref_next_cas : Z
}.

Definition ref_contents (c : ref_cluster) (b : string) : gmap string doc :=
  default ∅ (ref_buckets c !! b).

Definition ref_set (b : string) (m : gmap string doc) (c : ref_cluster) : ref_cluster :=
  RefCluster (<[b := m]> (ref_buckets c)) (ref_next_cas c + 1).

Definition ref_get (b k : string) (c : ref_cluster) : ref_cluster * option lcb_RESPGET :=
  (c, if is_empty k then None else
      Some (match ref_contents c b !! k with
            | Some d => RespGet 0 (doc_value d) (doc_cas d) (doc_flags d)
            | None => RespGet 13 EmptyString 0 0
            end)).

Definition ref_store (b : string) (cmd : lcb_CMDSTORE) (c : ref_cluster)
    : ref_cluster * option lcb_RESPSTORE :=
  if is_empty (cmd_key cmd) then (c, None) else
  let ca := u64 (ref_next_cas c) in
  match apply_store cmd ca (ref_contents c b) with
  | Some m => (ref_set b m c, Some (RespStore 0 ca))
  | None => (c, Some (RespStore 14 0))
  end.

Definition ref_remove (b k : string) (c : ref_cluster) : ref_cluster * option Z :=
  if is_empty k then (c, None) else
  match ref_contents c b !! k with
  | Some _ => (ref_set b (delete k (ref_contents c b)) c, Some 0)
  | None => (c, Some 13)
  end.

#[export] Instance ref_lcb : Lcb :=
  {| lcb_get3 := ref_get; lcb_store3 := ref_store; lcb_remove3 := ref_remove |}.

Definition ref_empty : ref_cluster := RefCluster ∅ 1.

Lemma ref_set_contents b m c b' :
  ref_contents (ref_set b m c) b' = if decide (b = b') then m else ref_contents c b'.
Proof.
  unfold ref_contents, ref_set. cbn. case_decide as E.
  - subst. by rewrite lookup_insert_eq.
  - by rewrite lookup_insert_ne.
Qed.

Lemma apply_store_cas cmd ca cb m :
  is_Some (apply_store cmd ca m) → is_Some (apply_store cmd cb m).
Proof. unfold apply_store. destruct (cmd_operation cmd), (m !! cmd_key cmd); naive_solver. Qed.

Lemma valid_key_nonempty k : valid_key k = true → is_empty k = false.
Proof. by destruct k. Qed.

#[export] Program Instance ref_laws : LcbLaws (H := ref_lcb) := {| contents := ref_contents |}.
Next Obligation. done. Qed.
Next Obligation.
  intros b k c c' r. cbn. unfold ref_get. destruct (is_empty k); [done|]. intros [= <- <-].
  destruct (ref_contents c b !! k) as [d|]; [|done]. cbn. eauto.
Qed.
Next Obligation.
  intros b cmd c c' r. cbn. unfold ref_store. destruct (is_empty (cmd_key cmd)).
  { intros [= <- <-]. by left. }
  destruct (apply_store _ _ _) as [m|] eqn:E; intros [= <- <-]; [right|by left].
  exists (u64 (ref_next_cas c)), m. split; [done|]. split; [|split].
  - rewrite ref_set_contents. by rewrite decide_True.
  - intros b' Hb. rewrite ref_set_contents. by rewrite decide_False.
  - by intros x [= <-] _.
Qed.
Next Obligation.
  intros b cmd c c'. cbn. unfold ref_store. destruct (is_empty (cmd_key cmd)); [by intros [= <-]|].
  by destruct (apply_store _ _ _).
Qed.
Next Obligation.
  intros b cmd c c' r. cbn. unfold ref_store. destruct (is_empty (cmd_key cmd)); [done|].
  destruct (apply_store _ _ _); intros [= <- <-]; cbn; [|lia]. unfold u64. apply Z.mod_pos_bound. lia.
Qed.
Next Obligation.
  intros b k c c' r. cbn. unfold ref_remove. destruct (is_empty k).
  { intros [= <- <-]. split; [done|]. by left. }
  destruct (ref_contents c b !! k) eqn:E; intros [= <- <-].
  - split; [|right].
    + intros b' Hb. rewrite ref_set_contents. by rewrite decide_False.
    + rewrite ref_set_contents. by rewrite decide_True.
  - split; [done|]. by left.
Qed.

#[export] Program Instance ref_healthy : LcbHealthy (H0 := ref_laws).
Next Obligation.
  intros b k c Hk. cbn. unfold ref_get. rewrite (valid_key_nonempty k Hk). cbn.
  eexists; split; [done|]. intros [d ->]. done.
Qed.
Next Obligation.
  intros b cmd c m' Hm Hk _. cbn in *. unfold ref_store. rewrite (valid_key_nonempty _ Hk).
  destruct (apply_store_cas cmd 0 (u64 (ref_next_cas c)) (ref_contents c b)) as [m ->]; eauto.
Qed.
Next Obligation.
  intros b k c [d Hd] Hk. cbn in *. unfold ref_remove. by rewrite (valid_key_nonempty k Hk), Hd.
Qed.
