(* ===== verification/Json.v ===== *)
(** * RapidJSON as an interface

    RapidJSON is not part of the repository: parsing and writing are the
    parameters of [RapidJson]; the accessors below are what RapidJSON documents
    of [Value], with [RAPIDJSON_ASSERT] as [AssertFailed]. *)

From S2P Require Import Prelude CStd.
#[local] Open Scope Z_scope.

(** ** The document tree *)

Inductive json : Type :=
  | JNull
  | JBool (b : bool)
  | JInt (z : Z)             (** a number that fits an [int] *)
  | JNumber (text : string)  (** any other number *)
  | JString (s : string)
  | JArray (l : list json)
  | JObject (l : list (string * json)).

Definition IsObject (v : json) : bool := match v with JObject _ => true | _ => false end.
Definition IsArray (v : json) : bool := match v with JArray _ => true | _ => false end.

(** [value[name]]: the first member of that name; asserts that it exists. *)
Definition member (name : string) (v : json) : outcome json :=
  match v with
  | JObject l =>
      match list_find (λ p, p.1 = name) l with
      | Some (_, (_, x)) => Ok x
      | None => Fail AssertFailed
      end
  | _ => Fail AssertFailed
  end.

(** The elements of an array. *)
Definition elements_of (v : json) : outcome (list json) :=
  match v with JArray l => Ok l | _ => Fail AssertFailed end.

(** [value.GetString()], as the C string the callers copy. *)
Definition GetString (v : json) : outcome string :=
  match v with JString s => Ok (c_str s) | _ => Fail AssertFailed end.

Definition GetInt (v : json) : outcome Z :=
  match v with JInt z => Ok z | _ => Fail AssertFailed end.

(** ** The writer's calls *)

Inductive wevent : Type :=
  | StartObject
  | EndObject
  | WKey (s : string)
  | WString (s : string)
  | WRaw (s : string).

(** Parsing gives [None] on a parse error. *)
Class RapidJson := {
  rj_parse : string → option json;
  rj_write : list wevent → string
}.

(** The calls that write an object of strings. *)
Definition string_object (l : list (string * string)) : list wevent :=
  [StartObject] ++ flat_map (λ '(k, v), [WKey k; WString v]) l ++ [EndObject].

(** What the binding relies on: an object of strings reads back, its text has no
    NUL byte (the writer escapes control characters), and an empty text is an
    error. *)
Class RapidJsonLaws `{RapidJson} := {
  parse_string_object l :
    rj_parse (rj_write (string_object l)) = Some (JObject (map (λ '(k, v), (k, JString v)) l));
  write_nul_free l : nul_free (rj_write (string_object l)) = true;
  parse_empty : rj_parse EmptyString = None
}.
