(* ===== verification/MiniJson.v ===== *)
(** * A small JSON reader and writer

    An executable instance of the [RapidJson] interface, with its laws: the
    witnesses of the development run on it.  It covers what the witnesses need
    (objects, arrays, strings, integers, literals); the theorems about the
    program never use it. *)

From S2P Require Import Prelude CStd Json.
#[local] Open Scope Z_scope.

(** ** Strings *)

Definition hex (d : Z) : ascii := if d <? 10 then digit d else ascii_of_N (Z.to_N (87 + d)).

Definition unhex (c : ascii) : option Z :=
  let b := byte_val c in
  if is_digit c then Some (b - 48)
  else if (97 <=? b) && (b <=? 102) then Some (b - 87)
  else if (65 <=? b) && (b <=? 70) then Some (b - 55)
  else None.

Definition backslash : ascii := "\"%char.

Definition escape_char (c : ascii) : string :=
  if Ascii.eqb c dquote || Ascii.eqb c backslash then String backslash (String c EmptyString)
  else if byte_val c <? 32 then
    String backslash (String "u" (String "0" (String "0"
      (String (hex (byte_val c / 16)) (String (hex (byte_val c mod 16)) EmptyString)))))
  else String c EmptyString.

Fixpoint escape (s : string) : string :=
  match s with
  | EmptyString => EmptyString
  | String c s => escape_char c +:+ escape s
  end.

Definition quote (s : string) : string := String dquote (escape s +:+ String dquote EmptyString).

(** The character a one-letter escape stands for. *)
Definition unescape1 (e : ascii) : option ascii :=
  if Ascii.eqb e dquote || Ascii.eqb e backslash || Ascii.eqb e "/" then Some e
  else if Ascii.eqb e "b" then Some "008"%char
  else if Ascii.eqb e "f" then Some "012"%char
  else if Ascii.eqb e "n" then Some "010"%char
  else if Ascii.eqb e "r" then Some "013"%char
  else if Ascii.eqb e "t" then Some "009"%char
  else None.

(** The byte of a [\u00XX] escape. *)
Definition unescape4 (a b c d : ascii) : option ascii :=
  match unhex a, unhex b, unhex c, unhex d with
  | Some 0, Some 0, Some x, Some y => Some (ascii_of_N (Z.to_N (16 * x + y)))
  | _, _, _, _ => None
  end.

(** The rest of a string literal after its opening quote. *)
Fixpoint parse_str (s : string) : option (string * string) :=
  match s with
  | EmptyString => None
  | String c s =>
      if Ascii.eqb c dquote then Some (EmptyString, s)
      else if Ascii.eqb c backslash then
        match s with
        | String e s =>
            if Ascii.eqb e "u" then
              match s with
              | String h1 (String h2 (String h3 (String h4 s))) =>
                  x ← unescape4 h1 h2 h3 h4;
                  '(t, rest) ← parse_str s; Some (String x t, rest)
              | _ => None
              end
            else x ← unescape1 e; '(t, rest) ← parse_str s; Some (String x t, rest)
        | EmptyString => None
        end
      else if byte_val c <? 32 then None
      else '(t, rest) ← parse_str s; Some (String c t, rest)
  end.

(** ** Values *)

Definition is_ws (c : ascii) : bool :=
  Ascii.eqb c " " || Ascii.eqb c "009" || Ascii.eqb c "010" || Ascii.eqb c "013".

Fixpoint skip_ws (s : string) : string :=
  match s with
  | String c s' => if is_ws c then skip_ws s' else s
  | EmptyString => s
  end.

(** The rest of [s] after the character [c], blanks skipped. *)
Definition expect (c : ascii) (s : string) : option string :=
  match skip_ws s with
  | String d s => if Ascii.eqb c d then Some s else None
  | EmptyString => None
  end.

Fixpoint skip_digits (s : string) : string :=
  match s with
  | String c s' => if is_digit c then skip_digits s' else s
  | EmptyString => s
  end.

Definition parse_int (s : string) : option (json * string) :=
  z ← scan_dec s;
  let s := match s with String c s' => if Ascii.eqb c "-" then s' else s | _ => s end in
  Some (if in_int z then JInt z else JNumber (dec z), skip_digits s).

Definition parse_literal (s : string) : option (json * string) :=
  match strip_prefix "true" s, strip_prefix "false" s, strip_prefix "null" s with
  | Some r, _, _ => Some (JBool true, r)
  | _, Some r, _ => Some (JBool false, r)
  | _, _, Some r => Some (JNull, r)
  | _, _, _ => None
  end.

Fixpoint parse_value (fuel : nat) (s : string) : option (json * string) :=
  match fuel with
  | O => None
  | S fuel =>
      match skip_ws s with
      | EmptyString => None
      | String c s' =>
          if Ascii.eqb c dquote then '(t, rest) ← parse_str s'; Some (JString t, rest)
          else if Ascii.eqb c "{" then
            match expect "}" s' with
            | Some rest => Some (JObject [], rest)
            | None => '(l, rest) ← parse_members fuel s'; Some (JObject l, rest)
            end
          else if Ascii.eqb c "[" then
            match expect "]" s' with
            | Some rest => Some (JArray [], rest)
            | None => '(l, rest) ← parse_elements fuel s'; Some (JArray l, rest)
            end
          else if is_digit c || Ascii.eqb c "-" then parse_int (String c s')
          else parse_literal (String c s')
      end
  end
with parse_members (fuel : nat) (s : string) : option (list (string * json) * string) :=
  match fuel with
  | O => None
  | S fuel =>
      s ← expect dquote s;
      '(k, s) ← parse_str s;
      s ← expect ":" s;
      '(v, s) ← parse_value fuel s;
      match expect "," s with
      | Some s => '(l, rest) ← parse_members fuel s; Some ((k, v) :: l, rest)
      | None => rest ← expect "}" s; Some ([(k, v)], rest)
      end
  end
with parse_elements (fuel : nat) (s : string) : option (list json * string) :=
  match fuel with
  | O => None
  | S fuel =>
      '(v, s) ← parse_value fuel s;
      match expect "," s with
      | Some s => '(l, rest) ← parse_elements fuel s; Some (v :: l, rest)
      | None => rest ← expect "]" s; Some ([v], rest)
      end
  end.

Definition mini_parse (s : string) : option json :=
  match parse_value (S (S (String.length s))) s with
  | Some (v, rest) => if is_empty (skip_ws rest) then Some v else None
  | None => None
  end.

(** ** Writing *)

Fixpoint mini_events (first : bool) (l : list wevent) : string :=
  match l with
  | [] => EmptyString
  | StartObject :: l => String "{" (mini_events true l)
  | EndObject :: l => String "}" (mini_events false l)
  | WKey k :: l =>
      (if first then EmptyString else ",") +:+ quote k +:+ String ":" (mini_events false l)
  | WString s :: l => quote s +:+ mini_events false l
  | WRaw s :: l => s +:+ mini_events false l
  end.

Definition mini_write (l : list wevent) : string := mini_events true l.

#[export] Instance mini_json : RapidJson := {| rj_parse := mini_parse; rj_write := mini_write |}.

(** ** The laws *)

Lemma parse_str_char c t :
  parse_str (escape_char c +:+ t)
  = ('(x, rest) ← parse_str t; Some (String c x, rest)).
Proof. destruct c as [[] [] [] [] [] [] [] []]; reflexivity. Qed.

Lemma parse_str_escape s rest :
  parse_str (escape s +:+ String dquote rest) = Some (s, rest).
Proof.
  induction s as [|c s IH]; [reflexivity|]. cbn [escape].
  rewrite sapp_assoc, parse_str_char, IH. reflexivity.
Qed.

Lemma quote_app s rest :
  quote s +:+ rest = String dquote (escape s +:+ String dquote rest).
Proof. unfold quote. by rewrite sapp_cons, sapp_assoc. Qed.

Lemma expect_eq c s : is_ws c = false → expect c (String c s) = Some s.
Proof. intros H. unfold expect. cbn [skip_ws]. by rewrite H, Ascii.eqb_refl. Qed.

Lemma expect_ne c d s : is_ws d = false → Ascii.eqb c d = false → expect c (String d s) = None.
Proof. intros H E. unfold expect. cbn [skip_ws]. by rewrite H, E. Qed.

Lemma parse_value_quote fuel s rest :
  parse_value (S fuel) (quote s +:+ rest) = Some (JString s, rest).
Proof.
  rewrite quote_app. cbn [parse_value skip_ws]. change (is_ws dquote) with false. cbv iota.
  change (Ascii.eqb dquote dquote) with true. cbv iota. by rewrite parse_str_escape.
Qed.

(** The text of a non-empty object after its opening brace. *)
Definition members (first : bool) (l : list (string * string)) : string :=
  mini_events first (flat_map (λ '(k, v), [WKey k; WString v]) l ++ [EndObject]).

Lemma parse_members_S fuel s :
  parse_members (S fuel) s
  = (s ← expect dquote s;
     '(k, s) ← parse_str s;
     s ← expect ":" s;
     '(v, s) ← parse_value fuel s;
     match expect "," s with
     | Some s => '(l, rest) ← parse_members fuel s; Some ((k, v) :: l, rest)
     | None => rest ← expect "}" s; Some ([(k, v)], rest)
     end).
Proof. reflexivity. Qed.

Lemma parse_members_ok fuel k v l :
  (S (S (length l)) <= fuel)%nat →
  parse_members fuel (members true ((k, v) :: l))
  = Some (map (λ '(k, v), (k, JString v)) ((k, v) :: l), EmptyString).
Proof.
  revert fuel k v. induction l as [|[k' v'] l IH]; intros fuel k v Hf.
  all: destruct fuel as [|[|fuel]]; cbn [length] in Hf; [lia..|].
  all: unfold members; cbn [flat_map app mini_events].
  all: change (EmptyString +:+ ?x) with x; rewrite quote_app.
  all: rewrite parse_members_S, (expect_eq dquote) by done; cbn [mbind option_bind].
  all: rewrite parse_str_escape; cbn [mbind option_bind].
  all: rewrite (expect_eq ":") by done; cbn [mbind option_bind].
  all: rewrite parse_value_quote; cbn [mbind option_bind].
  - by rewrite (expect_ne ",") by done.
  - specialize (IH (S fuel) k' v' ltac:(lia)). unfold members in IH. cbn [flat_map app mini_events] in IH.
    change (EmptyString +:+ ?x) with x in IH. rewrite sapp_cons.
    rewrite (expect_eq ",") by done. change (EmptyString +:+ ?x) with x.
    by rewrite IH.
Qed.

Lemma members_length first l : (length l <= String.length (members first l))%nat.
Proof.
  revert first. induction l as [|[k v] l IH]; intros first; [cbn; lia|].
  unfold members in *. cbn [flat_map app mini_events length].
  rewrite !slength_app. cbn [String.length]. rewrite slength_app. specialize (IH false). lia.
Qed.

Lemma mini_parse_object l :
  mini_parse (mini_write (string_object l)) = Some (JObject (map (λ '(k, v), (k, JString v)) l)).
Proof.
  destruct l as [|[k v] l]; [reflexivity|].
  unfold mini_parse, mini_write, string_object. cbn [app mini_events].
  change (mini_events true (flat_map _ ((k, v) :: l) ++ _)) with (members true ((k, v) :: l)).
  remember (members true ((k, v) :: l)) as t eqn:Et.
  cbn [parse_value skip_ws String.length]. change (is_ws "{") with false. cbv iota.
  change (Ascii.eqb "{" dquote) with false. change (Ascii.eqb "{" "{") with true. cbv iota.
  assert (expect "}" t = None) as ->.
  { rewrite Et. unfold members. cbn [flat_map app mini_events]. change (EmptyString +:+ ?x) with x.
    rewrite quote_app. by apply expect_ne. }
  rewrite Et, parse_members_ok; [reflexivity|].
  pose proof (members_length true ((k, v) :: l)) as Hl. cbn [length] in Hl. lia.
Qed.

Lemma quote_nul_free s : nul_free (quote s) = true.
Proof.
  unfold quote, nul_free. cbn. rewrite sforall_app. cbn. rewrite andb_true_r.
  induction s as [|c s IH]; [done|]. cbn [escape]. rewrite sforall_app, IH, andb_true_r.
  by destruct c as [[] [] [] [] [] [] [] []].
Qed.

Lemma members_nul_free first l : nul_free (members first l) = true.
Proof.
  revert first. induction l as [|[k v] l IH]; intros first; [done|].
  unfold members in *. cbn [flat_map app mini_events]. unfold nul_free in *.
  rewrite !sforall_app. cbn [sforall]. rewrite sforall_app, IH.
  pose proof (quote_nul_free k) as Hk. pose proof (quote_nul_free v) as Hv. unfold nul_free in *.
  rewrite Hk, Hv. by destruct first.
Qed.

#[export] Program Instance mini_json_laws : RapidJsonLaws (H := mini_json).
Next Obligation. exact mini_parse_object. Qed.
Next Obligation.
  intros l. change (rj_write (string_object l)) with (String "{" (members true l)).
  exact (members_nul_free true l).
Qed.
Next Obligation. reflexivity. Qed.
