(* ===== verification/V8.v ===== *)
(** * The JavaScript engine as an interface

    V8 is not part of the repository.  [V8] is the part of its API the binding
    calls on values, [V8Laws] what it documents of it; handlers and their calls
    back into the binding are in [Host.v].  The helpers of worker.cc on top of
    it are modelled here, with the objects that the binding hands to JavaScript:
    a property handler configuration and internal fields that hold pointers. *)

From S2P Require Import Prelude CStd.
#[local] Open Scope Z_scope.

(** ** Objects with internal fields *)

(** The [lcb_t] variables whose address is taken: that of the [b]-th [Bucket]
    allocated, that of the [n]-th [N1QL], and the worker's [cb_instance]. *)
Inductive lcb_id : Type :=
  | BucketLcb (b : nat)
  | N1qlLcb (n : nat)
  | WorkerLcb.

(** The [map<string, string>] variables whose address is taken. *)
Inductive map_id : Type := BucketMap | N1qlMap | QueueMap | ResponseMap | BodyMap.

(** What an [External] points to. *)
Inductive pointer : Type :=
  | PMap (m : map_id)
  | PLcb (h : lcb_id)
  | PRedis (q : nat)       (** the [redisContext] of the [q]-th [Queue] *)
  | PString (q : nat)      (** the [std::string] [queue_name] of the [q]-th [Queue] *)
  | PHTTPBody              (** the [HTTPBody] of the worker's [HTTPResponse] *)
  | PWorker.

#[export] Instance lcb_id_eq_dec : EqDecision lcb_id.
Proof. solve_decision. Defined.
#[export] Instance map_id_eq_dec : EqDecision map_id.
Proof. solve_decision. Defined.
#[export] Instance pointer_eq_dec : EqDecision pointer.
Proof. solve_decision. Defined.

(** Which [NamedPropertyHandlerConfiguration] an object's template carries. *)
Inductive handlers : Type :=
  | BucketHandlers | QueueHandlers | N1qlHandlers | ResponseHandlers | BodyHandlers.

#[export] Instance handlers_eq_dec : EqDecision handlers.
Proof. solve_decision. Defined.

(** A template: its handlers and its number of internal fields. *)
Record object_template := ObjectTemplate { t_handlers : handlers; t_fields : nat }.

(** An instance; a field that was not set holds no [External]. *)
Record js_object := JsObject {
  o_handlers : handlers;
  o_fields : list (option pointer)
}.

Definition NewInstance (t : object_template) : js_object :=
  JsObject (t_handlers t) (replicate (t_fields t) None).

(** [if (slot.IsEmpty()) slot.Reset(make())]: the template and the slot after. *)
Definition cached (slot : option object_template) (make : object_template) : object_template :=
  default make slot.

(** A slot that is empty or was filled by [cached]. *)
Definition slot_ok (slot : option object_template) (make : object_template) : Prop :=
  slot = None ∨ slot = Some make.

(** V8 aborts the process on an index that is out of range. *)
Definition SetInternalField (i : nat) (p : pointer) (o : js_object) : outcome js_object :=
  if decide (i < length (o_fields o))%nat
  then Ok (JsObject (o_handlers o) (<[i := Some p]> (o_fields o)))
  else Fail AssertFailed.

Definition GetInternalField (i : nat) (o : js_object) : outcome pointer :=
  match o_fields o !! i with
  | Some (Some p) => Ok p
  | Some None => Fail (Undefined "internal field holds no External")
  | None => Fail AssertFailed
  end.

(** A [static_cast] of a [void*] to the wrong type. *)
Definition bad_cast {A} : outcome A := Fail (Undefined "static_cast to another type").

Definition UnwrapLcbInstance (obj : js_object) : outcome lcb_id :=
  ptr ← GetInternalField 1 obj;
  match ptr with PLcb h => Ok h | _ => bad_cast end.

Definition UnwrapWorkerLcbInstance (obj : js_object) : outcome lcb_id :=
  ptr ← GetInternalField 2 obj;
  match ptr with PLcb h => Ok h | _ => bad_cast end.

Definition UnwrapWorkerInstance (obj : js_object) : outcome unit :=
  ptr ← GetInternalField 1 obj;
  match ptr with PWorker => Ok tt | _ => bad_cast end.

Definition UnwrapMap (obj : js_object) : outcome map_id :=
  ptr ← GetInternalField 0 obj;
  match ptr with PMap m => Ok m | _ => bad_cast end.

(** ** Values *)

Class V8 := {
  jsval : Type;
  js_undefined : jsval;
  js_true : jsval;
  js_string : string → jsval;               (** [String::NewFromUtf8] *)
  js_host : js_object → jsval;              (** an object of the binding *)
  js_array : list (option jsval) → jsval;   (** an array; [None] is a hole *)
  is_string : jsval → bool;
  is_function : jsval → bool;
  (** [JSON::Parse]: [None] is an empty handle, with an exception pending. *)
  json_parse : string → option jsval;
  (** [JSON.stringify]: [None] when it throws. *)
  json_stringify : jsval → option jsval;
  (** [String::Utf8Value]: [None] is the null pointer of a failed conversion. *)
  utf8 : jsval → option string
}.

(** [plain]: the data that JSON can express. *)
Class V8Laws `{V8} := {
  plain : jsval → Prop;
  utf8_js_string s : utf8 (js_string s) = Some s;
  is_string_js_string s : is_string (js_string s) = true;
  json_parse_empty : json_parse EmptyString = None;
  json_plain v :
    plain v →
    ∃ s, json_stringify v = Some (js_string s) ∧ nul_free s = true ∧ json_parse s = Some v;
  json_undefined : json_stringify js_undefined = Some js_undefined;
  utf8_undefined : utf8 js_undefined = Some "undefined"%string;
  json_parse_undefined : json_parse "undefined" = None
}.

(** [string( *utf8_value)]: from a C string; a null pointer is undefined. *)
Definition utf8_string (u : option string) : outcome string :=
  match u with
  | Some s => Ok (c_str s)
  | None => Fail (Undefined "std::string from a null pointer")
  end.

(** [ToCString]: guards the null pointer. *)
Definition ToCString (u : option string) : string :=
  match u with
  | Some s => c_str s
  | None => "<string conversion failed>"
  end.

Section helpers.
Context `{V8}.

(** [createUtf8String(isolate, str)]: from a C string. *)
Definition createUtf8String (str : string) : jsval := js_string (c_str str).

(** [ObjectToString(value)]. *)
Definition ObjectToString (value : jsval) : outcome string := utf8_string (utf8 value).

(** [ToString(isolate, object)]: the text of [JSON.stringify(object)]; an empty
    handle has no text. *)
Definition ToString (object : jsval) : outcome string :=
  match json_stringify object with
  | Some result => ObjectToString result
  | None => utf8_string None
  end.

(** [ToJson(isolate, object)]: the pointer that [ToCString] returns is that of
    the local [Utf8Value], whose buffer is freed on return. *)
Definition ToJson (object : jsval) : outcome char_ptr :=
  match json_stringify object with
  | Some result =>
      match utf8 result with
      | Some s => Ok (Dangling (c_str s))
      | None => Ok (Valid (ToCString None))
      end
  | None => Fail (Undefined "ToString on an empty handle")
  end.

(** The first argument of a property callback. *)
Inductive js_name : Type :=
  | NSymbol
  | NString (s : string).

(** [ObjectToString(Local<String>::Cast(name))]. *)
Definition name_string (s : string) : outcome string := ObjectToString (js_string s).

(** What JavaScript sees of a callback: no return value was set (V8 then goes on
    with the ordinary property), a value, or a pending exception. *)
Inductive reply : Type :=
  | Pass
  | Return (v : jsval)
  | Threw.
End helpers.

(** A return value that is an empty handle comes with the exception. *)
Definition return_handle `{V8} (v : option jsval) : reply :=
  match v with Some v => Return v | None => Threw end.

(** ** Lemmas *)

Lemma cached_ok slot make : slot_ok slot make → cached slot make = make.
Proof. by intros [-> | ->]. Qed.

Lemma GetInternalField_Set o i p o' :
  SetInternalField i p o = Ok o' →
  GetInternalField i o' = Ok p ∧
  (∀ j, j ≠ i → GetInternalField j o' = GetInternalField j o) ∧
  o_handlers o' = o_handlers o.
Proof.
  unfold SetInternalField, GetInternalField. destruct (decide _) as [Hi|]; [|done].
  intros [= <-]. cbn. rewrite list_lookup_insert_eq by done. split_and!; [done| |done].
  intros j Hj. by rewrite list_lookup_insert_ne by done.
Qed.

Section value_facts.
Context `{V8Laws}.

Lemma name_string_ok s : name_string s = Ok (c_str s).
Proof. unfold name_string, ObjectToString. by rewrite utf8_js_string. Qed.

(** Plain data survive [ToString] and [JSON::Parse]. *)
Lemma ToString_plain v :
  plain v → ∃ s, ToString v = Ok s ∧ nul_free s = true ∧ json_parse s = Some v.
Proof.
  intros (s & Hs & Hn & Hp)%json_plain. exists s. unfold ToString, ObjectToString.
  rewrite Hs, utf8_js_string. cbn. by rewrite c_str_id.
Qed.

Lemma ToString_undefined : ToString js_undefined = Ok "undefined"%string.
Proof. unfold ToString, ObjectToString. by rewrite json_undefined, utf8_undefined. Qed.
End value_facts.
