(* ===== verification/MiniV8.v ===== *)
(** * A small JavaScript value model

    An executable instance of [V8] on which the witnesses run: JSON data,
    [undefined], arrays with holes, functions by name and host objects. *)

From S2P Require Import Prelude CStd Json MiniJson V8.
#[local] Open Scope Z_scope.

Inductive mval : Type :=
  | MJson (j : json)
  | MUndefined
  | MArray (l : list (option mval))
  | MFunction (name : string)
  | MHost (o : js_object).

(** The JSON text of strings, numbers and literals; [None] where the small model
    does not serialise. *)
Definition mini_stringify (v : mval) : option mval :=
  match v with
  | MJson (JString s) => Some (MJson (JString (quote s)))
  | MJson (JInt z) => Some (MJson (JString (dec z)))
  | MJson (JBool b) => Some (MJson (JString (if b then "true" else "false")%string))
  | MJson JNull => Some (MJson (JString "null"%string))
  | MUndefined => Some MUndefined
  | _ => None
  end.

Definition mini_utf8 (v : mval) : option string :=
  match v with
  | MJson (JString s) => Some s
  | MJson (JInt z) => Some (dec z)
  | MUndefined => Some "undefined"%string
  | _ => Some "[object Object]"%string
  end.

#[export] Instance mini_v8 : V8 := {|
  jsval := mval;
  js_undefined := MUndefined;
  js_true := MJson (JBool true);
  js_string s := MJson (JString s);
  js_host := MHost;
  js_array := MArray;
  is_string v := match v with MJson (JString _) => true | _ => false end;
  is_function v := match v with MFunction _ => true | _ => false end;
  json_parse s := MJson <$> mini_parse s;
  json_stringify := mini_stringify;
  utf8 := mini_utf8
|}.

(** The data of the model that certainly round-trip. *)
Definition mini_plain (v : mval) : Prop :=
  (∃ s, v = MJson (JString s)) ∨ (∃ b, v = MJson (JBool b)) ∨ v = MJson JNull.

Lemma mini_parse_quote s : mini_parse (quote s) = Some (JString s).
Proof.
  unfold mini_parse. rewrite <-(sapp_nil_r (quote s)) at 2.
  rewrite parse_value_quote. reflexivity.
Qed.

#[export] Program Instance mini_v8_laws : V8Laws (H := mini_v8) := {| plain := mini_plain |}.
Solve Obligations with done.
Next Obligation.
  intros v [[s ->]|[[b ->]| ->]].
  - exists (quote s). split_and!; [done|apply quote_nul_free|]. cbn. by rewrite mini_parse_quote.
  - exists (if b then "true" else "false")%string. by destruct b.
  - by exists "null"%string.
Qed.
