(* ===== verification/Engine.v ===== *)
(** * Handlers and their calls into the binding

    A JavaScript function, once called, computes, calls the binding any number
    of times and ends: [js_prog] is that computation as a tree, [Engine] the
    engine that produces it.  The tree is finite; Terminate.v has handlers that
    may run for ever and may be stopped, and shows that what they do, as far as
    they end, is what finite trees do. *)

From S2P Require Import Prelude CStd V8.

(** The functions on the global template. *)
Inductive host_function : Type := Flog | FregisterCallback | Fsendmail.

#[export] Instance host_function_eq_dec : EqDecision host_function.
Proof. solve_decision. Defined.

Section programs.
Context `{V8}.

(** What JavaScript asks of the binding. *)
Inductive host_call : Type :=
  | HGet (o : js_object) (name : js_name)
  | HSet (o : js_object) (name : js_name) (v : jsval)
  | HDelete (o : js_object) (name : js_name)
  | HCall (f : host_function) (args : list jsval).

(** [S]: the engine's own state, with the global object. *)
Inductive js_prog (S : Type) : Type :=
  | JDone (s : S) (result : jsval)
  | JThrow (s : S) (exception : jsval)
  | JHost (c : host_call) (k : reply → js_prog S).
End programs.
Arguments JDone {_ _} s result.
Arguments JThrow {_ _} s exception.
Arguments JHost {_ _} c k.

(** Fields of a [v8::Message]. *)
Record js_message := JsMessage {
  m_resource : option string;   (** [Utf8Value] of the script's name *)
  m_line : Z;
  m_source : option string;     (** [Utf8Value] of the source line *)
  m_start : Z;
  m_end : Z
}.

(** What a [TryCatch] holds. *)
Record caught := Caught {
  c_exception : option string;     (** [Utf8Value] of the exception *)
  c_message : option js_message;   (** [None]: the empty handle *)
  c_stack : option string          (** [Utf8Value] of the stack trace *)
}.

Class Engine `{V8} := {
  js_state : Type;
  (** A fresh context whose global template carries [names]. *)
  new_context : list (string * host_function) → js_state;
  (** [Global()->Get(context, name)]: [None] when a getter throws. *)
  global_get : string → js_state → option jsval;
  global_set : string → jsval → js_state → js_state;
  (** [Script::Compile]: the error, or the script's body. *)
  compile : string → js_state → caught + js_prog js_state;
  (** [f->Call(global, args)]. *)
  call : jsval → list jsval → js_state → js_prog js_state;
  (** What a [TryCatch] reports of an exception. *)
  describe : jsval → js_state → caught;
  (** The [SyntaxError] of [JSON::Parse] on a text. *)
  syntax_error : string → caught
}.

Class EngineLaws `{Engine} := {
  global_get_set name v s : global_get name (global_set name v s) = Some v;
  global_get_set_ne name name' v s :
    name ≠ name' → global_get name' (global_set name v s) = global_get name' s;
  new_context_get names name :
    is_Some (global_get name (new_context names))
}.
