(* ===== verification/Timers.v ===== *)
(** * Timer callbacks (worker.cc)

    [RegisterCallback] stores a timer blob under the document id and appends
    the id to the marker document of its second; [SendTimerCallback] gets the
    marker's value and calls the callback of each id in it.  The two run far
    apart in time: the marker's text is all that connects them. *)

From S2P Require Import Prelude CStd Calendar Kv Json V8.
#[local] Open Scope Z_scope.

(** ** [RegisterCallback] *)

Section register.
Context `{Lcb} `{RapidJson}.

(** The blob written for a timer. *)
Definition timer_fields (callback_func doc_id timestamp : string) : list (string * string) :=
  [("callback_func", callback_func); ("doc_id", doc_id); ("start_timestamp", timestamp)].

Definition timer_blob (callback_func doc_id timestamp : string) : string :=
  c_str (rj_write (string_object (timer_fields callback_func doc_id timestamp))).

(** The stores that follow the computation of the timestamp. *)
Definition store_timer (h : lcb_t) (callback_func doc_id timestamp : string) : prog cluster unit :=
  _ ← lcb_store_wait h None
        (CmdStore doc_id (timer_blob callback_func doc_id timestamp) LCB_SET json_flags);
  ck ← lcb_get_wait h (Some Result_new) timestamp;
  result ← lift (the_result ck);
  _ ← (if status result =? LCB_SUCCESS then mret None
       else lcb_store_wait h None (CmdStore timestamp EmptyString LCB_ADD 0));
  _ ← lcb_store_wait h None (CmdStore timestamp (doc_id +:+ ";") LCB_APPEND 0);
  mret tt.

(** [now] is the clock, [handle] what the isolate's data slot 1 points to (read
    only once it is needed); the arguments are the [Utf8Value]s of the call. *)
Definition RegisterCallback (handle : outcome lcb_t) (now : Z) (arg0 arg1 arg2 : option string)
    : prog cluster unit :=
  callback_func ← lift (utf8_string arg0);
  doc_id ← lift (utf8_string arg1);
  startTs ← lift (utf8_string arg2);
  v ← lift (atoi startTs);
  if v =? 0 then mret tt
  else
    timestamp ← lift (ConvertToISO8601 now startTs);
    h ← lift handle;
    store_timer h callback_func doc_id timestamp.
End register.

(** ** [SendTimerCallback] *)

Section send.
Context `{Lcb} `{RapidJson} {W : Type} `{!Lens W cluster}.

(** [call_global f arg]: the JavaScript call of the global function named [f]. *)
Context (call_global : string → string → prog W unit).

(** The members of a timer blob the loop reads. *)
Definition read_timer (d : json) : outcome (string * string * string) :=
  if IsObject d then
    cf ← member "callback_func" d;
    id ← member "doc_id" d;
    sts ← member "start_timestamp" d;
    callback_func ← GetString cf;
    doc_id ← GetString id;
    start_timestamp ← GetString sts;
    mret (callback_func, doc_id, start_timestamp)
  else Fail AssertFailed.

(** The body of [for (auto key : keys)]; a parse error leaves the function. *)
Fixpoint timer_loop (h : lcb_t) (keys : list string) : prog W unit :=
  match keys with
  | [] => mret tt
  | key :: keys =>
      ck ← zoom (lcb_get_wait h (Some Result_new) key);
      result ← lift (the_result ck);
      match rj_parse (c_str (value result)) with
      | None => mret tt
      | Some d =>
          t ← lift (read_timer d);
          let '(callback_func, doc_id, _) := t in
          _ ← call_global callback_func doc_id;
          timer_loop h keys
      end
  end.

(** [split(k, ';')]. *)
Definition split (s : string) (delim : ascii) : list string := getline_all delim EmptyString s.

Definition SendTimerCallback (h : lcb_t) (k : string) : prog W unit :=
  timer_loop h (split (c_str k) ";").
End send.

(** ** The timer blob *)

Section blob.
Context `{RapidJsonLaws}.

Lemma timer_blob_text cf id ts :
  timer_blob cf id ts = rj_write (string_object (timer_fields cf id ts)).
Proof. apply c_str_id, write_nul_free. Qed.

Lemma timer_blob_c_str cf id ts : c_str (timer_blob cf id ts) = timer_blob cf id ts.
Proof. apply c_str_idemp. Qed.

(** What [RegisterCallback] writes, [SendTimerCallback] reads. *)
Lemma read_timer_blob cf id ts :
  ∃ d, rj_parse (timer_blob cf id ts) = Some d ∧
       read_timer d = Ok (c_str cf, c_str id, c_str ts).
Proof. rewrite timer_blob_text, parse_string_object. eexists; split; reflexivity. Qed.
End blob.

(** ** [RegisterCallback] step by step *)

Section register_facts.
Context `{LcbLaws} `{RapidJson}.
Implicit Types c : cluster.

(** The arguments of a call that sets a timer for the key [timestamp]. *)
Definition sets_timer (now : Z) (startTs timestamp : string) : Prop :=
  ∃ v, atoi startTs = Ok v ∧ v ≠ 0 ∧ ConvertToISO8601 now startTs = Ok timestamp ∧
       nul_free startTs = true.

Lemma RegisterCallback_eq h now cf id startTs timestamp c :
  sets_timer now startTs timestamp → nul_free cf = true → nul_free id = true →
  RegisterCallback (Ok h) now (Some cf) (Some id) (Some startTs) c
  = store_timer h cf id timestamp c.
Proof.
  intros (v & Hv & Hnz & Ht & Hs) Hcf Hid. unfold RegisterCallback. cbn [utf8_string].
  rewrite !c_str_id by done. unfold mbind at 1, prog_bind at 1. cbn.
  unfold mbind, prog_bind. cbn. rewrite Hv. destruct (Z.eqb_spec v 0); [done|].
  by rewrite Ht.
Qed.

(** The states a call goes through. *)
Definition after_blob b cf id ts c := (lcb_store3 b (CmdStore id (timer_blob cf id ts) LCB_SET json_flags) c).1.
Definition found b ts c : bool :=
  match (lcb_get3 b ts c).2 with Some x => get_rc x =? LCB_SUCCESS | None => true end.
Definition after_probe b ts c : cluster := (lcb_get3 b ts c).1.
Definition after_add b ts c : cluster :=
  if found b ts c then after_probe b ts c
  else (lcb_store3 b (CmdStore ts EmptyString LCB_ADD 0) (after_probe b ts c)).1.
Definition after_append b id ts c : cluster :=
  (lcb_store3 b (CmdStore ts (id +:+ ";") LCB_APPEND 0) c).1.

Lemma store_timer_eq b cf id ts c :
  store_timer (worker_handle b) cf id ts c
  = (after_append b id ts (after_add b ts (after_blob b cf id ts c)), Ok tt).
Proof.
  unfold store_timer. erewrite bind_Ok by apply worker_store_wait. cbv beta.
  fold (after_blob b cf id ts c). set (c1 := after_blob b cf id ts c).
  destruct (get_wait_fresh (worker_handle b) ts c1) as (r & Hr & _ & Hs); [by exists b; left|].
  erewrite bind_Ok by exact Hr. cbv beta. erewrite bind_Ok by apply lift_Ok. cbv beta.
  cbn [connstr worker_handle] in *. rewrite Hs.
  unfold after_add, after_append, found, after_probe.
  destruct (lcb_get3 b ts c1) as [c2 [x|]]; cbn [fst snd]; [destruct (get_rc x =? LCB_SUCCESS)|];
    unfold mbind, prog_bind; cbn [mret prog_ret];
    rewrite ?worker_store_wait; cbn; by rewrite ?worker_store_wait.
Qed.

Lemma store_timer_frame b cf id ts c :
  frame b {[id; ts]} c (store_timer (worker_handle b) cf id ts c).1.
Proof.
  rewrite store_timer_eq. cbn [fst]. unfold after_append, after_blob, after_add, after_probe.
  eapply frame_trans; [|apply store_frame_in; cbn; set_solver].
  set (c1 := (lcb_store3 b _ c).1). apply frame_trans with c1; [apply store_frame_in; cbn; set_solver|].
  destruct (found b ts c1); [apply get_frame|].
  eapply frame_trans; [apply get_frame|apply store_frame_in; cbn; set_solver].
Qed.
End register_facts.

(** ** The marker document *)

Section marker.
Context `{LcbLaws} `{RapidJson}.
Implicit Types c : cluster.

Definition marker (b ts : string) c : option string := doc_value <$> contents c b !! ts.

Lemma marker_frame b ts ks c c' : frame b ks c c' → ts ∉ ks → marker b ts c' = marker b ts c.
Proof. intros F Hk. unfold marker. rewrite F; auto. Qed.

Lemma after_blob_marker b cf id ts c : id ≠ ts → marker b ts (after_blob b cf id ts c) = marker b ts c.
Proof. intros Hne. eapply marker_frame; [apply store_frame_in, elem_of_singleton; reflexivity|cbn; set_solver]. Qed.

Lemma after_add_marker b ts c :
  marker b ts (after_add b ts c) = marker b ts c ∨
  (marker b ts c = None ∧ marker b ts (after_add b ts c) = Some EmptyString).
Proof.
  unfold after_add, after_probe. destruct (found b ts c).
  { left. unfold marker. by rewrite get_contents. }
  set (c1 := (lcb_get3 b ts c).1). set (cmd := CmdStore ts EmptyString LCB_ADD 0).
  assert (marker b ts c1 = marker b ts c) as <- by (unfold marker, c1; by rewrite get_contents).
  unfold marker. destruct (store_doc b cmd c1) as [E|(ca & m' & Ha & E)]; cbn [cmd_key cmd] in E; rewrite E.
  - by left.
  - right. unfold apply_store in Ha. cbn in Ha. destruct (contents c1 b !! ts); [done|].
    injection Ha as <-. by rewrite lookup_insert_eq.
Qed.

Lemma after_append_marker b id ts c :
  marker b ts (after_append b id ts c) = marker b ts c ∨
  ∃ old, marker b ts c = Some old ∧
         marker b ts (after_append b id ts c) = Some (old +:+ id +:+ ";").
Proof.
  unfold after_append, marker. set (cmd := CmdStore ts (id +:+ ";") LCB_APPEND 0).
  destruct (store_doc b cmd c) as [E|(ca & m' & Ha & E)]; cbn [cmd_key cmd] in E; rewrite E.
  - by left.
  - right. unfold apply_store in Ha. cbn in Ha. destruct (contents c b !! ts) as [d|]; [|done].
    injection Ha as <-. exists (doc_value d). by rewrite lookup_insert_eq.
Qed.

(** Whatever fails on the way, the marker gains this id or nothing. *)
Lemma store_timer_marker b cf id ts c :
  id ≠ ts →
  let c' := (store_timer (worker_handle b) cf id ts c).1 in
  marker b ts c' = marker b ts c ∨
  (marker b ts c = None ∧ marker b ts c' = Some EmptyString) ∨
  marker b ts c' = Some (default EmptyString (marker b ts c) +:+ id +:+ ";").
Proof.
  intros Hne. rewrite store_timer_eq. cbn.
  rewrite <-(after_blob_marker b cf id ts c Hne). set (c1 := after_blob b cf id ts c).
  destruct (after_add_marker b ts c1) as [Ea|[En Ea]];
    destruct (after_append_marker b id ts (after_add b ts c1)) as [E|(old & Eo & E)];
    rewrite E, ?Ea; [by left| |by right; left|].
  - rewrite Ea in Eo. rewrite Eo. by right; right.
  - rewrite Ea in Eo. injection Eo as <-. rewrite En. by right; right.
Qed.
End marker.

Section healthy_marker.
Context `{LcbHealthy} `{RapidJson}.
Implicit Types c : cluster.

(** When no request fails, the id is appended and the blob is there. *)
Lemma healthy_store_timer b cf id ts c :
  id ≠ ts → valid_key id = true → valid_key ts = true →
  slen (timer_blob cf id ts) <= max_value →
  slen (default EmptyString (marker b ts c) +:+ id +:+ ";") <= max_value →
  let c' := (store_timer (worker_handle b) cf id ts c).1 in
  marker b ts c' = Some (default EmptyString (marker b ts c) +:+ id +:+ ";") ∧
  (doc_value <$> contents c' b !! id) = Some (timer_blob cf id ts).
Proof.
  intros Hne Hid Hts Hblob Hsize. rewrite store_timer_eq. cbn [fst].
  destruct (healthy_set b id (timer_blob cf id ts) json_flags c Hid Hblob) as [ca E1].
  change (lcb_store3 b _ c).1 with (after_blob b cf id ts c) in E1.
  pose proof (after_blob_marker b cf id ts c Hne) as Em.
  set (c1 := after_blob b cf id ts c) in *. rewrite <-Em in Hsize |- *.
  set (old := default EmptyString (marker b ts c1)) in *.
  assert (∃ d, contents (after_add b ts c1) b !! ts = Some d ∧ doc_value d = old) as (d & Hd & Ed).
  { unfold after_add, found. destruct (contents c1 b !! ts) as [d|] eqn:Ed.
    - destruct (healthy_get_value b ts c1 d Ed Hts) as (x & -> & -> & _). cbn.
      exists d. unfold after_probe, old, marker. rewrite get_contents, Ed. done.
    - assert (old = EmptyString) as -> by (unfold old, marker; by rewrite Ed).
      destruct (healthy_get_absent b ts c1 Ed Hts) as (x & -> & Hx).
      rewrite (proj2 (Z.eqb_neq _ _) Hx).
      destruct (healthy_add b ts EmptyString 0 (after_probe b ts c1)) as [ca' E2];
        [unfold after_probe; by rewrite get_contents|done|done|].
      rewrite E2, lookup_insert_eq. eauto. }
  destruct (healthy_append b ts (id +:+ ";") 0 (after_add b ts c1) d Hd Hts) as [ca' E3];
    [by rewrite Ed|].
  change (lcb_store3 b _ _).1 with (after_append b id ts (after_add b ts c1)) in E3.
  split.
  - unfold marker. rewrite E3, lookup_insert_eq. cbn. by rewrite Ed.
  - rewrite E3, lookup_insert_ne by done.
    assert (contents (after_add b ts c1) b !! id = contents c1 b !! id) as ->.
    { unfold after_add, after_probe. destruct (found b ts c1); [by rewrite get_contents|].
      rewrite (store_frame_in b {[ts]}) by (cbn; set_solver). by rewrite get_contents. }
    rewrite E1, lookup_insert_eq. done.
Qed.
End healthy_marker.

(** ** [SendTimerCallback] step by step *)

(** [id] holds the blob of a timer that calls [cf]. *)
Definition has_timer `{LcbLaws} `{RapidJson} (b : string) (c : cluster) (cf id : string) : Prop :=
  ∃ ts, (doc_value <$> contents c b !! id) = Some (timer_blob cf id ts).

(** A name or id the blob carries unchanged, and that is a legal key. *)
Definition good_timer (t : string * string) : Prop :=
  nul_free t.1 = true ∧ nul_free t.2 = true ∧ valid_key t.2 = true.

(** One round of the loop, on a key whose timer is there. *)
Lemma timer_loop_cons `{LcbHealthy} `{RapidJsonLaws} {W} `{!Lens W cluster}
    (call_global : string → string → prog W unit) b cf id ids (w : W) :
  good_timer (cf, id) → has_timer b (view w) cf id →
  timer_loop call_global (worker_handle b) (id :: ids) w
  = (_ ← call_global cf id; timer_loop call_global (worker_handle b) ids)
      (update (lcb_get3 b id (view w)).1 w).
Proof.
  intros (Hcf & Hid & Hk) [ts Hblob]. cbn [fst snd] in *. cbn [timer_loop].
  apply fmap_Some in Hblob as (d & Hd & Hv).
  destruct (get_wait_fresh (worker_handle b) id (view w)) as (r & Hr & Hval & _); [by exists b; left|].
  destruct (healthy_get_value b id (view w) d Hd Hk) as (x & Hx & Hok & Hxv).
  cbn [connstr worker_handle] in *. rewrite Hx, Hok, Hxv, <-Hv in Hval. cbn in Hval.
  erewrite bind_Ok by (apply zoom_Ok; exact Hr). cbv beta.
  erewrite bind_Ok by apply lift_Ok. cbv beta.
  destruct (read_timer_blob cf id ts) as (j & Hj & Hread).
  rewrite !c_str_id in Hread by done.
  rewrite Hval, timer_blob_c_str, Hj, Hread.
  by erewrite bind_Ok by apply lift_Ok.
Qed.

(** The state of a run in which every callback call is logged; [act] is what the
    JavaScript of a callback does to the servers. *)
Section logged.
Context `{Lcb}.

#[export] Program Instance log_lens {L : Type} : Lens (cluster * L) cluster :=
  {| view w := w.1; update c w := (c, w.2) |}.
Next Obligation. done. Qed.
Next Obligation. by intros L [??]. Qed.
Next Obligation. done. Qed.

Definition logged (act : string → string → cluster → cluster) (f arg : string)
    : prog (cluster * list (string * string)) unit :=
  λ w, ((act f arg w.1, w.2 ++ [(f, arg)]), Ok tt).
End logged.

Section loop.
Context `{LcbHealthy} `{RapidJsonLaws}.
Implicit Types c : cluster.

Context (b : string) (act : string → string → cluster → cluster).

(** The callbacks leave the documents [ids] alone. *)
Definition act_keeps (ids : list string) : Prop :=
  ∀ f arg c id, id ∈ ids → contents (act f arg c) b !! id = contents c b !! id.

(** The keys of stored timers are handled one by one, in order. *)
Lemma timer_loop_prefix timers rest c log :
  Forall good_timer timers →
  act_keeps (timers.*2) →
  (∀ t, t ∈ timers → has_timer b c t.1 t.2) →
  ∃ c', timer_loop (logged act) (worker_handle b) (timers.*2 ++ rest) (c, log)
        = timer_loop (logged act) (worker_handle b) rest (c', log ++ timers) ∧
        (∀ id, (∀ f arg c, contents (act f arg c) b !! id = contents c b !! id) →
               contents c' b !! id = contents c b !! id).
Proof.
  intros Hgood. revert c log.
  induction Hgood as [|[cf id] timers (Hcf & Hid & Hk) Hgood IH]; intros c log Hact Hst.
  { exists c. by rewrite app_nil_r. }
  cbn [fmap list_fmap app snd fst] in *.
  rewrite (timer_loop_cons _ b cf id _ (c, log)); [|by split_and!|apply (Hst (cf, id)); set_solver].
  set (c1 := act cf id (lcb_get3 b id c).1).
  erewrite bind_Ok by (unfold logged; reflexivity). cbv beta. cbn [view update log_lens fst snd].
  change (act cf id (lcb_get3 b id c).1) with c1.
  assert (∀ k, (∀ f arg c, contents (act f arg c) b !! k = contents c b !! k) →
    contents c1 b !! k = contents c b !! k) as Hc1
    by (intros k Hkeep; unfold c1; rewrite Hkeep; by rewrite get_contents).
  destruct (IH c1 (log ++ [(cf, id)])) as (c' & Hrun & Hc').
  - intros f arg c0 k Hin. apply Hact. by right.
  - intros t Ht. destruct (Hst t) as [ts' Ht']; [set_solver|]. exists ts'.
    unfold c1. rewrite Hact, get_contents; [done|]. right. by apply list_elem_of_fmap_2.
  - exists c'. rewrite Hrun, <-app_assoc. split; [done|]. intros k Hkeep. by rewrite Hc', Hc1.
Qed.

(** A key whose document cannot be read ends the run. *)
Lemma timer_loop_stops key rest c log :
  contents c b !! key = None →
  ∃ c', timer_loop (logged act) (worker_handle b) (key :: rest) (c, log) = ((c', log), Ok tt) ∧
        ∀ b', contents c' b' = contents c b'.
Proof.
  intros Hn. cbn [timer_loop].
  destruct (get_wait_fresh (worker_handle b) key c) as (r & Hr & Hval & _); [by exists b; left|].
  pose proof (get_absent b key c Hn) as Ha. unfold get_ok in Ha.
  cbn [connstr worker_handle] in *.
  assert (value r = EmptyString) as Hv.
  { rewrite Hval. destruct (lcb_get3 b key c).2; [by rewrite Ha|done]. }
  erewrite bind_Ok by (apply zoom_Ok; exact Hr). cbv beta.
  erewrite bind_Ok by apply lift_Ok. cbv beta.
  rewrite Hv. cbn [c_str]. rewrite parse_empty. eexists. split; [reflexivity|].
  intros b'. cbn. apply get_contents.
Qed.
End loop.

(** ** Runs of registrations *)

Record timer_request := TimerRequest {
  req_now : Z; req_callback : string; req_doc : string; req_start : string
}.

Definition req_timer (r : timer_request) : string * string := (req_callback r, req_doc r).

Section register_all.
Context `{LcbLaws} `{RapidJson}.
Implicit Types c : cluster.

Definition register (b : string) (r : timer_request) : prog cluster unit :=
  RegisterCallback (Ok (worker_handle b)) (req_now r) (Some (req_callback r)) (Some (req_doc r))
                   (Some (req_start r)).

(** A request that sets a timer of the second [ts], with a usable id. *)
Definition good_request (ts : string) (r : timer_request) : Prop :=
  sets_timer (req_now r) (req_start r) ts ∧ good_timer (req_timer r) ∧
  req_doc r ≠ ts ∧ lacks ";" (req_doc r) = true ∧
  slen (timer_blob (req_callback r) (req_doc r) ts) <= max_value.

Lemma register_eq b ts r c :
  good_request ts r →
  register b r c = store_timer (worker_handle b) (req_callback r) (req_doc r) ts c.
Proof. intros (Hs & (Hcf & Hid & _) & _). exact (RegisterCallback_eq _ _ _ _ _ _ _ Hs Hcf Hid). Qed.

Lemma register_run b ts r c :
  good_request ts r →
  ∃ c', register b r c = (c', Ok tt) ∧ frame b {[req_doc r; ts]} c c' ∧
        c' = (store_timer (worker_handle b) (req_callback r) (req_doc r) ts c).1.
Proof.
  intros Hr. rewrite (register_eq b ts r c Hr).
  pose proof (store_timer_frame b (req_callback r) (req_doc r) ts c) as F.
  rewrite store_timer_eq in *. eauto.
Qed.

Lemma frame_register b ts id ids c c1 c2 :
  frame b {[id; ts]} c c1 → frame b (list_to_set (ts :: ids)) c1 c2 →
  frame b (list_to_set (ts :: id :: ids)) c c2.
Proof.
  intros F1 F2. apply frame_trans with c1; (eapply frame_weaken; [|eassumption]);
    clear; cbn; set_solver.
Qed.

(** With faults: the marker is a list of some of the ids, in order. *)
Lemma register_all_marker b ts regs l c :
  Forall (good_request ts) regs →
  marker b ts c = Some (join_term ";" l) ∨ (marker b ts c = None ∧ l = []) →
  ∃ c' ids, for_each (register b) regs c = (c', Ok tt) ∧
    frame b (list_to_set (ts :: (req_doc <$> regs))) c c' ∧
    ids `sublist_of` (req_doc <$> regs) ∧
    (marker b ts c' = Some (join_term ";" (l ++ ids)) ∨
     (marker b ts c' = None ∧ l ++ ids = [])).
Proof.
  intros Hregs. revert l c. induction Hregs as [|r regs Hr Hregs IH]; intros l c Hm.
  { exists c, []. rewrite app_nil_r. split_and!; [done|apply frame_refl|constructor|done]. }
  cbn [for_each fmap list_fmap]. destruct (register_run b ts r c Hr) as (c1 & Hrun & F1 & Ec1).
  erewrite bind_Ok by exact Hrun. cbv beta.
  assert (Hne : req_doc r ≠ ts) by apply Hr.
  destruct (store_timer_marker b (req_callback r) (req_doc r) ts c Hne) as [E|[[En E]|E]];
    rewrite <-Ec1 in E.
  1: destruct (IH l c1) as (c' & ids & Hall & F & Hsub & Hc'); [by rewrite E|].
  2: destruct (IH [] c1) as (c' & ids & Hall & F & Hsub & Hc'); [by left|].
  3: destruct (IH (l ++ [req_doc r]) c1) as (c' & ids & Hall & F & Hsub & Hc').
  3: { left. rewrite E, join_term_app. cbn. destruct Hm as [-> |[-> ->]]; done. }
  - exists c', ids. split_and!; [done| |by constructor|done].
    by apply (frame_register _ _ _ _ _ c1).
  - assert (l = []) as -> by (destruct Hm as [Hm|[_ ->]]; congruence).
    exists c', ids. split_and!; [done| |by constructor|done].
    by apply (frame_register _ _ _ _ _ c1).
  - exists c', (req_doc r :: ids). rewrite <-app_assoc in Hc'. split_and!; [done| |by constructor|done].
    by apply (frame_register _ _ _ _ _ c1).
Qed.
End register_all.

Section register_all_healthy.
Context `{LcbHealthy} `{RapidJson}.
Implicit Types c : cluster.

Lemma join_term_length_le d l k : slen (join_term d l) <= slen (join_term d (l ++ k)).
Proof. rewrite join_term_app, slen_app. pose proof (slen_nonneg (join_term d k)). lia. Qed.

(** Without faults: every id is in the marker and every blob in its document. *)
Lemma register_all_healthy b ts regs l c :
  valid_key ts = true → Forall (good_request ts) regs → NoDup (req_doc <$> regs) →
  default EmptyString (marker b ts c) = join_term ";" l →
  slen (join_term ";" (l ++ (req_doc <$> regs))) <= max_value →
  ∃ c', for_each (register b) regs c = (c', Ok tt) ∧
    frame b (list_to_set (ts :: (req_doc <$> regs))) c c' ∧
    default EmptyString (marker b ts c') = join_term ";" (l ++ (req_doc <$> regs)) ∧
    ∀ r, r ∈ regs → has_timer b c' (req_callback r) (req_doc r).
Proof.
  intros Hts Hregs. revert l c. induction Hregs as [|r regs Hr Hregs IH]; intros l c Hnd Hm Hsize.
  { exists c. rewrite app_nil_r. split_and!; [done|apply frame_refl|done|set_solver]. }
  cbn [for_each fmap list_fmap] in *. apply NoDup_cons in Hnd as [Hnotin Hnd].
  destruct (register_run b ts r c Hr) as (c1 & Hrun & F1 & Ec1).
  destruct (healthy_store_timer b (req_callback r) (req_doc r) ts c) as [Em1 Eb1]; try apply Hr; [done| |].
  { rewrite Hm. pose proof (join_term_length_le ";" (l ++ [req_doc r]) (req_doc <$> regs)) as Hle.
    rewrite <-app_assoc, join_term_app in Hle. cbn in Hle. cbn [app] in Hle. lia. }
  rewrite <-Ec1 in Em1, Eb1.
  destruct (IH (l ++ [req_doc r]) c1) as (c' & Hall & F & Hm' & Hst); [done| | |].
  - rewrite Em1, Hm, join_term_app. done.
  - by rewrite <-app_assoc.
  - exists c'. erewrite bind_Ok by exact Hrun. cbv beta. rewrite <-app_assoc in Hm'.
    split_and!; [done| |done|].
    + by apply (frame_register _ _ _ _ _ c1).
    + intros r' [->|Hin]%elem_of_cons; [|by apply Hst]. exists ts. rewrite <-Eb1. f_equal.
      apply F. right. destruct Hr as (_ & _ & Hne & _).
      rewrite list_to_set_cons, not_elem_of_union, elem_of_singleton, elem_of_list_to_set. done.
Qed.
End register_all_healthy.

(** ** Properties *)

Section timer_properties.
Context `{LcbHealthy} `{RapidJsonLaws}.
Implicit Types c : cluster.

(** C5: timers end to end.  When requests do not fail, registering any
    number of timers that are due in the same second (their ids distinct and
    free of the delimiter) leaves a marker document from which
    [SendTimerCallback] calls exactly the registered callbacks, each once,
    with its document id, in the order of registration, whatever the
    callbacks do to other documents. *)
Theorem timers_fire_in_order b ts regs c act :
  valid_key ts = true → Forall (good_request ts) regs → NoDup (req_doc <$> regs) →
  marker b ts c = None →
  slen (join_term ";" (req_doc <$> regs)) <= max_value →
  act_keeps b act (req_doc <$> regs) →
  ∃ c1, for_each (register b) regs c = (c1, Ok tt) ∧
    ∀ log, ∃ c2,
      SendTimerCallback (logged act) (worker_handle b) (default EmptyString (marker b ts c1)) (c1, log)
      = ((c2, log ++ (req_timer <$> regs)), Ok tt).
Proof.
  intros Hts Hregs Hnd Hm Hsize Hact.
  destruct (register_all_healthy b ts regs [] c) as (c1 & Hrun & _ & Hm1 & Hst); try done.
  { by rewrite Hm. }
  exists c1. split; [done|]. intros log. cbn [app] in Hm1. rewrite Hm1.
  unfold SendTimerCallback, split.
  assert (Hids : (req_timer <$> regs).*2 = req_doc <$> regs) by (by rewrite <-list_fmap_compose).
  assert (Forall good_timer (req_timer <$> regs)) as Hgood.
  { apply Forall_fmap. eapply Forall_impl; [exact Hregs|]. intros r Hr. apply Hr. }
  rewrite c_str_id.
  - rewrite getline_join_term.
    + destruct (timer_loop_prefix b act (req_timer <$> regs) [] c1 log Hgood) as (c2 & Hloop & _).
      * by rewrite Hids.
      * intros t (r & -> & Hr)%list_elem_of_fmap. by apply Hst.
      * rewrite Hids, app_nil_r in Hloop. exists c2. by rewrite Hloop.
    + apply Forall_fmap. eapply Forall_impl; [exact Hregs|]. intros r Hr. apply Hr.
  - clear - Hregs. induction Hregs as [|r regs Hr Hregs IH]; [done|].
    cbn. unfold nul_free in *. rewrite sforall_app. cbn. rewrite IH, andb_true_r. apply Hr.
Qed.

(** One key of the marker whose document is gone ends the whole run: the
    timers before it are called, those after it never are, although their
    documents are all there. *)
Theorem missing_timer_drops_the_rest b timers key rest c act log :
  Forall good_timer timers → Forall (λ id, lacks ";" id = true ∧ nul_free id = true) (key :: rest) →
  Forall (λ t, lacks ";" t.2 = true) timers →
  act_keeps b act (timers.*2) →
  (∀ f arg c, contents (act f arg c) b !! key = contents c b !! key) →
  (∀ t, t ∈ timers → has_timer b c t.1 t.2) →
  contents c b !! key = None →
  ∃ c2, SendTimerCallback (logged act) (worker_handle b)
          (join_term ";" (timers.*2 ++ key :: rest)) (c, log)
        = ((c2, log ++ timers), Ok tt).
Proof.
  intros Hgood Hrest Htimers Hact Hkey Hst Hn.
  assert (Forall (λ id, lacks ";" id = true ∧ nul_free id = true) (timers.*2 ++ key :: rest)) as Hall.
  { apply Forall_app. split; [|done]. apply Forall_fmap, Forall_forall. intros t Ht.
    rewrite Forall_forall in Hgood, Htimers. split; [by apply Htimers|by apply Hgood]. }
  unfold SendTimerCallback, split. rewrite c_str_id.
  - rewrite getline_join_term by (eapply Forall_impl; [exact Hall|by intros ? []]).
    destruct (timer_loop_prefix b act timers (key :: rest) c log Hgood Hact Hst) as (c1 & -> & Hc1).
    destruct (timer_loop_stops b act key rest c1 (log ++ timers)) as (c2 & Hrun & _); [by rewrite Hc1|].
    by exists c2.
  - clear - Hall. induction Hall as [|x l [_ Hx] Hl IH]; [done|].
    cbn. unfold nul_free in *. rewrite sforall_app. cbn. by rewrite IH, Hx.
Qed.

(** A document id has one timer blob.  Registering a second timer
    for the same id at another second replaces the callback of the first:
    the first marker then calls the second callback. *)
Theorem second_timer_replaces_first b ts1 ts2 r1 r2 c act log :
  valid_key ts1 = true → valid_key ts2 = true → ts1 ≠ ts2 →
  good_request ts1 r1 → good_request ts2 r2 →
  req_doc r1 = req_doc r2 → req_doc r1 ≠ ts2 → req_doc r2 ≠ ts1 →
  marker b ts1 c = None → marker b ts2 c = None →
  act_keeps b act [req_doc r2] →
  ∃ c1 c2, for_each (register b) [r1; r2] c = (c1, Ok tt) ∧
    SendTimerCallback (logged act) (worker_handle b) (default EmptyString (marker b ts1 c1)) (c1, log)
    = ((c2, log ++ [(req_callback r2, req_doc r1)]), Ok tt).
Proof.
  intros Hts1 Hts2 Hne Hr1 Hr2 Hdoc Hd1 Hd2 Hm1 Hm2 Hact.
  assert (slen (req_doc r1) <= 250) as Hlen.
  { destruct Hr1 as (_ & (_ & _ & Hk) & _). unfold valid_key in Hk. cbn in Hk. lia. }
  assert (Hsz : slen (join_term ";" [req_doc r1]) <= max_value).
  { cbn. rewrite slen_app. change (slen ";") with 1. unfold max_value. lia. }
  destruct (register_all_healthy b ts1 [r1] [] c) as (c1 & Hrun1 & F1 & Em1 & _);
    [done|by constructor|apply NoDup_singleton|by rewrite Hm1|done|].
  assert (marker b ts2 c1 = None) as Hm2'.
  { rewrite <-Hm2. eapply marker_frame; [exact F1|]. clear - Hne Hd1. cbn. set_solver. }
  destruct (register_all_healthy b ts2 [r2] [] c1) as (c2 & Hrun2 & F2 & _ & Hst);
    [done|by constructor|apply NoDup_singleton|by rewrite Hm2'|by cbn; rewrite <-Hdoc|].
  destruct (timer_loop_prefix b act [req_timer r2] [] c2 log) as (c3 & Hloop & _).
  { constructor; [apply Hr2|constructor]. }
  { done. }
  { intros t ->%list_elem_of_singleton. apply (Hst r2). by left. }
  exists c2, c3. split.
  - cbn [for_each] in *. apply bind_Ok_inv in Hrun1 as (s1 & [] & R1 & [= ->]).
    erewrite bind_Ok by exact R1. cbv beta. exact Hrun2.
  - assert (marker b ts1 c2 = marker b ts1 c1) as ->.
    { eapply marker_frame; [exact F2|]. clear - Hne Hd2. cbn. set_solver. }
    rewrite Em1. unfold SendTimerCallback, split. rewrite c_str_id.
    + rewrite getline_join_term by (constructor; [apply Hr1|constructor]).
      cbn [app fmap list_fmap snd req_timer] in Hloop |- *. rewrite Hdoc. by rewrite Hloop.
    + cbn. unfold nul_free. rewrite sforall_app. cbn. rewrite andb_true_r. apply Hr1.
Qed.
End timer_properties.

Section fault_properties.
Context `{LcbLaws} `{RapidJson}.
Implicit Types c : cluster.

(** C12: with any requests failing at any point, registrations never stop the
    program, touch no document but the ids' and the marker's, and the marker
    is absent or lists a subsequence of the registered ids: a run of
    [SendTimerCallback] on it splits into exactly these. *)
Theorem marker_survives_faults b ts regs c :
  Forall (good_request ts) regs → marker b ts c = None →
  ∃ c' ids, for_each (register b) regs c = (c', Ok tt) ∧
    frame b (list_to_set (ts :: (req_doc <$> regs))) c c' ∧
    ids `sublist_of` (req_doc <$> regs) ∧
    split (default EmptyString (marker b ts c')) ";" = ids.
Proof.
  intros Hregs Hm.
  destruct (register_all_marker b ts regs [] c Hregs (or_intror (conj Hm eq_refl)))
    as (c' & ids & Hrun & F & Hsub & Hc').
  exists c', ids. split_and!; [done..|]. cbn in Hc'. destruct Hc' as [-> | [-> ->]]; [|done].
  apply getline_join_term, Forall_forall. intros id Hid.
  apply sublist_submseteq in Hsub. eapply elem_of_submseteq in Hid; [|exact Hsub].
  apply list_elem_of_fmap in Hid as (r & -> & Hr).
  rewrite Forall_forall in Hregs. apply (Hregs r Hr).
Qed.

(** An expiry that [atoi] reads as 0 (a document that does not expire,
    or a text that is no number) sets no timer and sends no request. *)
Theorem no_expiry_no_timer h now cf id startTs c :
  atoi (c_str startTs) = Ok 0 →
  RegisterCallback h now (Some cf) (Some id) (Some startTs) c = (c, Ok tt).
Proof.
  intros Hv. unfold RegisterCallback, mbind, prog_bind. cbn. by rewrite Hv.
Qed.
End fault_properties.

(** ** Witnesses, on the fault-free service and the small JSON reader *)

From S2P Require Import KvRef MiniJson.

Definition example_bucket : string := "couchbase://localhost/eventing".
Definition example_second : string := "2016-08-09T10:12:12".
Definition example_later : string := "2016-08-09T10:12:13".

(** Two timers registered at different times for the same second. *)
Definition example_requests : list timer_request :=
  [TimerRequest 1470737472 "OnExpiry" "order_1" "60";
   TimerRequest 1470737502 "Remind" "order_2" "30"].

Definition example_start : @cluster ref_lcb := ref_empty.

Definition idle (f arg : string) (c : @cluster ref_lcb) : @cluster ref_lcb := c.

(** Evaluates a closed [good_request]. *)
Ltac good_example v :=
  split; [exists v; split_and!; vm_compute; congruence|];
  split; [split_and!; reflexivity|];
  split_and!; vm_compute; congruence.

Lemma example_requests_good : Forall (good_request example_second) example_requests.
Proof. constructor; [good_example 60|]. constructor; [good_example 30|constructor]. Qed.

Lemma timers_fire_in_order_witness :
  ∃ c1, for_each (register example_bucket) example_requests example_start = (c1, Ok tt) ∧
    ∀ log, ∃ c2,
      SendTimerCallback (logged idle) (worker_handle example_bucket)
        (default EmptyString (marker example_bucket example_second c1)) (c1, log)
      = ((c2, log ++ [("OnExpiry", "order_1"); ("Remind", "order_2")]%string), Ok tt).
Proof.
  apply (timers_fire_in_order example_bucket example_second example_requests example_start idle).
  - reflexivity.
  - exact example_requests_good.
  - cbn. apply NoDup_cons; split; [set_solver|apply NoDup_singleton].
  - reflexivity.
  - vm_compute. congruence.
  - by intros f arg c id _.
Defined.

(** The cluster after the first of the two registrations. *)
Definition example_cluster : @cluster ref_lcb :=
  (for_each (register example_bucket) (take 1 example_requests) example_start).1.

Lemma missing_timer_drops_the_rest_witness :
  ∃ c2, SendTimerCallback (logged idle) (worker_handle example_bucket)
          (join_term ";" ["order_1"; "gone"; "order_2"]) (example_cluster, [])
        = ((c2, [("OnExpiry", "order_1")]%string), Ok tt).
Proof.
  apply (missing_timer_drops_the_rest example_bucket [("OnExpiry", "order_1")]%string "gone"
           ["order_2"%string] example_cluster idle []).
  - repeat constructor.
  - repeat constructor.
  - repeat constructor.
  - by intros f arg c id _.
  - done.
  - intros t ->%list_elem_of_singleton. exists example_second. vm_compute. reflexivity.
  - vm_compute. reflexivity.
Defined.

Lemma second_timer_replaces_first_witness :
  let r1 := TimerRequest 1470737472 "First" "order_1" "60" in
  let r2 := TimerRequest 1470737472 "Second" "order_1" "61" in
  ∃ c1 c2, for_each (register example_bucket) [r1; r2] example_start = (c1, Ok tt) ∧
    SendTimerCallback (logged idle) (worker_handle example_bucket)
      (default EmptyString (marker example_bucket example_second c1)) (c1, [])
    = ((c2, [("Second", "order_1")]%string), Ok tt).
Proof.
  intros r1 r2.
  apply (second_timer_replaces_first example_bucket example_second example_later r1 r2 example_start idle []).
  all: try first [reflexivity | discriminate].
  - good_example 60.
  - good_example 61.
  - by intros f arg c id _.
Defined.

Lemma marker_survives_faults_witness :
  ∃ c' ids, for_each (register example_bucket) example_requests example_start = (c', Ok tt) ∧
    frame example_bucket (list_to_set (example_second :: (req_doc <$> example_requests))) example_start c' ∧
    ids `sublist_of` (req_doc <$> example_requests) ∧
    split (default EmptyString (marker example_bucket example_second c')) ";" = ids.
Proof.
  apply (marker_survives_faults example_bucket example_second example_requests example_start).
  - exact example_requests_good.
  - reflexivity.
Defined.

Lemma no_expiry_no_timer_witness :
  atoi (c_str "0") = Ok 0 ∧
  RegisterCallback (Ok (worker_handle example_bucket)) 1470737472 (Some "OnExpiry") (Some "order_1")
    (Some "0") example_start = (example_start, Ok tt).
Proof.
  split; [reflexivity|].
  apply (no_expiry_no_timer (Ok (worker_handle example_bucket)) 1470737472 "OnExpiry" "order_1" "0").
  reflexivity.
Defined.
