(* ===== verification/HttpResponse.v ===== *)
(** * HTTP responses (http_response.cc)

    A handler for an HTTP request sets properties of a body object; the
    binding turns the body's map into the reply.  The maps live in the worker's
    C++ objects and are reached through the pointers of the internal fields. *)

From S2P Require Import Prelude CStd StdMap Json V8.
#[local] Open Scope Z_scope.

(** The [map<string, string>] objects by their address. *)
Definition string_maps : Type := map_id → string_map.

Definition set_map (id : map_id) (m : string_map) (ms : string_maps) : string_maps :=
  λ id', if decide (id' = id) then m else ms id'.

(** The fields of [HTTPResponse] besides its maps. *)
Record HTTPResponse := HTTPResponseObject {
  http_response_map_template_ : option object_template
}.

Definition HTTPResponse_new : HTTPResponse := HTTPResponseObject None.

Section http.
Context `{V8} `{RapidJson} {W : Type} `{!Lens W string_maps} `{!Lens W HTTPResponse}.

Definition HTTPBodySet (obj : js_object) (name : js_name) (value_obj : jsval) : prog W reply :=
  match name with
  | NSymbol => mret Pass
  | NString s =>
      key ← lift (name_string s);
      value ← lift (ToString value_obj);
      body ← lift (UnwrapMap obj);
      _ ← zoom (modify (λ ms : string_maps, set_map body (<[key := value]> (ms body)) ms));
      mret (Return value_obj)
  end.

(** A new template per call; there is no handler for reading. *)
Definition WrapHTTPBodyMap : outcome js_object :=
  SetInternalField 0 (PMap BodyMap) (NewInstance (ObjectTemplate BodyHandlers 1)).

Definition HTTPResponseGet (obj : js_object) (name : js_name) : prog W reply :=
  match name with
  | NSymbol => mret Pass
  | NString s =>
      key ← lift (name_string s);
      ptr ← lift (GetInternalField 1 obj);
      match ptr with
      | PHTTPBody =>
          body_map ← lift WrapHTTPBodyMap;
          mret (Return (js_host body_map))
      | _ => throw (Undefined "static_cast to another type")
      end
  end.

Definition MakeHTTPResponseMapTemplate : object_template := ObjectTemplate ResponseHandlers 2.

Definition WrapHTTPResponseMap : prog W js_object :=
  r ← zoom (get (S:=HTTPResponse));
  let templ := cached (http_response_map_template_ r) MakeHTTPResponseMapTemplate in
  _ ← zoom (put (HTTPResponseObject (Some templ)));
  result ← lift (SetInternalField 0 (PMap ResponseMap) (NewInstance templ));
  lift (SetInternalField 1 PHTTPBody result).

(** The calls on the writer for the elements of a map. *)
Definition raw_object (l : list (string * string)) : list wevent :=
  [StartObject] ++ flat_map (λ '(k, v), [WKey (c_str k); WRaw v]) l ++ [EndObject].

(** The text is in a [StringBuffer] that is destroyed on return. *)
Definition ConvertMapToJson : prog W char_ptr :=
  ms ← zoom (get (S:=string_maps));
  let s := rj_write (raw_object (in_order (ms BodyMap))) in
  _ ← zoom (modify (set_map ResponseMap ∅));
  mret (Dangling s).

(** [this->http_response_handle->http_body->http_body.clear()]. *)
Definition clear_body : prog W unit := zoom (modify (set_map BodyMap ∅)).

(** The object that [HTTPResponseGet] hands out. *)
Definition body_object : js_object := JsObject BodyHandlers [Some (PMap BodyMap)].

(** A handler's assignment [body.name = value]. *)
Definition body_assign (p : string * jsval) : prog W unit :=
  _ ← HTTPBodySet body_object (NString p.1) p.2; mret tt.

(** A request's life in the body map: [SendHTTPGet] clears it, the handler
    assigns, the reply is written. *)
Definition http_exchange (l : list (string * jsval)) : prog W char_ptr :=
  _ ← clear_body; _ ← for_each body_assign l; ConvertMapToJson.

(** The value of the last assignment to [k] (names end at a NUL byte). *)
Definition last_assigned (k : string) (l : list (string * jsval)) : option jsval :=
  snd <$> last (filter (λ p, c_str p.1 = k) l).
End http.

(** ** Lemmas *)

Lemma set_map_eq id m ms : set_map id m ms id = m.
Proof. unfold set_map. by rewrite decide_True. Qed.

Lemma set_map_ne id id' m ms : id' ≠ id → set_map id m ms id' = ms id'.
Proof. intros Hne. unfold set_map. by rewrite decide_False. Qed.

Section http_facts.
Context `{V8Laws} `{RapidJson} {W : Type} `{!Lens W string_maps} `{!Lens W HTTPResponse}.

Lemma body_assign_plain n v s :
  plain v →
  ∃ t, ToString v = Ok t ∧
    body_assign (n, v) s
    = (update (set_map BodyMap (<[c_str n := t]> ((view s : string_maps) BodyMap)) (view s)) s, Ok tt).
Proof.
  intros (t & Ht & _)%ToString_plain. exists t. split; [done|].
  unfold body_assign, HTTPBodySet, mbind, prog_bind. cbn [fst snd].
  rewrite name_string_ok, Ht. reflexivity.
Qed.

Lemma last_assigned_snoc k l n v :
  last_assigned k (l ++ [(n, v)])
  = if decide (c_str n = k) then Some v else last_assigned k l.
Proof.
  unfold last_assigned. rewrite filter_app. destruct (decide (c_str n = k)) as [E|E].
  - rewrite filter_cons_True, filter_nil by done. by rewrite last_snoc.
  - rewrite filter_cons_False, filter_nil, app_nil_r by done. done.
Qed.

(** The text that the map holds for a value. *)
Definition text_of (v : jsval) : option string :=
  match ToString v with Ok t => Some t | Fail _ => None end.

(** The map after a list of assignments to an empty body. *)
Lemma body_assign_all l (s : W) :
  (view s : string_maps) BodyMap = ∅ → Forall (λ p, plain p.2) l →
  ∃ s', for_each body_assign l s = (s', Ok tt) ∧
    ∀ k, (view s' : string_maps) BodyMap !! k = last_assigned k l ≫= text_of.
Proof.
  intros Hs. induction l as [|[n v] l IH] using rev_ind.
  { exists s. split; [done|]. intros k. by rewrite Hs, lookup_empty. }
  intros [Hl [Hv _]%Forall_cons]%Forall_app. destruct (IH Hl) as (s1 & Hrun & Hget).
  destruct (body_assign_plain n v s1 Hv) as (t & Ht & Ha). eexists. split.
  - erewrite for_each_app by exact Hrun. cbn [for_each]. erewrite bind_Ok by exact Ha. done.
  - intros k. rewrite view_update, set_map_eq, last_assigned_snoc.
    destruct (decide (c_str n = k)) as [<-|E].
    + rewrite lookup_insert_eq. cbn. unfold text_of. by rewrite Ht.
    + rewrite lookup_insert_ne by done. apply Hget.
Qed.
End http_facts.

(** ** Properties *)

Section http_properties.
Context `{V8Laws} `{RapidJson} {W : Type} `{!Lens W string_maps} `{!Lens W HTTPResponse}.

(** C23: the reply of a request.  After the body is cleared, whatever
    plain values a handler assigns, in any order and with repetitions, the reply
    is the object that lists each assigned name once, the names in byte order,
    each with the JSON text of its last value; nothing of an earlier request is
    in it. *)
Theorem reply_lists_last_values l s :
  Forall (λ p, plain p.2) l →
  ∃ s' fields,
    http_exchange l s
    = (s', Ok (Dangling (rj_write (raw_object fields)))) ∧
    key_sorted fields ∧
    ∀ k t, (k, t) ∈ fields ↔ ∃ v, last_assigned k l = Some v ∧ ToString v = Ok t.
Proof.
  intros Hl. set (s0 := update (set_map BodyMap ∅ (view s)) s).
  destruct (body_assign_all l s0) as (s1 & Hrun & Hget);
    [by unfold s0; rewrite view_update, set_map_eq|done|].
  eexists _, (in_order ((view s1 : string_maps) BodyMap)). split_and!.
  - unfold http_exchange. erewrite bind_Ok by reflexivity. erewrite bind_Ok by exact Hrun.
    unfold ConvertMapToJson. step. step. reflexivity.
  - apply in_order_sorted.
  - intros k t. rewrite elem_of_in_order, Hget. unfold text_of.
    destruct (last_assigned k l) as [v|]; cbn; [|naive_solver].
    destruct (ToString v) as [t0|e] eqn:E; [|naive_solver congruence].
    split; [intros [= ->]; eauto|intros (v0 & [= ->] & Hv0); congruence].
Qed.

(** A handler gets the body under any property name of the response
    ([response.body], [response.foo]): every object it gets is the same one,
    unwraps without a bad cast and writes to the map that the reply is made of. *)
Theorem any_name_is_the_body name s s1 response :
  WrapHTTPResponseMap s = (s1, Ok response) →
  slot_ok (http_response_map_template_ (view s)) MakeHTTPResponseMapTemplate →
  HTTPResponseGet response (NString name) s1 = (s1, Ok (Return (js_host body_object))) ∧
  UnwrapMap body_object = Ok BodyMap.
Proof.
  intros Hw Ht. split; [|done].
  unfold WrapHTTPResponseMap in Hw. erewrite bind_Ok in Hw by apply zoom_get.
  erewrite bind_Ok in Hw by apply zoom_put.
  rewrite (cached_ok _ _ Ht) in Hw. erewrite bind_Ok in Hw by reflexivity.
  injection Hw as <- <-. unfold HTTPResponseGet. erewrite bind_Ok; [|apply lift_Ok_eq, name_string_ok].
  reflexivity.
Qed.

(** The pointer that [ConvertMapToJson] returns points into a
    buffer that its return destroys, so no caller can read the reply. *)
Theorem reply_pointer_dangles s :
  ∃ s' p, ConvertMapToJson s = (s', Ok p) ∧ is_ok (read_ptr p) = false ∧
          pointed_text p = rj_write (raw_object (in_order ((view s : string_maps) BodyMap))).
Proof. unfold ConvertMapToJson. step. step. eexists _, _. by split. Qed.
End http_properties.

(** ** Witnesses *)

From S2P Require Import MiniJson MiniV8.

Section witnesses.

Definition http_world : Type := string_maps * HTTPResponse.
#[local] Instance http_world_maps : Lens http_world string_maps := lens_fst.
#[local] Instance http_world_response : Lens http_world HTTPResponse := lens_snd.

Definition http_start : http_world := ((λ _, {["stale" := "1"]})%string, HTTPResponse_new).

Definition http_assignments : list (string * @jsval mini_v8) :=
  [("total", MJson (JString "x")); ("id", MJson JNull); ("total", MJson (JBool true))]%string.

Lemma http_assignments_plain : Forall (λ p, plain p.2) http_assignments.
Proof.
  unfold http_assignments. rewrite !Forall_cons. cbn. unfold mini_plain.
  split_and!; [left|right; right|right; left|constructor]; eauto.
Qed.

Lemma reply_lists_last_values_witness :
  ∃ s' fields,
    http_exchange (W:=http_world) http_assignments http_start
    = (s', Ok (Dangling (rj_write (raw_object fields)))) ∧
    key_sorted fields ∧
    ∀ k t, (k, t) ∈ fields ↔
      ∃ v, last_assigned k http_assignments = Some v ∧ ToString v = Ok t.
Proof. apply (reply_lists_last_values http_assignments http_start), http_assignments_plain. Defined.

Lemma any_name_is_the_body_witness :
  ∃ s1 response,
    HTTPResponseGet (W:=http_world) response (NString "anything") s1
    = (s1, Ok (Return (js_host body_object))) ∧
    UnwrapMap body_object = Ok BodyMap.
Proof.
  eexists _, _. apply (any_name_is_the_body "anything" http_start); [|by left].
  vm_compute. reflexivity.
Defined.

(** The reply of the assignments above. *)
Example http_reply :
  pointed_text (match http_exchange (W:=http_world) http_assignments http_start with
                | (_, Ok p) => p
                | _ => Valid EmptyString
                end)
  = dquoted "{'id':null,'total':true}".
Proof. vm_compute. reflexivity. Qed.
End witnesses.
