(* ===== verification/Heap.v ===== *)
(** * Reaching C++ objects from JavaScript objects

    The internal fields of the objects on the global object point into the
    worker's C++ objects.  [LcbHeap] is what a component needs to follow an
    [lcb_t*]; the world (Host.v) implements it. *)

From S2P Require Import Prelude CStd Kv V8 Engine.

Class LcbHeap (W : Type) `{Lcb} `{!Lens W cluster} := {
  (** The [lcb_t] behind a pointer; [None] while it is not initialised. *)
  lcb_at : lcb_id → W → option lcb_t;
  lcb_at_update id c w : lcb_at id (update c w) = lcb_at id w
}.

Definition deref_lcb `{LcbHeap W} (id : lcb_id) : prog W lcb_t :=
  λ w, match lcb_at id w with
       | Some h => (w, Ok h)
       | None => (w, Fail (Undefined "lcb_t that is not initialised"))
       end.

(** The [n]-th object of its class. *)
Definition object_at {W T} `{!Lens W (list T)} (n : nat) : prog W T :=
  l ← zoom (get (S:=list T));
  match l !! n with
  | Some x => mret x
  | None => throw (Undefined "pointer to no object")
  end.

Definition set_object {W T} `{!Lens W (list T)} (n : nat) (x : T) : prog W unit :=
  zoom (modify (λ l : list T, <[n := x]> l)).

(** [context->Global()->Set(context, name, obj).FromJust()]. *)
Definition install_global {W} `{Engine} `{!Lens W js_state} (name : string) (o : js_object)
    : prog W unit :=
  zoom (modify (global_set (c_str name) (js_host o))).

Lemma deref_lcb_Ok `{LcbHeap W} id h w : lcb_at id w = Some h → deref_lcb id w = (w, Ok h).
Proof. intros E. unfold deref_lcb. by rewrite E. Qed.

Lemma object_at_Ok {W T} `{!Lens W (list T)} n (x : T) w :
  (view w : list T) !! n = Some x → object_at n w = (w, Ok x).
Proof. intros E. unfold object_at. step. by rewrite E. Qed.
