(* ===== verification/Bucket.v ===== *)
(** * Buckets as JavaScript objects (bucket.cc)

    A [Bucket] connects to a bucket and installs an object on the global object
    whose properties are the bucket's documents; every set also leaves a marker
    document, named after the CAS of the mutation, in the worker's bucket. *)

From S2P Require Import Prelude CStd StdMap Endian Kv V8 Engine Heap.
#[local] Open Scope Z_scope.

(** ** The component *)

Record Bucket := BucketObject {
  bucket_name : string;
  b_endpoint : string;
  bucket_alias : string;
  bucket_lcb_obj : lcb_t;
  bucket_map_template_ : option object_template
}.

(** The constructor; that the connection fails shows in its requests only. *)
Definition Bucket_new (bname ep alias : string) : Bucket :=
  let connstr := "couchbase://" +:+ c_str ep +:+ "/" +:+ c_str bname in
  BucketObject (c_str bname) (c_str ep) (c_str alias) (bucket_handle_of connstr) None.

Definition MakeBucketMapTemplate : object_template := ObjectTemplate BucketHandlers 3.

(** The wrapper object of the [n]-th bucket over the template [templ]. *)
Definition WrapBucketMap (n : nat) (templ : object_template) : outcome js_object :=
  result ← SetInternalField 0 (PMap BucketMap) (NewInstance templ);
  result ← SetInternalField 1 (PLcb (BucketLcb n)) result;
  SetInternalField 2 (PLcb WorkerLcb) result.

Section bucket.
Context `{LcbHeap W} `{Engine} `{!Lens W (list Bucket)} `{!Lens W js_state}.

(** The host's byte order. *)
Context (little : bool).

Definition BucketGet (obj : js_object) (name : js_name) : prog W reply :=
  match name with
  | NSymbol => mret Pass
  | NString s =>
      key ← lift (name_string s);
      bucket_lcb_obj_ptr ← lift (UnwrapLcbInstance obj);
      h ← deref_lcb bucket_lcb_obj_ptr;
      ck ← zoom (lcb_get_wait h (Some Result_new) key);
      result ← lift (the_result ck);
      mret (return_handle (json_parse (value result)))
  end.

Definition BucketSet (obj : js_object) (name : js_name) (value_obj : jsval) : prog W reply :=
  match name with
  | NSymbol => mret Pass
  | NString s =>
      key ← lift (name_string s);
      value ← lift (ToString value_obj);
      bucket_lcb_obj_ptr ← lift (UnwrapLcbInstance obj);
      cb_instance ← lift (UnwrapWorkerLcbInstance obj);
      h ← deref_lcb bucket_lcb_obj_ptr;
      ck ← zoom (lcb_store_wait h (Some Result_new) (CmdStore key value LCB_SET json_flags));
      result ← lift (the_result ck);
      wh ← deref_lcb cb_instance;
      _ ← zoom (lcb_store_wait wh None (CmdStore (cas_key little (cas result)) key LCB_SET 0));
      mret (Return value_obj)
  end.

Definition BucketDelete (obj : js_object) (name : js_name) : prog W reply :=
  match name with
  | NSymbol => mret Pass
  | NString s =>
      key ← lift (name_string s);
      bucket_lcb_obj_ptr ← lift (UnwrapLcbInstance obj);
      h ← deref_lcb bucket_lcb_obj_ptr;
      _ ← zoom (lcb_remove_wait h key);
      mret (Return js_true)
  end.

(** [InstallMaps], with the template made on first use. *)
Definition Bucket_InstallMaps (n : nat) : prog W bool :=
  b ← object_at (T:=Bucket) n;
  let templ := cached (bucket_map_template_ b) MakeBucketMapTemplate in
  _ ← set_object n (BucketObject (bucket_name b) (b_endpoint b) (bucket_alias b)
                      (bucket_lcb_obj b) (Some templ));
  bucket_obj ← lift (WrapBucketMap n templ);
  _ ← install_global (bucket_alias b) bucket_obj;
  mret true.

Definition Bucket_Initialize (n : nat) : prog W bool := Bucket_InstallMaps n.
End bucket.

(** The object that [InstallMaps] makes. *)
Definition bucket_object (n : nat) : js_object :=
  JsObject BucketHandlers [Some (PMap BucketMap); Some (PLcb (BucketLcb n)); Some (PLcb WorkerLcb)].

(** ** What each callback does *)

Section bucket_facts.
Context `{LcbHeap W} `{!LcbLaws} `{Engine} `{!V8Laws} `{!Lens W (list Bucket)} `{!Lens W js_state}.
Implicit Types w : W.

(** Bucket [n] is connected to [b], the worker to [wb]. *)
Definition connected (n : nat) (b wb : string) w : Prop :=
  lcb_at (BucketLcb n) w = Some (bucket_handle_of b) ∧
  lcb_at WorkerLcb w = Some (worker_handle wb).

Lemma connected_update n b wb (c : cluster) w : connected n b wb (update c w) ↔ connected n b wb w.
Proof. unfold connected. by rewrite !lcb_at_update. Qed.

Lemma WrapBucketMap_eq n : WrapBucketMap n MakeBucketMapTemplate = Ok (bucket_object n).
Proof. reflexivity. Qed.

(** The value of the [Result] of a get. *)
Definition got (r : option lcb_RESPGET) : string :=
  match r with
  | Some x => if get_rc x =? LCB_SUCCESS then get_value x else EmptyString
  | None => EmptyString
  end.

Lemma BucketGet_eq n b wb s w :
  connected n b wb w →
  BucketGet (bucket_object n) (NString s) w
  = (update (lcb_get3 b (c_str s) (view w)).1 w,
     Ok (return_handle (json_parse (got (lcb_get3 b (c_str s) (view w)).2)))).
Proof.
  intros [Hb _]. unfold BucketGet. erewrite bind_Ok by apply lift_Ok_eq, name_string_ok. cbv beta.
  step. erewrite bind_Ok by by apply deref_lcb_Ok. cbv beta.
  destruct (get_wait_fresh (bucket_handle_of b) (c_str s) (view w)) as (r & Hr & Hv & _);
    [by exists b; right|].
  erewrite bind_Ok by by apply zoom_Ok. cbv beta. step. cbn [connstr bucket_handle_of] in *.
  unfold got. by rewrite Hv.
Qed.

(** The CAS in the [Result] of a set: 0 when no response came. *)
Definition set_cas (r : option lcb_RESPSTORE) : Z :=
  match r with Some x => store_cas x | None => 0 end.

Lemma BucketSet_eq little n b wb s v t w :
  connected n b wb w → ToString v = Ok t →
  let first := lcb_store3 b (CmdStore (c_str s) t LCB_SET json_flags) (view w) in
  let mark := CmdStore (cas_key little (set_cas first.2)) (c_str s) LCB_SET 0 in
  BucketSet little (bucket_object n) (NString s) v w
  = (update (lcb_store3 wb mark first.1).1 w, Ok (Return v)).
Proof.
  intros [Hb Hw] Ht. cbv zeta. unfold BucketSet.
  erewrite bind_Ok by apply lift_Ok_eq, name_string_ok. cbv beta.
  erewrite bind_Ok by by apply lift_Ok_eq. cbv beta. step. step.
  erewrite bind_Ok by by apply deref_lcb_Ok. cbv beta.
  unfold mbind, prog_bind, zoom, lcb_store_wait. cbn [connstr bucket_handle_of].
  destruct (lcb_store3 b _ (view w)) as [c1 r] eqn:E1. cbn [fst snd].
  assert (lcb_at WorkerLcb (update c1 w) = Some (worker_handle wb)) as Hw'
    by (by rewrite lcb_at_update).
  destruct r as [x|]; cbn; rewrite (deref_lcb_Ok _ _ _ Hw'); cbn; rewrite view_update;
    (destruct (lcb_store3 wb _ c1) as [c2 [y|]]); cbn; by rewrite update_update.
Qed.

Lemma BucketDelete_eq n b wb s w :
  connected n b wb w →
  BucketDelete (bucket_object n) (NString s) w
  = (update (lcb_remove3 b (c_str s) (view w)).1 w, Ok (Return js_true)).
Proof.
  intros [Hb _]. unfold BucketDelete. erewrite bind_Ok by apply lift_Ok_eq, name_string_ok.
  cbv beta. step. erewrite bind_Ok by by apply deref_lcb_Ok. cbv beta.
  erewrite bind_Ok by by apply zoom_Ok. done.
Qed.

Lemma cas_key_valid little c : 0 <= c < 2 ^ 64 → valid_key (cas_key little c) = true.
Proof. intros Hc%(cas_key_length little). unfold valid_key. lia. Qed.

(** A get that brings no value throws. *)
Lemma got_absent b k c : contents c b !! k = None → got (lcb_get3 b k c).2 = EmptyString.
Proof.
  intros Hn. pose proof (get_absent b k c Hn) as Hg. unfold get_ok, got in *.
  destruct (lcb_get3 b k c).2 as [x|]; [|done]. by rewrite Hg.
Qed.
End bucket_facts.

(** ** Requests that do not fail *)

Section bucket_healthy.
Context `{LcbHeap W} `{!LcbLaws} `{!LcbHealthy} `{Engine} `{!V8Laws}.
Context `{!Lens W (list Bucket)} `{!Lens W js_state}.
Implicit Types w : W.

(** A set stores the value's text, leaves one marker in the worker's bucket and
    no other document changes. *)
Lemma BucketSet_healthy little n b wb s v t w :
  connected n b wb w → ToString v = Ok t → b ≠ wb → valid_key (c_str s) = true → slen t <= max_value →
  ∃ (c : cluster) cas cas',
    BucketSet little (bucket_object n) (NString s) v w = (update c w, Ok (Return v)) ∧
    contents c b = <[c_str s := Doc t json_flags cas]> (contents (view w) b) ∧
    contents c wb = <[cas_key little cas := Doc (c_str s) 0 cas']> (contents (view w) wb) ∧
    (∀ b', b' ≠ b → b' ≠ wb → contents c b' = contents (view w) b') ∧ 0 <= cas < 2 ^ 64.
Proof.
  intros Hc Ht Hne Hk Hsize.
  pose proof (BucketSet_eq little n b wb s v t w Hc Ht) as Hset. cbv zeta in Hset.
  destruct (healthy_set_response b (c_str s) t json_flags (view w) Hk Hsize) as (x & Hx & Hb1 & Ho1).
  rewrite Hx in Hset. cbn [set_cas] in Hset.
  set (c1 := (lcb_store3 b _ (view w)).1) in *.
  destruct (healthy_set_response wb (cas_key little (store_cas x)) (c_str s) 0 c1) as (y & _ & Hb2 & Ho2).
  { by apply cas_key_valid, (store_response_range _ _ _ _ Hx). }
  { unfold valid_key, max_value in *. lia. }
  exists (lcb_store3 wb (CmdStore (cas_key little (store_cas x)) (c_str s) LCB_SET 0) c1).1,
    (store_cas x), (store_cas y).
  pose proof (store_response_range _ _ _ _ Hx) as Hr.
  split_and!; [exact Hset| | | |apply Hr..].
  - by rewrite Ho2.
  - by rewrite Hb2, Ho1.
  - intros b' Hb' Hwb'. by rewrite Ho2, Ho1.
Qed.

(** A get gives the document's value, or the empty text, to the JSON parser. *)
Lemma BucketGet_healthy n b wb s w :
  connected n b wb w → valid_key (c_str s) = true →
  ∃ c : cluster,
    BucketGet (bucket_object n) (NString s) w
    = (update c w, Ok (return_handle (json_parse
                        (default EmptyString (doc_value <$> contents (view w) b !! c_str s))))) ∧
    ∀ b', contents c b' = contents (view w) b'.
Proof.
  intros Hc Hk. exists (lcb_get3 b (c_str s) (view w)).1. split; [|by intros b'; rewrite get_contents].
  rewrite (BucketGet_eq n b wb s w Hc). do 4 f_equal.
  destruct (contents (view w) b !! c_str s) as [d|] eqn:Hd.
  - destruct (healthy_get_value b (c_str s) (view w) d Hd Hk) as (z & -> & Hok & Hv). cbn. by rewrite Hok, Hv.
  - by apply got_absent.
Qed.

(** A delete removes the document, if it is there. *)
Lemma BucketDelete_healthy n b wb s w :
  connected n b wb w → valid_key (c_str s) = true →
  ∃ c : cluster,
    BucketDelete (bucket_object n) (NString s) w = (update c w, Ok (Return js_true)) ∧
    contents c b = delete (c_str s) (contents (view w) b) ∧
    (∀ b', b' ≠ b → contents c b' = contents (view w) b').
Proof.
  intros Hc Hk. eexists. split; [exact (BucketDelete_eq n b wb s w Hc)|]. by apply healthy_delete.
Qed.
End bucket_healthy.

(** ** Properties *)

Section bucket_properties.
Context `{LcbHeap W} `{!LcbLaws} `{!LcbHealthy} `{Engine} `{!V8Laws}.
Context `{!Lens W (list Bucket)} `{!Lens W js_state}.
Implicit Types w : W.

(** C10: when requests do not fail, a plain value assigned to a property of
    the bucket object is stored as its JSON text under the property's name,
    with the JSON flags; the marker named after the CAS of exactly that
    mutation holds the name, in the worker's bucket; no other document
    changes; and reading the property gives the value back. *)
Theorem set_then_get little n b wb s v w :
  connected n b wb w → plain v → b ≠ wb → valid_key (c_str s) = true →
  (∀ t, ToString v = Ok t → slen t <= max_value) →
  ∃ w1 w2 t cas,
    BucketSet little (bucket_object n) (NString s) v w = (w1, Ok (Return v)) ∧
    BucketGet (bucket_object n) (NString s) w1 = (w2, Ok (Return v)) ∧
    ToString v = Ok t ∧ json_parse t = Some v ∧
    contents (view w1) b = <[c_str s := Doc t json_flags cas]> (contents (view w) b) ∧
    (∃ cas', contents (view w1) wb
             = <[cas_key little cas := Doc (c_str s) 0 cas']> (contents (view w) wb)) ∧
    (∀ b', b' ≠ b → b' ≠ wb → contents (view w1) b' = contents (view w) b').
Proof.
  intros Hc (t & Ht & _ & Hp)%ToString_plain Hne Hk Hsize.
  destruct (BucketSet_healthy little n b wb s v t w Hc Ht Hne Hk (Hsize t Ht))
    as (c & cas & cas' & Hset & Hb & Hwb & Ho & _).
  destruct (BucketGet_healthy n b wb s (update c w)) as (c2 & Hget & _); [by apply connected_update|done|].
  rewrite view_update, Hb, lookup_insert_eq in Hget. cbn in Hget. rewrite Hp in Hget.
  eexists _, _, t, cas. rewrite view_update. split_and!; try done. by exists cas'.
Qed.

(** Assigning [undefined] succeeds, stores the text [undefined],
    which is not JSON, and makes every later read of the property throw. *)
Theorem undefined_poisons_a_document little n b wb s w :
  connected n b wb w → b ≠ wb → valid_key (c_str s) = true →
  ∃ w1 w2 cas,
    BucketSet little (bucket_object n) (NString s) js_undefined w
    = (w1, Ok (Return js_undefined)) ∧
    contents (view w1) b !! c_str s = Some (Doc "undefined" json_flags cas) ∧
    BucketGet (bucket_object n) (NString s) w1 = (w2, Ok Threw).
Proof.
  intros Hc Hne Hk.
  pose proof (BucketSet_eq little n b wb s _ _ w Hc ToString_undefined) as Hset. cbv zeta in Hset.
  destruct (healthy_set_response b (c_str s) "undefined" json_flags (view w) Hk) as (x & Hx & Hb1 & _);
    [done|].
  set (c1 := (lcb_store3 b _ (view w)).1) in *.
  set (mark := CmdStore (cas_key _ _) _ _ _) in Hset.
  set (c2 := (lcb_store3 wb mark c1).1) in *.
  assert (contents c2 b !! c_str s = Some (Doc "undefined" json_flags (store_cas x))) as Hd.
  { unfold c2. rewrite (store_frame wb mark c1) by (left; done). rewrite Hb1. by rewrite lookup_insert_eq. }
  eexists _, _, (store_cas x). split_and!.
  - exact Hset.
  - by rewrite view_update.
  - rewrite (BucketGet_eq n b wb) by (by apply connected_update). do 2 f_equal. rewrite view_update.
    destruct (healthy_get_value b (c_str s) c2 _ Hd Hk) as (z & -> & Hok & Hv).
    cbn. rewrite Hok, Z.eqb_refl, Hv. cbn. by rewrite json_parse_undefined.
Qed.

(** When requests do not fail, deleting a property removes its document
    and nothing else, and reading it then throws. *)
Theorem delete_then_get n b wb s w :
  connected n b wb w → valid_key (c_str s) = true →
  is_Some (contents (view w) b !! c_str s) →
  ∃ w1 w2,
    BucketDelete (bucket_object n) (NString s) w = (w1, Ok (Return js_true)) ∧
    contents (view w1) b = delete (c_str s) (contents (view w) b) ∧
    (∀ b', b' ≠ b → contents (view w1) b' = contents (view w) b') ∧
    BucketGet (bucket_object n) (NString s) w1 = (w2, Ok Threw).
Proof.
  intros Hc Hk Hs. destruct (BucketDelete_healthy n b wb s w Hc Hk) as (c & Hdel & Hb & Ho).
  destruct (BucketGet_healthy n b wb s (update c w)) as (c2 & Hget & _); [by apply connected_update|done|].
  rewrite view_update, Hb, lookup_delete_eq in Hget. cbn in Hget. rewrite json_parse_empty in Hget.
  eexists _, _. rewrite view_update. by split_and!.
Qed.
End bucket_properties.

Section bucket_faults.
Context `{LcbHeap W} `{!LcbLaws} `{Engine} `{!V8Laws}.
Context `{!Lens W (list Bucket)} `{!Lens W js_state}.
Implicit Types w : W.

(** C21: whatever requests fail, get, set and delete of a bucket
    object never reach a null cookie or stop the process: they answer, touch
    the documents they name only, and a set still returns its value. *)
Theorem bucket_survives_faults little n b wb s v t w :
  connected n b wb w → ToString v = Ok t →
  (∃ w1 r, BucketGet (bucket_object n) (NString s) w = (w1, Ok r) ∧ r ≠ Pass ∧
     ∀ b', contents (view w1) b' = contents (view w) b') ∧
  (∃ w1 mark, BucketSet little (bucket_object n) (NString s) v w = (w1, Ok (Return v)) ∧
     ∀ b' k, (b' ≠ b ∨ k ≠ c_str s) → (b' ≠ wb ∨ k ≠ cas_key little mark) →
             contents (view w1) b' !! k = contents (view w) b' !! k) ∧
  (∃ w1, BucketDelete (bucket_object n) (NString s) w = (w1, Ok (Return js_true)) ∧
     frame b {[c_str s]} (view w) (view w1)).
Proof.
  intros Hc Ht. split_and!.
  - eexists _, _. rewrite (BucketGet_eq n b wb s w Hc). split_and!; [done|by destruct (json_parse _)|].
    intros b'. by rewrite view_update, get_contents.
  - eexists _, _. split; [exact (BucketSet_eq little n b wb s v t w Hc Ht)|].
    intros b' k Hd1 Hd2. rewrite view_update.
    rewrite (store_frame wb (CmdStore _ _ _ _)) by (cbn; set_solver).
    apply (store_frame b (CmdStore _ _ _ _)). cbn. set_solver.
  - eexists. split; [exact (BucketDelete_eq n b wb s w Hc)|]. rewrite view_update. apply remove_frame.
Qed.

(** A set whose request the library refuses changes nothing in
    the bucket, yet the value is returned as if stored and the marker 0 is
    written for the document. *)
Theorem refused_set_marks_zero little n b wb s v t w c1 :
  connected n b wb w → ToString v = Ok t →
  lcb_store3 b (CmdStore (c_str s) t LCB_SET json_flags) (view w) = (c1, None) →
  ∃ w1, BucketSet little (bucket_object n) (NString s) v w = (w1, Ok (Return v)) ∧
    (∀ b', contents c1 b' = contents (view w) b') ∧
    view w1 = (lcb_store3 wb (CmdStore "0" (c_str s) LCB_SET 0) c1).1.
Proof.
  intros Hc Ht E. pose proof (BucketSet_eq little n b wb s v t w Hc Ht) as Hset. cbv zeta in Hset.
  rewrite E in Hset. cbn [fst snd set_cas] in Hset.
  assert (cas_key little 0 = "0"%string) as Hz by (by destruct little).
  rewrite Hz in Hset. eexists. split_and!; [exact Hset|by apply (store_refused _ _ _ _ E)|by rewrite view_update].
Qed.
End bucket_faults.

(** ** Witnesses *)

From S2P Require Import Json MiniJson MiniV8 KvRef.

Definition source_conn : string := "couchbase://localhost/beer-sample".
Definition meta_conn : string := "couchbase://localhost/eventing".

(** The world is the servers; the handles are those of one bucket and the worker. *)
Definition small_heap (id : lcb_id) (_ : @cluster ref_lcb) : option lcb_t :=
  match id with
  | BucketLcb O => Some (bucket_handle_of source_conn)
  | WorkerLcb => Some (worker_handle meta_conn)
  | _ => None
  end.

#[local] Program Instance small_lcb_heap : LcbHeap (@cluster ref_lcb) := {| lcb_at := small_heap |}.
Next Obligation. done. Qed.

Lemma small_connected w : connected 0 source_conn meta_conn w.
Proof. by split. Qed.

Definition a_value : @jsval mini_v8 := MJson (JString "ale").

Lemma set_then_get_witness :
  ∃ w1 w2 t cas,
    BucketSet true (bucket_object 0) (NString "beer") a_value ref_empty = (w1, Ok (Return a_value)) ∧
    BucketGet (bucket_object 0) (NString "beer") w1 = (w2, Ok (Return a_value)) ∧
    ToString a_value = Ok t ∧ json_parse t = Some a_value ∧
    contents w1 source_conn
    = <[c_str "beer" := Doc t json_flags cas]> (contents ref_empty source_conn) ∧
    (∃ cas', contents w1 meta_conn
             = <[cas_key true cas := Doc (c_str "beer") 0 cas']> (contents ref_empty meta_conn)) ∧
    (∀ b', b' ≠ source_conn → b' ≠ meta_conn → contents w1 b' = contents ref_empty b').
Proof.
  apply (set_then_get true 0 source_conn meta_conn "beer" a_value ref_empty (small_connected _)).
  - left. by exists "ale"%string.
  - done.
  - reflexivity.
  - intros t [= <-]. vm_compute. congruence.
Defined.

Lemma undefined_poisons_a_document_witness :
  ∃ w1 w2 cas,
    BucketSet true (bucket_object 0) (NString "beer") js_undefined ref_empty
    = (w1, Ok (Return js_undefined)) ∧
    contents w1 source_conn !! c_str "beer" = Some (Doc "undefined" json_flags cas) ∧
    BucketGet (bucket_object 0) (NString "beer") w1 = (w2, Ok Threw).
Proof.
  apply (undefined_poisons_a_document true 0 source_conn meta_conn "beer" ref_empty
           (small_connected _)); [done|reflexivity].
Defined.

(** The servers with one document. *)
Definition one_doc : @cluster ref_lcb :=
  (BucketSet true (bucket_object 0) (NString "beer") a_value ref_empty).1.

Lemma delete_then_get_witness :
  ∃ w1 w2,
    BucketDelete (bucket_object 0) (NString "beer") one_doc = (w1, Ok (Return js_true)) ∧
    contents w1 source_conn = delete (c_str "beer") (contents one_doc source_conn) ∧
    (∀ b', b' ≠ source_conn → contents w1 b' = contents one_doc b') ∧
    BucketGet (bucket_object 0) (NString "beer") w1 = (w2, Ok Threw).
Proof.
  apply (delete_then_get 0 source_conn meta_conn "beer" one_doc (small_connected _));
    [reflexivity|vm_compute; eauto].
Defined.

Lemma bucket_survives_faults_witness :
  (∃ w1 r, BucketGet (bucket_object 0) (NString "beer") one_doc = (w1, Ok r) ∧ r ≠ Pass ∧
     ∀ b', contents w1 b' = contents one_doc b') ∧
  (∃ w1 mark,
     BucketSet true (bucket_object 0) (NString "beer") a_value one_doc = (w1, Ok (Return a_value)) ∧
     ∀ b' k, (b' ≠ source_conn ∨ k ≠ c_str "beer") → (b' ≠ meta_conn ∨ k ≠ cas_key true mark) →
             contents w1 b' !! k = contents one_doc b' !! k) ∧
  (∃ w1, BucketDelete (bucket_object 0) (NString "beer") one_doc = (w1, Ok (Return js_true)) ∧
     frame source_conn {[c_str "beer"]} one_doc w1).
Proof.
  apply (bucket_survives_faults true 0 source_conn meta_conn "beer" a_value (quote "ale") one_doc
           (small_connected _)).
  reflexivity.
Defined.

(** The property named by the empty string has no valid key. *)
Lemma refused_set_marks_zero_witness :
  ∃ c1 w1,
    BucketSet true (bucket_object 0) (NString EmptyString) a_value one_doc = (w1, Ok (Return a_value)) ∧
    (∀ b', contents c1 b' = contents one_doc b') ∧
    w1 = (lcb_store3 meta_conn (CmdStore "0" (c_str EmptyString) LCB_SET 0) c1).1.
Proof.
  eexists. eapply (refused_set_marks_zero true 0 source_conn meta_conn EmptyString a_value _ one_doc _
           (small_connected _)); reflexivity.
Defined.
