(* ===== verification/N1ql.v ===== *)
(** * N1QL queries (n1ql.cc)

    The object [_n1ql] runs the query that is the name of the property read
    from it and returns its rows as an array. *)

From S2P Require Import Prelude CStd Kv V8 Engine Heap.
#[local] Open Scope Z_scope.

(** ** The query service *)

Record lcb_RESPN1QL := RespN1ql {
  rflags_final : bool;   (** [LCB_RESP_F_FINAL] *)
  n_rc : Z;
  n_row : string
}.

(** [lcb_n1ql_query] and [lcb_wait]: the responses the callback gets, in order. *)
Class LcbN1ql `{Lcb} := {
  lcb_n1ql_query : string → string → cluster → cluster * list lcb_RESPN1QL
}.

(** A query that runs answers with its rows and then one final response; one that
    cannot be sent answers nothing. *)
Definition query_responses (rs : list lcb_RESPN1QL) : Prop :=
  rs = [] ∨ ∃ rows fin, rs = rows ++ [fin] ∧ rflags_final fin = true ∧
                        Forall (λ r, rflags_final r = false) rows.

Class LcbN1qlLaws `{LcbN1ql} := {
  n1ql_responses b q c : query_responses (lcb_n1ql_query b q c).2
}.

(** ** The component *)

Record Rows := RowsObject { rows : list string; metadata : string; rc : Z }.

Definition Rows_new : Rows := RowsObject [] EmptyString LCB_ERROR.

Definition query_callback (rs : Rows) (resp : lcb_RESPN1QL) : Rows :=
  if rflags_final resp
  then RowsObject (rows rs) (n_row resp) (n_rc resp)
  else RowsObject (rows rs ++ [n_row resp]) (metadata rs) (rc rs).

Record N1QL := N1QLObject {
  n_bucket_name : string;
  n_endpoint : string;
  n1ql_alias : string;
  n1ql_lcb_obj : lcb_t;
  n1ql_map_template_ : option object_template
}.

(** No callback is installed on this handle. *)
Definition bare_handle (connstr : string) : lcb_t := LcbT connstr (λ ck _, Ok ck) (λ ck _, Ok ck).

Definition N1QL_new (bname ep alias : string) : N1QL :=
  let connstr := "couchbase://" +:+ c_str ep +:+ "/" +:+ c_str bname in
  N1QLObject (c_str bname) (c_str ep) (c_str alias) (bare_handle connstr) None.

Definition MakeN1QLMapTemplate : object_template := ObjectTemplate N1qlHandlers 2.

Definition WrapN1QLMap (n : nat) (templ : object_template) : outcome js_object :=
  result ← SetInternalField 0 (PMap N1qlMap) (NewInstance templ);
  SetInternalField 1 (PLcb (N1qlLcb n)) result.

Section n1ql.
Context `{LcbHeap W} `{!LcbN1ql} `{Engine} `{!Lens W (list N1QL)} `{!Lens W js_state}.

(** [result->Set(index, JSON::Parse(row))] for each row, in order. *)
Fixpoint set_rows (rs : list string) : outcome (list (option jsval)) :=
  match rs with
  | [] => mret []
  | row :: rs =>
      match json_parse (c_str row) with
      | Some v => l ← set_rows rs; mret (Some v :: l)
      | None => Fail (Undefined "Set with an empty handle")
      end
  end.

Definition N1QLEnumGetCall (obj : js_object) (name : js_name) : prog W reply :=
  match name with
  | NSymbol => mret Pass
  | NString s =>
      query ← lift (name_string s);
      n1ql_lcb_obj_ptr ← lift (UnwrapLcbInstance obj);
      h ← deref_lcb n1ql_lcb_obj_ptr;
      resps ← zoom (λ c : cluster, let '(c, rs) := lcb_n1ql_query (connstr h) query c in (c, Ok rs));
      let rs := foldl query_callback Rows_new resps in
      result ← (if rc rs =? LCB_SUCCESS then lift (set_rows (rows rs))
                else mret (replicate (length (rows rs)) None));
      mret (Return (js_array result))
  end.

Definition N1QL_InstallMaps (n : nat) : prog W bool :=
  b ← object_at (T:=N1QL) n;
  let templ := cached (n1ql_map_template_ b) MakeN1QLMapTemplate in
  _ ← set_object n (N1QLObject (n_bucket_name b) (n_endpoint b) (n1ql_alias b)
                      (n1ql_lcb_obj b) (Some templ));
  n1ql_obj ← lift (WrapN1QLMap n templ);
  _ ← install_global (n1ql_alias b) n1ql_obj;
  mret true.

Definition N1QL_Initialize (n : nat) : prog W bool := N1QL_InstallMaps n.
End n1ql.

(** The object that [InstallMaps] makes. *)
Definition n1ql_object (n : nat) : js_object :=
  JsObject N1qlHandlers [Some (PMap N1qlMap); Some (PLcb (N1qlLcb n))].

Lemma WrapN1QLMap_eq n : WrapN1QLMap n MakeN1QLMapTemplate = Ok (n1ql_object n).
Proof. reflexivity. Qed.

(** ** The fold of the callback *)

Lemma query_callback_rows rs rs0 :
  Forall (λ r, rflags_final r = false) rs →
  foldl query_callback rs0 rs = RowsObject (rows rs0 ++ (n_row <$> rs)) (metadata rs0) (rc rs0).
Proof.
  intros Hrs. revert rs0. induction Hrs as [|r rs Hr Hrs IH]; intros rs0; cbn [foldl fmap list_fmap].
  - rewrite app_nil_r. by destruct rs0.
  - rewrite IH. unfold query_callback. rewrite Hr. cbn [rows metadata rc]. by rewrite <-app_assoc.
Qed.

Lemma query_callback_all rs fin :
  Forall (λ r, rflags_final r = false) rs → rflags_final fin = true →
  foldl query_callback Rows_new (rs ++ [fin]) = RowsObject (n_row <$> rs) (n_row fin) (n_rc fin).
Proof.
  intros Hrs Hf. rewrite foldl_app, (query_callback_rows rs) by done. cbn [foldl]. unfold query_callback.
  by rewrite Hf.
Qed.

Lemma set_rows_ok `{V8} rs vs :
  Forall2 (λ row v, json_parse (c_str row) = Some v) rs vs → set_rows rs = Ok (Some <$> vs).
Proof.
  induction 1 as [|row v rs vs Hv Hrs IH]; [done|]. cbn [set_rows]. rewrite Hv, IH. reflexivity.
Qed.

Section n1ql_properties.
Context `{LcbHeap W} `{!LcbN1ql} `{!LcbN1qlLaws} `{!V8} `{!V8Laws}.
Implicit Types w : W.

(** The world after the query [q]. *)
Definition after_query b q w : W := update (lcb_n1ql_query b q (view w)).1 w.

Lemma N1QLEnumGetCall_eq n h s w :
  lcb_at (N1qlLcb n) w = Some h →
  let q := c_str s in
  let rs := foldl query_callback Rows_new (lcb_n1ql_query (connstr h) q (view w)).2 in
  N1QLEnumGetCall (n1ql_object n) (NString s) w
  = (after_query (connstr h) q w,
     (λ l, Return (js_array l)) <$>
     (if rc rs =? LCB_SUCCESS then set_rows (rows rs) else Ok (replicate (length (rows rs)) None))).
Proof.
  intros Hh. cbv zeta. unfold N1QLEnumGetCall, after_query.
  erewrite bind_Ok by apply lift_Ok_eq, name_string_ok. cbv beta. step.
  erewrite bind_Ok by by apply deref_lcb_Ok. cbv beta.
  unfold mbind at 1, prog_bind at 1, zoom at 1.
  destruct (lcb_n1ql_query (connstr h) (c_str s) (view w)) as [c1 resps]. cbn [fst snd].
  set (rs := foldl query_callback Rows_new resps).
  destruct (rc rs =? LCB_SUCCESS); [|done].
  unfold mbind, prog_bind, lift. by destruct (set_rows (rows rs)).
Qed.

(** C27: reading the property [q] of the query object runs [q] once.  If the
    query ends with success and its rows are JSON, the value is the array of
    the rows' values in the order they came, whatever their number. *)
Theorem n1ql_rows_in_order n h s w rs fin vs :
  lcb_at (N1qlLcb n) w = Some h →
  (lcb_n1ql_query (connstr h) (c_str s) (view w)).2 = rs ++ [fin] →
  rflags_final fin = true → Forall (λ r, rflags_final r = false) rs → n_rc fin = LCB_SUCCESS →
  Forall2 (λ r v, json_parse (c_str (n_row r)) = Some v) rs vs →
  N1QLEnumGetCall (n1ql_object n) (NString s) w
  = (after_query (connstr h) (c_str s) w, Ok (Return (js_array (Some <$> vs)))).
Proof.
  intros Hh Hr Hf Hrs Hrc Hvs. rewrite (N1QLEnumGetCall_eq n h s w Hh). cbv zeta.
  rewrite Hr, query_callback_all by done. cbn [rc rows]. rewrite Hrc, Z.eqb_refl.
  rewrite (set_rows_ok _ vs); [done|]. by apply Forall2_fmap_l.
Qed.

(** A query that fails, before or after sending rows, does not
    throw: the value is an array with a hole for each row received. *)
Theorem n1ql_failure_is_silent n h s w :
  lcb_at (N1qlLcb n) w = Some h →
  (∀ r, last (lcb_n1ql_query (connstr h) (c_str s) (view w)).2 = Some r → n_rc r ≠ LCB_SUCCESS) →
  let received := (length (lcb_n1ql_query (connstr h) (c_str s) (view w)).2 - 1)%nat in
  N1QLEnumGetCall (n1ql_object n) (NString s) w
  = (after_query (connstr h) (c_str s) w, Ok (Return (js_array (replicate received None)))).
Proof.
  intros Hh Hfail. rewrite (N1QLEnumGetCall_eq n h s w Hh). cbv zeta.
  destruct (n1ql_responses (connstr h) (c_str s) (view w)) as [E|(rs & fin & E & Hf & Hrs)]; rewrite E in *.
  - done.
  - specialize (Hfail fin ltac:(by rewrite last_snoc)). rewrite query_callback_all by done. cbn [rc rows].
    destruct (Z.eqb_spec (n_rc fin) LCB_SUCCESS); [done|].
    rewrite length_fmap, length_app. cbn. by rewrite Nat.add_sub.
Qed.
End n1ql_properties.

(** ** Witnesses *)

From S2P Require Import Json MiniJson MiniV8 KvRef.

(** A service that answers one query with two rows, and refuses the others. *)
#[local] Instance two_rows : LcbN1ql (H := ref_lcb) := {|
  lcb_n1ql_query _ q c :=
    (c, if String.eqb q "SELECT 1"
        then [RespN1ql false 0 "true"; RespN1ql false 0 "null"; RespN1ql true 0 "{}"]
        else [RespN1ql true 23 EmptyString])
|}.

#[local] Program Instance two_rows_laws : LcbN1qlLaws (H0 := two_rows).
Next Obligation.
  intros b q c. right. cbn. destruct (String.eqb _ _).
  - exists [RespN1ql false 0 "true"; RespN1ql false 0 "null"], (RespN1ql true 0 "{}").
    split_and!; [done|done|by repeat constructor].
  - exists [], (RespN1ql true 23 EmptyString). split_and!; [done|done|constructor].
Qed.

Definition one_n1ql (id : lcb_id) (_ : @cluster ref_lcb) : option lcb_t :=
  match id with N1qlLcb O => Some (bare_handle "couchbase://localhost/b") | _ => None end.

#[local] Program Instance n1ql_heap : LcbHeap (@cluster ref_lcb) := {| lcb_at := one_n1ql |}.
Next Obligation. done. Qed.

Lemma n1ql_rows_in_order_witness :
  N1QLEnumGetCall (W:=@cluster ref_lcb) (n1ql_object 0) (NString "SELECT 1") ref_empty
  = (after_query "couchbase://localhost/b" "SELECT 1" ref_empty,
     Ok (Return (js_array [Some (MJson (JBool true)); Some (MJson JNull)]))).
Proof.
  apply (n1ql_rows_in_order (W:=@cluster ref_lcb) 0 (bare_handle "couchbase://localhost/b") "SELECT 1" ref_empty
           [RespN1ql false 0 "true"; RespN1ql false 0 "null"] (RespN1ql true 0 "{}")
           ([MJson (JBool true); MJson JNull] : list (@jsval mini_v8))); try reflexivity; repeat constructor.
Defined.

Lemma n1ql_failure_is_silent_witness :
  N1QLEnumGetCall (W:=@cluster ref_lcb) (n1ql_object 0) (NString "SELECT") ref_empty
  = (ref_empty, Ok (Return (js_array []))).
Proof.
  etransitivity.
  - apply (n1ql_failure_is_silent (W:=@cluster ref_lcb) 0 (bare_handle "couchbase://localhost/b")
             "SELECT" ref_empty); [reflexivity|]. by intros r [= <-].
  - reflexivity.
Defined.
