(* ===== verification/Queue.v ===== *)
(** * Queues over redis (queue.cc)

    A [Queue] connects to a redis server, deletes the list of its name and
    installs an object on the global object; reading a property of the object
    pushes the property's name on the list.  The list's name is read through a
    pointer to a [std::string] object that is cast to [const char*]. *)

From S2P Require Import Prelude CStd StdMap Endian V8 Engine Heap.
#[local] Open Scope Z_scope.

(** ** hiredis *)

Class Redis := {
  redis : Type;
  redisContext : Type;
  (** [None]: no context; otherwise the context and [c->err != 0]. *)
  redisConnectWithTimeout : string → Z → redis → redis * option (redisContext * bool);
  (** A format and its [%s] arguments; replies are freed unread. *)
  redisCommand : redisContext → string → list string → redis → redis
}.

(** A word of a command line: no space, no format directive. *)
Definition plain_word (s : string) : bool :=
  lacks " " s && lacks "%" s && nul_free s && negb (is_empty s).

Class RedisLaws `{Redis} := {
  redis_lists : redis → gmap string (list string);
  redis_connect_lists host port r :
    redis_lists (redisConnectWithTimeout host port r).1 = redis_lists r;
  redis_lpush c name x r :
    redis_lists (redisCommand c "LPUSH %s %s" [name; x] r)
    = <[name := x :: default [] (redis_lists r !! name)]> (redis_lists r);
  redis_del c name r :
    plain_word name = true →
    redis_lists (redisCommand c ("DEL " +:+ name) [] r) = delete name (redis_lists r)
}.

(** ** The constructor *)

Record Queue `{Redis} := QueueObject {
  provider : string;
  queue_name : string;
  q_endpoint : string;
  queue_alias : string;
  q_context : redisContext;
  queue_map_template_ : option object_template
}.

(** [s.substr(0, s.find(d))]: all of [s] when [d] is not found. *)
Definition substr_to (d s : string) : string :=
  match sfind d s with Some n => stake n s | None => s end.

(** [s.erase(0, s.find(d) + d.length())]: [npos + 1] is 0 for a one-byte [d]. *)
Definition erase_to (d s : string) : string :=
  match sfind d s with
  | Some n => sdrop (n + String.length d) s
  | None => sdrop (String.length d - 1) s
  end.

(** The hostname, the endpoint that remains, and the port's text. *)
Definition split_endpoint (ep : string) : string * string * string :=
  let delimiter := ":"%string in
  let hostname := substr_to delimiter ep in
  let endpoint := erase_to delimiter ep in
  (hostname, endpoint, substr_to delimiter endpoint).

(** Which queue an object reaches, and the bytes of a [std::string] object. *)
Section queue.
Context `{Redis} {W : Type} `{!Lens W redis} `{Engine} `{!Lens W (list Queue)} `{!Lens W js_state}.

Definition Queue_new (p ep alias qname : string) : prog W Queue :=
  let queue_name := c_str qname in
  let '(hostname, endpoint, port) := split_endpoint (c_str ep) in
  port ← lift (stoi port);
  c ← zoom (λ r : redis, let '(r, c) := redisConnectWithTimeout (c_str hostname) port r in (r, Ok c));
  match c with
  | Some (c, false) =>
      _ ← zoom (modify (redisCommand c (c_str ("DEL " +:+ c_str queue_name)) []));
      mret (QueueObject _ (c_str p) queue_name endpoint (c_str alias) c None)
  | _ => throw (Exited 1)
  end.

(** ** The representation of [std::string] *)

(** The 24 bytes of a libc++ [std::string] on a 64-bit little-endian host: a
    string of up to 22 bytes is held inside, after a byte that is twice its
    length; a longer one has the size of its allocation (with the low bit set),
    its length and its address. *)
Definition short_max : Z := 22.

Definition zeros (n : nat) : string := srepeat nul n.

Definition byte_string (l : list Z) : string :=
  foldr (λ b s, String (ascii_of_N (Z.to_N b)) s) EmptyString l.

Definition string_object (alloc address : Z) (s : string) : string :=
  if slen s <=? short_max
  then String (ascii_of_N (Z.to_N (2 * slen s))) (s +:+ zeros (23 - String.length s))
  else byte_string (le_split 8 (alloc + 1) ++ le_split 8 (slen s) ++ le_split 8 address).

(** Where the allocator put the characters of a queue's name. *)
Context (alloc address : Z).

Definition UnwrapRedisContext (obj : js_object) : outcome nat :=
  ptr ← GetInternalField 1 obj;
  match ptr with PRedis q => Ok q | _ => bad_cast end.

(** The pointer is to the [std::string] object itself: the C string read through
    it is the object's representation. *)
Definition UnwrapQueueName (obj : js_object) : prog W string :=
  ptr ← lift (GetInternalField 2 obj);
  match ptr with
  | PString q =>
      o ← object_at (T:=Queue) q;
      mret (c_str (string_object alloc address (queue_name o)))
  | _ => lift bad_cast
  end.

Definition QueueGetCall (obj : js_object) (name : js_name) : prog W reply :=
  match name with
  | NSymbol => mret Pass
  | NString s =>
      doc ← lift (name_string s);
      q ← lift (UnwrapRedisContext obj);
      o ← object_at (T:=Queue) q;
      qname ← UnwrapQueueName obj;
      let qname := sdrop 1 qname in
      _ ← zoom (modify (redisCommand (q_context o) "LPUSH %s %s" [c_str qname; c_str doc]));
      mret Pass
  end.

(** ** Installation *)

Definition MakeQueueMapTemplate : object_template := ObjectTemplate QueueHandlers 3.

Definition WrapQueueMap (n : nat) (templ : object_template) : outcome js_object :=
  result ← SetInternalField 0 (PMap QueueMap) (NewInstance templ);
  result ← SetInternalField 1 (PRedis n) result;
  SetInternalField 2 (PString n) result.

Definition InstallQueueMaps (n : nat) : prog W bool :=
  b ← object_at (T:=Queue) n;
  let templ := cached (queue_map_template_ b) MakeQueueMapTemplate in
  _ ← set_object n (QueueObject _ (provider b) (queue_name b) (q_endpoint b) (queue_alias b)
                      (q_context b) (Some templ));
  queue_obj ← lift (WrapQueueMap n templ);
  _ ← install_global (queue_alias b) queue_obj;
  mret true.

Definition Queue_Initialize (n : nat) : prog W bool := InstallQueueMaps n.
End queue.

(** The object that [InstallQueueMaps] makes. *)
Definition queue_object (n : nat) : js_object :=
  JsObject QueueHandlers [Some (PMap QueueMap); Some (PRedis n); Some (PString n)].

Lemma WrapQueueMap_eq n : WrapQueueMap n MakeQueueMapTemplate = Ok (queue_object n).
Proof. reflexivity. Qed.

(** ** Endpoints *)

Lemma substr_to_char d a b :
  lacks d a = true → substr_to (String d EmptyString) (a +:+ String d b) = a.
Proof. intros Ha. unfold substr_to. rewrite sfind_char by done. by rewrite stake_app. Qed.

Lemma substr_to_lacks d a : lacks d a = true → substr_to (String d EmptyString) a = a.
Proof. intros Ha. unfold substr_to. by rewrite sfind_char_none. Qed.

Lemma erase_to_char d a b :
  lacks d a = true → erase_to (String d EmptyString) (a +:+ String d b) = b.
Proof.
  intros Ha. unfold erase_to. rewrite sfind_char by done. cbn [String.length].
  replace (a +:+ String d b) with ((a +:+ String d EmptyString) +:+ b) by (by rewrite sapp_assoc).
  rewrite <-(sdrop_app (a +:+ String d EmptyString) b) at 2. by rewrite slength_app.
Qed.

Lemma erase_to_lacks d a : lacks d a = true → erase_to (String d EmptyString) a = a.
Proof. intros Ha. unfold erase_to. by rewrite sfind_char_none. Qed.

Lemma split_endpoint_colon host rest :
  lacks ":" host = true → split_endpoint (host +:+ String ":" rest) = (host, rest, substr_to ":" rest).
Proof. intros Hh. unfold split_endpoint. by rewrite substr_to_char, erase_to_char. Qed.

Lemma split_endpoint_no_colon ep : lacks ":" ep = true → split_endpoint ep = (ep, ep, ep).
Proof. intros He. unfold split_endpoint. by rewrite erase_to_lacks, !substr_to_lacks. Qed.

(** ** The name seen through the cast *)

Lemma c_str_zeros n s : nul_free s = true → c_str (s +:+ zeros n) = s.
Proof.
  intros Hs. rewrite c_str_app by done. destruct n as [|n]; [by rewrite sapp_nil_r|].
  cbn. by rewrite sapp_nil_r.
Qed.

Lemma short_head_not_nul n : 0 < n <= 22 → Ascii.eqb (ascii_of_N (Z.to_N (2 * n))) nul = false.
Proof.
  intros Hn. apply Ascii.eqb_neq. intros E%(f_equal N_of_ascii).
  rewrite N_ascii_embedding in E by lia. change (N_of_ascii nul) with 0%N in E. lia.
Qed.

(** A short name comes back whole once its first byte is erased. *)
Lemma string_object_short alloc address s :
  slen s <= short_max → nul_free s = true →
  sdrop 1 (c_str (string_object alloc address s)) = s.
Proof.
  unfold string_object, short_max. intros Hl Hs. destruct (Z.leb_spec (slen s) 22); [|lia].
  destruct s as [|a s]; [done|]. set (t := String a s) in *. cbn [c_str].
  rewrite short_head_not_nul by (unfold t; rewrite slen_cons; pose proof (slen_nonneg s);
                                 unfold t in Hl; rewrite slen_cons in Hl; lia).
  cbn [sdrop]. by rewrite c_str_zeros.
Qed.

(** Of a long name nothing remains, unless its allocation is 256 bytes or more. *)
Lemma string_object_long alloc address s :
  short_max < slen s → 0 <= alloc < 255 →
  sdrop 1 (c_str (string_object alloc address s)) = EmptyString.
Proof.
  unfold string_object, short_max. intros Hl Ha. destruct (Z.leb_spec (slen s) 22); [lia|].
  change 8%nat with (2 + 6)%nat at 1. rewrite (le_split_app 2 6).
  cbn [le_split app byte_string foldr]. change (256 ^ Z.of_nat 2) with 65536.
  rewrite (Z.mod_small (alloc + 1) 65536), (Z.mod_small (alloc + 1) 256) by lia.
  replace ((alloc + 1) / 256) with 0 by dlia. cbn [c_str].
  by destruct (Ascii.eqb _ nul).
Qed.

(** ** Properties *)

Section queue_facts.
Context `{RedisLaws} {W : Type} `{!Lens W redis} `{!V8} `{!V8Laws} `{!Lens W (list Queue)}.
Context (alloc address : Z).
Implicit Types w : W.

(** Setting the redis part keeps the queues. *)
Definition queues_apart : Prop :=
  ∀ (r : redis) w, (view (update r w) : list Queue) = view w.

(** What a read of a property does, in terms of the name seen. *)
Lemma QueueGetCall_eq n o s w :
  (view w : list Queue) !! n = Some o →
  let seen := sdrop 1 (c_str (string_object alloc address (queue_name o))) in
  QueueGetCall alloc address (queue_object n) (NString s) w
  = (update (redisCommand (q_context o) "LPUSH %s %s" [c_str seen; c_str s] (view w)) w, Ok Pass).
Proof.
  intros Ho. cbv zeta. unfold QueueGetCall.
  erewrite bind_Ok by apply lift_Ok_eq, name_string_ok. cbv beta. step.
  erewrite bind_Ok by by apply object_at_Ok. cbv beta.
  erewrite bind_Ok.
  2: { unfold UnwrapQueueName. step. cbv iota. erewrite bind_Ok by by apply object_at_Ok. reflexivity. }
  cbv beta zeta. step. by rewrite c_str_idemp.
Qed.

(** [enqueue(queue, doc)] for each of [docs]. *)
Definition enqueue_all (n : nat) (docs : list string) : prog W unit :=
  for_each (λ s, _ ← QueueGetCall alloc address (queue_object n) (NString s); mret tt) docs.

(** A list after [docs] were pushed one by one at its head. *)
Definition pushed (docs : list string) (old : option (list string)) : list string :=
  rev (c_str <$> docs) ++ default [] old.

(** The lists after a read of each of [docs]. *)
Lemma queue_gets n o docs w seen :
  queues_apart → (view w : list Queue) !! n = Some o →
  c_str (sdrop 1 (c_str (string_object alloc address (queue_name o)))) = seen →
  ∃ w', enqueue_all n docs w
        = (w', Ok tt) ∧
        redis_lists (view w')
        = if docs is [] then redis_lists (view w)
          else <[seen := pushed docs (redis_lists (view w) !! seen)]> (redis_lists (view w)).
Proof.
  intros Hq Ho <-. revert w Ho. induction docs as [|s docs IH]; intros w Ho; [by exists w|].
  unfold enqueue_all in *. cbn [for_each]. pose proof (QueueGetCall_eq n o s w Ho) as E. cbv zeta in E.
  set (w1 := update _ w) in E. destruct (IH w1) as (w' & Hrun & Hl).
  { unfold w1. by rewrite Hq. }
  exists w'. split.
  - erewrite bind_Ok; [exact Hrun|]. by erewrite bind_Ok by exact E.
  - rewrite Hl. unfold w1. rewrite view_update, redis_lpush. set (name := c_str _).
    destruct docs as [|s' docs']; [done|]. rewrite lookup_insert_eq, insert_insert_eq. f_equal.
    unfold pushed. cbn [default fmap list_fmap rev]. by rewrite <-!app_assoc.
Qed.

(** C26: enqueueing through the object of a queue whose name has at most 22
    bytes: the ids are pushed one by one at the head of exactly that list, so
    popping at the tail gives them in the order of the calls; other lists stay. *)
Theorem enqueue_pushes n o docs w :
  queues_apart → (view w : list Queue) !! n = Some o →
  nul_free (queue_name o) = true → slen (queue_name o) <= short_max → docs ≠ [] →
  ∃ w', enqueue_all n docs w
        = (w', Ok tt) ∧
        redis_lists (view w')
        = <[queue_name o := pushed docs (redis_lists (view w) !! queue_name o)]>
            (redis_lists (view w)).
Proof.
  intros Hq Ho Hn Hl Hd. destruct (queue_gets n o docs w (queue_name o) Hq Ho) as (w' & Hrun & Hw').
  - rewrite string_object_short by done. by apply c_str_id.
  - exists w'. by destruct docs.
Qed.

(** A queue whose name is longer than 22 bytes (and whose name's
    allocation is below 255 bytes) pushes to the list with the empty name. *)
Theorem long_name_pushes_elsewhere n o docs w :
  queues_apart → (view w : list Queue) !! n = Some o →
  short_max < slen (queue_name o) → 0 <= alloc < 255 → docs ≠ [] →
  ∃ w', enqueue_all n docs w
        = (w', Ok tt) ∧
        redis_lists (view w') !! queue_name o = redis_lists (view w) !! queue_name o ∧
        redis_lists (view w') !! EmptyString
        = Some (pushed docs (redis_lists (view w) !! EmptyString)).
Proof.
  intros Hq Ho Hl Ha Hd. destruct (queue_gets n o docs w EmptyString Hq Ho) as (w' & Hrun & Hw').
  - by rewrite string_object_long.
  - exists w'. destruct docs; [done|]. rewrite Hw'. split_and!; [done| |by rewrite lookup_insert_eq].
    rewrite lookup_insert_ne; [done|]. intros E. rewrite <-E in Hl. unfold short_max in Hl.
    by change (slen EmptyString) with 0 in Hl.
Qed.
End queue_facts.

Section constructor.
Context `{RedisLaws} {W : Type} `{!Lens W redis}.
Implicit Types w : W.

(** With an endpoint "host:port", whatever follows a second colon,
    the constructor connects to that host and port; it either ends the process
    with code 1 because there is no connection, or deletes the queue's list and
    keeps every other one. *)
Theorem queue_constructor p host port rest alias qname w :
  lacks ":" host = true → nul_free host = true → 0 <= port < 65536 →
  plain_word qname = true → (rest = EmptyString ∨ ∃ r, rest = String ":" r) → nul_free rest = true →
  ∃ w' r, Queue_new p (host +:+ String ":" (dec port +:+ rest)) alias qname w = (w', r) ∧
    match (redisConnectWithTimeout host port (view w)).2 with
    | Some (c, false) =>
        (∃ q, r = Ok q ∧ q_context q = c ∧ queue_name q = qname) ∧
        redis_lists (view w') = delete qname (redis_lists (view w))
    | _ => r = Fail (Exited 1) ∧ redis_lists (view w') = redis_lists (view w)
    end.
Proof.
  intros Hh Hhn Hp Hq Hrest Hrn. unfold Queue_new.
  assert (nul_free qname = true) as Hqn.
  { unfold plain_word in Hq. destruct (nul_free qname); [done|]. by rewrite andb_false_r in Hq. }
  assert (nul_free (host +:+ String ":" (dec port +:+ rest)) = true) as Hep.
  { unfold nul_free in *. rewrite sforall_app. cbn [sforall]. rewrite sforall_app, Hhn, Hrn.
    pose proof (dec_nul_free port) as Hd. unfold nul_free in Hd. by rewrite Hd. }
  rewrite (c_str_id _ Hep), (c_str_id qname Hqn), split_endpoint_colon by done.
  assert (substr_to ":" (dec port +:+ rest) = dec port) as ->.
  { assert (lacks ":" (dec port) = true) as Hlk by (by apply dec_lacks).
    destruct Hrest as [-> |[r ->]]; [rewrite sapp_nil_r; by apply substr_to_lacks|by apply substr_to_char]. }
  erewrite bind_Ok.
  2: { apply lift_Ok_eq. rewrite <-(sapp_nil_r (dec port)). apply stoi_dec; [|done].
       unfold CStd.in_int, int_min, int_max. lia. }
  cbv beta. rewrite (c_str_id host Hhn). unfold mbind at 1, prog_bind at 1, zoom at 1.
  pose proof (redis_connect_lists host port (view w)) as Hl.
  destruct (redisConnectWithTimeout host port (view w)) as [r1 c]. cbn [fst snd] in *.
  destruct c as [[c []]|]; [by eexists _, _; rewrite view_update| |by eexists _, _; rewrite view_update].
  eexists _, _. split.
  - erewrite bind_Ok by apply zoom_modify. reflexivity.
  - split; [by eexists|]. rewrite !view_update, (c_str_id qname Hqn), c_str_id; [by rewrite redis_del, Hl|].
    unfold nul_free in *. by rewrite sforall_app, Hqn.
Qed.

(** An endpoint without a colon is its own port text, because
    [npos + 1] wraps to 0: unless it starts with a number, the constructor throws
    and the process is terminated, before anything is sent. *)
Theorem endpoint_without_port p ep alias qname w :
  lacks ":" ep = true → nul_free ep = true → scan_dec ep = None →
  Queue_new p ep alias qname w = (w, Fail (Uncaught "std::invalid_argument")).
Proof.
  intros Hc Hn Hs. unfold Queue_new. rewrite (c_str_id ep Hn), split_endpoint_no_colon by done.
  assert (stoi ep = Fail (Uncaught "std::invalid_argument")) as E.
  { unfold stoi. by rewrite (c_str_id ep Hn), Hs. }
  rewrite E. reflexivity.
Qed.
End constructor.

(** ** Witnesses *)

From S2P Require Import Json MiniJson MiniV8.

(** A server that knows the two commands and listens on port 6379. *)
Definition mini_command (format : string) (args : list string) (r : gmap string (list string))
    : gmap string (list string) :=
  if String.eqb format "LPUSH %s %s" then
    match args with
    | [name; x] => <[name := x :: default [] (r !! name)]> r
    | _ => r
    end
  else match CStd.strip_prefix "DEL " format with Some name => delete name r | None => r end.

#[local] Instance mini_redis : Redis := {|
  redis := gmap string (list string);
  redisContext := unit;
  redisConnectWithTimeout host port r := (r, Some (tt, negb (port =? 6379)));
  redisCommand c format args r := mini_command format args r
|}.

#[local] Program Instance mini_redis_laws : RedisLaws (H := mini_redis) := {| redis_lists r := r |}.
Next Obligation. done. Qed.
Next Obligation. done. Qed.
Next Obligation. intros c name r _. reflexivity. Qed.

Definition queue_world : Type := redis * list Queue.
#[local] Instance queue_world_redis : Lens queue_world redis := lens_fst.
#[local] Instance queue_world_queues : Lens queue_world (list Queue) := lens_snd.

Definition queue_start (name : string) : queue_world :=
  ((∅ : gmap string (list string)), [QueueObject mini_redis "redis" name "6379" "q" tt None]).

Definition short_name : string := "order_processing".
Definition long_name : string := "order_processing_of_the_day".

Lemma enqueue_pushes_witness :
  ∃ w', enqueue_all 47 4096 0 ["a"; "b"]%string (queue_start short_name) = (w', Ok tt) ∧
        redis_lists (view w')
        = <[short_name := pushed ["a"; "b"]%string (redis_lists (view (queue_start short_name)) !! short_name)]>
            (redis_lists (view (queue_start short_name))).
Proof.
  apply (enqueue_pushes 47 4096 0 (QueueObject mini_redis "redis" short_name "6379" "q" tt None)
           ["a"; "b"]%string (queue_start short_name)); try done.
Defined.

Lemma long_name_pushes_elsewhere_witness :
  ∃ w', enqueue_all 47 4096 0 ["a"; "b"]%string (queue_start long_name) = (w', Ok tt) ∧
        redis_lists (view w') !! long_name
        = redis_lists (view (queue_start long_name)) !! long_name ∧
        redis_lists (view w') !! EmptyString
        = Some (pushed ["a"; "b"]%string (redis_lists (view (queue_start long_name)) !! EmptyString)).
Proof.
  apply (long_name_pushes_elsewhere 47 4096 0 (QueueObject mini_redis "redis" long_name "6379" "q" tt None)
           ["a"; "b"]%string (queue_start long_name)); try done.
Defined.

Lemma queue_constructor_witness :
  ∃ w' r, Queue_new "redis" "localhost:6379" "q" short_name (queue_start short_name) = (w', r) ∧
    (∃ q, r = Ok q ∧ q_context q = tt ∧ queue_name q = short_name) ∧
    redis_lists (view w') = delete short_name (redis_lists (view (queue_start short_name))).
Proof.
  change "localhost:6379"%string with ("localhost" +:+ String ":" (dec 6379 +:+ EmptyString)).
  destruct (queue_constructor "redis" "localhost" 6379 EmptyString "q" short_name
              (queue_start short_name)) as (w' & r & Hrun & Hr);
    [reflexivity|reflexivity|lia|reflexivity|by left|reflexivity|].
  exists w', r. split; [exact Hrun|exact Hr].
Defined.

Lemma endpoint_without_port_witness :
  Queue_new "redis" "localhost" "q" short_name (queue_start short_name)
  = (queue_start short_name, Fail (Uncaught "std::invalid_argument")).
Proof. apply endpoint_without_port; reflexivity. Defined.
