(* ===== verification/Deployment.v ===== *)
(** * Deployment configuration (parse_deployment.cc)

    [ParseDeployment] reads the application's file and turns its JSON into the
    maps from which the worker makes its buckets and queues. *)

From S2P Require Import Prelude CStd StdMap Json.
#[local] Open Scope Z_scope.

Record deployment_config := DeploymentConfig {
  metadata_bucket : string;
  source_bucket : string;
  source_endpoint : string;
  component_configs : gmap string (gmap string (list string))
}.

Section parse.
Context `{RapidJson}.

(** What an [ifstream] on a path reads: nothing when the file is not there. *)
Context (read_file : string → option string).

Definition bucket_entry (b : json) : outcome (string * list string) :=
  bucket_name ← member "bucket_name" b;
  alias ← member "alias" b;
  bucket_name ← GetString bucket_name;
  alias ← GetString alias;
  mret (alias, [bucket_name; alias]).

Definition queue_entry (q : json) : outcome (string * list string) :=
  provider ← member "provider" q;
  queue_name ← member "queue_name" q;
  endpoint ← member "endpoint" q;
  alias ← member "alias" q;
  provider ← GetString provider;
  endpoint ← GetString endpoint;
  alias ← GetString alias;
  queue_name ← GetString queue_name;
  mret (provider, [provider; endpoint; alias; queue_name]).

(** [info[key] = entry] for each element of an array. *)
Fixpoint entries (entry : json → outcome (string * list string)) (l : list json)
    (info : gmap string (list string)) : outcome (gmap string (list string)) :=
  match l with
  | [] => mret info
  | x :: l => '(k, v) ← entry x; entries entry l (<[k := v]> info)
  end.

(** The block that reads the parsed document. *)
Definition config_of_document (doc : json) : outcome deployment_config :=
  depcfg ← member "depcfg" doc;
  buckets ← member "buckets" depcfg;
  queues ← member "queue" depcfg;
  workspace ← member "workspace" depcfg;
  source ← member "source" depcfg;
  if negb (IsArray buckets && IsArray queues && IsObject workspace && IsObject source)
  then Fail AssertFailed
  else
    bs ← elements_of buckets;
    buckets_info ← entries bucket_entry bs ∅;
    qs ← elements_of queues;
    queues_info ← entries queue_entry qs ∅;
    metadata_bucket ← member "metadata_bucket" workspace;
    metadata_bucket ← GetString metadata_bucket;
    source_bucket ← member "source_bucket" source;
    source_bucket ← GetString source_bucket;
    mret (DeploymentConfig metadata_bucket source_bucket "localhost"
            (<["queue" := queues_info]> (<["buckets" := buckets_info]> ∅))%string).

Definition ParseDeployment (app_name : string) : outcome deployment_config :=
  let content := default EmptyString (read_file ("./apps/" +:+ c_str app_name)) in
  match rj_parse (c_str content) with
  | None => Fail (Exited 1)
  | Some doc => if IsObject doc then config_of_document doc else Fail AssertFailed
  end.
End parse.

(** ** A deployment as a document *)

Record bucket_conf := BucketConf { bc_name : string; bc_alias : string }.
Record queue_conf := QueueConf { qc_provider : string; qc_name : string; qc_endpoint : string; qc_alias : string }.

Definition bucket_json (b : bucket_conf) : json :=
  JObject [("bucket_name", JString (bc_name b)); ("alias", JString (bc_alias b))]%string.

Definition queue_json (q : queue_conf) : json :=
  JObject [("provider", JString (qc_provider q)); ("queue_name", JString (qc_name q));
           ("endpoint", JString (qc_endpoint q)); ("alias", JString (qc_alias q))]%string.

Definition deployment_json (bs : list bucket_conf) (qs : list queue_conf) (metadata source : string) : json :=
  JObject [("depcfg", JObject [("buckets", JArray (bucket_json <$> bs));
                               ("queue", JArray (queue_json <$> qs));
                               ("workspace", JObject [("metadata_bucket", JString metadata)]);
                               ("source", JObject [("source_bucket", JString source)])])]%string.

(** The last element of a list that [p] holds of. *)
Definition last_where {A} (p : A → Prop) `{∀ x, Decision (p x)} (l : list A) : option A :=
  last (filter p l).

(** ** Lemmas *)

Lemma last_where_snoc {A} (p : A → Prop) `{∀ x, Decision (p x)} l x :
  last_where p (l ++ [x]) = if decide (p x) then Some x else last_where p l.
Proof.
  unfold last_where. rewrite filter_app. destruct (decide (p x)) as [E|E].
  - rewrite filter_cons_True, filter_nil by done. by rewrite last_snoc.
  - by rewrite filter_cons_False, filter_nil, app_nil_r by done.
Qed.

Lemma entries_app entry l k info :
  entries entry (l ++ k) info = (info' ← entries entry l info; entries entry k info').
Proof.
  revert info. induction l as [|x l IH]; intros info; [done|]. cbn [app entries].
  destruct (entry x) as [[key v]|]; [|done]. exact (IH (<[key := v]> info)).
Qed.

(** The map of the entries of well-formed elements: the last one wins. *)
Lemma entries_ok {A} entry (f : A → json) (key : A → string) (val : A → list string) l :
  (∀ x, entry (f x) = Ok (key x, val x)) →
  ∃ info, entries entry (f <$> l) ∅ = Ok info ∧
          ∀ k, info !! k = val <$> last_where (λ x, key x = k) l.
Proof.
  intros Hf. induction l as [|x l IH] using rev_ind; [by exists ∅|].
  destruct IH as (info & Hi & Hk). rewrite fmap_app, entries_app, Hi.
  exists (<[key x := val x]> info). split; [cbn; by rewrite Hf|].
  intros k. rewrite last_where_snoc. destruct (decide (key x = k)) as [<-|E].
  - by rewrite lookup_insert_eq.
  - by rewrite lookup_insert_ne.
Qed.

(** A property of every entry is one of the map's values. *)
Lemma entries_forall entry (P : list string → Prop) l info info' :
  (∀ x k v, entry x = Ok (k, v) → P v) → map_Forall (λ _, P) info →
  entries entry l info = Ok info' → map_Forall (λ _, P) info'.
Proof.
  intros He. revert info. induction l as [|x l IH]; intros info Hi; cbn [entries].
  - by intros [= <-].
  - intros ([k v] & Hx & Hl)%outcome_bind_Ok. cbv beta in Hl.
    eapply IH; [|exact Hl]. apply map_Forall_insert_2; eauto.
Qed.

(** The maps that a document gives. *)
Lemma config_of_document_shape d cfg :
  config_of_document d = Ok cfg →
  ∃ buckets queues,
    component_configs cfg = <["queue" := queues]> (<["buckets" := buckets]> ∅)%string ∧
    map_Forall (λ _ v, length v = 2%nat) buckets ∧ map_Forall (λ _ v, length v = 4%nat) queues.
Proof.
  unfold config_of_document. intros Hc.
  do 5 (apply outcome_bind_Ok in Hc as (? & _ & Hc); cbv beta in Hc).
  destruct (negb _); [done|]. outcome_inv. subst cfg. eexists _, _. split; [done|]. split.
  - eapply (entries_forall bucket_entry); [|apply map_Forall_empty|eassumption].
    intros y k v Hy. unfold bucket_entry in Hy. outcome_inv. by simplify_eq.
  - eapply (entries_forall queue_entry); [|apply map_Forall_empty|eassumption].
    intros y k v Hy. unfold queue_entry in Hy. outcome_inv. by simplify_eq.
Qed.

(** ** Properties *)

Section properties.
Context `{RapidJson} (read_file : string → option string).

(** C22: for a file whose text is the document of a list of buckets and of
    queues, whatever their number, the configuration has the document's source
    and metadata buckets, the endpoint localhost, and exactly the components
    "buckets" and "queue": under each alias the entry of the last bucket of
    that alias, under each provider that of the last queue of that provider. *)
Theorem ParseDeployment_functional app text bs qs metadata source :
  read_file ("./apps/" +:+ c_str app) = Some text →
  rj_parse (c_str text) = Some (deployment_json bs qs metadata source) →
  ∃ cfg buckets queues,
    ParseDeployment read_file app = Ok cfg ∧
    metadata_bucket cfg = c_str metadata ∧ source_bucket cfg = c_str source ∧
    source_endpoint cfg = "localhost"%string ∧
    component_configs cfg = <["queue" := queues]> (<["buckets" := buckets]> ∅)%string ∧
    (∀ alias, buckets !! alias
              = (λ b, [c_str (bc_name b); c_str (bc_alias b)])
                <$> last_where (λ b, c_str (bc_alias b) = alias) bs) ∧
    (∀ provider, queues !! provider
              = (λ q, [c_str (qc_provider q); c_str (qc_endpoint q); c_str (qc_alias q); c_str (qc_name q)])
                <$> last_where (λ q, c_str (qc_provider q) = provider) qs).
Proof.
  intros Hf Hp. unfold ParseDeployment. rewrite Hf. cbn [from_option id]. rewrite Hp.
  destruct (entries_ok bucket_entry bucket_json (λ b, c_str (bc_alias b))
              (λ b, [c_str (bc_name b); c_str (bc_alias b)]) bs) as (buckets & Hb & Hbs); [done|].
  destruct (entries_ok queue_entry queue_json (λ q, c_str (qc_provider q))
              (λ q, [c_str (qc_provider q); c_str (qc_endpoint q); c_str (qc_alias q); c_str (qc_name q)]) qs)
    as (queues & Hq & Hqs); [done|].
  exists (DeploymentConfig (c_str metadata) (c_str source) "localhost"
            (<["queue" := queues]> (<["buckets" := buckets]> ∅))%string), buckets, queues.
  split_and!; [|done|done|done|done|exact Hbs|exact Hqs].
  unfold config_of_document, deployment_json.
  clear Hp. set (lb := bucket_json <$> bs) in *. set (lq := queue_json <$> qs) in *.
  clearbody lb lq.
  do 5 outcome_step. change (negb _) with false. cbv iota. repeat outcome_step. reflexivity.
Qed.

(** C31: whenever [ParseDeployment] returns, the component maps it
    returns are exactly "buckets" and "queue", every bucket entry has its two
    fields and every queue entry its four: the worker's constructor, which
    indexes these vectors without a check, never reads past their end. *)
Theorem ParseDeployment_shape app cfg :
  ParseDeployment read_file app = Ok cfg →
  ∃ buckets queues,
    component_configs cfg = <["queue" := queues]> (<["buckets" := buckets]> ∅)%string ∧
    map_Forall (λ _ v, length v = 2%nat) buckets ∧ map_Forall (λ _ v, length v = 4%nat) queues.
Proof.
  unfold ParseDeployment. destruct (rj_parse _) as [d|]; [|done]. destruct (IsObject d); [|done].
  apply config_of_document_shape.
Qed.

(** A file that is not there, or is not JSON, ends the process
    with code 1; a document that is not an object fails an assertion. *)
Theorem ParseDeployment_errors app `{!RapidJsonLaws} :
  (read_file ("./apps/" +:+ c_str app) = None → ParseDeployment read_file app = Fail (Exited 1)) ∧
  (∀ text, read_file ("./apps/" +:+ c_str app) = Some text →
     match rj_parse (c_str text) with
     | None => ParseDeployment read_file app = Fail (Exited 1)
     | Some d => IsObject d = false → ParseDeployment read_file app = Fail AssertFailed
     end).
Proof.
  unfold ParseDeployment. split.
  - intros ->. cbn. by rewrite parse_empty.
  - intros text ->. cbn [from_option id]. destruct (rj_parse (c_str text)) as [d|]; [|done].
    by intros ->.
Qed.
End properties.

(** ** Witnesses *)

From S2P Require Import MiniJson.

(** go_eventing/deployment.json in one line, with one queue. *)
Definition example_text : string := dquoted
  ("{'depcfg':{'buckets':[{'bucket_name':'beer-sample','alias':'beer'},{'bucket_name':'travel','alias':'trip'}],"
   +:+ "'queue':[{'provider':'redis','queue_name':'q1','endpoint':'localhost:6379','alias':'orders'}],"
   +:+ "'workspace':{'metadata_bucket':'eventing'},'source':{'source_bucket':'default'}}}").

Definition example_files (path : string) : option string :=
  if String.eqb path "./apps/credit_score" then Some example_text else None.

Definition example_buckets : list bucket_conf := [BucketConf "beer-sample" "beer"; BucketConf "travel" "trip"].
Definition example_queues : list queue_conf := [QueueConf "redis" "q1" "localhost:6379" "orders"].

Lemma example_parses :
  rj_parse (c_str example_text) = Some (deployment_json example_buckets example_queues "eventing" "default").
Proof. vm_compute. reflexivity. Qed.

Lemma ParseDeployment_functional_witness :
  ∃ cfg buckets queues,
    ParseDeployment example_files "credit_score" = Ok cfg ∧
    metadata_bucket cfg = c_str "eventing" ∧ source_bucket cfg = c_str "default" ∧
    source_endpoint cfg = "localhost"%string ∧
    component_configs cfg = <["queue" := queues]> (<["buckets" := buckets]> ∅)%string ∧
    (∀ alias, buckets !! alias
              = (λ b, [c_str (bc_name b); c_str (bc_alias b)])
                <$> last_where (λ b, c_str (bc_alias b) = alias) example_buckets) ∧
    (∀ provider, queues !! provider
              = (λ q, [c_str (qc_provider q); c_str (qc_endpoint q); c_str (qc_alias q); c_str (qc_name q)])
                <$> last_where (λ q, c_str (qc_provider q) = provider) example_queues).
Proof.
  apply (ParseDeployment_functional example_files "credit_score" example_text);
    [reflexivity|exact example_parses].
Defined.

(** The configuration of the example. *)
Definition example_config : deployment_config :=
  DeploymentConfig "eventing" "default" "localhost"
    {["buckets" := {["beer" := ["beer-sample"; "beer"]; "trip" := ["travel"; "trip"]]};
      "queue" := {["redis" := ["redis"; "localhost:6379"; "orders"; "q1"]]}]}%string.

Lemma ParseDeployment_shape_witness :
  ∃ buckets queues,
    component_configs example_config = <["queue" := queues]> (<["buckets" := buckets]> ∅)%string ∧
    map_Forall (λ _ v, length v = 2%nat) buckets ∧ map_Forall (λ _ v, length v = 4%nat) queues.
Proof. apply (ParseDeployment_shape example_files "credit_score"). vm_compute. reflexivity. Defined.

Lemma ParseDeployment_errors_witness :
  ParseDeployment example_files "nowhere" = Fail (Exited 1).
Proof. apply (ParseDeployment_errors example_files "nowhere"). reflexivity. Defined.
