(* ===== verification/Regex.v ===== *)
(** * The regular expressions of [std::regex] (ECMAScript grammar)

    The two patterns of worker.cc are made of literals, [.*] and groups: [re]
    is that fragment and [re_match] its backtracking matcher, which takes the
    longest choice for [.*] first and records the text of each group.
    [regex_search] takes the leftmost position. *)

From S2P Require Import Prelude CStd.

Inductive re : Type :=
  | RLit (s : string)
  | RDots                     (** [.*] *)
  | RSeq (a b : re)
  | RGroup (n : nat) (a : re).

(** What [.] does not match. *)
Definition line_end (c : ascii) : bool := Ascii.eqb c "010" || Ascii.eqb c "013".

Arguments line_end : simpl never.

(** [.*] followed by [k], longest first. *)
Fixpoint dots {A} (k : string → option A) (s : string) : option A :=
  match s with
  | String c s' =>
      if line_end c then k s
      else match dots k s' with Some x => Some x | None => k s end
  | EmptyString => k s
  end.

Definition captures : Type := list (nat * string).

(** The text consumed between [s] and its suffix [rest]. *)
Definition consumed (s rest : string) : string := stake (String.length s - String.length rest) s.

Fixpoint re_match {A} (r : re) (s : string) (caps : captures)
    (k : string → captures → option A) : option A :=
  match r with
  | RLit lit => match CStd.strip_prefix lit s with Some rest => k rest caps | None => None end
  | RDots => dots (λ rest, k rest caps) s
  | RSeq a b => re_match a s caps (λ s caps, re_match b s caps k)
  | RGroup n a => re_match a s caps (λ rest caps, k rest ((n, consumed s rest) :: caps))
  end.

(** [std::smatch]. *)
Record smatch := Smatch { prefix : string; groups : captures; suffix : string }.

(** [m[n].str()]: empty for a group that did not take part. *)
Definition group (m : smatch) (n : nat) : string :=
  match list_find (λ p, p.1 = n) (groups m) with
  | Some (_, (_, s)) => s
  | None => EmptyString
  end.

Fixpoint search_from (r : re) (pre s : string) : option smatch :=
  match re_match r s [] (λ rest caps, Some (Smatch pre caps rest)) with
  | Some m => Some m
  | None =>
      match s with
      | EmptyString => None
      | String c s' => search_from r (pre +:+ String c EmptyString) s'
      end
  end.

Definition regex_search (r : re) (s : string) : option smatch := search_from r EmptyString s.

(** [while (regex_search(s, m, r)) { acc += m.prefix(); acc += f(m); s = m.suffix(); }
    acc += s]: [None] when [fuel] iterations are not enough. *)
Fixpoint search_loop (r : re) (f : smatch → string) (fuel : nat) (acc s : string) : option string :=
  match fuel with
  | O => None
  | S fuel =>
      match regex_search r s with
      | Some m => search_loop r f fuel (acc +:+ prefix m +:+ f m) (suffix m)
      | None => Some (acc +:+ s)
      end
  end.

(** Enough for every text when a match consumes at least one byte. *)
Definition run_loop (r : re) (f : smatch → string) (s : string) : option string :=
  search_loop r f (S (String.length s)) EmptyString s.

(** [std::regex_replace(s, r, fmt)] for a [fmt] without [$]. *)
Definition regex_replace (s : string) (r : re) (fmt : string) : option string :=
  run_loop r (λ _, fmt) s.

(** ** Where matches are *)

(** A pattern that cannot match fewer than [n] bytes. *)
Fixpoint min_length (r : re) : nat :=
  match r with
  | RLit s => String.length s
  | RDots => 0
  | RSeq a b => min_length a + min_length b
  | RGroup _ a => min_length a
  end.

(** No line end in [s]. *)
Definition one_line (s : string) : bool := sforall (λ c, negb (line_end c)) s.

Lemma dots_rest {A} (k : string → option A) s x :
  dots k s = Some x → ∃ a rest, s = a +:+ rest ∧ k rest = Some x ∧ one_line a = true.
Proof.
  induction s as [|c s IH]; cbn [dots].
  - intros Hk. by exists EmptyString, EmptyString.
  - destruct (line_end c) eqn:Ec; [intros Hk; by exists EmptyString, (String c s)|].
    destruct (dots k s) as [y|].
    + intros [= ->]. destruct (IH eq_refl) as (a & rest & -> & Hk & Ha).
      exists (String c a), rest. cbn. by rewrite Ec.
    + intros Hk. by exists EmptyString, (String c s).
Qed.

(** A match consumes a prefix that is long enough. *)
Lemma re_match_rest {A} r s caps (k : string → captures → option A) x :
  re_match r s caps k = Some x →
  ∃ a rest caps', s = a +:+ rest ∧ k rest caps' = Some x ∧ (min_length r <= String.length a)%nat.
Proof.
  revert s caps k. induction r as [lit| |r1 IH1 r2 IH2|n r IH]; intros s caps k; cbn [re_match min_length].
  - destruct (CStd.strip_prefix lit s) as [rest|] eqn:E; [|done].
    apply strip_prefix_spec in E as ->. eauto 6.
  - intros (a & rest & -> & Hk & _)%dots_rest. exists a, rest, caps. split_and!; [done..|lia].
  - intros (a & rest & caps1 & -> & (b & rest2 & caps2 & -> & Hk & Hb)%IH2 & Ha)%IH1.
    exists (a +:+ b), rest2, caps2. rewrite sapp_assoc, slength_app. split_and!; [done..|lia].
  - intros (a & rest & caps1 & -> & Hk & Ha)%IH. eauto 6.
Qed.

Lemma search_from_spec r pre s m :
  search_from r pre s = Some m →
  ∃ a b, s = a +:+ b +:+ suffix m ∧ prefix m = pre +:+ a ∧ (min_length r <= String.length b)%nat.
Proof.
  revert pre. induction s as [|c s IH]; intros pre; cbn [search_from];
    (destruct (re_match r _ [] _) as [m'|] eqn:E;
     [intros [= ->]; apply re_match_rest in E as (b & rest & caps & -> & [= <-] & Hb);
      exists EmptyString, b; rewrite sapp_nil_r; done|]).
  - done.
  - intros (a & b & -> & Hp & Hb)%IH. exists (String c a), b. split_and!; [done| |done].
    by rewrite Hp, sapp_assoc.
Qed.

(** The loop never runs out of its fuel. *)
Lemma run_loop_total r f s : (0 < min_length r)%nat → is_Some (run_loop r f s).
Proof.
  intros Hr. unfold run_loop. assert (String.length s < S (String.length s))%nat as Hf by lia.
  revert Hf. generalize EmptyString as acc. generalize (S (String.length s)) as fuel.
  intros fuel. revert s. induction fuel as [|fuel IH]; intros s acc Hf; [lia|]. cbn [search_loop].
  destruct (regex_search r s) as [m|] eqn:E; [|eauto]. apply IH.
  apply search_from_spec in E as (a & b & -> & _ & Hb). rewrite !slength_app in Hf. lia.
Qed.

(** More fuel gives the same text. *)
Lemma search_loop_mono r f fuel fuel' acc s t :
  search_loop r f fuel acc s = Some t → (fuel <= fuel')%nat → search_loop r f fuel' acc s = Some t.
Proof.
  revert fuel' acc s. induction fuel as [|fuel IH]; intros fuel' acc s; [done|].
  destruct fuel' as [|fuel']; [lia|]. cbn [search_loop]. intros E Hf.
  destruct (regex_search r s); [|done]. apply IH; [done|lia].
Qed.

Lemma search_loop_acc r f fuel acc s :
  search_loop r f fuel acc s = (λ t, acc +:+ t) <$> search_loop r f fuel EmptyString s.
Proof.
  revert acc s. induction fuel as [|fuel IH]; intros acc s; [done|]. cbn [search_loop].
  destruct (regex_search r s) as [m|]; [|done].
  rewrite IH, (IH (EmptyString +:+ _)). destruct (search_loop r f fuel EmptyString (suffix m)); [|done].
  cbn. by rewrite !sapp_nil_l, !sapp_assoc.
Qed.

(** One iteration, and none. *)
Lemma run_loop_step r f s m :
  (0 < min_length r)%nat → regex_search r s = Some m →
  run_loop r f s = (λ t, prefix m +:+ f m +:+ t) <$> run_loop r f (suffix m).
Proof.
  intros Hr E. pose proof (run_loop_total r f (suffix m) Hr) as [t Ht].
  rewrite Ht. unfold run_loop in *. cbn [search_loop]. rewrite E, search_loop_acc.
  pose proof E as (a & b & Hs & _ & Hb)%search_from_spec.
  rewrite (search_loop_mono _ _ _ (String.length s) _ _ _ Ht).
  - cbn. by rewrite sapp_nil_l, sapp_assoc.
  - rewrite Hs, !slength_app. lia.
Qed.

Lemma run_loop_none r f s : regex_search r s = None → run_loop r f s = Some s.
Proof. intros E. unfold run_loop. cbn [search_loop]. by rewrite E. Qed.

(** ** Searching for a pattern that starts with a literal *)

(** [lit] does not start anywhere in [pre] when [s] follows it. *)
Fixpoint first_at (lit pre s : string) : bool :=
  match pre with
  | EmptyString => true
  | String _ pre' =>
      match CStd.strip_prefix lit (pre +:+ s) with Some _ => false | None => first_at lit pre' s end
  end.

Lemma search_from_skip r lit acc pre s :
  (∀ t, CStd.strip_prefix lit t = None →
        ∀ A caps (k : string → captures → option A), re_match r t caps k = None) →
  first_at lit pre s = true →
  search_from r acc (pre +:+ s) = search_from r (acc +:+ pre) s.
Proof.
  intros Hr. revert acc. induction pre as [|c pre IH]; intros acc Hpre; [by rewrite sapp_nil_r|].
  cbn [first_at] in Hpre. destruct (CStd.strip_prefix lit (String c pre +:+ s)) eqn:E; [done|].
  rewrite sapp_cons in *. cbn [search_from]. rewrite (Hr _ E), IH by done. by rewrite sapp_assoc.
Qed.

Lemma search_from_none r lit acc s :
  (∀ t, CStd.strip_prefix lit t = None →
        ∀ A caps (k : string → captures → option A), re_match r t caps k = None) →
  (0 < String.length lit)%nat → sfind lit s = None → search_from r acc s = None.
Proof.
  intros Hr Hlit. revert acc. induction s as [|c s IH]; intros acc; cbn [sfind search_from].
  - destruct lit; [cbn in Hlit; lia|]. intros _. by rewrite Hr.
  - destruct (CStd.strip_prefix lit (String c s)) eqn:E; [done|].
    destruct (sfind lit s); [done|]. intros _. rewrite Hr by done. by apply IH.
Qed.

(** ** [.*] on one line *)

(** The part of [s] before its first line end. *)
Fixpoint first_line (s : string) : string :=
  match s with
  | String c s => if line_end c then EmptyString else String c (first_line s)
  | EmptyString => EmptyString
  end.

Lemma dots_app {A} (k : string → option A) a b x :
  one_line a = true → dots k b = Some x → dots k (a +:+ b) = Some x.
Proof.
  intros Ha Hb. induction a as [|c a IH]; [done|]. rewrite sapp_cons. cbn in Ha |- *.
  destruct (line_end c); [done|]. by rewrite IH.
Qed.

(** [.*] stops where nothing further on the line can follow it. *)
Lemma dots_here {A} (k : string → option A) s x :
  k s = Some x →
  (∀ a b, s = a +:+ b → a ≠ EmptyString → one_line a = true → k b = None) →
  dots k s = Some x.
Proof.
  intros Hk Hno. assert (∀ a t, s = a +:+ t → a ≠ EmptyString → one_line a = true → dots k t = None) as Hd.
  { intros a t. revert a. induction t as [|c t IH]; intros a -> Ha Hl; cbn [dots]; [by eapply Hno|].
    destruct (line_end c) eqn:Ec; [by eapply Hno|].
    rewrite (IH (a +:+ String c EmptyString)); [by eapply Hno| | |].
    - by rewrite sapp_assoc.
    - by destruct a.
    - unfold one_line in *. rewrite sforall_app, Hl. cbn. by rewrite Ec. }
  destruct s as [|c s]; [done|]. cbn [dots]. destruct (line_end c) eqn:Ec; [done|].
  rewrite (Hd (String c EmptyString) s); [done|done|done|]. cbn. by rewrite Ec.
Qed.

Lemma consumed_app a b : consumed (a +:+ b) b = a.
Proof. unfold consumed. rewrite slength_app, Nat.add_sub. apply stake_app. Qed.


(** A byte that is not on the first line is not reached on it. *)
Lemma first_line_lacks d s a b :
  lacks d (first_line s) = true → line_end d = false → s = a +:+ b → one_line a = true →
  CStd.strip_prefix (String d EmptyString) b = None.
Proof.
  intros Hs Hd -> Ha. induction a as [|c a IH].
  - rewrite sapp_nil_l in Hs. destruct b as [|c b]; [done|]. cbn in Hs |- *.
    destruct (Ascii.eqb_spec d c) as [<-|]; [|done]. rewrite Hd in Hs. cbn in Hs.
    by rewrite Ascii.eqb_refl in Hs.
  - rewrite sapp_cons in Hs. cbn in Hs, Ha. destruct (line_end c); [done|].
    cbn in Hs, Ha. apply andb_true_iff in Hs as [_ Hs]. by apply IH.
Qed.
