(* ===== verification/Preprocess.v ===== *)
(** * Preprocessing of handler code ([Worker::WorkerLoad], worker.cc)

    Before compiling, the worker rewrites [enqueue(q, v)] to [q[v]] and
    n1ql("query") to a tagged template, each with a regular expression search
    in a loop, and appends the built-in functions. *)

From S2P Require Import Prelude CStd Regex.

(** ** The two passes *)

Definition enqueue : re :=
  RGroup 1 (RSeq (RLit "enqueue(") (RSeq (RGroup 2 RDots)
            (RSeq (RLit ", ") (RSeq (RGroup 3 RDots) (RLit ")"))))).

Definition rewrite_enqueue (queue_m : smatch) : string :=
  group queue_m 2 +:+ "[" +:+ group queue_m 3 +:+ "]".

Definition n1ql_open : string := dquoted "n1ql('".
Definition n1ql_close : string := dquoted "')".

Definition n1ql_ttl : re :=
  RSeq (RGroup 1 (RLit n1ql_open)) (RSeq (RGroup 2 RDots) (RGroup 3 (RLit n1ql_close))).

Definition rewrite_n1ql (n1ql_m : smatch) : string :=
  default EmptyString (regex_replace (group n1ql_m 1) (RLit n1ql_open) "n1ql`")
  +:+ group n1ql_m 2
  +:+ default EmptyString (regex_replace (group n1ql_m 3) (RLit n1ql_close) "`").

(** The script [WorkerLoad] compiles; [None] would be a loop that does not end. *)
Definition script_to_execute (builtin_functions source_s : string) : option string :=
  let content := c_str source_s in
  temp ← run_loop enqueue rewrite_enqueue content;
  script ← run_loop n1ql_ttl rewrite_n1ql temp;
  Some (script +:+ builtin_functions).

(** ** What one search finds *)

Lemma enqueue_needs_open t A caps (k : string → captures → option A) :
  CStd.strip_prefix "enqueue(" t = None → re_match enqueue t caps k = None.
Proof. intros E. unfold enqueue. cbn [re_match]. by rewrite E. Qed.

Lemma n1ql_needs_open t A caps (k : string → captures → option A) :
  CStd.strip_prefix n1ql_open t = None → re_match n1ql_ttl t caps k = None.
Proof. intros E. unfold n1ql_ttl. cbn [re_match]. by rewrite E. Qed.

(** A statement [enqueue(q, v)] with nothing but itself on its line from there
    on: [v] has no comma, what follows on the line no closing parenthesis. *)
Definition simple_enqueue (q v post : string) : Prop :=
  one_line q = true ∧ one_line v = true ∧ lacks "," v = true ∧ lacks ")" (first_line post) = true.

(** The end of the third group. *)
Lemma enqueue_close {A} (k : string → string → option A) v post x :
  one_line v = true → lacks ")" (first_line post) = true → k (String ")" post) post = Some x →
  dots (λ t, match CStd.strip_prefix ")" t with Some rest => k t rest | None => None end)
    (v +:+ String ")" post) = Some x.
Proof.
  intros Hv Hp Hk. apply dots_app; [done|]. apply dots_here; [done|].
  intros a b E Ha Hl. destruct a as [|c a]; [done|]. rewrite sapp_cons in E. injection E as <- E.
  by rewrite (first_line_lacks ")" post a b Hp eq_refl E).
Qed.

(** No later place for the second group to end. *)
Lemma enqueue_no_later {A} (k : string → string → string → option A) v post a b :
  lacks "," v = true → lacks ")" (first_line post) = true →
  String " " (v +:+ String ")" post) = a +:+ b → one_line a = true →
  match CStd.strip_prefix ", " b with
  | Some rest => dots (λ t, match CStd.strip_prefix ")" t with Some r => k rest t r | None => None end) rest
  | None => None
  end = None.
Proof.
  intros Hv Hp E Ha. destruct (CStd.strip_prefix ", " b) as [rest|] eqn:Eb; [|done].
  apply strip_prefix_spec in Eb as ->.
  destruct (dots _ rest) as [x|] eqn:Ed; [|done].
  apply dots_rest in Ed as (mid & t & -> & Ht & Hmid).
  destruct (CStd.strip_prefix ")" t) as [r|] eqn:Er; [|done].
  change (String " " (v +:+ String ")" post)) with (String " " v +:+ String ")" post) in E.
  apply sapp_split in E as [(c & Ec & Eb)|(c & Ec & ->)].
  - exfalso. destruct c as [|d c]; [done|]. rewrite !sapp_cons in Eb. injection Eb as <- _.
    assert (lacks "," (String " " v) = true) as Hl by exact Hv.
    rewrite Ec in Hl. unfold lacks in Hl. rewrite sforall_app in Hl. cbn in Hl.
    by rewrite andb_false_r in Hl.
  - exfalso. destruct c as [|d c]; [done|]. rewrite sapp_cons in Ec. injection Ec as <- Ec.
    assert (CStd.strip_prefix ")" t = None) as Hf; [|congruence].
    apply (first_line_lacks ")" post (c +:+ ", " +:+ mid) t Hp eq_refl).
    + by rewrite Ec, !sapp_assoc.
    + unfold one_line in *. rewrite !sforall_app in Ha |- *. cbn in Ha |- *.
      rewrite (sforall_app _ ", " mid), Hmid. rewrite !andb_true_iff in Ha.
      destruct Ha as (_ & _ & Ha). by rewrite Ha.
Qed.

Lemma enqueue_search pre q v post :
  let stmt := "enqueue(" +:+ q +:+ ", " +:+ v +:+ String ")" post in
  first_at "enqueue(" pre stmt = true → simple_enqueue q v post →
  ∃ m, regex_search enqueue (pre +:+ stmt) = Some m ∧ prefix m = pre ∧ suffix m = post ∧
       rewrite_enqueue m = q +:+ "[" +:+ v +:+ "]".
Proof.
  intros stmt Hpre (Hq & Hv & Hvc & Hp). unfold regex_search.
  rewrite (search_from_skip _ "enqueue("); [|intros; by apply enqueue_needs_open|done].
  rewrite sapp_nil_l. set (g1 := "enqueue(" +:+ q +:+ ", " +:+ v +:+ ")").
  exists (Smatch pre [(1, g1); (3, v); (2, q)]%nat post). split; [|done].
  assert (re_match enqueue stmt [] (λ rest caps, Some (Smatch pre caps rest))
          = Some (Smatch pre [(1, g1); (3, v); (2, q)]%nat post)) as Hm.
  { unfold enqueue. cbn [re_match]. 
    assert (CStd.strip_prefix "enqueue(" stmt = Some (q +:+ ", " +:+ v +:+ String ")" post)) as ->
      by apply strip_prefix_app.
    apply dots_app; [done|]. apply dots_here.
    - cbv beta. rewrite strip_prefix_app, consumed_app. apply enqueue_close; [done..|].
      rewrite consumed_app. do 2 f_equal. f_equal. f_equal.
      rewrite <-(consumed_app g1 post). f_equal. unfold g1, stmt. by rewrite !sapp_assoc.
    - intros a b E Ha Hl. destruct a as [|c a]; [done|].
      rewrite !sapp_cons in E. injection E as <- E. apply andb_true_iff in Hl as [_ Hl].
      by eapply (enqueue_no_later (λ _ t r, _)). }
  destruct stmt as [|c s]; cbn [search_from]; by rewrite Hm.
Qed.

(** A statement n1ql("q") with no double quote after it on its line. *)
Definition simple_n1ql (q post : string) : Prop :=
  one_line q = true ∧ lacks dquote (first_line post) = true.

Lemma strip_close_none b :
  CStd.strip_prefix (String dquote EmptyString) b = None → CStd.strip_prefix n1ql_close b = None.
Proof.
  change n1ql_close with (String dquote ")"). destruct b as [|c b]; [done|].
  cbn [CStd.strip_prefix]. by destruct (Ascii.eqb dquote c).
Qed.

Lemma n1ql_search pre q post :
  let stmt := n1ql_open +:+ q +:+ n1ql_close +:+ post in
  first_at n1ql_open pre stmt = true → simple_n1ql q post →
  ∃ m, regex_search n1ql_ttl (pre +:+ stmt) = Some m ∧ prefix m = pre ∧ suffix m = post ∧
       rewrite_n1ql m = "n1ql`" +:+ q +:+ "`".
Proof.
  intros stmt Hpre (Hq & Hp). unfold regex_search.
  rewrite (search_from_skip _ n1ql_open); [|intros; by apply n1ql_needs_open|done].
  rewrite sapp_nil_l.
  exists (Smatch pre [(3, n1ql_close); (2, q); (1, n1ql_open)]%nat post). split; [|done].
  assert (re_match n1ql_ttl stmt [] (λ rest caps, Some (Smatch pre caps rest))
          = Some (Smatch pre [(3, n1ql_close); (2, q); (1, n1ql_open)]%nat post)) as Hm.
  { unfold n1ql_ttl. cbn [re_match].
    assert (CStd.strip_prefix n1ql_open stmt = Some (q +:+ n1ql_close +:+ post)) as ->
      by apply strip_prefix_app.
    apply dots_app; [done|]. apply dots_here.
    - cbv beta. rewrite strip_prefix_app, !consumed_app.
      assert (consumed stmt (q +:+ n1ql_close +:+ post) = n1ql_open) as -> by apply consumed_app. done.
    - intros a b E Ha Hl. rewrite strip_close_none; [done|].
      destruct a as [|c a]; [done|]. injection E as <- E. destruct a as [|c a].
      { rewrite sapp_nil_l in E. by subst b. }
      injection E as <- E. apply andb_true_iff in Hl as [_ [_ Hl]%andb_true_iff].
      by apply (first_line_lacks dquote post a b). }
  destruct stmt as [|c s]; cbn [search_from]; by rewrite Hm.
Qed.

(** ** Whole programs *)

(** Handler code with [enqueue] calls: before each call the text up to it. *)
Fixpoint enqueue_source (calls : list (string * string * string)) (tail : string) : string :=
  match calls with
  | [] => tail
  | (pre, q, v) :: calls =>
      pre +:+ "enqueue(" +:+ q +:+ ", " +:+ v +:+ String ")" (enqueue_source calls tail)
  end.

Fixpoint enqueue_target (calls : list (string * string * string)) (tail : string) : string :=
  match calls with
  | [] => tail
  | (pre, q, v) :: calls => pre +:+ (q +:+ "[" +:+ v +:+ "]") +:+ enqueue_target calls tail
  end.

Fixpoint simple_calls (calls : list (string * string * string)) (tail : string) : Prop :=
  match calls with
  | [] => sfind "enqueue(" tail = None
  | (pre, q, v) :: calls =>
      let post := enqueue_source calls tail in
      first_at "enqueue(" pre ("enqueue(" +:+ q +:+ ", " +:+ v +:+ String ")" post) = true ∧
      simple_enqueue q v post ∧ simple_calls calls tail
  end.

(** The same for queries. *)
Fixpoint n1ql_source (queries : list (string * string)) (tail : string) : string :=
  match queries with
  | [] => tail
  | (pre, q) :: queries => pre +:+ n1ql_open +:+ q +:+ n1ql_close +:+ n1ql_source queries tail
  end.

Fixpoint n1ql_target (queries : list (string * string)) (tail : string) : string :=
  match queries with
  | [] => tail
  | (pre, q) :: queries => pre +:+ ("n1ql`" +:+ q +:+ "`") +:+ n1ql_target queries tail
  end.

Fixpoint simple_queries (queries : list (string * string)) (tail : string) : Prop :=
  match queries with
  | [] => sfind n1ql_open tail = None
  | (pre, q) :: queries =>
      let post := n1ql_source queries tail in
      first_at n1ql_open pre (n1ql_open +:+ q +:+ n1ql_close +:+ post) = true ∧
      simple_n1ql q post ∧ simple_queries queries tail
  end.

Lemma enqueue_pass calls tail :
  simple_calls calls tail →
  run_loop enqueue rewrite_enqueue (enqueue_source calls tail) = Some (enqueue_target calls tail).
Proof.
  induction calls as [|[[pre q] v] calls IH]; cbn [simple_calls enqueue_source enqueue_target].
  - intros Ht. apply run_loop_none, (search_from_none _ "enqueue("); [|cbn; lia|done].
    intros; by apply enqueue_needs_open.
  - intros (Hpre & Hs & Hc). destruct (enqueue_search pre q v _ Hpre Hs) as (m & Hm & <- & Hsuf & Hr).
    rewrite (run_loop_step _ _ _ m); [|cbn; lia|exact Hm]. rewrite Hsuf, IH by done. cbn. by rewrite Hr.
Qed.

Lemma n1ql_pass queries tail :
  simple_queries queries tail →
  run_loop n1ql_ttl rewrite_n1ql (n1ql_source queries tail) = Some (n1ql_target queries tail).
Proof.
  induction queries as [|[pre q] queries IH]; cbn [simple_queries n1ql_source n1ql_target].
  - intros Ht. apply run_loop_none, (search_from_none _ n1ql_open); [|cbn; lia|done].
    intros; by apply n1ql_needs_open.
  - intros (Hpre & Hs & Hc). destruct (n1ql_search pre q _ Hpre Hs) as (m & Hm & <- & Hsuf & Hr).
    rewrite (run_loop_step _ _ _ m); [|cbn; lia|exact Hm]. rewrite Hsuf, IH by done. cbn. by rewrite Hr.
Qed.

(** ** Properties *)

(** C25: take handler code with any number of calls [enqueue(q, v)] and
    n1ql("q"), where [v] has no comma, no closing parenthesis follows an [enqueue]
    call on its line and no double quote a query (see [simple_enqueue],
    [simple_n1ql] and [first_at]).  The script is the code with exactly these
    rewritten to [q[v]] and to the tagged template, everything else unchanged,
    followed by the built-in functions. *)
Theorem script_to_execute_rewrites builtins calls tail queries tail' :
  nul_free (enqueue_source calls tail) = true →
  simple_calls calls tail →
  enqueue_target calls tail = n1ql_source queries tail' → simple_queries queries tail' →
  script_to_execute builtins (enqueue_source calls tail)
  = Some (n1ql_target queries tail' +:+ builtins).
Proof.
  intros Hn Hc E Hq. unfold script_to_execute. rewrite c_str_id by done.
  rewrite enqueue_pass by done. cbn [mbind option_bind]. rewrite E, n1ql_pass by done. done.
Qed.

(** Preprocessing ends on every source text. *)
Theorem script_to_execute_total builtins source :
  ∃ script, script_to_execute builtins source = Some (script +:+ builtins).
Proof.
  unfold script_to_execute.
  destruct (run_loop_total enqueue rewrite_enqueue (c_str source)) as [temp ->]; [cbn; lia|].
  cbn [mbind option_bind].
  destruct (run_loop_total n1ql_ttl rewrite_n1ql temp) as [script ->]; [cbn; lia|]. by exists script.
Qed.

(** Text of an argument without separators, quotes and line ends. *)
Definition plain_char (c : ascii) : bool :=
  negb (Ascii.eqb c nul) && negb (line_end c) && negb (Ascii.eqb c ",") && negb (Ascii.eqb c dquote).

Lemma plain_facts s :
  sforall plain_char s = true →
  nul_free s = true ∧ one_line s = true ∧ lacks "," s = true ∧ lacks dquote s = true.
Proof.
  intros Hs. unfold nul_free, one_line, lacks.
  split_and!; (eapply sforall_impl; [|exact Hs]); intros c Hc; unfold plain_char in Hc;
    rewrite !andb_true_iff in Hc; cbv beta; naive_solver.
Qed.

(** The groups are greedy, so of two [enqueue] statements on one
    line only the end of the second is rewritten and the first keeps its
    parenthesis: what is compiled is not the two calls. *)
Theorem two_enqueues_on_a_line builtins q1 v1 q2 v2 :
  sforall plain_char (q1 +:+ v1 +:+ q2 +:+ v2) = true →
  script_to_execute builtins
    ("enqueue(" +:+ (q1 +:+ ", " +:+ v1 +:+ "); enqueue(" +:+ q2) +:+ ", " +:+ v2 +:+ ");")
  = Some (((q1 +:+ ", " +:+ v1 +:+ "); enqueue(" +:+ q2) +:+ "[" +:+ v2 +:+ "];") +:+ builtins).
Proof.
  rewrite !sforall_app, !andb_true_iff. intros (H1 & H2 & H3 & H4).
  apply plain_facts in H1 as (N1 & L1 & _ & D1), H2 as (N2 & L2 & _ & D2),
    H3 as (N3 & L3 & _ & D3), H4 as (N4 & L4 & C4 & D4).
  set (q := q1 +:+ ", " +:+ v1 +:+ "); enqueue(" +:+ q2).
  assert (nul_free q = true ∧ one_line q = true ∧ lacks dquote q = true) as (Nq & Lq & Dq).
  { unfold q, nul_free, one_line, lacks in *. rewrite !sforall_app, N1, N2, N3, L1, L2, L3, D1, D2, D3.
    done. }
  unfold script_to_execute. rewrite c_str_id.
  - pose proof (enqueue_pass [(EmptyString, q, v2)] ";") as Hp.
    cbn [enqueue_source enqueue_target simple_calls] in Hp. rewrite sapp_nil_l in Hp.
    change (v2 +:+ ");") with (v2 +:+ String ")" ";"). rewrite Hp by done.
    cbn [mbind option_bind]. rewrite sapp_nil_l, !sapp_assoc.
    rewrite run_loop_none; [cbn [mbind option_bind]; by rewrite !sapp_assoc|]. apply (search_from_none _ n1ql_open); [|cbn; lia|].
    + intros; by apply n1ql_needs_open.
    + apply (sfind_lacks dquote); [done|]. unfold lacks in *. by rewrite !sforall_app, Dq, D4.
  - unfold nul_free in *. rewrite !sforall_app, Nq, N4. done.
Qed.

(** ** Witnesses *)

Definition newline : string := String "010" EmptyString.

Definition example_calls : list (string * string * string) :=
  [("function OnUpdate(doc, meta) {" +:+ newline +:+ "  ", "orders", "meta.key");
   (";" +:+ newline +:+ "  ", "audit", "f(doc)")]%string.

Definition example_tail : string :=
  ";" +:+ newline +:+ "  var r = " +:+ dquoted "n1ql('SELECT 1');" +:+ newline +:+ "}".

Definition example_queries : list (string * string) :=
  [("function OnUpdate(doc, meta) {" +:+ newline +:+ "  orders[meta.key];" +:+ newline
    +:+ "  audit[f(doc)];" +:+ newline +:+ "  var r = ", "SELECT 1")]%string.

Lemma script_to_execute_rewrites_witness :
  script_to_execute "// builtins" (enqueue_source example_calls example_tail)
  = Some (n1ql_target example_queries (";" +:+ newline +:+ "}") +:+ "// builtins").
Proof.
  apply (script_to_execute_rewrites "// builtins" example_calls example_tail example_queries
           (";" +:+ newline +:+ "}")); vm_compute; tauto.
Defined.

Lemma two_enqueues_on_a_line_witness :
  script_to_execute EmptyString
    ("enqueue(" +:+ ("a" +:+ ", " +:+ "b" +:+ "); enqueue(" +:+ "c") +:+ ", " +:+ "d" +:+ ");")
  = Some (("a, b); enqueue(c" +:+ "[" +:+ "d" +:+ "];") +:+ EmptyString).
Proof. apply (two_enqueues_on_a_line EmptyString "a" "b" "c" "d"). reflexivity. Defined.

(** A nested call moves the bracket inside it. *)
Example nested_call :
  script_to_execute EmptyString "enqueue(q, f(a, b));" = Some "q, f(a[b)];"%string.
Proof. vm_compute. reflexivity. Qed.
