(* ===== verification/Scan.v ===== *)
(** * Preprocessing in one pass

    What the regular expressions of [WorkerLoad] compute on every source text,
    written without them: a pass over the text that looks at each position for
    a call and takes the separators by their last occurrence on the line. *)

From S2P Require Import Prelude CStd Regex Preprocess.

(** ** The reference *)

(** [s] before and after the last [lit] on its first line. *)
Fixpoint last_split (lit s : string) : option (string * string) :=
  let here := (λ r, (EmptyString, r)) <$> CStd.strip_prefix lit s in
  match s with
  | String c s' =>
      if line_end c then here
      else match last_split lit s' with
           | Some (a, r) => Some (String c a, r)
           | None => here
           end
  | EmptyString => here
  end.

(** A call at the start of [s]: its replacement and its length. *)
Definition enqueue_call (s : string) : option (string * nat) :=
  rest ← CStd.strip_prefix "enqueue(" s;
  '(arguments, after) ← last_split ")" rest;
  '(q, v) ← last_split ", " arguments;
  Some (q +:+ "[" +:+ v +:+ "]", (String.length s - String.length after)%nat).

Definition n1ql_call (s : string) : option (string * nat) :=
  rest ← CStd.strip_prefix n1ql_open s;
  '(query, after) ← last_split n1ql_close rest;
  Some ("n1ql`" +:+ query +:+ "`", (String.length s - String.length after)%nat).

(** The text with each call replaced; [skip] bytes belong to the last one. *)
Fixpoint scan (call : string → option (string * nat)) (skip : nat) (s : string) : string :=
  match s with
  | EmptyString => EmptyString
  | String c s' =>
      match skip with
      | S skip => scan call skip s'
      | O =>
          match call s with
          | Some (text, n) => text +:+ scan call (pred n) s'
          | None => String c (scan call O s')
          end
      end
  end.

Definition preprocessed (source : string) : string := scan n1ql_call 0 (scan enqueue_call 0 source).

(** ** The last occurrence on a line *)

Lemma last_split_spec lit s a r : last_split lit s = Some (a, r) → s = a +:+ lit +:+ r.
Proof.
  revert a r. induction s as [|c s IH]; intros a r; cbn [last_split].
  - destruct (CStd.strip_prefix _ _) eqn:E; [|done]. intros [= <- <-]. by apply strip_prefix_spec in E.
  - assert ((λ r, (EmptyString, r)) <$> CStd.strip_prefix lit (String c s) = Some (a, r) →
            String c s = a +:+ lit +:+ r) as Hhere.
    { destruct (CStd.strip_prefix _ _) eqn:E; [|done]. intros [= <- <-]. by apply strip_prefix_spec in E. }
    destruct (line_end c); [done|]. destruct (last_split lit s) as [[a' r']|]; [|done].
    intros [= <- <-]. by rewrite (IH a' r').
Qed.

(** [.*] before a literal stops at its last occurrence, when what follows
    cannot fail. *)
Lemma dots_last {A} lit (k : string → string → A) s :
  dots (λ t, r ← CStd.strip_prefix lit t; Some (k t r)) s
  = '(_, r) ← last_split lit s; Some (k (lit +:+ r) r).
Proof.
  assert (∀ t, (r ← CStd.strip_prefix lit t; Some (k t r))
               = '(_, r) ← (λ r, (EmptyString, r)) <$> CStd.strip_prefix lit t; Some (k (lit +:+ r) r)) as Hhere.
  { intros t. destruct (CStd.strip_prefix lit t) as [r|] eqn:E; [|done]. by apply strip_prefix_spec in E as ->. }
  induction s as [|c s IH]; cbn [dots last_split]; [apply Hhere|].
  destruct (line_end c); [apply Hhere|]. rewrite IH.
  destruct (last_split lit s) as [[a r]|]; [done|apply Hhere].
Qed.

(** The two separators of [enqueue]: the last [")"] and the last [", "] before it. *)
Lemma dots_last_two {A} (k : string → string → string → string → A) s :
  dots (λ t, rest ← CStd.strip_prefix ", " t;
             dots (λ u, r ← CStd.strip_prefix ")" u; Some (k t rest u r)) rest) s
  = '(arguments, r) ← last_split ")" s;
    '(_, v) ← last_split ", " arguments;
    Some (k (", " +:+ v +:+ ")" +:+ r) (v +:+ ")" +:+ r) (")" +:+ r) r).
Proof.
  assert (∀ t, (rest ← CStd.strip_prefix ", " t;
                dots (λ u, r ← CStd.strip_prefix ")" u; Some (k t rest u r)) rest)
               = rest ← CStd.strip_prefix ", " t;
                 '(_, r) ← last_split ")" rest; Some (k t rest (")" +:+ r) r)) as Hk.
  { intros t. destruct (CStd.strip_prefix ", " t) as [rest|]; [|done]. cbn [mbind option_bind].
    apply (dots_last ")" (k t rest)). }
  induction s as [|c s IH]; cbn [dots last_split]; rewrite Hk; [done|].
  destruct (line_end c) eqn:Hc.
  { cbn [CStd.strip_prefix]. destruct (Ascii.eqb_spec "," c) as [<-|_]; [done|].
    by destruct (Ascii.eqb_spec ")" c) as [<-|_]. }
  rewrite IH. clear IH Hk. destruct (last_split ")" s) as [[inner r]|] eqn:Es; cbn [mbind option_bind].
  - cbn [last_split]. rewrite Hc. destruct (last_split ", " inner) as [[a v]|]; [done|].
    cbn [mbind option_bind]. cbn [CStd.strip_prefix].
    destruct (Ascii.eqb_spec "," c) as [<-|_]; [|done].
    pose proof (last_split_spec _ _ _ _ Es) as ->. destruct inner as [|d inner]; [done|].
    rewrite sapp_cons. destruct (Ascii.eqb_spec " " d) as [<-|_]; [|done].
    cbn [mbind option_bind fmap option_fmap option_map]. rewrite sapp_cons in Es. cbn [last_split] in Es. change (line_end " ") with false in Es. cbv iota in Es.
    destruct (last_split ")" (inner +:+ ")" +:+ r)) as [[a r']|]; [|done].
    by injection Es as -> ->.
  - cbn [CStd.strip_prefix]. destruct (Ascii.eqb_spec ")" c) as [<-|_]; [done|].
    destruct (Ascii.eqb_spec "," c) as [<-|_]; [|done]. destruct s as [|d s]; [done|].
    destruct (Ascii.eqb_spec " " d) as [<-|_]; [|done]. cbn [mbind option_bind fmap option_fmap option_map].
    cbn [last_split] in Es. change (line_end " ") with false in Es. cbv iota in Es.
    by destruct (last_split ")" s) as [[a r']|].
Qed.

(** ** One search *)

(** What a pattern finds at [s] is what [call] finds there. *)
Definition found (call : string → option (string * nat)) (f : smatch → string) (pre s : string)
    (o : option smatch) : Prop :=
  match call s with
  | Some (text, n) =>
      ∃ m, o = Some m ∧ prefix m = pre ∧ f m = text ∧ suffix m = sdrop n s ∧ (0 < n)%nat
  | None => o = None
  end.

Lemma sdrop_after a b : sdrop (String.length (a +:+ b) - String.length b) (a +:+ b) = b.
Proof. rewrite slength_app, Nat.add_sub. apply sdrop_app. Qed.

Lemma enqueue_found pre s :
  found enqueue_call rewrite_enqueue pre s
    (re_match enqueue s [] (λ rest caps, Some (Smatch pre caps rest))).
Proof.
  unfold found, enqueue_call, enqueue. cbn [re_match].
  destruct (CStd.strip_prefix "enqueue(" s) as [rest|] eqn:E; [|done]. cbn [mbind option_bind].
  apply strip_prefix_spec in E.
  pose proof (dots_last_two (λ t rest2 u r, Smatch pre [(1, consumed s r); (3, consumed rest2 u);
    (2, consumed rest t)]%nat r) rest) as Hd.
  unfold mbind, option_bind in Hd. rewrite Hd. clear Hd.
  destruct (last_split ")" rest) as [[arguments after]|] eqn:Ea; [cbn [mbind option_bind]|done].
  destruct (last_split ", " arguments) as [[q v]|] eqn:Eq; [cbn [mbind option_bind]|done].
  apply last_split_spec in Ea, Eq. eexists. split; [done|].
  assert (s = ("enqueue(" +:+ q +:+ ", " +:+ v +:+ ")") +:+ after) as Es.
  { rewrite E, Ea, Eq, !sapp_assoc. done. }
  split_and!; [done| | |].
  - unfold rewrite_enqueue, group. cbn.
    assert (consumed rest (", " +:+ v +:+ ")" +:+ after) = q) as ->.
    { rewrite <-(consumed_app q (", " +:+ v +:+ ")" +:+ after)). f_equal.
      rewrite Ea, Eq, !sapp_assoc. done. }
    by rewrite (consumed_app v (")" +:+ after)).
  - rewrite Es, sdrop_after. done.
  - rewrite Es, slength_app, Nat.add_sub, slength_app. cbn [String.length]. unfold n1ql_open, dquoted in *. cbn. lia.
Qed.

Lemma n1ql_found pre s :
  found n1ql_call rewrite_n1ql pre s
    (re_match n1ql_ttl s [] (λ rest caps, Some (Smatch pre caps rest))).
Proof.
  unfold found, n1ql_call, n1ql_ttl. cbn [re_match].
  destruct (CStd.strip_prefix n1ql_open s) as [rest|] eqn:E; [|done]. cbn [mbind option_bind].
  apply strip_prefix_spec in E.
  pose proof (dots_last n1ql_close (λ t r, Smatch pre [(3, consumed t r); (2, consumed rest t);
    (1, consumed s rest)]%nat r) rest) as Hd.
  unfold mbind, option_bind in Hd. rewrite Hd. clear Hd.
  destruct (last_split n1ql_close rest) as [[query after]|] eqn:Ea; [cbn [mbind option_bind]|done].
  apply last_split_spec in Ea. eexists. split; [done|].
  assert (s = (n1ql_open +:+ query +:+ n1ql_close) +:+ after) as Es.
  { rewrite E, Ea, !sapp_assoc. done. }
  split_and!; [done| | |].
  - unfold rewrite_n1ql, group. cbn [groups list_find].
    rewrite E, consumed_app, Ea, !consumed_app. reflexivity.
  - rewrite Es, sdrop_after. done.
  - rewrite Es, slength_app, Nat.add_sub, slength_app. cbn [String.length]. unfold n1ql_open, dquoted in *. cbn. lia.
Qed.

(** ** All searches *)

Lemma scan_skip call n s : scan call n s = scan call 0 (sdrop n s).
Proof. revert n. induction s as [|c s IH]; intros [|n]; [done..|]. cbn. apply IH. Qed.

(** A search stops where the pass finds its first call. *)
Lemma search_scan r call f acc s :
  (∀ pre s, found call f pre s (re_match r s [] (λ rest caps, Some (Smatch pre caps rest)))) →
  call EmptyString = None →
  match search_from r acc s with
  | None => scan call 0 s = s
  | Some m =>
      ∃ a, prefix m = acc +:+ a ∧ (String.length (suffix m) < String.length s)%nat ∧
           scan call 0 s = a +:+ f m +:+ scan call 0 (suffix m)
  end.
Proof.
  intros Hf Hnil. revert acc. induction s as [|c s IH]; intros acc; cbn [search_from scan].
  - pose proof (Hf acc EmptyString) as F. unfold found in F. rewrite Hnil in F. by rewrite F.
  - pose proof (Hf acc (String c s)) as F. unfold found in F.
    destruct (call (String c s)) as [[text n]|].
    + destruct F as (m & -> & Hp & <- & Hs & Hn). exists EmptyString. rewrite sapp_nil_l, sapp_nil_r.
      destruct n as [|n]; [lia|]. cbn [sdrop] in Hs. rewrite Hs, scan_skip. split_and!; [done| |done].
      cbn. rewrite <-(stake_sdrop n s) at 2. rewrite slength_app. lia.
    + rewrite F. specialize (IH (acc +:+ String c EmptyString)).
      destruct (search_from _ _ _) as [m|]; [|by rewrite IH].
      destruct IH as (a & -> & Hl & ->). exists (String c a). rewrite sapp_assoc.
      split_and!; [done|cbn; lia|done].
Qed.

Lemma run_loop_scan r call f s :
  (0 < min_length r)%nat →
  (∀ pre s, found call f pre s (re_match r s [] (λ rest caps, Some (Smatch pre caps rest)))) →
  call EmptyString = None → run_loop r f s = Some (scan call 0 s).
Proof.
  intros Hr Hf Hnil. induction s as [s IH] using (induction_ltof1 _ String.length). unfold ltof in IH.
  pose proof (search_scan r call f EmptyString s Hf Hnil) as Hs. fold (regex_search r s) in Hs.
  destruct (regex_search r s) as [m|] eqn:E.
  - destruct Hs as (a & Hp & Hl & ->). rewrite (run_loop_step _ _ _ m Hr E), IH by done.
    cbn. by rewrite Hp, sapp_nil_l.
  - rewrite run_loop_none by done. by rewrite Hs.
Qed.

(** ** Property *)

(** C24: on every source text the two regular expression loops compute what one
    pass per call does without regular expressions: it copies the text and, at
    each place where a call starts that is closed on its line, takes the last
    closing parenthesis (or quote and parenthesis) of the line for its end and
    the last comma and space before it for the separator.  In particular
    preprocessing ends on every text. *)
Theorem script_to_execute_scans builtins source :
  script_to_execute builtins source = Some (preprocessed (c_str source) +:+ builtins).
Proof.
  unfold script_to_execute, preprocessed.
  rewrite (run_loop_scan _ enqueue_call) by (apply enqueue_found || done || (cbn; lia)).
  cbn [mbind option_bind].
  by rewrite (run_loop_scan _ n1ql_call) by (apply n1ql_found || done || (cbn; lia)).
Qed.

Example two_calls :
  preprocessed "enqueue(q, f(a, b)); enqueue(r, c) // )" = "q, f(a, b)); enqueue(r[c) // ]"%string.
Proof. vm_compute. reflexivity. Qed.
