(* ===== verification/Debug.v ===== *)
(** * Debugger messages (worker.cc)

    The V8 debugger answers commands with JSON messages; a handler per kind of
    request leaves the answer in a global string and wakes the request.  A
    handler is modelled by the writes it makes to the globals, in order, and its
    result; [DebugSync.v] interleaves these writes with the waiting requests. *)

From stdpp Require Import sets.
From S2P Require Import Prelude CStd Json.
#[local] Open Scope Z_scope.

(** ** Globals *)

(** The five requests; each has its result string. *)
Inductive request_kind : Type :=
  | Continue | Evaluate | SetBreakpoint | ClearBreakpoint | ListBreakpoint.

#[export] Instance request_kind_eq_dec : EqDecision request_kind.
Proof. solve_decision. Defined.

Record debug_globals := DebugGlobals {
  debug_result : request_kind → string;   (** [continue_result], ..., [list_breakpoint_result] *)
  data_ready : bool
}.

Definition debug_start : debug_globals := DebugGlobals (λ _, EmptyString) false.

(** A write to a global, or [cv.notify_all()]. *)
Inductive debug_op : Type :=
  | Assign (k : request_kind) (text : string)
  | SetReady
  | NotifyAll.

Definition set_result (k : request_kind) (text : string) (g : debug_globals) : debug_globals :=
  DebugGlobals (λ k', if decide (k' = k) then text else debug_result g k') (data_ready g).

Definition run_op (op : debug_op) (g : debug_globals) : debug_globals :=
  match op with
  | Assign k text => set_result k text g
  | SetReady => DebugGlobals (debug_result g) true
  | NotifyAll => g
  end.

(** The writes of a call and how it ends. *)
Definition debug_call (A : Type) : Type := list debug_op * outcome A.

(** ** The handlers *)

Definition command_key (name : string) : string := dquoted ("'command':'" +:+ name +:+ "'").

Section handlers.
Context `{RapidJson}.

(** What every handler does once the checks on the text have passed: [final] when
    the message parses to an object. *)
Definition parse_message {A} (k : request_kind) (message : string) (bad : A)
    (final : json → debug_call A) : debug_call A :=
  match rj_parse (c_str message) with
  | None => ([Assign k (c_str message)], Ok bad)
  | Some doc => if IsObject doc then final doc else ([], Fail AssertFailed)
  end.

Definition GetEvaluateResult (message : string) : debug_call bool :=
  if negb (strstr message (command_key "evaluate")) then ([Assign Evaluate (c_str message)], Ok false)
  else if strstr message (dquoted "'text':'") then ([Assign Evaluate (c_str message)], Ok false)
  else parse_message Evaluate message false
         (λ doc, ([Assign Evaluate (c_str message); SetReady; NotifyAll], Ok true)).

(** The position read out of a response. *)
Definition breakpoint_position (doc : json) : outcome string :=
  body ← member "body" doc;
  line ← member "line" body;
  column ← member "column" body;
  line ← GetInt line;
  column ← GetInt column;
  sprintf 10 (dec line +:+ ":" +:+ dec column).

Definition SetBreakpointResult (message : string) : debug_call bool :=
  if negb (strstr message (command_key "setbreakpoint")) then ([Assign SetBreakpoint (c_str message)], Ok false)
  else if strstr message (dquoted "'type':'") then ([Assign SetBreakpoint (c_str message)], Ok false)
  else parse_message SetBreakpoint message false (λ doc,
         match breakpoint_position doc with
         | Ok buf => ([Assign SetBreakpoint buf; SetReady; NotifyAll], Ok true)
         | Fail e => ([], Fail e)
         end).

Definition ContinueResult (message : string) : debug_call unit :=
  if strstr message (command_key "continue") then ([Assign Continue (c_str message)], Ok tt)
  else parse_message Continue message tt
         (λ doc, ([Assign Continue (c_str message); SetReady; NotifyAll], Ok tt)).

Definition ClearBreakpointResult (message : string) : debug_call unit :=
  if negb (strstr message (command_key "clearbreakpoint")) then ([Assign ClearBreakpoint (c_str message)], Ok tt)
  else if strstr message (dquoted "'message':'Error") then ([Assign ClearBreakpoint (c_str message)], Ok tt)
  else parse_message ClearBreakpoint message tt
         (λ doc, ([Assign ClearBreakpoint (c_str message); SetReady; NotifyAll], Ok tt)).

Definition ListBreakpointResult (message : string) : debug_call unit :=
  if negb (strstr message (command_key "listbreakpoints")) then ([Assign ListBreakpoint (c_str message)], Ok tt)
  else if strstr message (dquoted "'message':'Error") then ([Assign ListBreakpoint (c_str message)], Ok tt)
  else parse_message ListBreakpoint message tt
         (λ doc, ([Assign ListBreakpoint (c_str message); SetReady; NotifyAll], Ok tt)).

(** The message handler of a request: [DebugEvaluateHandler] and the others,
    whose results nobody reads. *)
Definition debug_handler (k : request_kind) (message : string) : debug_call unit :=
  match k with
  | Evaluate => let '(ops, r) := GetEvaluateResult message in (ops, (λ _, tt) <$> r)
  | SetBreakpoint => let '(ops, r) := SetBreakpointResult message in (ops, (λ _, tt) <$> r)
  | Continue => ContinueResult message
  | ClearBreakpoint => ClearBreakpointResult message
  | ListBreakpoint => ListBreakpointResult message
  end.

(** The text checks after which a handler goes on to parse. *)
Definition passes (k : request_kind) (message : string) : bool :=
  match k with
  | Evaluate => strstr message (command_key "evaluate") && negb (strstr message (dquoted "'text':'"))
  | SetBreakpoint => strstr message (command_key "setbreakpoint") && negb (strstr message (dquoted "'type':'"))
  | Continue => negb (strstr message (command_key "continue"))
  | ClearBreakpoint =>
      strstr message (command_key "clearbreakpoint") && negb (strstr message (dquoted "'message':'Error"))
  | ListBreakpoint =>
      strstr message (command_key "listbreakpoints") && negb (strstr message (dquoted "'message':'Error"))
  end.

(** What a request that is signalled gets. *)
Definition answer (k : request_kind) (message : string) (doc : json) : outcome string :=
  match k with SetBreakpoint => breakpoint_position doc | _ => Ok (c_str message) end.

End handlers.

(** ** Commands *)

(** [AsciiToUtf16] into a buffer of [size] units: the units written, the
    terminator included, and the returned length. *)
Fixpoint utf16_units (input_buffer : string) : list Z :=
  match input_buffer with
  | EmptyString => [0]
  | String c s => if Ascii.eqb c nul then [0] else byte_val c :: utf16_units s
  end.

Definition AsciiToUtf16 (size : Z) (input_buffer : string) : outcome (list Z * Z) :=
  let units := utf16_units input_buffer in
  if Z.of_nat (length units) <=? size then Ok (units, Z.of_nat (length units) - 1)
  else Fail (Undefined "AsciiToUtf16: buffer overflow").

Definition kBufferSize : Z := 1000.

(** The command that [Debug::SendCommand] gets: the first [length] units. *)
Definition debug_command (command : string) : outcome (list Z) :=
  '(buffer, len) ← AsciiToUtf16 kBufferSize command;
  mret (take (Z.to_nat len) buffer).

Lemma utf16_units_spec s :
  length (utf16_units s) = S (String.length (c_str s)) ∧
  utf16_units s = (byte_val <$> String.list_ascii_of_string (c_str s)) ++ [0].
Proof.
  induction s as [|c s [IH1 IH2]]; [done|]. cbn. destruct (Ascii.eqb c nul); [done|]. cbn.
  rewrite IH1. split; [done|]. by rewrite IH2.
Qed.

(** ** Properties *)

Section debug_properties.
Context `{RapidJson}.

Lemma debug_handler_cases k message :
  debug_handler k message
  = if passes k message then
      match rj_parse (c_str message) with
      | None => ([Assign k (c_str message)], Ok tt)
      | Some doc =>
          if IsObject doc then
            match answer k message doc with
            | Ok text => ([Assign k text; SetReady; NotifyAll], Ok tt)
            | Fail e => ([], Fail e)
            end
          else ([], Fail AssertFailed)
      end
    else ([Assign k (c_str message)], Ok tt).
Proof.
  destruct k; unfold debug_handler, passes, answer, ContinueResult, GetEvaluateResult,
    SetBreakpointResult, ClearBreakpointResult, ListBreakpointResult, parse_message.
  all: destruct (strstr message (command_key _)); cbn [negb andb]; try done.
  all: try (destruct (strstr message (dquoted _)); cbn [negb]; [done|]).
  all: destruct (rj_parse (c_str message)) as [doc|]; [|done]; destruct (IsObject doc); try done.
  by destruct (breakpoint_position doc).
Qed.

(** The writes of a handler that returns. *)
Lemma debug_handler_ops k message ops :
  debug_handler k message = (ops, Ok tt) →
  ∃ text, ops = [Assign k text] ∨ ops = [Assign k text; SetReady; NotifyAll].
Proof.
  rewrite debug_handler_cases. intros E.
  repeat (case_match; simplify_eq); eauto.
Qed.

(** C28: a handler wakes its request exactly when the message passes the
    checks of its kind and is a JSON object whose answer can be printed; it
    then leaves the answer and marks it ready before it wakes anybody.  In every
    other case that does not stop the process it leaves the message and wakes
    nobody.  It never writes the result of another kind. *)
Theorem handler_signals k message :
  match debug_handler k message with
  | (ops, Ok _) =>
      (NotifyAll ∈ ops ↔
        ∃ doc text, passes k message = true ∧ rj_parse (c_str message) = Some doc ∧
                    IsObject doc = true ∧ answer k message doc = Ok text) ∧
      (NotifyAll ∈ ops → ∃ text, ops = [Assign k text; SetReady; NotifyAll]) ∧
      (NotifyAll ∉ ops → ops = [Assign k (c_str message)])
  | (ops, Fail _) => ops = []
  end.
Proof.
  rewrite debug_handler_cases. destruct (passes k message).
  2: { split_and!; [split; [set_solver|by intros (? & ? & ? & _)]|set_solver|done]. }
  destruct (rj_parse (c_str message)) as [doc|].
  2: { split_and!; [split; [set_solver|by intros (? & ? & _ & ? & _)]|set_solver|done]. }
  destruct (IsObject doc) eqn:Ho; [|done].
  destruct (answer k message doc) as [text|] eqn:Ea; [|done].
  split_and!; [split; [eauto 8|set_solver]|eauto|set_solver].
Qed.

(** Every response of the V8 debugger carries its type, so a
    [setbreakpoint] request is never woken by its own response: the handler
    takes the response for an error. *)
Theorem setbreakpoint_response_never_signals message :
  strstr message (dquoted "'type':'") = true →
  SetBreakpointResult message = ([Assign SetBreakpoint (c_str message)], Ok false).
Proof.
  intros E. unfold SetBreakpointResult. rewrite E. by destruct (strstr message (command_key _)).
Qed.

(** Two numbers of at most eight digits together. *)
Lemma eight_digits m n :
  0 <= m → 0 <= n →
  (slen (dec m) + slen (dec n) <= 8 ↔ ∃ a, 1 <= a <= 7 ∧ m < 10 ^ a ∧ n < 10 ^ (8 - a)).
Proof.
  intros Hm Hn. split.
  - intros Hlen. pose proof (dec_nonempty m Hm). pose proof (dec_nonempty n Hn).
    exists (slen (dec m)). split; [lia|]. split.
    + destruct (Z.lt_ge_cases m (10 ^ slen (dec m))) as [|Hge]; [done|].
      pose proof (dec_digits_ge m (slen (dec m)) ltac:(lia) Hge). lia.
    + destruct (Z.lt_ge_cases n (10 ^ (8 - slen (dec m)))) as [|Hge]; [done|].
      pose proof (dec_digits_ge n (8 - slen (dec m)) ltac:(lia) Hge). lia.
  - intros (a & Ha & Hma & Hna).
    pose proof (dec_digits_le m a ltac:(lia) ltac:(lia)). pose proof (dec_digits_le n (8 - a) ltac:(lia) ltac:(lia)). lia.
Qed.

(** C39: the position of a breakpoint is printed into ten bytes.
    It fits, and is then "line:column", exactly when the two numbers have at
    most eight characters together; in every other case the buffer overflows.  For
    a line and a column that are not negative that is: the line is below [10 ^ a]
    and the column below [10 ^ (8 - a)] for some [a] from 1 to 7. *)
Theorem breakpoint_position_bounds doc body line column :
  member "body" doc = Ok body → member "line" body = Ok (JInt line) →
  member "column" body = Ok (JInt column) →
  breakpoint_position doc
  = (if slen (dec line) + slen (dec column) <=? 8 then Ok (dec line +:+ ":" +:+ dec column)
     else Fail (Undefined "sprintf: buffer overflow")) ∧
  (0 <= line → 0 <= column →
     (breakpoint_position doc = Ok (dec line +:+ ":" +:+ dec column)
      ↔ ∃ a, 1 <= a <= 7 ∧ line < 10 ^ a ∧ column < 10 ^ (8 - a))).
Proof.
  intros Hb Hl Hc.
  assert (breakpoint_position doc
          = if slen (dec line) + slen (dec column) <=? 8 then Ok (dec line +:+ ":" +:+ dec column)
            else Fail (Undefined "sprintf: buffer overflow")) as E.
  { unfold breakpoint_position. do 5 outcome_step. unfold sprintf.
    rewrite !slen_app. change (slen ":") with 1.
    destruct (Z.leb_spec (slen (dec line) + (1 + slen (dec column)) + 1) 10),
      (Z.leb_spec (slen (dec line) + slen (dec column)) 8); [done|lia..|done]. }
  split; [exact E|]. intros H1 H2. rewrite E, <-(eight_digits line column H1 H2).
  destruct (Z.leb_spec (slen (dec line) + slen (dec column)) 8); split; (done || lia).
Qed.

(** A command of fewer than 1000 bytes reaches the debugger as its bytes
    widened to 16 bits, without the terminator; a longer one overflows the
    buffer. *)
Theorem debug_command_bounds command :
  nul_free command = true →
  debug_command command
  = if slen command <? kBufferSize
    then Ok (byte_val <$> String.list_ascii_of_string command)
    else Fail (Undefined "AsciiToUtf16: buffer overflow").
Proof.
  intros Hn. unfold debug_command, AsciiToUtf16. destruct (utf16_units_spec command) as [Hl Hu].
  rewrite c_str_id in Hl, Hu by done. rewrite Hl, Hu. unfold slen, kBufferSize.
  destruct (Z.ltb_spec (Z.of_nat (String.length command)) 1000),
    (Z.leb_spec (Z.of_nat (S (String.length command))) 1000); try lia; [|done].
  cbn. f_equal. rewrite take_app_le.
  - apply take_ge. rewrite length_fmap, length_list_ascii. lia.
  - rewrite length_fmap, length_list_ascii. lia.
Qed.
End debug_properties.

(** ** Witnesses *)

From S2P Require Import MiniJson.

(** A response of the V8 debugger. *)
Definition breakpoint_response : string := dquoted
  ("{'seq':1,'type':'response','command':'setbreakpoint','success':true,"
   +:+ "'body':{'type':'scriptId','breakpoint':1,'line':12,'column':4}}").

Lemma setbreakpoint_response_never_signals_witness :
  SetBreakpointResult breakpoint_response
  = ([Assign SetBreakpoint (c_str breakpoint_response)], Ok false).
Proof. apply setbreakpoint_response_never_signals. vm_compute. reflexivity. Defined.

Definition position_document (line column : Z) : json :=
  JObject [("body", JObject [("line", JInt line); ("column", JInt column)])]%string.

Lemma breakpoint_position_bounds_witness :
  breakpoint_position (position_document 10000 100) = Ok "10000:100"%string ∧
  breakpoint_position (position_document 1000000 100) = Fail (Undefined "sprintf: buffer overflow").
Proof.
  split.
  - apply (breakpoint_position_bounds (position_document 10000 100)
             (JObject [("line", JInt 10000); ("column", JInt 100)])%string 10000 100); [reflexivity..|lia|lia|].
    exists 5. lia.
  - apply (breakpoint_position_bounds (position_document 1000000 100)
             (JObject [("line", JInt 1000000); ("column", JInt 100)])%string 1000000 100); reflexivity.
Defined.

Lemma debug_command_bounds_witness :
  debug_command "{}" = Ok [123; 125].
Proof. apply (debug_command_bounds "{}"). reflexivity. Defined.

(** An answer that wakes its request. *)
Example cleared_signals :
  let message := dquoted "{'command':'clearbreakpoint','type':'response'}" in
  ClearBreakpointResult message = ([Assign ClearBreakpoint message; SetReady; NotifyAll], Ok tt).
Proof. vm_compute. reflexivity. Qed.
