(* ===== verification/DebugSync.v ===== *)
(** * Requests that wait for the debugger (worker.cc)

    A request locks [debug_cv_m], clears [data_ready], installs its handler, sends
    its command and waits on [cv] until [data_ready].  The worker's thread, at the
    end of every update, lets the debugger process its commands (when the
    debugger is on), sets [data_ready] and notifies; it never locks the mutex.
    The interleavings, with spurious wake-ups of [cv], are a step relation whose
    steps are atomic.  The text of a result is taken when the request returns;
    that a later handler may free it before the caller has read it is not part of
    the model. *)

From stdpp Require Import relations sets functions.
From S2P Require Import Prelude CStd Json Debug.

(** ** States *)

(** Where a call of [Send...Request] is. *)
Inductive req_pc : Type :=
  | Idle
  | Locked (k : request_kind) (command : string)     (** [unique_lock] taken *)
  | Cleared (k : request_kind) (command : string)    (** [data_ready = false] done *)
  | Installed (k : request_kind) (command : string)  (** [SetMessageHandler] done *)
  | Testing (k : request_kind)                       (** about to read [data_ready] in [cv.wait] *)
  | Blocking (k : request_kind)                      (** it was false; about to sleep *)
  | Asleep (k : request_kind)
  | Waking (k : request_kind)                        (** notified; the mutex to be locked again *)
  | Returned (k : request_kind) (result : string)
  | Unsupported (result : string).                    (** a request that does not reach the debugger *)

Inductive worker_pc : Type :=
  | NoUpdate
  | Processing (ops : list debug_op)   (** in [ProcessDebugMessages], these writes left of a handler *)
  | Ending (ops : list debug_op).      (** [data_ready = true; cv.notify_all()] *)

Record sync := Sync {
  globals : debug_globals;
  mutex : option nat;
  installed : option request_kind;
  commands : list string;
  reqs : nat → req_pc;
  worker : worker_pc;
  start_debug_flag : bool
}.

(** [notify_all]: every sleeper wakes. *)
Definition wake (p : req_pc) : req_pc := match p with Asleep k => Waking k | _ => p end.

Definition holds (p : req_pc) : bool :=
  match p with
  | Locked _ _ | Cleared _ _ | Installed _ _ | Testing _ | Blocking _ => true
  | _ => false
  end.

Definition set_req (i : nat) (p : req_pc) (s : sync) : sync :=
  Sync (globals s) (mutex s) (installed s) (commands s) (<[i := p]> (reqs s)) (worker s) (start_debug_flag s).
Definition set_mutex (m : option nat) (s : sync) : sync :=
  Sync (globals s) m (installed s) (commands s) (reqs s) (worker s) (start_debug_flag s).
Definition set_worker (w : worker_pc) (s : sync) : sync :=
  Sync (globals s) (mutex s) (installed s) (commands s) (reqs s) w (start_debug_flag s).

(** One write of the worker's thread. *)
Definition do_op (op : debug_op) (s : sync) : sync :=
  Sync (run_op op (globals s)) (mutex s) (installed s) (commands s)
    (if op is NotifyAll then wake ∘ reqs s else reqs s) (worker s) (start_debug_flag s).

Definition clear_ready (s : sync) : sync :=
  Sync (DebugGlobals (debug_result (globals s)) false) (mutex s) (installed s) (commands s) (reqs s)
    (worker s) (start_debug_flag s).
Definition SetMessageHandler (k : request_kind) (s : sync) : sync :=
  Sync (globals s) (mutex s) (Some k) (commands s) (reqs s) (worker s) (start_debug_flag s).
Definition SendCommand (c : string) (s : sync) : sync :=
  Sync (globals s) (mutex s) (installed s) (commands s ++ [c]) (reqs s) (worker s) (start_debug_flag s).
Definition drop_command (s : sync) : sync :=
  Sync (globals s) (mutex s) (installed s) (tail (commands s)) (reqs s) (worker s) (start_debug_flag s).

(** The requests that are not implemented. *)
Definition SendLookupRequest (request : string) : string := EmptyString.
Definition SendBacktraceRequest (request : string) : string := EmptyString.
Definition SendFrameRequest (request : string) : string := EmptyString.
Definition SendSourceRequest (request : string) : string := EmptyString.

(** The functions of binding.h, and what each does: a request to the debugger or
    an answer at once. *)
Inductive c_request : Type :=
  | worker_send_continue_request
  | worker_send_evaluate_request
  | worker_send_lookup_request
  | worker_send_backtrace_request
  | worker_send_frame_request
  | worker_send_source_request
  | worker_send_setbreakpoint_request
  | worker_send_clearbreakpoint_request
  | worker_send_listbreakpoints_request.

Definition method_of (f : c_request) : request_kind + (string → string) :=
  match f with
  | worker_send_continue_request => inl Continue
  | worker_send_evaluate_request => inl Evaluate
  | worker_send_lookup_request => inr SendLookupRequest
  | worker_send_backtrace_request => inr SendBacktraceRequest
  | worker_send_frame_request => inr SendFrameRequest
  | worker_send_source_request => inr SendSourceRequest
  | worker_send_setbreakpoint_request => inl SetBreakpoint
  | worker_send_clearbreakpoint_request => inl ClearBreakpoint
  | worker_send_listbreakpoints_request => inl ListBreakpoint
  end.

Lemma method_of_kind k : ∃ f, method_of f = inl k.
Proof.
  destruct k; [exists worker_send_continue_request|exists worker_send_evaluate_request
    |exists worker_send_setbreakpoint_request|exists worker_send_clearbreakpoint_request
    |exists worker_send_listbreakpoints_request]; done.
Qed.

(** [data_ready = true; cv.notify_all();] at the end of an update. *)
Definition update_end : list debug_op := [SetReady; NotifyAll].

(** ** Steps *)

Section steps.
Context `{RapidJson}.

(** The V8 debugger's answer to a command. *)
Context (respond : string → string).

(** A step of request [i] in [Send...Request]. *)
Inductive request_step (i : nat) : sync → sync → Prop :=
  | req_lock s f k c :
      method_of f = inl k → reqs s i = Idle → mutex s = None →
      request_step i s (set_mutex (Some i) (set_req i (Locked k c) s))
  | req_clear s k c :
      reqs s i = Locked k c → request_step i s (clear_ready (set_req i (Cleared k c) s))
  | req_install s k c :
      reqs s i = Cleared k c → request_step i s (SetMessageHandler k (set_req i (Installed k c) s))
  | req_send s k c units :
      reqs s i = Installed k c → debug_command c = Ok units →
      request_step i s (SendCommand c (set_req i (Testing k) s))
  | req_ready s k :
      reqs s i = Testing k → data_ready (globals s) = true →
      request_step i s (set_mutex None (set_req i (Returned k (c_str (debug_result (globals s) k))) s))
  | req_not_ready s k :
      reqs s i = Testing k → data_ready (globals s) = false →
      request_step i s (set_req i (Blocking k) s)
  | req_sleep s k :
      reqs s i = Blocking k → request_step i s (set_mutex None (set_req i (Asleep k) s))
  | req_wake s k :
      reqs s i = Waking k → mutex s = None →
      request_step i s (set_mutex (Some i) (set_req i (Testing k) s))
  | req_unsupported s f request c :
      method_of f = inr request → reqs s i = Idle →
      request_step i s (set_req i (Unsupported (request c)) s).

(** [cv.wait] may return without a notification. *)
Inductive spurious_step (i : nat) : sync → sync → Prop :=
  | spurious s k : reqs s i = Asleep k → spurious_step i s (set_req i (Waking k) s).

(** A step of the worker inside [SendUpdate] or [SendDelete]. *)
Inductive worker_step : sync → sync → Prop :=
  | upd_message s k c cs ops :
      worker s = Processing [] → commands s = c :: cs → installed s = Some k →
      debug_handler k (respond c) = (ops, Ok tt) →
      worker_step s (drop_command (set_worker (Processing ops) s))
  | upd_op s op ops :
      worker s = Processing (op :: ops) → worker_step s (do_op op (set_worker (Processing ops) s))
  | upd_processed s :
      worker s = Processing [] → commands s = [] → worker_step s (set_worker (Ending update_end) s)
  | upd_end_op s op ops :
      worker s = Ending (op :: ops) → worker_step s (do_op op (set_worker (Ending ops) s))
  | upd_return s : worker s = Ending [] → worker_step s (set_worker NoUpdate s).

(** The JavaScript handler of an update has returned. *)
Inductive update_start : sync → sync → Prop :=
  | upd_start s :
      worker s = NoUpdate →
      update_start s (set_worker (if start_debug_flag s then Processing [] else Ending update_end) s).

Inductive step : sync → sync → Prop :=
  | step_request i s s' : request_step i s s' → step s s'
  | step_spurious i s s' : spurious_step i s s' → step s s'
  | step_worker s s' : worker_step s s' → step s s'
  | step_update s s' : update_start s s' → step s s'.

(** Everything but a new update and a spurious wake-up. *)
Inductive quiet_step : sync → sync → Prop :=
  | quiet_request i s s' : request_step i s s' → quiet_step s s'
  | quiet_worker s s' : worker_step s s' → quiet_step s s'.

Definition initial (flag : bool) (g : debug_globals) : sync :=
  Sync g None None [] (λ _, Idle) NoUpdate flag.

(** ** Mutual exclusion *)

Definition mutex_ok (s : sync) : Prop := ∀ i, holds (reqs s i) = true ↔ mutex s = Some i.

Lemma wake_holds p : holds (wake p) = holds p.
Proof. by destruct p. Qed.

(** A request that takes or keeps the mutex. *)
Lemma mutex_ok_acquire s s' i p :
  mutex_ok s → (mutex s = None ∨ mutex s = Some i) → mutex s' = Some i →
  reqs s' = <[i := p]> (reqs s) → holds p = true → mutex_ok s'.
Proof.
  intros Hs Hm Hm' Hr Hp j. rewrite Hm', Hr. destruct (decide (j = i)) as [->|E].
  - rewrite fn_lookup_insert. by rewrite Hp.
  - rewrite fn_lookup_insert_ne by done. rewrite (Hs j). naive_solver.
Qed.

(** A request that gives it up. *)
Lemma mutex_ok_release s s' i p :
  mutex_ok s → mutex s = Some i → mutex s' = None →
  reqs s' = <[i := p]> (reqs s) → holds p = false → mutex_ok s'.
Proof.
  intros Hs Hm Hm' Hr Hp j. rewrite Hm', Hr. destruct (decide (j = i)) as [->|E].
  - rewrite fn_lookup_insert. by rewrite Hp.
  - rewrite fn_lookup_insert_ne by done. rewrite (Hs j). naive_solver.
Qed.

(** A request that neither holds it before nor after. *)
Lemma mutex_ok_away s s' i p :
  mutex_ok s → holds (reqs s i) = false → mutex s' = mutex s →
  reqs s' = <[i := p]> (reqs s) → holds p = false → mutex_ok s'.
Proof.
  intros Hs Hi Hm Hr Hp j. rewrite Hm, Hr. destruct (decide (j = i)) as [->|E].
  - rewrite fn_lookup_insert, Hp. specialize (Hs i). rewrite Hi in Hs. naive_solver.
  - rewrite fn_lookup_insert_ne by done. apply Hs.
Qed.

(** A step that leaves the mutex and what each request holds. *)
Lemma mutex_ok_frame s s' :
  mutex_ok s → mutex s' = mutex s → (∀ i, holds (reqs s' i) = holds (reqs s i)) → mutex_ok s'.
Proof. intros Hs Hm Hr i. by rewrite Hr, Hm. Qed.

Lemma request_step_mutex i s s' : request_step i s s' → mutex_ok s → mutex_ok s'.
Proof.
  intros Hst Hs. pose proof (Hs i) as Hi.
  destruct Hst as [s f k c _ E Em|s k c E|s k c E|s k c units E _|s k E _|s k E _|s k E|s k E Em|s f r c _ E];
    rewrite E in Hi; cbn [holds] in Hi.
  all: try (assert (mutex s = Some i) as Hm by (by apply Hi)).
  9: eapply (mutex_ok_away s _ i); [exact Hs|by rewrite E|reflexivity..].
  all: first [ eapply mutex_ok_acquire; [exact Hs| | |reflexivity|reflexivity]; cbn; by auto
             | eapply mutex_ok_release; [exact Hs|exact Hm|reflexivity|reflexivity|reflexivity] ].
Qed.

Lemma worker_step_mutex s s' : worker_step s s' → mutex_ok s → mutex_ok s'.
Proof.
  intros Hst Hs.
  destruct Hst as [s k c cs ops|s op ops|s|s op ops|s]; (eapply mutex_ok_frame; [exact Hs|done|]);
    intros i; try done; destruct op; cbn; try done; apply wake_holds.
Qed.

(** C20: in every interleaving of any number of requests with the worker's
    updates, exactly the request that owns [debug_cv_m] is between locking and
    sleeping or returning: two requests never install handlers or send commands
    at the same time. *)
Theorem mutual_exclusion flag g s :
  rtc step (initial flag g) s →
  mutex_ok s ∧ ∀ i j, holds (reqs s i) = true → holds (reqs s j) = true → i = j.
Proof.
  intros Hr. assert (mutex_ok s) as Hs.
  { revert Hr. apply (rtc_ind_r (λ s, mutex_ok s)).
    - intros i. by split.
    - intros x y _ [i s1 s2 Hst|i s1 s2 Hst|s1 s2 Hst|s1 s2 Hst].
      + by apply (request_step_mutex i).
      + intros Hs. destruct Hst as [s0 k E].
        eapply (mutex_ok_away s0 _ i); [exact Hs|by rewrite E|reflexivity..].
      + by apply worker_step_mutex.
      + intros Hs. destruct Hst. eapply mutex_ok_frame; [exact Hs|done|done]. }
  split; [done|]. intros i j Hi%Hs Hj%Hs. congruence.
Qed.

(** ** Executions *)

Lemma rtc_request i s s1 s' : request_step i s s1 → rtc step s1 s' → rtc step s s'.
Proof. intros H1 H2. eapply rtc_l; [by eapply step_request|done]. Qed.
Lemma rtc_worker s s1 s' : worker_step s s1 → rtc step s1 s' → rtc step s s'.
Proof. intros H1 H2. eapply rtc_l; [by apply step_worker|done]. Qed.
Lemma rtc_update s s1 s' : update_start s s1 → rtc step s1 s' → rtc step s s'.
Proof. intros H1 H2. eapply rtc_l; [by apply step_update|done]. Qed.

(** Request [i] up to the test of [data_ready]. *)
Definition tested (i : nat) (k : request_kind) (c : string) (s : sync) : sync :=
  set_req i (Blocking k) (SendCommand c (set_req i (Testing k) (SetMessageHandler k
    (set_req i (Installed k c) (clear_ready (set_req i (Cleared k c)
      (set_mutex (Some i) (set_req i (Locked k c) s)))))))).

Lemma reach_tested i k c units s :
  reqs s i = Idle → mutex s = None → debug_command c = Ok units → rtc step s (tested i k c s).
Proof.
  intros Hi Hm Hc. destruct (method_of_kind k) as [f Hf].
  eapply (rtc_request i); [by apply (req_lock i _ f k c)|].
  eapply (rtc_request i); [apply req_clear; cbn; by rewrite fn_lookup_insert|].
  eapply (rtc_request i); [apply req_install; cbn; by rewrite fn_lookup_insert|].
  eapply (rtc_request i); [eapply req_send; [cbn; by rewrite fn_lookup_insert|done]|].
  eapply (rtc_request i); [apply req_not_ready; [cbn; by rewrite fn_lookup_insert|done]|]. done.
Qed.

(** Request [i] asleep with its command in the queue. *)
Definition waiting (i : nat) (k : request_kind) (c : string) (s : sync) : sync :=
  set_mutex None (set_req i (Asleep k) (tested i k c s)).

Lemma reach_waiting i k c units s :
  reqs s i = Idle → mutex s = None → debug_command c = Ok units → rtc step s (waiting i k c s).
Proof.
  intros Hi Hm Hc. etransitivity; [by apply (reach_tested i k c units)|].
  eapply (rtc_request i); [apply req_sleep; cbn; by rewrite fn_lookup_insert|]. done.
Qed.

Ltac end_of_update :=
  eapply rtc_worker; [by eapply upd_end_op|];
  eapply rtc_worker; [by eapply upd_end_op|];
  eapply rtc_worker; [by apply upd_return|].

(** While no update starts, a sleeper sleeps. *)
Lemma quiet_asleep i k s s' :
  rtc quiet_step s s' → worker s = NoUpdate → reqs s i = Asleep k →
  worker s' = NoUpdate ∧ reqs s' i = Asleep k.
Proof.
  induction 1 as [|s s1 s' Hst _ IH]; [done|]. intros Hw Hi. apply IH.
  - destruct Hst as [j s s1 Hst|s s1 Hst]; destruct Hst; try done; cbn; congruence.
  - destruct Hst as [j s s1 Hst|s s1 Hst]; [|destruct Hst; congruence].
    assert (j = i ∨ reqs s1 i = reqs s i) as [->|E]; [|destruct Hst; congruence|congruence].
    destruct (decide (j = i)) as [|E]; [by left|right].
    destruct Hst; cbn; by rewrite fn_lookup_insert_ne.
Qed.

(** C40: the worker sets [data_ready] and notifies without the mutex,
    so both can fall between a request's test and its sleep.  The request then
    sleeps although [data_ready] is true, and goes on sleeping for as long as
    no further update comes and [cv] does not wake it by itself. *)
Theorem lost_wakeup g k :
  ∃ s, rtc step (initial false g) s ∧
    reqs s 0 = Asleep k ∧ data_ready (globals s) = true ∧ worker s = NoUpdate ∧
    ∀ s', rtc quiet_step s s' → reqs s' 0 = Asleep k.
Proof.
  assert (∃ s, rtc step (tested 0 k EmptyString (initial false g)) s ∧ reqs s 0 = Asleep k ∧
               data_ready (globals s) = true ∧ worker s = NoUpdate) as (s & Hr & Hs & Hd & Hw).
  { eexists. split.
    - eapply rtc_update; [by apply upd_start|]. end_of_update.
      eapply (rtc_request 0); [by apply req_sleep|]. apply rtc_refl.
    - done. }
  exists s. split_and!; [|done..|].
  - etransitivity; [by apply (reach_tested 0 k EmptyString [])|exact Hr].
  - intros s' Hq. by apply (quiet_asleep 0 k s s').
Qed.

(** Every update ends with [data_ready = true] and a notification,
    also when the debugger is off and has processed nothing: a request then
    returns whatever its result string held before, while its command is still
    in the queue. *)
Theorem update_returns_stale_result g k c units :
  debug_command c = Ok units →
  ∃ s, rtc step (initial false g) s ∧
    reqs s 0 = Returned k (c_str (debug_result g k)) ∧ commands s = [c].
Proof.
  intros Hc. eexists. split.
  - etransitivity; [by apply (reach_waiting 0 k c units)|].
    eapply rtc_update; [by apply upd_start|]. end_of_update.
    eapply (rtc_request 0); [by apply req_wake|].
    eapply (rtc_request 0); [by apply req_ready|]. apply rtc_refl.
  - done.
Qed.

(** The mutex is free while a request sleeps, so that a second one
    replaces its handler: the answer to the first command then goes to the
    result of the second request, and that of the first keeps its old text. *)
Theorem second_request_takes_answer g k0 c0 units0 k1 c1 units1 text :
  k0 ≠ k1 → debug_command c0 = Ok units0 → debug_command c1 = Ok units1 →
  debug_handler k1 (respond c0) = ([Assign k1 text], Ok tt) →
  ∃ s, rtc step (initial true g) s ∧ reqs s 0 = Asleep k0 ∧ reqs s 1 = Asleep k1 ∧ commands s = [c1] ∧
       debug_result (globals s) k1 = text ∧ debug_result (globals s) k0 = debug_result g k0.
Proof.
  intros Hk H0 H1 Hh. eexists. split.
  - etransitivity; [by apply (reach_waiting 0 k0 c0 units0)|].
    etransitivity; [by apply (reach_waiting 1 k1 c1 units1)|].
    eapply rtc_update; [by apply upd_start|]. eapply rtc_worker; [by eapply upd_message|].
    eapply rtc_worker; [by apply upd_op|]. apply rtc_refl.
  - cbn. split_and!; [done..| |]; [by rewrite decide_True|by rewrite decide_False].
Qed.

End steps.

(** ** Witnesses *)

From S2P Require Import MiniJson.

Lemma mutual_exclusion_witness :
  let s := tested 0 Evaluate "{}" (initial true debug_start) in
  mutex_ok s ∧ ∀ i j, holds (reqs s i) = true → holds (reqs s j) = true → i = j.
Proof.
  apply (mutual_exclusion (λ c, c) true debug_start). by apply (reach_tested (λ c, c) 0 Evaluate "{}" [123%Z; 125%Z]).
Defined.

Definition example_list : string := dquoted "{'command':'listbreakpoints','breakpoints':[]}".

(** A list of breakpoints, asked for first, goes to an evaluation that is asked
    for second. *)
Lemma second_request_takes_answer_witness :
  ∃ s, rtc (step (λ _, example_list)) (initial true debug_start) s ∧
    reqs s 0 = Asleep ListBreakpoint ∧ reqs s 1 = Asleep Evaluate ∧ commands s = ["{}"%string] ∧
    debug_result (globals s) Evaluate = example_list ∧
    debug_result (globals s) ListBreakpoint = debug_result debug_start ListBreakpoint.
Proof.
  apply (second_request_takes_answer (λ _, example_list) debug_start ListBreakpoint "{}" [123%Z; 125%Z]
           Evaluate "{}" [123%Z; 125%Z] example_list); done.
Defined.
