(* ===== verification/DebugRest.v ===== *)
(** * Requests and updates come to rest

    The waiting of [DebugSync.v] is no busy waiting: with the requests that have
    started and the update that is under way, and without spurious wake-ups, only
    finitely many steps are possible.  The measure counts the notifications that
    can still come, the steps of the worker and those of each request.  A request
    that is alone is answered by then. *)

From stdpp Require Import relations functions.
From S2P Require Import Prelude CStd Json Debug DebugSync.

(** ** Sums over the first [n] requests *)

Fixpoint total (f : req_pc → nat) (n : nat) (r : nat → req_pc) : nat :=
  match n with O => 0 | S n => f (r n) + total f n r end.

Lemma total_insert_ge f n r i p : n ≤ i → total f n (<[i := p]> r) = total f n r.
Proof.
  induction n as [|n IH]; [done|]. intros Hi. cbn. rewrite IH by lia.
  by rewrite fn_lookup_insert_ne by lia.
Qed.

Lemma total_insert f n r i p : i < n → total f n (<[i := p]> r) + f (r i) = total f n r + f p.
Proof.
  induction n as [|n IH]; [lia|]. intros Hi. cbn. destruct (decide (i = n)) as [->|Hne].
  - rewrite fn_lookup_insert, total_insert_ge by lia. lia.
  - rewrite fn_lookup_insert_ne by done. specialize (IH ltac:(lia)). lia.
Qed.

Lemma total_le f n r r' c : (∀ i, f (r' i) ≤ f (r i) + c) → total f n r' ≤ total f n r + c * n.
Proof. intros Hf. induction n as [|n IH]; cbn; [lia|]. specialize (Hf n). lia. Qed.

(** ** The measure *)

(** The steps of a request up to its sleep or return. *)
Definition rank (p : req_pc) : nat :=
  match p with
  | Locked _ _ => 7 | Cleared _ _ => 6 | Installed _ _ => 5 | Waking _ => 3 | Testing _ => 2 | Blocking _ => 1
  | Idle | Asleep _ | Returned _ _ | Unsupported _ => 0
  end.

(** Its command is still to be sent. *)
Definition unsent (p : req_pc) : nat :=
  match p with Locked _ _ | Cleared _ _ | Installed _ _ => 1 | _ => 0 end.

Definition is_notify (op : debug_op) : nat := match op with NotifyAll => 1 | _ => 0 end.
Fixpoint notifies (ops : list debug_op) : nat :=
  match ops with [] => 0 | op :: ops => is_notify op + notifies ops end.

Definition worker_notifies (p : worker_pc) : nat :=
  match p with NoUpdate => 0 | Processing ops => notifies ops + 1 | Ending ops => notifies ops end.
Definition worker_steps (p : worker_pc) : nat :=
  match p with NoUpdate => 0 | Processing ops => length ops + 4 | Ending ops => length ops + 1 end.

(** The answers that can still come from the debugger. *)
Definition messages (n : nat) (s : sync) : nat := total unsent n (reqs s) + length (commands s).

Definition measure (n : nat) (s : sync) : nat :=
  (3 * n + 1) * (messages n s + worker_notifies (worker s))
  + 4 * messages n s + worker_steps (worker s) + total rank n (reqs s).

(** Either the requests get on, or the worker does without waking anybody, or
    it has one notification less to give. *)
Lemma measure_rank n s s' :
  messages n s' = messages n s → worker s' = worker s → total rank n (reqs s') < total rank n (reqs s) →
  measure n s' < measure n s.
Proof. unfold measure. intros -> ->. lia. Qed.

Lemma measure_worker n s s' :
  reqs s' = reqs s →
  messages n s' + worker_notifies (worker s') ≤ messages n s + worker_notifies (worker s) →
  4 * messages n s' + worker_steps (worker s') < 4 * messages n s + worker_steps (worker s) →
  measure n s' < measure n s.
Proof. unfold measure. intros ->. nia. Qed.

Lemma measure_notify n s s' :
  messages n s' = messages n s →
  S (worker_notifies (worker s')) = worker_notifies (worker s) →
  worker_steps (worker s') ≤ worker_steps (worker s) →
  total rank n (reqs s') ≤ total rank n (reqs s) + 3 * n →
  measure n s' < measure n s.
Proof. unfold measure. intros ->. nia. Qed.

Section rest.
Context `{RapidJson} (respond : string → string).

(** A step of one of the first [n] requests after its start, or of the update. *)
Inductive busy_step (n : nat) : sync → sync → Prop :=
  | busy_request i s s' : i < n → reqs s i ≠ Idle → request_step i s s' → busy_step n s s'
  | busy_worker s s' : worker_step respond s s' → busy_step n s s'.

Lemma wake_rank p : rank (wake p) ≤ rank p + 3.
Proof. destruct p; cbn; lia. Qed.

Lemma total_wake n r : total unsent n (wake ∘ r) = total unsent n r.
Proof. induction n as [|n IH]; [done|]. cbn in *. rewrite IH. by destruct (r n). Qed.

Lemma measure_request n i s s' :
  i < n → reqs s i ≠ Idle → request_step i s s' → measure n s' < measure n s.
Proof.
  intros Hi Hn Hst.
  assert (∀ p, total rank n (<[i := p]> (reqs s)) + rank (reqs s i) = total rank n (reqs s) + rank p) as Hr
    by (intros p; by apply total_insert).
  assert (∀ p, total unsent n (<[i := p]> (reqs s)) + unsent (reqs s i) = total unsent n (reqs s) + unsent p) as Hu
    by (intros p; by apply total_insert).
  destruct Hst as [s f k c _ E Em|s k c E|s k c E|s k c units E _|s k E _|s k E _|s k E|s k E Em|s f r c _ E];
    try done; rewrite E in Hr, Hu;
    (apply measure_rank; [unfold messages; cbn; rewrite ?length_app|done|cbn]);
    match goal with |- context [<[i := ?p]> _] => specialize (Hr p); specialize (Hu p) end; cbn in *; lia.
Qed.

Lemma measure_do_op n op ops s p :
  worker s = p → (p = Processing (op :: ops) ∨ p = Ending (op :: ops)) →
  measure n (do_op op (set_worker (match p with Processing _ => Processing ops | _ => Ending ops end) s))
  < measure n s.
Proof.
  intros Hp Hops. destruct op as [k t| |].
  3: { apply measure_notify.
       - unfold messages. cbn. by rewrite total_wake.
       - destruct Hops as [-> | ->]; rewrite Hp; cbn; lia.
       - destruct Hops as [-> | ->]; rewrite Hp; cbn; lia.
       - apply (total_le rank n (reqs s) (wake ∘ reqs s) 3). intros j. apply wake_rank. }
  all: apply measure_worker; [done|..]; unfold messages; cbn; destruct Hops as [-> | ->]; rewrite Hp; cbn; lia.
Qed.

Lemma measure_worker_step n s s' : worker_step respond s s' → measure n s' < measure n s.
Proof.
  destruct 1 as [s k c cs ops Hw Hc Hk Hh|s op ops Hw|s Hw Hc|s op ops Hw|s Hw].
  - apply measure_worker; [done|..]; unfold messages; cbn; rewrite Hw, Hc; cbn.
    all: destruct (debug_handler_ops k (respond c) ops Hh) as (t & [-> | ->]); cbn; lia.
  - exact (measure_do_op n op ops s _ Hw (or_introl eq_refl)).
  - apply measure_worker; [done|..]; unfold messages; cbn; rewrite Hw; cbn; lia.
  - exact (measure_do_op n op ops s _ Hw (or_intror eq_refl)).
  - apply measure_worker; [done|..]; unfold messages; cbn; rewrite Hw; cbn; lia.
Qed.

(** A number of steps is bounded by the measure. *)
Lemma measure_busy n s s' : busy_step n s s' → measure n s' < measure n s.
Proof. intros [i s1 s2 Hi Hn Hst|s1 s2 Hst]; [by eapply measure_request|by apply measure_worker_step]. Qed.

Lemma busy_bound n k s s' : nsteps (busy_step n) k s s' → k + measure n s' ≤ measure n s.
Proof. induction 1 as [|k s s1 s' Hst _ IH]; [lia|]. apply measure_busy in Hst. lia. Qed.

(** ** The answer to one request *)

Section answer.
Context (n i : nat) (k : request_kind) (c text : string) (rest : list debug_op).
Context (Hi : i < n) (Hh : debug_handler k (respond c) = (Assign k text :: rest, Ok tt)).

(** A request that is not under way. *)
Definition passive (p : req_pc) : Prop :=
  match p with Idle | Returned _ _ | Unsupported _ => True | _ => False end.

(** Request [i] and the mutex, once it has been woken. *)
Inductive awake : req_pc → option nat → Prop :=
  | awake_waking : awake (Waking k) None
  | awake_testing : awake (Testing k) (Some i)
  | awake_returned : awake (Returned k (c_str text)) None.

(** The states between the start of the update and the answer, by the position of
    the worker: what is in the queue, what the globals hold and where request [i]
    is.  As long as it sleeps, a notification is still to come. *)
Inductive answering : worker_pc → list string → debug_globals → req_pc → option nat → Prop :=
  | ans_start g : answering (Processing []) [c] g (Asleep k) None
  | ans_handler g : answering (Processing (Assign k text :: rest)) [] g (Asleep k) None
  | ans_left g : debug_result g k = text → rest = [SetReady; NotifyAll] →
      answering (Processing rest) [] g (Asleep k) None
  | ans_ready g : debug_result g k = text → data_ready g = true →
      answering (Processing [NotifyAll]) [] g (Asleep k) None
  | ans_before g w : debug_result g k = text → w = Processing [] ∨ w = Ending update_end →
      answering w [] g (Asleep k) None
  | ans_woken g w p m : debug_result g k = text → data_ready g = true → awake p m →
      w = Processing [] ∨ w = Ending update_end →
      answering w [] g p m
  | ans_last g p m : debug_result g k = text → data_ready g = true → (p = Asleep k ∧ m = None) ∨ awake p m →
      answering (Ending [NotifyAll]) [] g p m
  | ans_after g w p m : debug_result g k = text → data_ready g = true → awake p m →
      w = Ending [] ∨ w = NoUpdate →
      answering w [] g p m.

Definition to_answer (s : sync) : Prop :=
  installed s = Some k ∧ (∀ j, j ≠ i → passive (reqs s j)) ∧
  answering (worker s) (commands s) (globals s) (reqs s i) (mutex s).

(** The others are not woken, as they do not sleep. *)
Lemma passive_wake p : passive p → wake p = p.
Proof. by destruct p. Qed.

Lemma awake_wake p m : awake p m → wake p = p.
Proof. by destruct 1. Qed.

(** A request that is awake gets on. *)
Lemma awake_moves s :
  data_ready (globals s) = true → awake (reqs s i) (mutex s) →
  (∃ s', request_step i s s') ∨ reqs s i = Returned k (c_str text).
Proof.
  intros Hd Ha. inversion Ha as [E Em|E Em|E Em]; [| |by right]; left; eexists.
  - by apply (req_wake i s k).
  - by apply (req_ready i s k).
Qed.

Lemma awake_step s s' :
  debug_result (globals s) k = text → data_ready (globals s) = true →
  awake (reqs s i) (mutex s) → request_step i s s' →
  awake (reqs s' i) (mutex s') ∧ (∀ j, j ≠ i → reqs s' j = reqs s j) ∧
  worker s' = worker s ∧ commands s' = commands s ∧ globals s' = globals s ∧ installed s' = installed s.
Proof.
  intros Ht Hd Ha Hst. destruct Hst as [s f k' c' _ E Em|s k' c' E|s k' c' E|s k' c' units E _|s k' E E1|s k' E E1|s k' E|s k' E Em|s f r c' _ E];
    rewrite E in Ha; inversion Ha; subst; cbn; try congruence.
  all: rewrite fn_lookup_insert; split_and!; [|by intros; apply fn_lookup_insert_ne|done..].
  all: rewrite ?Ht; constructor.
Qed.

(** A step of request [i] is one of a request that has been woken. *)
Lemma answering_awake w cs g p m :
  answering w cs g p m → (∀ k', p ≠ Asleep k') →
  debug_result g k = text ∧ data_ready g = true ∧ awake p m ∧ cs = [] ∧
  ∀ p' m', awake p' m' → answering w cs g p' m'.
Proof.
  intros Ha Hp.
  destruct Ha as [g|g|g Ht Hr|g Ht Hd|g w Ht Hw|g w p m Ht Hd Hw Hor|g p m Ht Hd [[-> _]|Hw]|g w p m Ht Hd Hw Hor];
    try (by destruct (Hp k)); split_and!; try done; intros p' m' Hw'.
  - by apply ans_woken.
  - apply ans_last; [done|done|by right].
  - by apply ans_after.
Qed.

Lemma request_keeps_answer s s' : to_answer s → request_step i s s' → to_answer s'.
Proof.
  intros (Hk & Hp & Ha) Hst.
  assert (∀ k', reqs s i ≠ Asleep k') as Hns by (intros k' E; destruct Hst; congruence).
  destruct (answering_awake _ _ _ _ _ Ha Hns) as (Ht & Hd & Hw & _ & Hgo).
  destruct (awake_step s s' Ht Hd Hw Hst) as (Hw' & Ho & Ew & Ec & Eg & Ei).
  split_and!; [congruence| |rewrite Ew, Ec, Eg; by apply Hgo].
  intros j Hj. rewrite Ho by done. by apply Hp.
Qed.

(** The writes of the worker, one by one. *)
Lemma op_keeps_answer s op w :
  to_answer s →
  (∃ ops, worker s = Processing (op :: ops) ∧ w = Processing ops) ∨
  (∃ ops, worker s = Ending (op :: ops) ∧ w = Ending ops) →
  to_answer (do_op op (set_worker w s)).
Proof.
  intros (Hk & Hp & Ha) Hw. split_and!; [done| |].
  { intros j Hj. cbn. destruct op; [by apply Hp..|]. cbn. rewrite passive_wake; by apply Hp. }
  assert (rest = [] ∨ rest = [SetReady; NotifyAll]) as Hrest.
  { destruct (debug_handler_ops k _ _ Hh) as (t & [[= _ E]|[= _ E]]); auto. }
  destruct s as [g m h cs rq w0 f]. cbn in *.
  destruct Hw as [(ops & -> & ->)|(ops & -> & ->)];
    inversion Ha as [|g' E1 E2|g' Ht Hr E1 E2|g' Ht Hd E1 E2|g' w' Ht Hor E1 E2|g' w' p m' Ht Hd Hw Hor E1 E2
                    |g' p m' Ht Hd Hor E1 E2|g' w' p m' Ht Hd Hw Hor E1 E2]; subst; cbn.
  all: try (by destruct Hor).
  all: try match goal with E : Asleep k = _ |- _ => rewrite <-E end.
  - destruct Hrest as [E|E]; [rewrite E; apply ans_before; [|by left]|apply ans_left; [|done]]; cbn; by rewrite decide_True.
  - destruct Hrest as [E|E]; rewrite E in *; [done|]. injection E1 as <- <-. cbn.
    match goal with E : Asleep k = _ |- _ => rewrite <-E end. by apply ans_ready.
  - apply ans_woken; [done|done|constructor|by left].
  - destruct Hor as [[=]|[= -> ->]]. apply ans_last; [done|done|by left].
  - destruct Hor as [[=]|[= -> ->]]. apply ans_last; [done|done|by right].
  - destruct Hor as [[E Em]|Hw]; [rewrite E, Em; apply ans_after; [done|done|constructor|by left]|].
    rewrite (awake_wake _ _ Hw). apply ans_after; [done|done|done|by left].
Qed.

Lemma worker_keeps_answer s s' : to_answer s → worker_step respond s s' → to_answer s'.
Proof.
  intros Hs Hst. destruct Hst as [s k' c' cs ops Ew Ec Ek Eh|s op ops Ew|s Ew Ec|s op ops Ew|s Ew].
  2,4: apply op_keeps_answer; [done|]; eauto.
  all: destruct Hs as (Hk & Hp & Ha); split_and!; [done|exact Hp|]; rewrite Ew in Ha; cbn; rewrite ?Ec in *; cbn.
  - rewrite Hk in Ek. injection Ek as <-.
    inversion Ha as [| | | |g w Ht Hor E1|g w p m Ht Hd Hw Hor E1|g p m|g w p m Ht Hd Hw Hor E1]; subst.
    rewrite Hh in Eh. injection Eh as <-. constructor.
  - inversion Ha as [| |g Ht Hr E1| |g w Ht Hor E1|g w p m Ht Hd Hw Hor E1|g p m|g w p m Ht Hd Hw Hor E1]; subst.
    + apply ans_before; [done|by right].
    + apply ans_before; [done|by right].
    + apply ans_woken; [done..|by right].
    + by destruct Hor.
  - inversion Ha as [| | | |g w Ht Hor E1|g w p m Ht Hd Hw Hor E1|g p m|g w p m Ht Hd Hw Hor E1]; subst.
    + by destruct Hor.
    + by destruct Hor.
    + apply ans_after; [done..|by right].
Qed.

Lemma answer_kept s s' : to_answer s → busy_step n s s' → to_answer s'.
Proof.
  intros Hs Hst. revert Hs. destruct Hst as [j s1 s2 Hj Hn Hst|s1 s2 Hst]; intros Hs; [|by eapply worker_keeps_answer].
  destruct (decide (j = i)) as [->|Hne]; [by eapply request_keeps_answer|].
  destruct Hs as (_ & Hp & _). specialize (Hp j Hne). 
  destruct Hst; match goal with E : reqs _ j = _ |- _ => by rewrite E in * end.
Qed.

(** Until the answer, something can happen. *)
Lemma answer_progress s :
  to_answer s →
  (∃ s', busy_step n s s') ∨
  reqs s i = Returned k (c_str text) ∧ commands s = [] ∧ worker s = NoUpdate.
Proof.
  intros (Hk & _ & Ha).
  assert (∀ s', worker_step respond s s' → ∃ s', busy_step n s s') as Hw by (intros s' Hst; exists s'; by apply busy_worker).
  assert (worker s = NoUpdate → data_ready (globals s) = true → awake (reqs s i) (mutex s) →
          (∃ s', busy_step n s s') ∨ reqs s i = Returned k (c_str text)) as Hq.
  { intros _ Hd Ha'. destruct (awake_moves s Hd Ha') as [[s' Hst]|E]; [left; exists s'|by right].
    apply (busy_request _ i); [done| |done]. intros E. rewrite E in Ha'. inversion Ha'. }
  remember (worker s) as w eqn:Ew. remember (commands s) as cs eqn:Ec. symmetry in Ew, Ec.
  assert (∀ op ops, w = Processing (op :: ops) ∨ w = Ending (op :: ops) → ∃ s', busy_step n s s') as Hop.
  { intros op ops [->| ->]; eapply Hw; [by apply (upd_op _ _ op ops)|by apply (upd_end_op _ _ op ops)]. }
  destruct Ha as [g|g|g Ht ->|g Ht Hd|g w Ht Hor|g w p m Ht Hd Ha Hor|g p m Ht Hd Ha|g w p m Ht Hd Ha Hor].
  - left. eapply Hw. by eapply (upd_message _ s k c []).
  - left. eapply Hop. by left.
  - left. eapply Hop. by left.
  - left. eapply Hop. by left.
  - left. destruct Hor as [->| ->]; [eapply Hw; by apply upd_processed|eapply Hop; by right].
  - left. destruct Hor as [->| ->]; [eapply Hw; by apply upd_processed|eapply Hop; by right].
  - left. eapply Hop. by right.
  - destruct Hor as [->| ->]; [left; eapply Hw; by apply upd_return|].
    destruct (Hq eq_refl Hd Ha) as [?|?]; [by left|by right].
Qed.
End answer.

(** ** Properties *)

(** C29: a request that sleeps with its command in the queue, no other one
    being under way, is answered by the next update with the debugger on.  In
    every interleaving of the update with the request, and without a spurious
    wake-up: the execution ends, within a bound, and cannot end before the request
    has returned the text that its handler left, whether or not that handler
    signals; the command is then gone and the update is over. *)
Theorem request_answered n i k c ops text rest s s0 j s' :
  i < n → reqs s i = Asleep k → (∀ i', i' ≠ i → passive (reqs s i')) →
  mutex s = None → start_debug_flag s = true → commands s = [c] → installed s = Some k →
  debug_handler k (respond c) = (ops, Ok tt) → ops = Assign k text :: rest →
  update_start s s0 → nsteps (busy_step n) j s0 s' →
  j ≤ measure n s0 ∧
  ((∃ s'', busy_step n s' s'') ∨
   reqs s' i = Returned k (c_str text) ∧ commands s' = [] ∧ worker s' = NoUpdate).
Proof.
  intros Hi Hs Hp Hm Hf Hc Hk Hh -> Hu Hr. split; [apply busy_bound in Hr; lia|].
  apply (answer_progress n i k c text rest Hi Hh).
  assert (to_answer i k c text rest s0) as H0.
  { destruct Hu as [s _]. rewrite Hf. split_and!; [done|done|]. cbn. rewrite Hc, Hs, Hm. constructor. }
  clear Hu Hs Hp Hm Hf Hc Hk. induction Hr as [|j s0 s1 s' Hst _ IH]; [done|].
  apply IH. by eapply (answer_kept n i k c text rest Hh).
Qed.

(** C30: from no state at all is there an infinite execution of requests that
    have started (any number of them) and the update that is under way: without
    a new request, a new update or a spurious wake-up every request comes to its
    return, to its sleep or to a mutex that another one holds, and the update to
    its end or to the death of the process. *)
Theorem comes_to_rest n : well_founded (flip (busy_step n)).
Proof. apply (well_founded_lt_compat _ (measure n)). intros s' s. apply measure_busy. Qed.
End rest.

(** ** Witness *)

From S2P Require Import MiniJson.

(** A request for the list of breakpoints, asleep, and the update that answers it. *)
Definition example_sleeping : sync :=
  Sync debug_start None (Some ListBreakpoint) ["{}"%string] (<[7 := Asleep ListBreakpoint]> (λ _, Idle))
    NoUpdate true.
Definition example_update : sync := set_worker (Processing []) example_sleeping.

(** The handler leaves the text and wakes the request, which returns while the
    update goes on to its end. *)
Lemma example_answered :
  ∃ s', nsteps (busy_step (λ _, example_list) 8) 10 example_update s' ∧ worker s' = NoUpdate.
Proof.
  eexists. split.
  - eapply nsteps_l; [eapply busy_worker, upd_message; reflexivity|].
    do 3 (eapply nsteps_l; [eapply busy_worker, upd_op; reflexivity|]).
    eapply nsteps_l; [apply (busy_request _ _ 7); [lia|done|by eapply req_wake]|].
    eapply nsteps_l; [apply (busy_request _ _ 7); [lia|done|by eapply req_ready]|].
    eapply nsteps_l; [eapply busy_worker, upd_processed; reflexivity|].
    do 2 (eapply nsteps_l; [eapply busy_worker, upd_end_op; reflexivity|]).
    eapply nsteps_l; [eapply busy_worker, upd_return; reflexivity|]. apply nsteps_O.
  - reflexivity.
Qed.

Lemma request_answered_witness :
  ∃ s', nsteps (busy_step (λ _, example_list) 8) 10 example_update s' ∧ worker s' = NoUpdate ∧
    10 ≤ 58 ∧
    ((∃ s'', busy_step (λ _, example_list) 8 s' s'') ∨
     reqs s' 7 = Returned ListBreakpoint (c_str example_list) ∧ commands s' = [] ∧ worker s' = NoUpdate).
Proof.
  destruct example_answered as (s' & Hr & Hw). exists s'. split; [exact Hr|]. split; [exact Hw|].
  apply (request_answered (λ _, example_list) 8 7 ListBreakpoint "{}"
           [Assign ListBreakpoint example_list; SetReady; NotifyAll] example_list [SetReady; NotifyAll]
           example_sleeping example_update 10 s'); try done.
  - lia.
  - intros i' Hne. unfold example_sleeping. cbn. by rewrite fn_lookup_insert_ne.
Defined.
