(* ===== verification/Mail.v ===== *)
(** * Mail (worker.cc, and its receiver in http_handlers.go)

    [sendmail(to, subject, body)] posts a form to the local mail handler; the
    handler, in Go, cuts the form at its separators.  The form's text is all
    that connects the two. *)

From S2P Require Import Prelude CStd V8.
#[local] Open Scope Z_scope.

(** ** libcurl *)

Class Curl := {
  curl : Type;
  (** Whether a handle was made. *)
  curl_easy_init : curl → curl * bool;
  (** [CURLOPT_URL], [CURLOPT_POSTFIELDS] and the result code, which is logged. *)
  curl_easy_perform : string → string → curl → curl * Z
}.

(** ** The sender *)

Definition mail_url : string := "http://localhost:6061/sendmail/".

Definition mail_form (app_name to subject body : string) : string :=
  "app_name=" +:+ app_name +:+ "&to=" +:+ to +:+ "&subject=" +:+ subject +:+ "&body=" +:+ body.

Definition mail_buffer : Z := 1000.

Section mail.
Context `{Curl} `{V8} {W : Type} `{!Lens W curl}.

(** The arguments are C strings. *)
Definition PostMail (app_name to subject body : string) : prog W unit :=
  ok ← zoom (λ c : curl, let '(c, ok) := curl_easy_init c in (c, Ok ok));
  if ok : bool then
    buf ← lift (sprintf mail_buffer (mail_form (c_str app_name) (c_str to) (c_str subject) (c_str body)));
    zoom (modify (λ c : curl, (curl_easy_perform mail_url buf c).1))
  else mret tt.

(** [arg->IsString()] asserted, then [ToCString]; an argument that was not given
    is [undefined]. *)
Definition mail_argument (args : list jsval) (i : nat) : outcome string :=
  let m := default js_undefined (args !! i) in
  if is_string m then mret (ToCString (utf8 m)) else Fail AssertFailed.

Definition SendMail (app_name_ : string) (args : list jsval) : prog W unit :=
  mail_to ← lift (mail_argument args 0);
  mail_subject ← lift (mail_argument args 1);
  mail_body ← lift (mail_argument args 2);
  PostMail app_name_ mail_to mail_subject mail_body.
End mail.

(** ** The receiver *)

(** [strings.Split(s, sep)] for a one-byte separator. *)
Fixpoint go_split (sep : ascii) (cur s : string) : list string :=
  match s with
  | EmptyString => [cur]
  | String c s =>
      if Ascii.eqb c sep then cur :: go_split sep EmptyString s
      else go_split sep (cur +:+ String c EmptyString) s
  end.

(** [strings.Split(fields[i], "=")[1]]: an index out of range panics. *)
Definition go_field (fields : list string) (i : nat) : option string :=
  f ← fields !! i; go_split "=" EmptyString f !! 1%nat.

(** [sendMail]: application, recipient, subject and body. *)
Definition sendMail (body : string) : option (string * string * string * string) :=
  let fields := go_split "&" EmptyString body in
  appName ← go_field fields 0;
  mailTo ← go_field fields 1;
  subject ← go_field fields 2;
  mailBody ← go_field fields 3;
  Some (appName, mailTo, subject, mailBody).

(** ** Lemmas *)

Lemma go_split_lacks sep cur x : lacks sep x = true → go_split sep cur x = [cur +:+ x].
Proof.
  revert cur. induction x as [|c x IH]; intros cur; cbn; [by rewrite sapp_nil_r|].
  destruct (Ascii.eqb c sep); [done|]. cbn. intros Hx. rewrite IH by done. by rewrite sapp_assoc.
Qed.

Lemma go_split_app sep cur x rest :
  lacks sep x = true →
  go_split sep cur (x +:+ String sep rest) = (cur +:+ x) :: go_split sep EmptyString rest.
Proof.
  revert cur. induction x as [|c x IH]; intros cur; sapp_cbn.
  - by rewrite Ascii.eqb_refl, sapp_nil_r.
  - destruct (Ascii.eqb c sep); [done|]. cbn. intros Hx. rewrite IH by done. by rewrite sapp_assoc.
Qed.

(** [name=value] cut at its equals sign. *)
Lemma go_field_value name value rest i :
  lacks "=" name = true → lacks "=" value = true →
  rest !! i = Some (name +:+ String "=" value) → go_field rest i = Some value.
Proof.
  intros Hn Hv E. unfold go_field. rewrite E. cbn [mbind option_bind].
  rewrite go_split_app, go_split_lacks by done. done.
Qed.

(** Text without the separators of a form. *)
Definition form_safe (s : string) : bool := lacks "&" s && lacks "=" s && nul_free s.

Lemma form_safe_facts s :
  form_safe s = true → lacks "&" s = true ∧ lacks "=" s = true ∧ nul_free s = true.
Proof. unfold form_safe. rewrite !andb_true_iff. tauto. Qed.

Lemma mail_form_head app to subject body :
  lacks "&" app = true → lacks "&" to = true →
  go_split "&" EmptyString (mail_form app to subject body)
  = ["app_name=" +:+ app; "to=" +:+ to]
    ++ go_split "&" EmptyString (("subject=" +:+ subject) +:+ String "&" ("body=" +:+ body)).
Proof.
  intros Ha Ht. unfold mail_form.
  change ("&to=" +:+ ?x) with (String "&" ("to=" +:+ x)).
  change ("&subject=" +:+ ?x) with (String "&" ("subject=" +:+ x)).
  change ("&body=" +:+ ?x) with (String "&" ("body=" +:+ x)).
  rewrite <-(sapp_assoc "app_name="), go_split_app by (by rewrite lacks_app, Ha).
  rewrite <-(sapp_assoc "to="), go_split_app by (by rewrite lacks_app, Ht).
  by rewrite (sapp_assoc "subject=").
Qed.

Lemma mail_form_fields app to subject body :
  lacks "&" app = true → lacks "&" to = true → lacks "&" subject = true →
  go_split "&" EmptyString (mail_form app to subject body)
  = ["app_name=" +:+ app; "to=" +:+ to; "subject=" +:+ subject]
    ++ go_split "&" EmptyString ("body=" +:+ body).
Proof.
  intros Ha Ht Hs. rewrite mail_form_head, go_split_app by (done || by rewrite lacks_app, Hs). done.
Qed.

Lemma mail_form_length app to subject body :
  slen (mail_form app to subject body) = 28 + slen app + slen to + slen subject + slen body.
Proof.
  unfold mail_form. rewrite !slen_app.
  change (slen "app_name=") with 9. change (slen "&to=") with 4.
  change (slen "&subject=") with 9. change (slen "&body=") with 6. lia.
Qed.

(** ** Properties *)

Section properties.
Context `{Curl} `{V8Laws} {W : Type} `{!Lens W curl}.
Implicit Types w : W.

(** The world once curl has a handle. *)
Definition with_handle w : W := update (curl_easy_init (view w)).1 w.

(** C33: a call of [sendmail] with three strings that hold no "&", "=" or NUL
    and 971 bytes in all (with the application's name) posts one form, from
    which the receiver reads exactly the application, recipient, subject and
    body. *)
Theorem mail_arrives app to subject body w :
  form_safe app = true → form_safe to = true → form_safe subject = true → form_safe body = true →
  slen app + slen to + slen subject + slen body <= 971 →
  (curl_easy_init (view w)).2 = true →
  ∃ form,
    SendMail app [js_string to; js_string subject; js_string body] w
    = (update (curl_easy_perform mail_url form (curl_easy_init (view w)).1).1 w, Ok tt) ∧
    sendMail form = Some (app, to, subject, body).
Proof.
  intros (A1 & A2 & A3)%form_safe_facts (T1 & T2 & T3)%form_safe_facts
    (S1 & S2 & S3)%form_safe_facts (B1 & B2 & B3)%form_safe_facts Hlen Hok.
  exists (mail_form app to subject body). split.
  - assert (∀ x, nul_free x = true → ToCString (utf8 (js_string x)) = x) as Hc.
    { intros x Hx. rewrite utf8_js_string. cbn. by apply c_str_id. }
    unfold SendMail.
    do 3 (erewrite bind_Ok;
          [|apply lift_Ok_eq; unfold mail_argument; cbn [lookup list_lookup from_option id];
            rewrite is_string_js_string, Hc by done; reflexivity]; cbv beta).
    unfold PostMail. unfold mbind at 1, prog_bind at 1, zoom at 1.
    destruct (curl_easy_init (view w)) as [c ok]. cbn in Hok. subst ok. cbn [fst].
    rewrite !c_str_id by done.
    erewrite bind_Ok.
    2: { apply lift_Ok_eq. unfold sprintf. rewrite mail_form_length. unfold mail_buffer.
         destruct (Z.leb_spec (28 + slen app + slen to + slen subject + slen body + 1) 1000); [done|lia]. }
    cbv beta. rewrite zoom_modify, view_update, update_update. done.
  - unfold sendMail. rewrite mail_form_fields by done.
    rewrite go_split_lacks by (unfold lacks in *; by rewrite sforall_app, B1).
    rewrite (go_field_value "app_name" app _ 0), (go_field_value "to" to _ 1),
      (go_field_value "subject" subject _ 2), (go_field_value "body" body _ 3) by (done || reflexivity).
    reflexivity.
Qed.

(** The form is printed into a buffer of 1000 bytes: with more
    than 971 bytes of arguments the buffer overflows. *)
Theorem mail_overflows app to subject body w :
  nul_free app = true → nul_free to = true → nul_free subject = true → nul_free body = true →
  971 < slen app + slen to + slen subject + slen body → (curl_easy_init (view w)).2 = true →
  PostMail app to subject body w = (with_handle w, Fail (Undefined "sprintf: buffer overflow")).
Proof.
  intros A T S B Hlen Hok. unfold PostMail, with_handle. rewrite !c_str_id by done.
  unfold mbind at 1, prog_bind at 1, zoom at 1.
  destruct (curl_easy_init (view w)) as [c ok]. cbn in Hok. subst ok. cbn [fst].
  apply bind_Fail. unfold lift. f_equal. unfold sprintf. rewrite mail_form_length. unfold mail_buffer.
  destruct (Z.leb_spec (28 + slen app + slen to + slen subject + slen body + 1) 1000); [lia|done].
Qed.
End properties.

(** Nothing is escaped: a "&" in the subject ends it, so the
    receiver takes what follows for the body and drops the body, or panics when
    there is no "=" in it. *)
Theorem separator_in_subject app to s1 s2 body :
  form_safe app = true → form_safe to = true → form_safe s1 = true → form_safe s2 = true →
  sendMail (mail_form app to (s1 +:+ String "&" s2) body) = None ∧
  sendMail (mail_form app to (s1 +:+ "&x=" +:+ s2) body) = Some (app, to, s1, s2).
Proof.
  intros (A1 & A2 & _)%form_safe_facts (T1 & T2 & _)%form_safe_facts
    (S1 & S2 & _)%form_safe_facts (R1 & R2 & _)%form_safe_facts.
  assert (∀ t, lacks "&" t = true →
    go_split "&" EmptyString (mail_form app to (s1 +:+ String "&" t) body)
    = ["app_name=" +:+ app; "to=" +:+ to; "subject=" +:+ s1; t]
      ++ go_split "&" EmptyString ("body=" +:+ body)) as Hf.
  { intros t Ht. rewrite mail_form_head by done.
    rewrite <-(sapp_assoc "subject="), (sapp_assoc ("subject=" +:+ s1) (String "&" t)), (sapp_cons "&" t).
    rewrite go_split_app by (by rewrite lacks_app, S1). by rewrite go_split_app. }
  split.
  - unfold sendMail. rewrite Hf by done.
    rewrite (go_field_value "app_name" app _ 0), (go_field_value "to" to _ 1),
      (go_field_value "subject" s1 _ 2) by (done || reflexivity).
    assert (∀ l, go_field (["app_name=" +:+ app; "to=" +:+ to; "subject=" +:+ s1; s2] ++ l) 3 = None) as ->;
      [|done].
    intros l. unfold go_field. change ((_ ++ l) !! 3%nat) with (Some s2). cbn [mbind option_bind].
    by rewrite go_split_lacks by done.
  - unfold sendMail. change ("&x=" +:+ s2) with (String "&" ("x=" +:+ s2)).
    rewrite Hf by (by rewrite lacks_app, R1).
    rewrite (go_field_value "app_name" app _ 0), (go_field_value "to" to _ 1),
      (go_field_value "subject" s1 _ 2), (go_field_value "x" s2 _ 3) by (done || reflexivity).
    reflexivity.
Qed.

(** ** Witnesses *)

From S2P Require Import Json MiniJson MiniV8.

(** A client that keeps what was posted. *)
#[local] Instance mini_curl : Curl := {|
  curl := list (string * string);
  curl_easy_init c := (c, true);
  curl_easy_perform url form c := (c ++ [(url, form)], 0)
|}.

Lemma mail_arrives_witness :
  ∃ form,
    SendMail (W:=@curl mini_curl) "credit_score" [js_string "a@b.c"; js_string "Hi"; js_string "Hello."]%string []
    = ([(mail_url, form)], Ok tt) ∧
    sendMail form = Some ("credit_score", "a@b.c", "Hi", "Hello.")%string.
Proof.
  destruct (mail_arrives (W:=@curl mini_curl) "credit_score" "a@b.c" "Hi" "Hello." [])
    as (form & Hrun & Hform); try reflexivity.
  { vm_compute. congruence. }
  exists form. split; [|exact Hform]. etransitivity; [exact Hrun|reflexivity].
Defined.

Lemma mail_overflows_witness :
  PostMail (W:=@curl mini_curl) "credit_score" "a@b.c" "Hi" (srepeat "x" 960) []
  = (with_handle (W:=@curl mini_curl) [], Fail (Undefined "sprintf: buffer overflow")).
Proof.
  apply (mail_overflows (W:=@curl mini_curl) "credit_score" "a@b.c" "Hi" (srepeat "x" 960)); try reflexivity.
Defined.

Lemma separator_in_subject_witness :
  sendMail (mail_form "app" "a@b.c" ("Q" +:+ String "&" "A") "Hello.") = None ∧
  sendMail (mail_form "app" "a@b.c" ("Q" +:+ "&x=" +:+ "A") "Hello.") = Some ("app", "a@b.c", "Q", "A")%string.
Proof. apply (separator_in_subject "app" "a@b.c" "Q" "A" "Hello."); reflexivity. Defined.
