(* ===== verification/ExceptionFmt.v ===== *)
(** * The text of an exception ([ExceptionString], worker.cc) *)

From S2P Require Import Prelude CStd V8 Engine.
#[local] Open Scope Z_scope.

Definition nl : ascii := "010".

(** [snprintf(scratch, 20, "%i", n)]: at most 19 bytes are kept. *)
Definition scratchSize : Z := 20.
Definition snprintf (size : Z) (s : string) : string := stake (Z.to_nat (size - 1)) s.

(** [for (i = from; i < to; i++) out.append(c)]. *)
Definition append_times (c : ascii) (from to : Z) : string := srepeat c (Z.to_nat (to - from)).

(** [stack_trace.length() > 0]. *)
Definition has_text (u : option string) : bool :=
  match u with Some s => negb (is_empty s) | None => false end.

Definition ExceptionString (try_catch : caught) : string :=
  let exception_string := ToCString (c_exception try_catch) in
  match c_message try_catch with
  | None => exception_string +:+ String nl EmptyString
  | Some message =>
      let filename_string := ToCString (m_resource message) in
      let scratch := snprintf scratchSize (dec (m_line message)) in
      let sourceline_string := ToCString (m_source message) in
      let start := m_start message in
      let last := m_end message in
      filename_string +:+ ":" +:+ scratch +:+ String nl
        (sourceline_string +:+ String nl
          (append_times " " 0 start +:+ append_times "^" start last +:+ String nl
            (if has_text (c_stack try_catch)
             then ToCString (c_stack try_catch) +:+ String nl EmptyString
             else exception_string +:+ String nl EmptyString)))
  end.

(** ** Lemmas *)

(** The byte at a position. *)
Definition byte_at (i : nat) (s : string) : option ascii := String.get i s.

Lemma srepeat_length c n : String.length (srepeat c n) = n.
Proof. induction n as [|n IH]; [done|]. cbn. by rewrite IH. Qed.

Lemma get_srepeat c n i : byte_at i (srepeat c n) = if decide (i < n)%nat then Some c else None.
Proof.
  unfold byte_at. revert i. induction n as [|n IH]; intros [|i]; cbn; try done.
  rewrite IH. destruct (decide (i < n)%nat), (decide (S i < S n)%nat); (done || lia).
Qed.

Lemma get_app i a b :
  byte_at i (a +:+ b) = if decide (i < String.length a)%nat then byte_at i a else byte_at (i - String.length a) b.
Proof.
  unfold byte_at. revert i. induction a as [|c a IH]; intros i; [by rewrite Nat.sub_0_r|].
  rewrite sapp_cons. destruct i as [|i]; [done|]. cbn [String.get String.length]. rewrite IH.
  destruct (decide (i < String.length a)%nat), (decide (S i < S (String.length a))%nat); (done || lia).
Qed.

Lemma srepeat_lacks d c n : Ascii.eqb c d = false → lacks d (srepeat c n) = true.
Proof. intros E. induction n as [|n IH]; [done|]. unfold lacks in *. cbn. by rewrite E, IH. Qed.

(** An [int] prints in at most 11 bytes: the scratch space is never short. *)
Lemma snprintf_int z : CStd.in_int z = true → snprintf scratchSize (dec z) = dec z.
Proof.
  intros Hz. unfold snprintf, scratchSize. apply stake_all.
  assert (slen (dec z) <= 19) as Hl; [|unfold slen in Hl; lia].
  unfold CStd.in_int, int_min, int_max in Hz.
  destruct (Z.ltb_spec z 0) as [Hn|Hn].
  - unfold dec. destruct (Z.ltb_spec z 0); [|lia]. rewrite slen_cons.
    pose proof (dec_digits_le (- z) 10 ltac:(lia) ltac:(lia)) as H0. unfold dec in H0.
    destruct (Z.ltb_spec (- z) 0); lia.
  - pose proof (dec_digits_le z 10 ltac:(lia) ltac:(lia)). lia.
Qed.

(** The underline of columns [start] to [last]. *)
Definition underline (start last : Z) : string := append_times " " 0 start +:+ append_times "^" start last.

Lemma underline_spec start last i :
  0 <= start <= last →
  byte_at i (underline start last)
  = if decide (Z.of_nat i < start) then Some " "%char
    else if decide (Z.of_nat i < last) then Some "^"%char else None.
Proof.
  intros Hs. unfold underline, append_times. rewrite Z.sub_0_r, get_app, srepeat_length, !get_srepeat.
  repeat case_decide; (done || lia).
Qed.

(** ** Property *)

(** C34: for an exception with a message, a file name and a source line
    without line breaks and a stack trace, the text is four lines or more: the
    file name and the line number in decimal, the source line, a line that is
    blank before the columns of the error and has a caret exactly under each of
    them, and the stack trace. *)
Theorem ExceptionString_layout file line source start last trace exc :
  lacks nl file = true → lacks nl source = true →
  nul_free file = true → nul_free source = true → nul_free trace = true →
  CStd.in_int line = true → 0 <= start <= last → trace ≠ EmptyString →
  ∃ under,
    getline_all nl EmptyString
      (ExceptionString (Caught exc (Some (JsMessage (Some file) line (Some source) start last)) (Some trace)))
    = [file +:+ ":" +:+ dec line; source; under]
      ++ getline_all nl EmptyString (trace +:+ String nl EmptyString) ∧
    ∀ i, byte_at i under
         = if decide (Z.of_nat i < start) then Some " "%char
           else if decide (Z.of_nat i < last) then Some "^"%char else None.
Proof.
  intros Hf Hs Nf Ns Nt Hl Hc Ht. exists (underline start last).
  split; [|intros i; by apply underline_spec].
  unfold ExceptionString. cbn [c_message c_exception c_stack m_resource m_line m_source m_start m_end ToCString].
  rewrite snprintf_int, !c_str_id by done.
  assert (has_text (Some trace) = true) as -> by (by destruct trace).
  rewrite <-(sapp_assoc ":"), <-(sapp_assoc file), getline_item.
  2: { rewrite !lacks_app, Hf, (dec_lacks nl line) by reflexivity. done. }
  rewrite getline_item by done.
  rewrite <-(sapp_assoc (append_times " " 0 start)), getline_item; [done|].
  unfold append_times. by rewrite lacks_app, !srepeat_lacks.
Qed.

Lemma ExceptionString_layout_witness :
  ∃ under,
    getline_all nl EmptyString
      (ExceptionString (Caught (Some "Error: x"%string)
        (Some (JsMessage (Some "app.js"%string) 3 (Some "  foo();"%string) 2 5)) (Some "Error: x at app.js:3"%string)))
    = ["app.js:3"; "  foo();"; under; "Error: x at app.js:3"]%string ∧
    ∀ i, byte_at i under
         = if decide (Z.of_nat i < 2) then Some " "%char
           else if decide (Z.of_nat i < 5) then Some "^"%char else None.
Proof.
  apply (ExceptionString_layout "app.js" 3 "  foo();" 2 5 "Error: x at app.js:3" (Some "Error: x"%string));
    (reflexivity || lia || done).
Defined.
