(* ===== verification/Host.v ===== *)
(** * The worker's state and the calls JavaScript makes into it

    [world] is everything a worker can change: the servers it talks to, its C++
    objects and the engine's state.  [host] runs one call of JavaScript on an
    object or function of the binding, [run_js] a whole handler. *)

From S2P Require Import Prelude CStd StdMap Calendar Endian Kv Json V8 Engine Timers.
From S2P Require Import HttpResponse Heap Bucket N1ql Queue Deployment Mail Debug.
#[local] Open Scope Z_scope.

(** ** State *)

(** A pointer field: C++ leaves it indeterminate until it is assigned. *)
Inductive object_ptr : Type :=
  | Indeterminate
  | Points (n : nat).

(** The fields of [class Worker], less the maps and the isolate. *)
Record Worker `{V8} := WorkerObject {
  cb_instance : option lcb_t;
  script_to_execute_ : string;
  table_index : Z;
  app_name_ : string;
  start_debug_flag : bool;
  last_exception : string;
  bucket_handle : object_ptr;
  n1ql_handle : object_ptr;
  queue_handle : object_ptr;
  on_update_ : option jsval;
  on_delete_ : option jsval;
  on_http_get_ : option jsval;
  on_http_post_ : option jsval;
  data_slot_1 : bool   (** [SetData(1, &cb_instance)] was called *)
}.

(** [cb_cluster_endpoint] and [cb_cluster_bucket]. *)
Record cluster_names := ClusterNames { cb_cluster_endpoint : string; cb_cluster_bucket : string }.

Section world.
Context `{Lcb} `{!LcbN1ql} `{Redis} `{Curl} `{RapidJson} `{Engine}.

Record world := World {
  w_cluster : cluster;
  w_redis : redis;
  w_curl : curl;
  w_js : js_state;
  w_maps : string_maps;
  w_http : HTTPResponse;
  w_buckets : list Bucket;
  w_n1qls : list N1QL;
  w_queues : list Queue;
  w_debug : debug_globals;
  w_names : cluster_names;
  w_worker : Worker
}.

(** The parts of the world that the components work on. *)
#[global] Program Instance world_cluster : Lens world cluster :=
  {| view := w_cluster;
     update c w := World c (w_redis w) (w_curl w) (w_js w) (w_maps w) (w_http w) (w_buckets w)
                          (w_n1qls w) (w_queues w) (w_debug w) (w_names w) (w_worker w) |}.
Solve Obligations with (by intros; try match goal with x : world |- _ => destruct x end).
#[global] Program Instance world_redis : Lens world redis :=
  {| view := w_redis;
     update c w := World (w_cluster w) c (w_curl w) (w_js w) (w_maps w) (w_http w) (w_buckets w)
                          (w_n1qls w) (w_queues w) (w_debug w) (w_names w) (w_worker w) |}.
Solve Obligations with (by intros; try match goal with x : world |- _ => destruct x end).
#[global] Program Instance world_curl : Lens world curl :=
  {| view := w_curl;
     update c w := World (w_cluster w) (w_redis w) c (w_js w) (w_maps w) (w_http w)
                          (w_buckets w) (w_n1qls w) (w_queues w) (w_debug w) (w_names w) (w_worker w) |}.
Solve Obligations with (by intros; try match goal with x : world |- _ => destruct x end).
#[global] Program Instance world_js : Lens world js_state :=
  {| view := w_js;
     update c w := World (w_cluster w) (w_redis w) (w_curl w) c (w_maps w) (w_http w)
                          (w_buckets w) (w_n1qls w) (w_queues w) (w_debug w) (w_names w) (w_worker w) |}.
Solve Obligations with (by intros; try match goal with x : world |- _ => destruct x end).
#[global] Program Instance world_maps : Lens world string_maps :=
  {| view := w_maps;
     update c w := World (w_cluster w) (w_redis w) (w_curl w) (w_js w) c (w_http w)
                          (w_buckets w) (w_n1qls w) (w_queues w) (w_debug w) (w_names w) (w_worker w) |}.
Solve Obligations with (by intros; try match goal with x : world |- _ => destruct x end).
#[global] Program Instance world_http : Lens world HTTPResponse :=
  {| view := w_http;
     update c w := World (w_cluster w) (w_redis w) (w_curl w) (w_js w) (w_maps w) c
                          (w_buckets w) (w_n1qls w) (w_queues w) (w_debug w) (w_names w) (w_worker w) |}.
Solve Obligations with (by intros; try match goal with x : world |- _ => destruct x end).
#[global] Program Instance world_buckets : Lens world (list Bucket) :=
  {| view := w_buckets;
     update c w := World (w_cluster w) (w_redis w) (w_curl w) (w_js w) (w_maps w) (w_http w) c
                          (w_n1qls w) (w_queues w) (w_debug w) (w_names w) (w_worker w) |}.
Solve Obligations with (by intros; try match goal with x : world |- _ => destruct x end).
#[global] Program Instance world_n1qls : Lens world (list N1QL) :=
  {| view := w_n1qls;
     update c w := World (w_cluster w) (w_redis w) (w_curl w) (w_js w) (w_maps w) (w_http w)
                          (w_buckets w) c (w_queues w) (w_debug w) (w_names w) (w_worker w) |}.
Solve Obligations with (by intros; try match goal with x : world |- _ => destruct x end).
#[global] Program Instance world_queues : Lens world (list Queue) :=
  {| view := w_queues;
     update c w := World (w_cluster w) (w_redis w) (w_curl w) (w_js w) (w_maps w) (w_http w)
                          (w_buckets w) (w_n1qls w) c (w_debug w) (w_names w) (w_worker w) |}.
Solve Obligations with (by intros; try match goal with x : world |- _ => destruct x end).
#[global] Program Instance world_debug : Lens world debug_globals :=
  {| view := w_debug;
     update c w := World (w_cluster w) (w_redis w) (w_curl w) (w_js w) (w_maps w) (w_http w)
                          (w_buckets w) (w_n1qls w) (w_queues w) c (w_names w) (w_worker w) |}.
Solve Obligations with (by intros; try match goal with x : world |- _ => destruct x end).
#[global] Program Instance world_names : Lens world cluster_names :=
  {| view := w_names;
     update c w := World (w_cluster w) (w_redis w) (w_curl w) (w_js w) (w_maps w) (w_http w)
                          (w_buckets w) (w_n1qls w) (w_queues w) (w_debug w) c (w_worker w) |}.
Solve Obligations with (by intros; try match goal with x : world |- _ => destruct x end).
#[global] Program Instance world_worker : Lens world Worker :=
  {| view := w_worker;
     update c w := World (w_cluster w) (w_redis w) (w_curl w) (w_js w) (w_maps w) (w_http w)
                          (w_buckets w) (w_n1qls w) (w_queues w) (w_debug w) (w_names w) c |}.
Solve Obligations with (by intros; try match goal with x : world |- _ => destruct x end).

(** The [lcb_t] variables of the C++ objects. *)
Definition world_lcb_at (id : lcb_id) (w : world) : option lcb_t :=
  match id with
  | BucketLcb n => bucket_lcb_obj <$> w_buckets w !! n
  | N1qlLcb n => n1ql_lcb_obj <$> w_n1qls w !! n
  | WorkerLcb => cb_instance (w_worker w)
  end.

#[global] Program Instance world_lcb_heap : LcbHeap world := {| lcb_at := world_lcb_at |}.
Next Obligation. by intros [] ? []. Qed.

(** ** The functions of the global template *)

(** [Print]: the conversion's pointer is printed through. *)
Definition Print (args : list jsval) : prog world unit :=
  for_each (λ arg, cstr ← lift (ToJson arg); _ ← lift (read_ptr cstr); mret tt) args.

(** What the isolate's data slot 1 points to. *)
Definition timer_handle (w : world) : outcome lcb_t :=
  if data_slot_1 (w_worker w) then
    match cb_instance (w_worker w) with
    | Some h => Ok h
    | None => Fail (Undefined "lcb_t that is not initialised")
    end
  else Fail (Undefined "null pointer").

(** An argument that was not given is [undefined]. *)
Definition argument (args : list jsval) (i : nat) : jsval := default js_undefined (args !! i).

(** The host's byte order, its clock, and the allocator. *)
Context (little : bool) (now : Z) (alloc address : Z).

Definition call_function (f : host_function) (args : list jsval) : prog world unit :=
  match f with
  | Flog => Print args
  | FregisterCallback =>
      w ← get;
      zoom (RegisterCallback (timer_handle w) now (utf8 (argument args 0)) (utf8 (argument args 1))
              (utf8 (argument args 2)))
  | Fsendmail =>
      w ← get;
      SendMail (app_name_ (w_worker w)) args
  end.

(** ** Property callbacks *)

(** The callbacks of a template's [NamedPropertyHandlerConfiguration]; where there
    is none V8 goes on with the ordinary property. *)
Definition property_get (o : js_object) (name : js_name) : prog world reply :=
  match o_handlers o with
  | BucketHandlers => BucketGet o name
  | QueueHandlers => QueueGetCall alloc address o name
  | N1qlHandlers => N1QLEnumGetCall o name
  | ResponseHandlers => HTTPResponseGet o name
  | BodyHandlers => mret Pass
  end.

Definition property_set (o : js_object) (name : js_name) (v : jsval) : prog world reply :=
  match o_handlers o with
  | BucketHandlers => BucketSet little o name v
  | BodyHandlers => HTTPBodySet o name v
  | _ => mret Pass
  end.

Definition property_delete (o : js_object) (name : js_name) : prog world reply :=
  match o_handlers o with
  | BucketHandlers => BucketDelete o name
  | _ => mret Pass
  end.

Definition host (c : host_call) : prog world reply :=
  match c with
  | HGet o name => property_get o name
  | HSet o name v => property_set o name v
  | HDelete o name => property_delete o name
  | HCall f args => _ ← call_function f args; mret (Return js_undefined)
  end.

(** ** Running JavaScript *)

(** The result, or the exception that nothing caught. *)
Fixpoint run_js (p : js_prog js_state) : prog world (jsval + jsval) :=
  match p with
  | JDone s v => _ ← zoom (put s); mret (inl v)
  | JThrow s e => _ ← zoom (put s); mret (inr e)
  | JHost c k => r ← host c; run_js (k r)
  end.

(** [f->Call(context->Global(), n, args)]; an empty handle, as the function or an
    argument, is dereferenced. *)
Definition Call (f : option jsval) (args : list (option jsval)) : prog world (jsval + jsval) :=
  match f, mapM id args with
  | Some f, Some args => s ← zoom (get (S:=js_state)); run_js (call f args s)
  | _, _ => throw (Undefined "empty handle in a call")
  end.
End world.
