(* ===== verification/HostSafety.v ===== *)
(** * The objects handed to JavaScript are used as what they are

    An invariant of the worker's world ([wf]) under which no property access on
    an object that the binding made stops the process, whatever requests fail. *)

From S2P Require Import Prelude CStd StdMap Calendar Endian Kv Json V8 Engine Timers.
From S2P Require Import HttpResponse Heap Bucket N1ql Queue Deployment Mail Debug Host.

Section safety.
Context `{LcbLaws} `{!LcbN1ql} `{Redis} `{Curl} `{RapidJson} `{Engine} `{!V8Laws}.
Context (little : bool) (now : Z) (alloc address : Z).
Implicit Types w : world.

(** ** The invariant *)

(** The response object of a request. *)
Definition response_object : js_object := JsObject ResponseHandlers [Some (PMap ResponseMap); Some PHTTPBody].

(** Every bucket has the callbacks of bucket.cc, the worker those of worker.cc,
    and every template slot is empty or holds its own template. *)
Definition wf w : Prop :=
  Forall (λ b, (∃ conn, bucket_lcb_obj b = bucket_handle_of conn) ∧
               slot_ok (bucket_map_template_ b) MakeBucketMapTemplate) (w_buckets w) ∧
  Forall (λ n, slot_ok (n1ql_map_template_ n) MakeN1QLMapTemplate) (w_n1qls w) ∧
  Forall (λ q, slot_ok (queue_map_template_ q) MakeQueueMapTemplate) (w_queues w) ∧
  slot_ok (http_response_map_template_ (w_http w)) MakeHTTPResponseMapTemplate ∧
  (∃ conn, cb_instance (w_worker w) = Some (worker_handle conn)).

(** The objects the binding has made so far. *)
Definition made w (o : js_object) : Prop :=
  (∃ n, n < length (w_buckets w) ∧ o = bucket_object n) ∨
  (∃ n, n < length (w_n1qls w) ∧ o = n1ql_object n) ∨
  (∃ n, n < length (w_queues w) ∧ o = queue_object n) ∨
  o = response_object ∨ o = body_object.

(** The same C++ objects: only servers, maps and the engine may differ. *)
Definition same_objects w w' : Prop :=
  w_buckets w' = w_buckets w ∧ w_n1qls w' = w_n1qls w ∧ w_queues w' = w_queues w ∧
  w_http w' = w_http w ∧ w_worker w' = w_worker w.

Lemma same_objects_wf w w' : same_objects w w' → wf w → wf w'.
Proof. intros (E1 & E2 & E3 & E4 & E5). unfold wf. by rewrite E1, E2, E3, E4, E5. Qed.

Lemma same_objects_made w w' o : same_objects w w' → made w o ↔ made w' o.
Proof. intros (E1 & E2 & E3 & _). unfold made. by rewrite E1, E2, E3. Qed.

Lemma same_objects_refl w : same_objects w w.
Proof. done. Qed.

Lemma same_objects_cluster (c : cluster) w : same_objects w (update c w).
Proof. by destruct w. Qed.

Lemma same_objects_redis (c : redis) w : same_objects w (update c w).
Proof. by destruct w. Qed.

Lemma same_objects_maps (c : string_maps) w : same_objects w (update c w).
Proof. by destruct w. Qed.

Lemma wf_connected n w :
  wf w → n < length (w_buckets w) → ∃ b wb, connected n b wb w.
Proof.
  intros (Hb & _ & _ & _ & wb & Hw) [b Hn]%lookup_lt_is_Some.
  destruct (Forall_lookup_1 _ _ _ _ Hb Hn) as [[conn Hc] _]. exists conn, wb. split.
  - change (lcb_at (BucketLcb n) w) with (bucket_lcb_obj <$> w_buckets w !! n). rewrite Hn. cbn.
    by rewrite Hc.
  - exact Hw.
Qed.

(** ** Property accesses *)

(** The rows the query service sends are JSON. *)
Definition rows_are_json : Prop :=
  ∀ b q c, Forall (λ r, rflags_final r = false → is_Some (json_parse (c_str (n_row r))))
             (lcb_n1ql_query b q c).2.

Lemma set_rows_total rs :
  Forall (λ row, is_Some (json_parse (c_str row))) rs → ∃ l, set_rows rs = Ok l.
Proof.
  induction 1 as [|row rs [v Hv] Hrs IH]; [by eexists|]. destruct IH as [l Hl].
  cbn [set_rows]. rewrite Hv, Hl. by eexists.
Qed.

(** The rows that the callback collects are those that are not final. *)
Lemma query_callback_collects (P : string → Prop) rs rs0 :
  Forall P (rows rs0) → Forall (λ r, rflags_final r = false → P (n_row r)) rs →
  Forall P (rows (foldl query_callback rs0 rs)).
Proof.
  intros H0' Hrs. revert rs0 H0'. induction Hrs as [|r rs Hr Hrs IH]; intros rs0 H0'; [done|].
  cbn [foldl]. apply IH. unfold query_callback. destruct (rflags_final r); [done|].
  cbn [rows]. apply Forall_app. split; [done|]. constructor; [by apply Hr|constructor].
Qed.

(** A value as the C++ code can print it. *)
Definition printable (v : jsval) : Prop := ∃ t, ToString v = Ok t.

(** What is known of every property access. *)
Definition answers (m : prog world reply) w : Prop :=
  ∃ w' r, m w = (w', Ok r) ∧ same_objects w w'.

Lemma answers_ret r w : answers (mret r) w.
Proof. exists w, r. split; [done|apply same_objects_refl]. Qed.

Lemma bucket_answers n w name v :
  wf w → n < length (w_buckets w) → printable v →
  answers (BucketGet (bucket_object n) name) w ∧
  answers (BucketSet little (bucket_object n) name v) w ∧
  answers (BucketDelete (bucket_object n) name) w.
Proof.
  intros Hw Hn [t Ht]. destruct name as [|s]; [by split_and!; apply answers_ret|].
  destruct (wf_connected n w Hw Hn) as (b & wb & Hc).
  split_and!; eexists _, _; (split; [|apply same_objects_cluster]).
  - exact (BucketGet_eq n b wb s w Hc).
  - exact (BucketSet_eq little n b wb s v t w Hc Ht).
  - exact (BucketDelete_eq n b wb s w Hc).
Qed.

Lemma n1ql_answers n w name :
  n < length (w_n1qls w) → rows_are_json → answers (N1QLEnumGetCall (n1ql_object n) name) w.
Proof.
  intros [b Hn]%lookup_lt_is_Some Hj. destruct name as [|s]; [apply answers_ret|].
  assert (lcb_at (N1qlLcb n) w = Some (n1ql_lcb_obj b)) as Hh.
  { change (lcb_at (N1qlLcb n) w) with (n1ql_lcb_obj <$> w_n1qls w !! n). by rewrite Hn. }
  pose proof (N1QLEnumGetCall_eq n (n1ql_lcb_obj b) s w Hh) as E. cbv zeta in E.
  set (rs := foldl query_callback Rows_new _) in E.
  assert (∃ l, (if (rc rs =? LCB_SUCCESS)%Z then set_rows (rows rs)
                else Ok (replicate (length (rows rs)) None)) = Ok l) as [l Hl].
  { destruct (rc rs =? LCB_SUCCESS)%Z; [|by eexists]. apply set_rows_total.
    apply (query_callback_collects (λ row, is_Some (json_parse (c_str row)))); [constructor|].
    apply Hj. }
  rewrite Hl in E. eexists _, _. split; [exact E|apply same_objects_cluster].
Qed.

Lemma queue_answers n w name :
  n < length (w_queues w) → answers (QueueGetCall alloc address (queue_object n) name) w.
Proof.
  intros [q Hn]%lookup_lt_is_Some. destruct name as [|s]; [apply answers_ret|].
  eexists _, _. split; [exact (QueueGetCall_eq alloc address n q s w Hn)|apply same_objects_redis].
Qed.

Lemma body_answers w name v : printable v → answers (HTTPBodySet body_object name v) w.
Proof.
  intros [t Ht]. destruct name as [|s]; [apply answers_ret|]. unfold HTTPBodySet.
  eexists _, _. split.
  - erewrite bind_Ok by apply lift_Ok_eq, name_string_ok. cbv beta.
    erewrite bind_Ok by (apply lift_Ok_eq, Ht). cbv beta. step. step. reflexivity.
  - apply same_objects_maps.
Qed.

Lemma response_answers w name : answers (HTTPResponseGet response_object name) w.
Proof.
  destruct name as [|s]; [apply answers_ret|]. unfold HTTPResponseGet. eexists _, _. split.
  - erewrite bind_Ok by apply lift_Ok_eq, name_string_ok. cbv beta. step. cbv iota. step. reflexivity.
  - apply same_objects_refl.
Qed.

(** ** Property *)

(** C9: in a well-formed world, reading, assigning or deleting any property,
    symbols included, of any object that the binding made returns to JavaScript:
    no pointer of an internal field is taken for what it is not, none is
    uninitialised and no callback meets a null cookie, whatever requests fail.
    The world stays well-formed and keeps its objects, so this holds of every
    further access.  (Assigned values must print, and the rows of the query
    service be JSON.) *)
Theorem property_access_is_safe w o name v :
  wf w → made w o → printable v → rows_are_json →
  ∀ c, c ∈ [HGet o name; HSet o name v; HDelete o name] →
  ∃ w' r, host little now alloc address c w = (w', Ok r) ∧ wf w' ∧ ∀ o', made w o' ↔ made w' o'.
Proof.
  intros Hw Ho Hv Hj c Hc.
  assert (answers (host little now alloc address c) w) as (w' & r & E & Hs).
  { rewrite !elem_of_cons, elem_of_nil in Hc.
    destruct Ho as [(n & Hn & ->)|[(n & Hn & ->)|[(n & Hn & ->)|[-> | ->]]]];
      destruct Hc as [-> |[-> |[-> |[]]]]; try apply answers_ret.
    all: try by apply (bucket_answers n w name v).
    - by apply n1ql_answers.
    - by apply queue_answers.
    - apply response_answers.
    - by apply body_answers. }
  exists w', r. split_and!; [done|by apply (same_objects_wf w w')|].
  intros o'. by apply same_objects_made.
Qed.
End safety.
