(* ===== verification/Worker.v ===== *)
(** * The worker (class [Worker] and the C functions of binding.h, worker.cc)

    Its construction from the deployment, the loading of handler code and the
    entry points through which the Go program hands it events, requests and
    timers. *)

From S2P Require Import Prelude CStd StdMap Calendar Endian Kv Json V8 Engine Timers.
From S2P Require Import HttpResponse Heap Bucket N1ql Queue Deployment Preprocess Mail Debug.
From S2P Require Import ExceptionFmt Host.
#[local] Open Scope Z_scope.

(** ** Return codes *)

Inductive RETURN_CODE : Type :=
  | SUCCESS | FAILED_TO_COMPILE_JS | NO_HANDLERS_DEFINED | FAILED_INIT_BUCKET_HANDLE
  | FAILED_INIT_N1QL_HANDLE | FAILED_INIT_QUEUE_HANDLE | RAPIDJSON_FAILED_PARSE
  | ON_UPDATE_CALL_FAIL | ON_DELETE_CALL_FAIL.

#[export] Instance return_code_eq_dec : EqDecision RETURN_CODE.
Proof. solve_decision. Defined.

(** The enumerators count from 0. *)
Definition return_code (r : RETURN_CODE) : Z :=
  match r with
  | SUCCESS => 0 | FAILED_TO_COMPILE_JS => 1 | NO_HANDLERS_DEFINED => 2
  | FAILED_INIT_BUCKET_HANDLE => 3 | FAILED_INIT_N1QL_HANDLE => 4 | FAILED_INIT_QUEUE_HANDLE => 5
  | RAPIDJSON_FAILED_PARSE => 6 | ON_UPDATE_CALL_FAIL => 7 | ON_DELETE_CALL_FAIL => 8
  end.

(** ** Updates of the worker's fields *)

Section fields.
Context `{V8}.

Definition Worker_new_object (tindex : Z) (app_name : string) : Worker :=
  WorkerObject _ None EmptyString tindex (c_str app_name) false EmptyString
    Indeterminate Indeterminate Indeterminate None None None None false.

Definition set_cb_instance (h : lcb_t) (w : Worker) : Worker :=
  WorkerObject _ (Some h) (script_to_execute_ w) (table_index w) (app_name_ w) (start_debug_flag w)
    (last_exception w) (bucket_handle w) (n1ql_handle w) (queue_handle w)
    (on_update_ w) (on_delete_ w) (on_http_get_ w) (on_http_post_ w) (data_slot_1 w).
Definition set_script (s : string) (w : Worker) : Worker :=
  WorkerObject _ (cb_instance w) s (table_index w) (app_name_ w) (start_debug_flag w)
    (last_exception w) (bucket_handle w) (n1ql_handle w) (queue_handle w)
    (on_update_ w) (on_delete_ w) (on_http_get_ w) (on_http_post_ w) (data_slot_1 w).
Definition set_debug_flag (b : bool) (w : Worker) : Worker :=
  WorkerObject _ (cb_instance w) (script_to_execute_ w) (table_index w) (app_name_ w) b
    (last_exception w) (bucket_handle w) (n1ql_handle w) (queue_handle w)
    (on_update_ w) (on_delete_ w) (on_http_get_ w) (on_http_post_ w) (data_slot_1 w).
Definition set_last_exception (s : string) (w : Worker) : Worker :=
  WorkerObject _ (cb_instance w) (script_to_execute_ w) (table_index w) (app_name_ w) (start_debug_flag w)
    s (bucket_handle w) (n1ql_handle w) (queue_handle w)
    (on_update_ w) (on_delete_ w) (on_http_get_ w) (on_http_post_ w) (data_slot_1 w).
Definition set_handles (b n q : object_ptr) (w : Worker) : Worker :=
  WorkerObject _ (cb_instance w) (script_to_execute_ w) (table_index w) (app_name_ w) (start_debug_flag w)
    (last_exception w) b n q
    (on_update_ w) (on_delete_ w) (on_http_get_ w) (on_http_post_ w) (data_slot_1 w).
Definition set_handlers (u d g p : jsval) (w : Worker) : Worker :=
  WorkerObject _ (cb_instance w) (script_to_execute_ w) (table_index w) (app_name_ w) (start_debug_flag w)
    (last_exception w) (bucket_handle w) (n1ql_handle w) (queue_handle w)
    (Some u) (Some d) (Some g) (Some p) (data_slot_1 w).
Definition set_data_slot_1 (w : Worker) : Worker :=
  WorkerObject _ (cb_instance w) (script_to_execute_ w) (table_index w) (app_name_ w) (start_debug_flag w)
    (last_exception w) (bucket_handle w) (n1ql_handle w) (queue_handle w)
    (on_update_ w) (on_delete_ w) (on_http_get_ w) (on_http_post_ w) true.
End fields.

Section worker.
Context `{Lcb} `{!LcbN1ql} `{Redis} `{Curl} `{RapidJson} `{Engine}.
Context (little : bool) (now : Z) (alloc address : Z).

(** The files of the working directory. *)
Context (read_file : string → option string).

(** [Debug::ProcessDebugMessages]: V8 runs the message handler on the pending
    commands (see [DebugSync.v]). *)
Context (ProcessDebugMessages : prog debug_globals unit).

Local Abbreviation run_host := (Call little now alloc address).

Definition modify_worker (f : Worker → Worker) : prog world unit := zoom (modify f).
Definition the_worker : prog world Worker := zoom (get (S:=Worker)).

(** ** Construction *)

(** [v[i]] of a [vector<string>]: no check. *)
Definition vector_at (v : list string) (i : nat) : outcome string :=
  match v !! i with Some s => Ok s | None => Fail (Undefined "vector index out of range") end.

(** [new Bucket(...)], appended to the objects; the handle points to it. *)
Definition new_bucket (info : list string) (bucket_alias : string) : prog world unit :=
  bucket_name ← lift (vector_at info 0);
  names ← zoom (get (S:=cluster_names));
  bs ← zoom (get (S:=list Bucket));
  _ ← zoom (put (bs ++ [Bucket_new bucket_name (cb_cluster_endpoint names) bucket_alias]));
  modify_worker (λ w, set_handles (Points (length bs)) (n1ql_handle w) (queue_handle w) w).

Definition new_n1ql : prog world unit :=
  names ← zoom (get (S:=cluster_names));
  ns ← zoom (get (S:=list N1QL));
  _ ← zoom (put (ns ++ [N1QL_new (cb_cluster_bucket names) (cb_cluster_endpoint names) "_n1ql"]));
  modify_worker (λ w, set_handles (bucket_handle w) (Points (length ns)) (queue_handle w) w).

Definition new_queue (info : list string) (provider : string) : prog world unit :=
  endpoint ← lift (vector_at info 1);
  queue_alias ← lift (vector_at info 2);
  queue_name ← lift (vector_at info 3);
  q ← Queue_new provider endpoint queue_alias queue_name;
  qs ← zoom (get (S:=list Queue));
  _ ← zoom (put (qs ++ [q]));
  modify_worker (λ w, set_handles (bucket_handle w) (n1ql_handle w) (Points (length qs)) w).

(** One iteration over [component_configs]. *)
Definition component (it : string * gmap string (list string)) : prog world unit :=
  let '(name, infos) := it in
  _ ← (if decide (name = "buckets"%string)
       then for_each (λ '(alias, info), new_bucket info alias) (in_order infos) else mret tt);
  _ ← new_n1ql;
  (if decide (name = "queue"%string)
   then for_each (λ '(provider, info), new_queue info provider) (in_order infos) else mret tt).

Definition global_functions : list (string * host_function) :=
  [("log", Flog); ("registerCallback", FregisterCallback); ("sendmail", Fsendmail)]%string.

(** [Worker::Worker]; its maps and those of its [HTTPResponse] are new.  Exceptions
    while the templates are made are left out. *)
Definition Worker_new (tindex : Z) (app_name : string) : prog world unit :=
  _ ← zoom (put (Worker_new_object tindex app_name));
  _ ← zoom (put ((λ _, ∅) : string_maps));
  _ ← zoom (put (new_context global_functions));
  result ← lift (ParseDeployment read_file app_name);
  _ ← zoom (put (ClusterNames (source_endpoint result) (source_bucket result)));
  _ ← for_each component (in_order (component_configs result));
  _ ← zoom (put HTTPResponse_new);
  let connstr := "couchbase://" +:+ source_endpoint result +:+ "/" +:+ c_str (metadata_bucket result) in
  modify_worker (set_cb_instance (worker_handle (c_str connstr))).

(** ** Loading *)

Definition LoadBuiltins : string := default EmptyString (read_file "builtin.js").

Definition ExecuteScript (script : string) : prog world bool :=
  s ← zoom (get (S:=js_state));
  match compile script s with
  | inl try_catch =>
      _ ← modify_worker (set_last_exception (ExceptionString try_catch));
      mret false
  | inr compiled_script =>
      r ← run_js little now alloc address compiled_script;
      match r with
      | inl _ => mret true
      | inr e =>
          s ← zoom (get (S:=js_state));
          _ ← modify_worker (set_last_exception (ExceptionString (describe e s)));
          mret false
      end
  end.

(** A global that is a function. *)
Definition global_handler (name : string) (s : js_state) : option jsval :=
  v ← global_get name s; if is_function v then Some v else None.

(** [if (handle)]: reading an indeterminate pointer is undefined. *)
Definition pointed (p : object_ptr) : outcome nat :=
  match p with
  | Points n => Ok n
  | Indeterminate => Fail (Undefined "indeterminate pointer")
  end.

(** The initialisation of the handles at the end of [WorkerLoad]. *)
Definition initialize_handles : prog world RETURN_CODE :=
  w ← the_worker;
  b ← lift (pointed (bucket_handle w));
  ok ← Bucket_Initialize b;
  if negb ok then mret FAILED_INIT_BUCKET_HANDLE else
  n ← lift (pointed (n1ql_handle w));
  ok ← N1QL_Initialize n;
  if negb ok then mret FAILED_INIT_N1QL_HANDLE else
  q ← lift (pointed (queue_handle w));
  ok ← Queue_Initialize q;
  if negb ok then mret FAILED_INIT_QUEUE_HANDLE else
  _ ← modify_worker set_data_slot_1;
  mret SUCCESS.

Definition WorkerLoad (name_s source_s : string) : prog world RETURN_CODE :=
  script ← lift (match script_to_execute LoadBuiltins source_s with
                 | Some script => Ok script
                 | None => Fail (Uncaught "no end")
                 end);
  _ ← modify_worker (set_script script);
  ok ← ExecuteScript (c_str script);
  if negb ok : bool then mret FAILED_TO_COMPILE_JS else
  s ← zoom (get (S:=js_state));
  match global_handler "OnUpdate" s, global_handler "OnDelete" s,
        global_handler "OnHTTPGet" s, global_handler "OnHTTPPost" s with
  | Some on_update, Some on_delete, Some on_http_get, Some on_http_post =>
      _ ← modify_worker (set_handlers on_update on_delete on_http_get on_http_post);
      initialize_handles
  | _, _, _, _ => mret NO_HANDLERS_DEFINED
  end.

(** ** Events *)

(** What the [TryCatch] holds after the arguments are parsed. *)
Definition parse_failure (arg : option jsval) (text : string) : option caught :=
  match arg with Some _ => None | None => Some (syntax_error text) end.

Definition log_parse_failure (try_catch : option caught) : prog world unit :=
  match try_catch with
  | Some c => modify_worker (set_last_exception (ExceptionString c))
  | None => mret tt
  end.

(** [if (start_debug_flag) ProcessDebugMessages; data_ready = true; cv.notify_all()]. *)
Definition after_handler : prog world unit :=
  w ← the_worker;
  _ ← (if start_debug_flag w then zoom ProcessDebugMessages else mret tt);
  zoom (modify (run_op SetReady)).

Definition SendUpdate (value meta type : string) : prog world RETURN_CODE :=
  let value := c_str value in
  let meta := c_str meta in
  let arg0 := if decide (c_str type = "json"%string) then json_parse value else Some (js_string value) in
  let arg1 := json_parse meta in
  let try_catch := match parse_failure arg1 meta with Some c => Some c | None => parse_failure arg0 value end in
  _ ← log_parse_failure try_catch;
  w ← the_worker;
  r ← run_host (on_update_ w) [arg0; arg1];
  _ ← after_handler;
  match r, try_catch with
  | inl _, None => mret SUCCESS
  | _, _ => mret ON_UPDATE_CALL_FAIL
  end.

Definition SendDelete (msg : string) : prog world RETURN_CODE :=
  w ← the_worker;
  r ← run_host (on_delete_ w) [Some (js_string (c_str msg))];
  _ ← after_handler;
  match r with
  | inl _ => mret SUCCESS
  | inr _ => mret ON_DELETE_CALL_FAIL
  end.

(** [SendHTTPGet] and [SendHTTPPost] differ in the handler only. *)
Definition SendHTTP (handler : Worker → option jsval) (http_req : string) : prog world char_ptr :=
  _ ← clear_body;
  let http_req := c_str http_req in
  let arg0 := json_parse http_req in
  arg1 ← WrapHTTPResponseMap;
  _ ← log_parse_failure (parse_failure arg0 http_req);
  w ← the_worker;
  _ ← run_host (handler w) [arg0; Some (js_host arg1)];
  ConvertMapToJson.

Definition SendHTTPGet : string → prog world char_ptr := SendHTTP on_http_get_.
Definition SendHTTPPost : string → prog world char_ptr := SendHTTP on_http_post_.

(** The call of a timer's callback: the global of that name, cast to a function
    unchecked; what it throws goes nowhere. *)
Definition call_global (callback_func doc_id : string) : prog world unit :=
  s ← zoom (get (S:=js_state));
  match global_get (c_str callback_func) s with
  | Some val =>
      if is_function val
      then _ ← run_host (Some val) [Some (js_string (c_str doc_id))]; mret tt
      else throw (Undefined "cast to a function")
  | None => throw (Undefined "empty handle in a call")
  end.

Definition Worker_SendTimerCallback (k : string) : prog world unit :=
  w ← the_worker;
  match cb_instance w, split (c_str k) ";" with
  | Some h, _ => SendTimerCallback call_global h k
  | None, [] => mret tt
  | None, _ => throw (Undefined "lcb_t that is not initialised")
  end.

Definition StartV8Debugger : prog world unit := modify_worker (set_debug_flag true).
Definition StopV8Debugger : prog world unit := modify_worker (set_debug_flag false).

Definition WorkerLastException : prog world char_ptr :=
  w ← the_worker; mret (Valid (c_str (last_exception w))).

(** ** The C functions *)

Definition worker_new (table_index : Z) (app_name : string) : prog world unit := Worker_new table_index app_name.
Definition worker_load (name_s source_s : string) : prog world Z :=
  r ← WorkerLoad name_s source_s; mret (return_code r).
Definition worker_send_update (value meta type : string) : prog world Z :=
  r ← SendUpdate value meta type; mret (return_code r).
Definition worker_send_delete (msg : string) : prog world Z :=
  r ← SendDelete msg; mret (return_code r).
Definition worker_send_http_get (uri_path : string) : prog world char_ptr := SendHTTPGet uri_path.
Definition worker_send_http_post (uri_path : string) : prog world char_ptr := SendHTTPPost uri_path.
Definition worker_send_timer_callback (keys : string) : prog world unit := Worker_SendTimerCallback keys.
Definition worker_last_exception : prog world char_ptr := WorkerLastException.
Definition start_v8_debugger : prog world unit := StartV8Debugger.
Definition stop_v8_debugger : prog world unit := StopV8Debugger.
End worker.
