(* ===== verification/WorkerFacts.v ===== *)
(** * What the worker's entry points do

    JavaScript leaves the worker's own fields alone; the codes that loading and
    events return, and what they record. *)

From S2P Require Import Prelude CStd StdMap Calendar Endian Kv Json V8 Engine Timers.
From S2P Require Import HttpResponse Heap Bucket N1ql Queue Deployment Preprocess Mail Debug.
From S2P Require Import ExceptionFmt Host HostSafety Worker.
#[local] Open Scope Z_scope.

(** ** JavaScript never changes the worker's own fields *)

Section keeps_worker.
Context `{Lcb} `{!LcbN1ql} `{Redis} `{Curl} `{RapidJson} `{Engine}.
Context (little : bool) (now : Z) (alloc address : Z).

Definition has_worker (x : Worker) (w : world) : Prop := w_worker w = x.

Lemma keeps_zoom_other {T A} `{!Lens world T} x (m : prog T A) :
  (∀ t w, w_worker (update t w) = w_worker w) → keeps (has_worker x) (zoom m).
Proof. intros Hl w Hw. unfold zoom. destruct (m (view w)). unfold has_worker. cbn. by rewrite Hl. Qed.

(** The parts that are not the worker's fields. *)
Lemma other_cluster (t : cluster) w : w_worker (update t w) = w_worker w. Proof. by destruct w. Qed.
Lemma other_redis (t : redis) w : w_worker (update t w) = w_worker w. Proof. by destruct w. Qed.
Lemma other_curl (t : curl) w : w_worker (update t w) = w_worker w. Proof. by destruct w. Qed.
Lemma other_js (t : js_state) w : w_worker (update t w) = w_worker w. Proof. by destruct w. Qed.
Lemma other_maps (t : string_maps) w : w_worker (update t w) = w_worker w. Proof. by destruct w. Qed.
Lemma other_queues (t : list Queue) w : w_worker (update t w) = w_worker w. Proof. by destruct w. Qed.

Lemma keeps_deref x id : keeps (has_worker x) (deref_lcb (W:=world) id).
Proof. intros w Hw. unfold deref_lcb. by destruct (lcb_at id w). Qed.

Lemma keeps_get x : keeps (has_worker x) (get (S:=world)).
Proof. by intros w. Qed.

Lemma keeps_object_at x q : keeps (has_worker x) (object_at (W:=world) (T:=Queue) q).
Proof.
  apply keeps_bind; [apply keeps_zoom_other, other_queues|].
  intros l. destruct (l !! q); [apply keeps_ret|apply keeps_throw].
Qed.

(** Takes a program apart at its binds. *)
Ltac keeps_tac :=
  repeat first
    [ apply keeps_ret | apply keeps_lift | apply keeps_throw | apply keeps_get | apply keeps_deref
    | apply keeps_object_at
    | apply keeps_zoom_other, other_cluster | apply keeps_zoom_other, other_redis
    | apply keeps_zoom_other, other_curl | apply keeps_zoom_other, other_js
    | apply keeps_zoom_other, other_maps | apply keeps_zoom_other, other_queues
    | apply keeps_for_each; intros ?
    | apply keeps_bind; [|intros ?]
    | progress cbv zeta
    | match goal with |- keeps _ (match ?x with _ => _ end) => destruct x end ].

Lemma host_keeps_worker x c : keeps (has_worker x) (host little now alloc address c).
Proof.
  destruct c as [o name|o name v|o name|f args]; cbn [host].
  - unfold property_get, BucketGet, QueueGetCall, UnwrapQueueName, N1QLEnumGetCall, HTTPResponseGet.
    keeps_tac.
  - unfold property_set, BucketSet, HTTPBodySet. keeps_tac.
  - unfold property_delete, BucketDelete. keeps_tac.
  - unfold call_function, Print, SendMail, PostMail. keeps_tac.
Qed.

(** Whatever a handler does, the worker's fields are as before. *)
Lemma run_js_keeps_worker x p : keeps (has_worker x) (run_js little now alloc address p).
Proof.
  induction p as [s v|s e|c k IH]; cbn [run_js].
  - keeps_tac.
  - keeps_tac.
  - apply keeps_bind; [apply host_keeps_worker|exact IH].
Qed.

Lemma Call_keeps_worker x f args : keeps (has_worker x) (Call little now alloc address f args).
Proof.
  unfold Call. destruct f as [f|]; [|apply keeps_throw].
  destruct (mapM id args) as [l|]; [|apply keeps_throw].
  apply keeps_bind; [apply keeps_zoom_other, other_js|]. intros s. apply run_js_keeps_worker.
Qed.
End keeps_worker.

(** ** Lens facts *)

Section views.
Context `{Lcb} `{!LcbN1ql} `{Redis} `{Curl} `{RapidJson} `{Engine}.

Lemma modify_worker_eq f w : modify_worker f w = (update (f (w_worker w)) w, Ok tt).
Proof. done. Qed.

Lemma the_worker_eq w : the_worker w = (w, Ok (w_worker w)).
Proof. unfold the_worker. by rewrite zoom_get. Qed.

Lemma worker_of_update (x : Worker) w : w_worker (update x w) = x.
Proof. by destruct w. Qed.
End views.

(** ** Events *)

Section events.
Context `{Lcb} `{!LcbN1ql} `{Redis} `{Curl} `{RapidJson} `{Engine}.
Context (little : bool) (now : Z) (alloc address : Z) (process : prog debug_globals unit).

Lemma Call_eq f args w :
  Call little now alloc address (Some f) (Some <$> args) w
  = run_js little now alloc address (call f args (w_js w)) w.
Proof.
  unfold Call. assert (mapM id (Some <$> args) = Some args) as ->.
  { apply mapM_Some. induction args; constructor; done. }
  cbv beta iota. by erewrite bind_Ok by apply (zoom_get (T:=js_state)).
Qed.

Lemma after_handler_off w :
  start_debug_flag (w_worker w) = false →
  after_handler process w = (update (run_op SetReady (w_debug w)) w, Ok tt).
Proof.
  intros Hf. unfold after_handler. erewrite bind_Ok by apply the_worker_eq. cbv beta. by rewrite Hf.
Qed.

(** The end of an update or a deletion. *)
Definition marked (w : world) : world := update (run_op SetReady (w_debug w)) w.

Lemma run_keeps_worker p w w1 r :
  run_js little now alloc address p w = (w1, r) → w_worker w1 = w_worker w.
Proof.
  intros E. pose proof (run_js_keeps_worker little now alloc address (w_worker w) p w eq_refl) as Hk.
  by rewrite E in Hk.
Qed.

(** A handler that is called and ends, with the debugger off. *)
Lemma call_and_mark f args w w1 r :
  start_debug_flag (w_worker w) = false →
  run_js little now alloc address (call f args (w_js w)) w = (w1, Ok r) →
  ∀ (k : jsval + jsval → prog world RETURN_CODE),
  (r ← Call little now alloc address (Some f) (Some <$> args); _ ← after_handler process; k r) w
  = k r (marked w1).
Proof.
  intros Hf Hrun k. erewrite bind_Ok by (rewrite Call_eq; exact Hrun). cbv beta.
  erewrite bind_Ok by (apply after_handler_off; by rewrite (run_keeps_worker _ _ _ _ Hrun)). done.
Qed.

Lemma SendUpdate_eq value meta type w f a0 a1 w1 r :
  on_update_ (w_worker w) = Some f → start_debug_flag (w_worker w) = false →
  (if decide (c_str type = "json"%string) then json_parse (c_str value) else Some (js_string (c_str value)))
    = Some a0 →
  json_parse (c_str meta) = Some a1 →
  run_js little now alloc address (call f [a0; a1] (w_js w)) w = (w1, Ok r) →
  SendUpdate little now alloc address process value meta type w
  = (marked w1, Ok (match r with inl _ => SUCCESS | inr _ => ON_UPDATE_CALL_FAIL end)).
Proof.
  intros Hu Hf Ha0 Ha1 Hrun. unfold SendUpdate. rewrite Ha0, Ha1. cbn [parse_failure].
  erewrite bind_Ok by reflexivity. erewrite bind_Ok by apply the_worker_eq. cbv beta. rewrite Hu.
  etransitivity; [exact (call_and_mark f [a0; a1] w w1 r Hf Hrun _)|]. by destruct r.
Qed.

Lemma SendDelete_eq msg w f w1 r :
  on_delete_ (w_worker w) = Some f → start_debug_flag (w_worker w) = false →
  run_js little now alloc address (call f [js_string (c_str msg)] (w_js w)) w = (w1, Ok r) →
  SendDelete little now alloc address process msg w
  = (marked w1, Ok (match r with inl _ => SUCCESS | inr _ => ON_DELETE_CALL_FAIL end)).
Proof.
  intros Hu Hf Hrun. unfold SendDelete. erewrite bind_Ok by apply the_worker_eq. cbv beta. rewrite Hu.
  etransitivity; [exact (call_and_mark f [_] w w1 r Hf Hrun _)|]. by destruct r.
Qed.

(** C13: with the debugger off, [SendUpdate] on a document and metadata that
    parse runs the handler [OnUpdate] once, on the parsed document (or the text,
    when the type is not json) and the parsed metadata.  It returns 0 when the
    handler returns and 7 when it throws; either way the document is marked
    done for the debugger, and the last exception is the one of before: an
    exception of the handler is never recorded. *)
Theorem SendUpdate_runs_handler value meta type w f a0 a1 w1 r :
  on_update_ (w_worker w) = Some f → start_debug_flag (w_worker w) = false →
  (if decide (c_str type = "json"%string) then json_parse (c_str value) else Some (js_string (c_str value)))
    = Some a0 →
  json_parse (c_str meta) = Some a1 →
  run_js little now alloc address (call f [a0; a1] (w_js w)) w = (w1, Ok r) →
  ∃ w2, worker_send_update little now alloc address process value meta type w
        = (w2, Ok (match r with inl _ => 0 | inr _ => 7 end)) ∧
    data_ready (w_debug w2) = true ∧
    last_exception (w_worker w2) = last_exception (w_worker w) ∧
    w_cluster w2 = w_cluster w1 ∧ w_js w2 = w_js w1 ∧ w_maps w2 = w_maps w1.
Proof.
  intros Hu Hf Ha0 Ha1 Hrun. pose proof (run_keeps_worker _ _ _ _ Hrun) as Hk. exists (marked w1).
  split; [|rewrite <-Hk; by destruct w1]. unfold worker_send_update.
  erewrite bind_Ok by exact (SendUpdate_eq value meta type w f a0 a1 w1 r Hu Hf Ha0 Ha1 Hrun). by destruct r.
Qed.

(** [SendDelete] runs [OnDelete] once on the message and returns 0 or 8. *)
Theorem SendDelete_runs_handler msg w f w1 r :
  on_delete_ (w_worker w) = Some f → start_debug_flag (w_worker w) = false →
  run_js little now alloc address (call f [js_string (c_str msg)] (w_js w)) w = (w1, Ok r) →
  ∃ w2, worker_send_delete little now alloc address process msg w
        = (w2, Ok (match r with inl _ => 0 | inr _ => 8 end)) ∧
    data_ready (w_debug w2) = true ∧
    last_exception (w_worker w2) = last_exception (w_worker w) ∧
    w_cluster w2 = w_cluster w1 ∧ w_js w2 = w_js w1 ∧ w_maps w2 = w_maps w1.
Proof.
  intros Hu Hf Hrun. pose proof (run_keeps_worker _ _ _ _ Hrun) as Hk. exists (marked w1).
  split; [|rewrite <-Hk; by destruct w1]. unfold worker_send_delete.
  erewrite bind_Ok by exact (SendDelete_eq msg w f w1 r Hu Hf Hrun). by destruct r.
Qed.

(** A document that is not JSON is recorded as the last exception, and then
    passed on as an empty handle. *)
Theorem SendUpdate_malformed value meta w f a1 :
  on_update_ (w_worker w) = Some f →
  json_parse (c_str value) = None → json_parse (c_str meta) = Some a1 →
  ∃ w1, worker_send_update little now alloc address process value meta "json" w
        = (w1, Fail (Undefined "empty handle in a call")) ∧
    last_exception (w_worker w1) = ExceptionString (syntax_error (c_str value)).
Proof.
  intros Hu Ha0 Ha1. unfold worker_send_update, SendUpdate. rewrite decide_True, Ha0, Ha1 by done.
  cbn [parse_failure]. set (e := ExceptionString _).
  exists (update (set_last_exception e (w_worker w)) w). split; [|by rewrite worker_of_update].
  apply bind_Fail. erewrite bind_Ok by apply modify_worker_eq. cbv beta.
  erewrite bind_Ok by apply the_worker_eq. cbv beta. apply bind_Fail.
  rewrite worker_of_update. cbn [set_last_exception on_update_]. by rewrite Hu.
Qed.

(** [log] prints through a pointer into a string that is already
    destroyed, for every first argument that converts. *)
Theorem log_reads_freed_text arg args text s w :
  json_stringify arg = Some text → utf8 text = Some s →
  call_function now Flog (arg :: args) w = (w, Fail (Undefined "read of a freed buffer")).
Proof.
  intros Ht Hs. cbn [call_function]. unfold Print. cbn [for_each].
  apply bind_Fail. unfold ToJson. by rewrite Ht, Hs.
Qed.

(** Handler code that sets a timer while it is being loaded meets the
    isolate's data slot before [WorkerLoad] has filled it. *)
Theorem timer_while_loading cf doc_id startTs timestamp w :
  data_slot_1 (w_worker w) = false → sets_timer now startTs timestamp →
  nul_free cf = true → nul_free doc_id = true →
  utf8 (js_string cf) = Some cf → utf8 (js_string doc_id) = Some doc_id → utf8 (js_string startTs) = Some startTs →
  call_function now FregisterCallback [js_string cf; js_string doc_id; js_string startTs] w
  = (w, Fail (Undefined "null pointer")).
Proof.
  intros Hslot (v & Hv & Hnz & Hts & Hn) Hcf Hid U1 U2 U3. cbn [call_function].
  erewrite bind_Ok by reflexivity. unfold argument. cbn [lookup list_lookup from_option id].
  rewrite U1, U2, U3. unfold zoom, RegisterCallback, timer_handle. rewrite Hslot. cbn [utf8_string].
  rewrite !c_str_id by done. unfold mbind, prog_bind. cbn [lift]. rewrite Hv.
  destruct (Z.eqb_spec v 0); [done|]. rewrite Hts. cbn. by destruct w.
Qed.
End events.

(** ** Loading *)

Section loading.
Context `{LcbLaws} `{!LcbN1ql} `{Redis} `{Curl} `{RapidJson} `{EngineLaws} `{!V8Laws}.
Implicit Types w : world.

(** What the initialisation of each handle does. *)
Lemma Bucket_Initialize_eq n b w :
  w_buckets w !! n = Some b → slot_ok (bucket_map_template_ b) MakeBucketMapTemplate →
  ∃ bs, Bucket_Initialize n w
        = (update (global_set (c_str (bucket_alias b)) (js_host (bucket_object n)) (w_js w))
             (update (bs : list Bucket) w), Ok true).
Proof.
  intros Hb Hs. unfold Bucket_Initialize, Bucket_InstallMaps.
  erewrite bind_Ok by (by apply object_at_Ok). cbv beta zeta.
  erewrite bind_Ok by apply zoom_modify. cbv beta. rewrite (cached_ok _ _ Hs).
  erewrite bind_Ok by (apply lift_Ok_eq, WrapBucketMap_eq). cbv beta.
  erewrite bind_Ok by apply zoom_modify. eexists. destruct w. reflexivity.
Qed.

Lemma N1QL_Initialize_eq n b w :
  w_n1qls w !! n = Some b → slot_ok (n1ql_map_template_ b) MakeN1QLMapTemplate →
  ∃ bs, N1QL_Initialize n w
        = (update (global_set (c_str (n1ql_alias b)) (js_host (n1ql_object n)) (w_js w))
             (update (bs : list N1QL) w), Ok true).
Proof.
  intros Hb Hs. unfold N1QL_Initialize, N1QL_InstallMaps.
  erewrite bind_Ok by (by apply object_at_Ok). cbv beta zeta.
  erewrite bind_Ok by apply zoom_modify. cbv beta. rewrite (cached_ok _ _ Hs).
  erewrite bind_Ok by (apply lift_Ok_eq, WrapN1QLMap_eq). cbv beta.
  erewrite bind_Ok by apply zoom_modify. eexists. destruct w. reflexivity.
Qed.

Lemma Queue_Initialize_eq n b w :
  w_queues w !! n = Some b → slot_ok (queue_map_template_ b) MakeQueueMapTemplate →
  ∃ bs, Queue_Initialize n w
        = (update (global_set (c_str (queue_alias b)) (js_host (queue_object n)) (w_js w))
             (update (bs : list Queue) w), Ok true).
Proof.
  intros Hb Hs. unfold Queue_Initialize, InstallQueueMaps.
  erewrite bind_Ok by (by apply object_at_Ok). cbv beta zeta.
  erewrite bind_Ok by apply zoom_modify. cbv beta. rewrite (cached_ok _ _ Hs).
  erewrite bind_Ok by (apply lift_Ok_eq, WrapQueueMap_eq). cbv beta.
  erewrite bind_Ok by apply zoom_modify. eexists. destruct w. reflexivity.
Qed.

(** C16: once the handler code defines its functions, loading a worker
    whose three handles point to objects installs exactly three globals, under
    the aliases of these objects, and no other: of several buckets of a
    deployment only the one the handle points to can be used.  The timer
    functions work from then on. *)
Theorem initialize_installs_three w b n q bo no qo :
  wf w → bucket_handle (w_worker w) = Points b → n1ql_handle (w_worker w) = Points n →
  queue_handle (w_worker w) = Points q →
  w_buckets w !! b = Some bo → w_n1qls w !! n = Some no → w_queues w !! q = Some qo →
  let ba := c_str (bucket_alias bo) in
  let na := c_str (n1ql_alias no) in
  let qa := c_str (queue_alias qo) in
  NoDup [ba; na; qa] →
  ∃ w', initialize_handles w = (w', Ok SUCCESS) ∧
    global_get ba (w_js w') = Some (js_host (bucket_object b)) ∧
    global_get na (w_js w') = Some (js_host (n1ql_object n)) ∧
    global_get qa (w_js w') = Some (js_host (queue_object q)) ∧
    (∀ name, name ∉ [ba; na; qa] → global_get name (w_js w') = global_get name (w_js w)) ∧
    timer_handle w' = (match cb_instance (w_worker w) with
                       | Some h => Ok h
                       | None => Fail (Undefined "lcb_t that is not initialised")
                       end).
Proof.
  intros (Wb & Wn & Wq & _) Hb Hn Hq Eb En Eq ba na qa Hnd.
  destruct (Forall_lookup_1 _ _ _ _ Wb Eb) as [_ Sb].
  pose proof (Forall_lookup_1 _ _ _ _ Wn En) as Sn. pose proof (Forall_lookup_1 _ _ _ _ Wq Eq) as Sq.
  cbn in Sn, Sq.
  assert (ba ≠ na ∧ ba ≠ qa ∧ na ≠ qa) as (D1 & D2 & D3).
  { rewrite !NoDup_cons, !not_elem_of_cons in Hnd. naive_solver. }
  unfold initialize_handles. erewrite bind_Ok by apply the_worker_eq. cbv beta. rewrite Hb, Hn, Hq.
  step. destruct (Bucket_Initialize_eq b bo w Eb Sb) as [bs Hi1].
  erewrite bind_Ok by exact Hi1. cbn [negb].
  set (w1 := update _ _). step.
  destruct (N1QL_Initialize_eq n no w1) as [ns Hi2]; [by destruct w|done|].
  erewrite bind_Ok by exact Hi2. cbn [negb].
  set (w2 := update _ _). step.
  destruct (Queue_Initialize_eq q qo w2) as [qs Hi3]; [by destruct w|done|].
  erewrite bind_Ok by exact Hi3. cbn [negb].
  set (w3 := update _ _). erewrite bind_Ok by apply modify_worker_eq. cbv beta.
  eexists. split; [reflexivity|].
  assert (∀ x : Worker, w_js (update x w3)
    = global_set qa (js_host (queue_object q))
        (global_set na (js_host (n1ql_object n))
          (global_set ba (js_host (bucket_object b)) (w_js w)))) as Ejs by (by destruct w).
  rewrite !Ejs. split_and!.
  - rewrite !global_get_set_ne by done. apply global_get_set.
  - rewrite global_get_set_ne by done. apply global_get_set.
  - apply global_get_set.
  - intros name Hname. rewrite !not_elem_of_cons in Hname. destruct Hname as (N1 & N2 & N3 & _).
    by rewrite !global_get_set_ne by done.
  - by destruct w.
Qed.
Context (little : bool) (now : Z) (alloc address : Z) (read_file : string → option string).

(** What running a script's text does. *)
Lemma ExecuteScript_eq script w :
  ExecuteScript little now alloc address script w
  = match compile script (w_js w) with
    | inl c => (update (set_last_exception (ExceptionString c) (w_worker w)) w, Ok false)
    | inr p =>
        match run_js little now alloc address p w with
        | (w2, Fail e) => (w2, Fail e)
        | (w2, Ok (inl _)) => (w2, Ok true)
        | (w2, Ok (inr e)) =>
            (update (set_last_exception (ExceptionString (describe e (w_js w2))) (w_worker w2)) w2, Ok false)
        end
    end.
Proof.
  unfold ExecuteScript. erewrite bind_Ok by apply (zoom_get (T:=js_state)). cbv beta.
  change (view w) with (w_js w). destruct (compile script (w_js w)) as [c|p]; [done|].
  destruct (run_js little now alloc address p w) as [w2 [[v|e]|e]] eqn:E.
  - erewrite bind_Ok by exact E. done.
  - erewrite bind_Ok by exact E. cbv beta iota. by erewrite bind_Ok by apply (zoom_get (T:=js_state)).
  - by erewrite bind_Fail by exact E.
Qed.

Lemma WorkerLoad_eq name_s source_s script w w1 ok :
  script_to_execute (LoadBuiltins read_file) source_s = Some script →
  ExecuteScript little now alloc address (c_str script) (update (set_script script (w_worker w)) w) = (w1, ok) →
  WorkerLoad little now alloc address read_file name_s source_s w
  = match ok with
    | Fail e => (w1, Fail e)
    | Ok false => (w1, Ok FAILED_TO_COMPILE_JS)
    | Ok true =>
        match global_handler "OnUpdate" (w_js w1), global_handler "OnDelete" (w_js w1),
              global_handler "OnHTTPGet" (w_js w1), global_handler "OnHTTPPost" (w_js w1) with
        | Some u, Some d, Some g, Some p =>
            initialize_handles (update (set_handlers u d g p (w_worker w1)) w1)
        | _, _, _, _ => (w1, Ok NO_HANDLERS_DEFINED)
        end
    end.
Proof.
  intros Hs He. unfold WorkerLoad. rewrite Hs. step. erewrite bind_Ok by apply modify_worker_eq.
  cbv beta. destruct ok as [[]|e].
  - erewrite bind_Ok by exact He. cbn [negb]. step. change (view w1) with (w_js w1).
    do 4 (destruct (global_handler _ (w_js w1)); [|done]). by erewrite bind_Ok by apply modify_worker_eq.
  - by erewrite bind_Ok by exact He.
  - by erewrite bind_Fail by exact He.
Qed.

(** C14: the code that loading returns, for every script.  Code that does not
    compile, or throws at its top level, gives 1 and records the exception, and
    in the first case nothing has run; code that leaves one of the four handlers
    undefined gives 2; otherwise the handlers are kept and the worker's objects
    initialised, and the code is that of their initialisation. *)
Theorem WorkerLoad_codes name_s source_s script w :
  script_to_execute (LoadBuiltins read_file) source_s = Some script →
  let w1 := update (set_script script (w_worker w)) w in
  let load := worker_load little now alloc address read_file name_s source_s w in
  match compile (c_str script) (w_js w) with
  | inl c =>
      ∃ w', load = (w', Ok 1) ∧ last_exception (w_worker w') = ExceptionString c ∧
            w_js w' = w_js w ∧ w_cluster w' = w_cluster w
  | inr p =>
      match run_js little now alloc address p w1 with
      | (w2, Fail e) => load = (w2, Fail e)
      | (w2, Ok (inr e)) =>
          ∃ w', load = (w', Ok 1) ∧ last_exception (w_worker w') = ExceptionString (describe e (w_js w2)) ∧
                w_js w' = w_js w2 ∧ w_cluster w' = w_cluster w2
      | (w2, Ok (inl _)) =>
          match global_handler "OnUpdate" (w_js w2), global_handler "OnDelete" (w_js w2),
                global_handler "OnHTTPGet" (w_js w2), global_handler "OnHTTPPost" (w_js w2) with
          | Some u, Some d, Some g, Some p =>
              ∀ w3 r, initialize_handles (update (set_handlers u d g p (w_worker w2)) w2) = (w3, Ok r) →
                load = (w3, Ok (return_code r))
          | _, _, _, _ => load = (w2, Ok 2)
          end
      end
  end.
Proof.
  intros Hs. cbv zeta. set (w1 := update (set_script script (w_worker w)) w).
  destruct (ExecuteScript little now alloc address (c_str script) w1) as [w' ok] eqn:He.
  pose proof (WorkerLoad_eq name_s source_s script w w' ok Hs He) as Hl.
  rewrite ExecuteScript_eq in He.
  assert (w_js w1 = w_js w ∧ w_cluster w1 = w_cluster w) as [Ejs Ecl] by (by destruct w).
  rewrite Ejs in He. unfold worker_load. destruct (compile (c_str script) (w_js w)) as [c|p].
  - injection He as <- <-. eexists. split; [by erewrite bind_Ok by exact Hl|].
    by destruct w.
  - destruct (run_js little now alloc address p w1) as [w2 [[v|e]|e]].
    + injection He as <- <-.
      do 4 (destruct (global_handler _ (w_js w2)); [|by erewrite bind_Ok by exact Hl]).
      intros w3 r Hi. rewrite Hi in Hl. by erewrite bind_Ok by exact Hl.
    + injection He as <- <-. eexists. split; [by erewrite bind_Ok by exact Hl|].
      by destruct w2.
    + injection He as <- <-. by erewrite bind_Fail by exact Hl.
Qed.
End loading.
