(* ===== verification/GoTimers.v ===== *)
(** * The timer routine of the Go program (proccess_timer_callbacks.go)

    Every second the Go program reads the marker document of a second, hands its
    text to the worker and then removes the marker and the documents it names. *)

From S2P Require Import Prelude CStd StdMap Calendar Endian Kv Json V8 Engine Timers HttpResponse.
From S2P Require Import Heap Bucket N1ql Queue Mail Debug Host Worker.
#[local] Open Scope Z_scope.

Section requests.
Context `{Lcb} {W : Type} `{!Lens W cluster}.

(** The Go client's bucket [b]; errors are dropped, a missing document is empty. *)
Definition bucketGet (b docID : string) : prog W string :=
  r ← zoom (λ c : cluster, let '(c, r) := lcb_get3 b docID c in (c, Ok r)); mret (got r).

Definition bucketDelete (b key : string) : prog W unit :=
  zoom (modify (λ c : cluster, (lcb_remove3 b key c).1)).

(** One tick, for the marker [docID]; [callbacks] is the worker's part of it. *)
Definition timer_tick (callbacks : string → prog W unit) (b docID : string) : prog W unit :=
  value ← bucketGet b docID;
  _ ← callbacks value;
  _ ← bucketDelete b docID;
  for_each (bucketDelete b) (go_split ";" EmptyString value).
End requests.

Section routine.
Context `{Lcb} `{!LcbN1ql} `{Redis} `{Curl} `{RapidJson} `{Engine}.
Context (little : bool) (now : Z) (alloc address : Z).

(** One tick of [processTimerEvent], for the marker [docID]. *)
Definition processTimerEvent : string → string → prog world unit :=
  timer_tick (worker_send_timer_callback little now alloc address).
End routine.

(** ** The time of a tick *)

(** A [time.Time] is its nanoseconds since the epoch.  [NewISO8601] drops the
    fraction of the second and takes two seconds off; the result is in seconds. *)
Definition NewISO8601 (t : Z) : Z := t / 1000000000 - 2.

(** The layout that the routine passes to [strftime.Format]. *)
Definition tick_layout : string := "%Y-%m-%dT%H:%M:%S".

(** What the routine waits for: its ticker, or the close of the worker. *)
Inductive signal := TickerC (t : Z) | timerEventClose.

Section ticks.
Context `{Lcb} `{!LcbN1ql} `{Redis} `{Curl} `{RapidJson} `{Engine}.
Context (little : bool) (now : Z → Z) (alloc address : Z).
(** [strftime.Format] of a third-party package. *)
Context (Format : string → Z → string).

Definition tick_docID (t : Z) : string := Format tick_layout (NewISO8601 t).

(** The loop of the routine.  The operands of its inner [select] are evaluated
    before it waits, and the channel has room for the value of [bucketGet]: the
    branch of the timeout is never taken.  [now t]: the clock of the C++ code. *)
Fixpoint timer_routine (b : string) (signals : list signal) : prog world unit :=
  match signals with
  | TickerC t :: signals =>
      _ ← processTimerEvent little (now t) alloc address b (tick_docID t);
      timer_routine b signals
  | timerEventClose :: _ | [] => mret tt
  end.
End ticks.

(** ** Lemmas *)

(** [strings.Split] of a marker has one empty string more than its ids. *)
Lemma go_split_join ids :
  Forall (λ id, lacks ";" id = true) ids → go_split ";" EmptyString (join_term ";" ids) = ids ++ [EmptyString].
Proof.
  induction 1 as [|id ids Hid Hids IH]; [done|]. cbn [join_term foldr].
  change (go_split ";" EmptyString (id +:+ String ";" (join_term ";" ids)) = (id :: ids) ++ [EmptyString]).
  rewrite go_split_app by done. cbn [app]. f_equal. exact IH.
Qed.

(** What the Go client reads of a marker. *)
Lemma got_marker `{LcbHealthy} b ts c :
  valid_key ts = true → got (lcb_get3 b ts c).2 = default EmptyString (marker b ts c).
Proof.
  intros Hk. unfold marker. destruct (contents c b !! ts) as [d|] eqn:E.
  - destruct (healthy_get_value b ts c d E Hk) as (x & -> & Hok & Hv). cbn. by rewrite Hok, Hv.
  - by rewrite got_absent.
Qed.

Lemma bucketGet_marker `{LcbHealthy} {W} `{!Lens W cluster} b ts (w : W) :
  valid_key ts = true →
  bucketGet b ts w = (update (lcb_get3 b ts (view w)).1 w, Ok (default EmptyString (marker b ts (view w)))).
Proof.
  intros Hk. rewrite <-got_marker by done. unfold bucketGet, mbind, prog_bind, zoom.
  by destruct (lcb_get3 b ts (view w)) as [c x].
Qed.

(** What the removal of documents leaves in a bucket. *)
Lemma deletes_run `{LcbHealthy} {W} `{!Lens W cluster} b keys (w : W) :
  ∃ c : cluster, for_each (bucketDelete b) keys w = (update c w, Ok tt) ∧
    frame b (list_to_set keys) (view w) c ∧
    ∀ k, k ∈ keys → valid_key k = true → contents c b !! k = None.
Proof.
  revert w. induction keys as [|key keys IH]; intros w.
  { exists (view w). rewrite update_view. split; [done|]. split; [apply frame_refl|]. by intros k Hk%not_elem_of_nil. }
  set (c1 := (lcb_remove3 b key (view w)).1).
  destruct (IH (update c1 w)) as (c & Hrun & F & Hnone). rewrite update_update in Hrun. rewrite view_update in F.
  exists c. cbn [for_each]. split; [by erewrite bind_Ok by reflexivity|]. split.
  - apply frame_trans with c1.
    + eapply frame_weaken; [|apply remove_frame]. set_solver.
    + eapply frame_weaken; [|exact F]. set_solver.
  - intros k Hk Hv. destruct (decide (k ∈ keys)) as [Hin|Hout]; [by apply Hnone|].
    assert (k = key) as -> by set_solver. rewrite F by (right; set_solver). unfold c1.
    by rewrite (proj1 (healthy_delete b key (view w) Hv)), lookup_delete_eq.
Qed.

(** A tick whose callbacks return: the marker and the documents it names are gone
    afterwards, the other documents are as the callbacks left them. *)
Lemma timer_tick_run `{LcbHealthy} {W} `{!Lens W cluster} (callbacks : string → prog W unit) b ts ids (w w1 : W) :
  valid_key ts = true → Forall (λ id, lacks ";" id = true) ids →
  default EmptyString (marker b ts (view w)) = join_term ";" ids →
  callbacks (join_term ";" ids) (update (lcb_get3 b ts (view w)).1 w) = (w1, Ok tt) →
  ∃ c : cluster, timer_tick callbacks b ts w = (update c w1, Ok tt) ∧
    frame b (list_to_set (ts :: ids ++ [EmptyString])) (view w1) c ∧
    ∀ k, k ∈ ts :: ids → valid_key k = true → contents c b !! k = None.
Proof.
  intros Hk Hids Hm Hcall.
  destruct (deletes_run b (ts :: ids ++ [EmptyString]) w1) as (c & Hrun & F & Hnone).
  exists c. split; [|split; [done|]].
  - unfold timer_tick. erewrite bind_Ok by (by apply bucketGet_marker). cbv beta. rewrite Hm.
    erewrite bind_Ok by exact Hcall. cbv beta. by rewrite go_split_join.
  - intros k Hin. apply Hnone. rewrite elem_of_cons, elem_of_app in *. tauto.
Qed.

(** ** Properties *)

(** What the package documents of the layout, for years of four digits. *)
Definition formats_iso (Format : string → Z → string) : Prop :=
  ∀ t x, gmtime t = Some x → 1000 <= tm_year x + 1900 <= 9999 → Format tick_layout t = format_iso x.

Section tick_properties.
Context (Format : string → Z → string) (HFormat : formats_iso Format).

Lemma tick_docID_iso t :
  2 <= t / 1000000000 < 253402300800 → iso8601 (NewISO8601 t) = Ok (tick_docID Format t).
Proof.
  intros Ht. unfold iso8601, tick_docID, NewISO8601.
  destruct (gmtime_four_digit_year (t / 1000000000 - 2)) as (x & Hx & Hy); [lia|].
  rewrite Hx, (HFormat _ x Hx) by lia. unfold strftime_iso.
  by rewrite format_iso_length, dec_four_digits by lia.
Qed.

(** C19: a timer has one tick.  Register a timer when the clock of the
    worker reads [n], with a text that [atoi] reads as [v].  The tick that reads
    the timer's marker is the one two seconds after the second the timer is due,
    and no other; a timer that was due more than two seconds before it is
    registered is in none from its registration on. *)
Theorem tick_reads_marker n text v key t :
  0 <= n < 253402300800 - expiry_bound → atoi text = Ok v → ConvertToISO8601 n text = Ok key →
  2 <= t / 1000000000 < 253402300800 →
  (tick_docID Format t = key ↔ t / 1000000000 = expiry_time n v + 2) ∧
  (v < -2 → n <= t / 1000000000 → tick_docID Format t ≠ key).
Proof.
  intros Hn Hv Hkey Ht. pose proof (tick_docID_iso t Ht) as Htick.
  assert (tick_docID Format t = key ↔ t / 1000000000 = expiry_time n v + 2) as Hiff.
  { unfold ConvertToISO8601 in Hkey. rewrite Hv in Hkey. cbn in Hkey.
    rewrite (iso8601_inj _ _ _ _ Htick Hkey). unfold NewISO8601. lia. }
  split; [exact Hiff|]. intros Hneg Hlater E%Hiff. rewrite E in Hlater. revert Hlater.
  unfold expiry_time, expiry_bound. case_match; lia.
Qed.
End tick_properties.

Section missed.
Context `{LcbLaws} `{!LcbN1ql} `{Redis} `{Curl} `{RapidJson} `{Engine}.
Context (little : bool) (now : Z) (alloc address : Z).

(** A get that fails is taken for an empty marker.  The tick calls nothing and
    then deletes the marker it has not read: if that request succeeds, the timers
    of the second are gone. *)
Theorem failed_get_forgets b docID (w : world) :
  get_ok (lcb_get3 b docID (w_cluster w)).2 = false →
  let c1 := (lcb_get3 b docID (w_cluster w)).1 in
  let '(c2, r) := lcb_remove3 b docID c1 in
  processTimerEvent little now alloc address b docID w
  = (update (lcb_remove3 b EmptyString c2).1 w, Ok tt) ∧
  (r = Some LCB_SUCCESS → marker b docID c2 = None).
Proof.
  intros Hg. destruct (lcb_get3 b docID (w_cluster w)) as [c1 x] eqn:G. cbn [fst snd] in *.
  destruct (lcb_remove3 b docID c1) as [c2 r] eqn:R. split.
  - assert (got x = EmptyString) as Hx.
    { destruct x as [x|]; [|done]. cbn in *. by rewrite Hg. }
    unfold processTimerEvent, timer_tick.
    assert (bucketGet b docID w = (update c1 w, Ok EmptyString)) as Hget.
    { unfold bucketGet. erewrite bind_Ok by (unfold zoom; change (view w) with (w_cluster w); by rewrite G).
      by rewrite <-Hx. }
    erewrite bind_Ok by exact Hget. cbv beta.
    assert (worker_send_timer_callback little now alloc address EmptyString (update c1 w)
            = (update c1 w, Ok tt)) as Hsend.
    { unfold worker_send_timer_callback, Worker_SendTimerCallback, mbind, prog_bind.
      cbn. by destruct (cb_instance (w_worker w)). }
    erewrite bind_Ok by exact Hsend. cbv beta. unfold bucketDelete, zoom, modify.
    cbn. unfold mbind, prog_bind. cbn. by rewrite R.
  - intros ->. unfold marker.
    destruct (remove_contents _ _ _ _ _ R) as [_ [[_ Hf]| ->]]; [done|]. by rewrite lookup_delete_eq.
Qed.
End missed.

(** ** Witnesses *)

(** A formatter that does what the layout says. *)
Definition format_seconds (layout : string) (t : Z) : string :=
  match gmtime t with Some x => format_iso x | None => EmptyString end.

Lemma format_seconds_iso : formats_iso format_seconds.
Proof. intros t x Hx _. unfold format_seconds. by rewrite Hx. Qed.

(** A timer of a minute, set at 10:11:12, and the tick at 10:12:14. *)
Lemma tick_reads_marker_witness :
  tick_docID format_seconds 1470737534000000123 = "2016-08-09T10:12:12"%string.
Proof.
  apply (tick_reads_marker format_seconds format_seconds_iso 1470737472 "60" 60
           "2016-08-09T10:12:12" 1470737534000000123).
  - vm_compute. split; congruence.
  - vm_compute. reflexivity.
  - vm_compute. reflexivity.
  - vm_compute. split; congruence.
  - vm_compute. reflexivity.
Defined.
