(* ===== verification/TimerRace.v ===== *)
(** * Registrations and the tick, interleaved (worker.cc, proccess_timer_callbacks.go)

    Workers of several applications, each in an isolate and a thread of its own,
    register timers in the same bucket, while a goroutine reads and removes the
    markers.  Nothing but the servers orders their requests: here each request
    is one step, and a schedule says whose turn it is.  [RegisterCallback] is
    four requests, a tick is a get, the callbacks, and the deletions. *)

From S2P Require Import Prelude CStd StdMap Calendar Kv Json V8 Timers Heap Bucket Mail.
From S2P Require Import HttpResponse N1ql Queue Engine Debug Host Worker GoTimers.
#[local] Open Scope Z_scope.

(** ** The machine *)

(** The request that comes next in a registration. *)
Inductive reg_phase := ToSet | ToGet | ToAdd | ToAppend | Registered.

#[export] Instance reg_phase_eq_dec : EqDecision reg_phase.
Proof. solve_decision. Defined.

(** What comes next in a tick, with the marker's text or the keys left to delete. *)
Inductive tick_phase :=
  | TickWaits
  | TickGot (value : string)
  | TickCalled (value : string)
  | TickDeletes (keys : list string).

(** A registration: its callback and document id, and where it is. *)
Record registration := Registration { reg_timer : string * string; reg_at : reg_phase }.

Definition reg_id (r : registration) : string := (reg_timer r).2.

Inductive race_event := Reg (i : nat) | Tick.

#[export] Instance race_event_eq_dec : EqDecision race_event.
Proof. solve_decision. Defined.

Section machine.
Context `{Lcb} `{RapidJson} {W : Type} `{!Lens W cluster}.
Context (b ts : string) (callbacks : string → prog W unit).

(** [callbacks]: the worker's part of a tick; its effects are in [W]. *)
Record race := Race {
  race_regs : list registration;
  race_tick : tick_phase;
  race_world : W
}.

(** One request of [store_timer]. *)
Definition reg_request (t : string * string) (p : reg_phase) (c : cluster) : reg_phase * cluster :=
  match p with
  | ToSet => (ToGet, after_blob b t.1 t.2 ts c)
  | ToGet => (if found b ts c then ToAppend else ToAdd, after_probe b ts c)
  | ToAdd => (ToAppend, (lcb_store3 b (CmdStore ts EmptyString LCB_ADD 0) c).1)
  | ToAppend => (Registered, after_append b t.2 ts c)
  | Registered => (Registered, c)
  end.

Definition reg_step (i : nat) (s : race) : race :=
  match race_regs s !! i with
  | None => s
  | Some r =>
      let '(p, c) := reg_request (reg_timer r) (reg_at r) (view (race_world s)) in
      Race (<[i := Registration (reg_timer r) p]> (race_regs s)) (race_tick s)
           (update c (race_world s))
  end.

(** One request of [processTimerEvent]; the callbacks are one step. *)
Definition tick_request (p : tick_phase) : prog W tick_phase :=
  match p with
  | TickWaits => value ← bucketGet b ts; mret (TickGot value)
  | TickGot value => _ ← callbacks value; mret (TickCalled value)
  | TickCalled value => _ ← bucketDelete b ts; mret (TickDeletes (go_split ";" EmptyString value))
  | TickDeletes (key :: keys) => _ ← bucketDelete b key; mret (TickDeletes keys)
  | TickDeletes [] => mret (TickDeletes [])
  end.

Definition tick_step : prog race unit := λ s,
  match tick_request (race_tick s) (race_world s) with
  | (w, Ok p) => (Race (race_regs s) p w, Ok tt)
  | (w, Fail e) => (Race (race_regs s) (race_tick s) w, Fail e)
  end.

Definition race_step (e : race_event) : prog race unit :=
  match e with Reg i => λ s, (reg_step i s, Ok tt) | Tick => tick_step end.

Definition run_schedule : list race_event → prog race unit := for_each race_step.

(** Everybody before its first request. *)
Definition race_start (timers : list (string * string)) (w : W) : race :=
  Race ((λ t, Registration t ToSet) <$> timers) TickWaits w.

Lemma run_reg i es s : run_schedule (Reg i :: es) s = run_schedule es (reg_step i s).
Proof. done. Qed.
End machine.
Arguments Race {_} race_regs race_tick race_world.

(** The ids whose registration is over. *)
Definition registered (regs : list registration) : list string :=
  reg_id <$> filter (λ r, reg_at r = Registered) regs.

(** The next request of a registration is the append. *)
Definition appending (regs : list registration) : Prop := ∃ r, r ∈ regs ∧ reg_at r = ToAppend.

Lemma not_appending regs : Forall (λ r, reg_at r ≠ ToAppend) regs → ¬ appending regs.
Proof. rewrite Forall_forall. intros Hall (r & Hr & Hat). by apply (Hall r). Qed.

(** ** The machine and the code *)

(** A registration that is left alone is [store_timer]. *)
Lemma reg_steps_alone `{LcbLaws} `{RapidJson} {W} `{!Lens W cluster} callbacks b ts cf id (w : W) :
  let n := if found b ts (after_blob b cf id ts (view w)) then 3%nat else 4%nat in
  let '(w', r) := zoom (store_timer (worker_handle b) cf id ts) w in
  run_schedule b ts callbacks (replicate n (Reg 0)) (race_start [(cf, id)] w)
  = (Race [Registration (cf, id) Registered] TickWaits w', r).
Proof.
  unfold zoom. rewrite store_timer_eq. cbn zeta. unfold after_add.
  set (c1 := after_blob b cf id ts (view w)).
  destruct (found b ts c1) eqn:F; cbn [replicate]; rewrite !run_reg;
    unfold reg_step; cbn; rewrite !view_update; fold c1; rewrite F; cbn;
    rewrite ?view_update, ?update_update; reflexivity.
Qed.

Lemma run_tick `{Lcb} `{RapidJson} {W} `{!Lens W cluster} b ts callbacks es regs p p' (w w' : W) :
  tick_request b ts callbacks p w = (w', Ok p') →
  run_schedule b ts callbacks (Tick :: es) (Race regs p w)
  = run_schedule b ts callbacks es (Race regs p' w').
Proof. intros E. cbn. unfold mbind, prog_bind, tick_step. cbn. by rewrite E. Qed.

Section tick_alone.
Context `{Lcb} `{!LcbN1ql} `{Redis} `{Curl} `{RapidJson} `{Engine}.
Context (little : bool) (now alloc address : Z) (b ts : string).

Let callbacks : string → prog world unit := worker_send_timer_callback little now alloc address.

Lemma run_deletes keys regs (w : world) :
  run_schedule b ts callbacks (replicate (length keys) Tick) (Race regs (TickDeletes keys) w)
  = (Race regs (TickDeletes []) (for_each (bucketDelete b) keys w).1, Ok tt) ∧
  (for_each (bucketDelete b) keys w).2 = Ok tt.
Proof.
  revert w. induction keys as [|key keys IH]; intros w; [done|]. cbn [length replicate for_each].
  erewrite run_tick by reflexivity. erewrite (bind_Ok (bucketDelete b key)) by reflexivity. apply IH.
Qed.

(** A tick that is left alone is [processTimerEvent]. *)
Lemma tick_steps_alone regs (w : world) :
  let n := (3 + length (go_split ";" EmptyString (got (lcb_get3 b ts (view w)).2)))%nat in
  prod_map race_world id (run_schedule b ts callbacks (replicate n Tick) (Race regs TickWaits w))
  = processTimerEvent little now alloc address b ts w.
Proof.
  cbn zeta. unfold processTimerEvent, timer_tick.
  destruct (lcb_get3 b ts (view w)) as [c x] eqn:G. cbn [snd Nat.add replicate].
  assert (bucketGet b ts w = (update c w, Ok (got x))) as Z.
  { unfold bucketGet, mbind, prog_bind, zoom. by rewrite G. }
  erewrite run_tick by (cbn [tick_request]; erewrite bind_Ok by exact Z; reflexivity).
  erewrite bind_Ok by exact Z. cbv beta.
  set (value := got x). set (w1 := update c w).
  destruct (callbacks value w1) as [w2 [[]|e]] eqn:C.
  - erewrite run_tick by (cbn [tick_request]; erewrite bind_Ok by exact C; reflexivity).
    erewrite bind_Ok by exact C. cbv beta.
    erewrite run_tick by reflexivity. erewrite (bind_Ok (bucketDelete b ts)) by reflexivity.
    destruct (run_deletes (go_split ";" EmptyString value) regs (bucketDelete b ts w2).1) as [R1 R2].
    etransitivity; [exact (f_equal (prod_map race_world id) R1)|].
    exact (eq_trans (f_equal (pair _) (eq_sym R2)) (eq_sym (surjective_pairing _))).
  - transitivity (w2, Fail e : outcome unit); [|symmetry; apply bind_Fail; exact C].
    assert (tick_step b ts callbacks (Race regs (TickGot value) w1)
            = (Race regs (TickGot value) w2, Fail e)) as T.
    { unfold tick_step. cbn [race_tick race_world race_regs tick_request].
      erewrite bind_Fail by exact C. reflexivity. }
    unfold run_schedule. cbn [for_each race_step]. erewrite bind_Fail by exact T. reflexivity.
Qed.
End tick_alone.

(** ** Lists of registrations *)

Lemma slen_join_submseteq d l k : l ⊆+ k → slen (join_term d l) <= slen (join_term d k).
Proof.
  induction 1 as [|x l k _ IH|x y l|x l k _ IH|l k m _ IH1 _ IH2]; cbn [join_term]; rewrite ?slen_app, ?slen_cons.
  all: rewrite ?slen_app, ?slen_cons; try pose proof (slen_nonneg x); lia.
Qed.

Lemma registered_ids regs : registered regs ⊆+ reg_id <$> regs.
Proof. apply sublist_submseteq, fmap_sublist, sublist_filter. Qed.

Lemma registered_set regs i r p :
  regs !! i = Some r → reg_at r ≠ Registered →
  registered (<[i := Registration (reg_timer r) p]> regs)
  ≡ₚ (if decide (p = Registered) then [reg_id r] else []) ++ registered regs.
Proof.
  intros Hi Hr. unfold registered. rewrite insert_take_drop by (by eapply lookup_lt_Some).
  rewrite <-(take_drop_middle regs i r Hi) at 3.
  rewrite !filter_app, !filter_cons, !fmap_app. cbn [reg_at].
  rewrite (decide_False (P := reg_at r = Registered)) by done. case_decide; [|done].
  cbn. by rewrite Permutation_middle.
Qed.

Lemma set_timers (regs : list registration) i r p :
  regs !! i = Some r → reg_timer <$> <[i := Registration (reg_timer r) p]> regs = reg_timer <$> regs.
Proof.
  intros Hi. rewrite list_fmap_insert. apply list_insert_id. by rewrite list_lookup_fmap, Hi.
Qed.

(** The other registrations stay as they are. *)
Lemma elem_of_set (regs : list registration) i (x : registration) r :
  r ∈ <[i := x]> regs → r = x ∨ r ∈ regs.
Proof.
  intros (j & Hj)%list_elem_of_lookup. apply list_lookup_insert_Some in Hj as [(-> & -> & _)|(_ & Hj)];
    [by left|right]. by eapply list_elem_of_lookup_2.
Qed.

(** ** The effect of each request *)

Section effects.
Context `{LcbHealthy} `{RapidJson}.
Context (b ts : string).
Implicit Types c : cluster.

(** The marker lists [l]; without a marker, nothing. *)
Definition marker_lists (c : cluster) (l : list string) : Prop :=
  marker b ts c = Some (join_term ";" l) ∨ (marker b ts c = None ∧ l = []).

Lemma marker_lists_text c l : marker_lists c l → default EmptyString (marker b ts c) = join_term ";" l.
Proof. by intros [-> | [-> ->]]. Qed.

(** All documents but the marker stay. *)
Definition same_blobs c c' : Prop := ∀ k, k ≠ ts → contents c' b !! k = contents c b !! k.

Lemma same_blobs_timer c c' cf id : same_blobs c c' → id ≠ ts → has_timer b c cf id → has_timer b c' cf id.
Proof. intros Hs Hid [t Ht]. exists t. by rewrite Hs. Qed.

Lemma set_effect cf id c :
  id ≠ ts → valid_key id = true → slen (timer_blob cf id ts) <= max_value →
  let c' := after_blob b cf id ts c in
  marker b ts c' = marker b ts c ∧ has_timer b c' cf id ∧
  ∀ k, k ≠ id → contents c' b !! k = contents c b !! k.
Proof.
  intros Hne Hid Hs. cbn zeta. split; [by apply after_blob_marker|].
  destruct (healthy_set b id (timer_blob cf id ts) json_flags c Hid Hs) as [ca E].
  change (lcb_store3 b _ c).1 with (after_blob b cf id ts c) in E. rewrite E. split.
  - exists ts. by rewrite E, lookup_insert_eq.
  - intros k Hk. by rewrite lookup_insert_ne.
Qed.

Lemma probe_effect c :
  valid_key ts = true →
  (∀ b', contents (after_probe b ts c) b' = contents c b') ∧
  (found b ts c = true → is_Some (marker b ts c)).
Proof.
  intros Hk. split; [intros b'; unfold after_probe; by rewrite get_contents|]. unfold found, marker.
  destruct (contents c b !! ts) as [d|] eqn:E; [by eexists|].
  destruct (healthy_get_absent b ts c E Hk) as (x & -> & Hx). by intros Heq%Z.eqb_eq.
Qed.

Lemma add_effect c l :
  valid_key ts = true → marker_lists c l →
  let c' := (lcb_store3 b (CmdStore ts EmptyString LCB_ADD 0) c).1 in
  same_blobs c c' ∧ marker_lists c' l ∧ is_Some (marker b ts c').
Proof.
  intros Hk Hl. cbn zeta. set (cmd := CmdStore ts EmptyString LCB_ADD 0).
  split; [intros k Hne; apply (store_frame b cmd c); cbn; set_solver|].
  unfold marker_lists, marker in *. destruct (contents c b !! ts) as [d|] eqn:E.
  - destruct (store_doc b cmd c) as [Hs|(ca & m' & Ha & _)].
    + cbn [cmd_key cmd] in Hs. rewrite Hs, E. split; [exact Hl|by eexists].
    + unfold apply_store in Ha. cbn in Ha. by rewrite E in Ha.
  - destruct (healthy_add b ts EmptyString 0 c) as [ca Ha]; [done..|].
    fold cmd in Ha. rewrite Ha, lookup_insert_eq. destruct Hl as [?|[_ ->]]; [done|].
    split; [by left|by eexists].
Qed.

Lemma append_effect id c l :
  valid_key ts = true → marker_lists c l → slen (join_term ";" (l ++ [id])) <= max_value →
  let c' := after_append b id ts c in
  same_blobs c c' ∧
  ((is_Some (marker b ts c) ∧ marker_lists c' (l ++ [id]) ∧ is_Some (marker b ts c')) ∨
   (marker b ts c = None ∧ marker_lists c' l)).
Proof.
  intros Hk Hl Hs. cbn zeta.
  split; [intros k Hne; apply (store_frame b (CmdStore ts (id +:+ ";") LCB_APPEND 0) c); cbn; set_solver|].
  rewrite join_term_app in Hs. destruct Hl as [Hm|[Hm ->]].
  - left. unfold marker in Hm. apply fmap_Some in Hm as (d & Hd & Hv).
    destruct (healthy_append b ts (id +:+ ";") 0 c d Hd Hk) as [ca E]; [by rewrite <-Hv|].
    change (lcb_store3 b _ c).1 with (after_append b id ts c) in E.
    unfold marker_lists, marker. rewrite E, lookup_insert_eq, Hd. cbn. rewrite <-Hv, join_term_app.
    split_and!; [by eexists|by left|by eexists].
  - right. split; [done|right]. split; [|done].
    destruct (after_append_marker b id ts c) as [->|(old & Ho & _)]; congruence.
Qed.

Lemma remove_effect key c :
  (∀ k, k ≠ key → contents (lcb_remove3 b key c).1 b !! k = contents c b !! k) ∧
  (key = ts → valid_key ts = true → marker b ts (lcb_remove3 b key c).1 = None).
Proof.
  split.
  - intros k Hk. apply (remove_frame b key c). set_solver.
  - intros -> Hk. unfold marker. destruct (healthy_delete b ts c Hk) as [-> _].
    by rewrite lookup_delete_eq.
Qed.
End effects.

(** ** The invariant *)

(** The timers of one second: usable ids, one per document, room for all of them
    in the marker; the callbacks leave these documents alone. *)
Record race_setting `{LcbLaws} `{RapidJson} (b ts : string) (act : string → string → cluster → cluster)
    (timers : list (string * string)) : Prop := {
  rs_ts : valid_key ts = true;
  rs_good t : t ∈ timers →
    good_timer t ∧ t.2 ≠ ts ∧ lacks ";" t.2 = true ∧ slen (timer_blob t.1 t.2 ts) <= max_value;
  rs_distinct : NoDup (timers.*2);
  rs_size : slen (join_term ";" (timers.*2)) <= max_value;
  rs_act : act_keeps b act (ts :: timers.*2)
}.

Section invariant.
Context `{LcbHealthy} `{RapidJsonLaws}.
Context (b ts : string) (act : string → string → cluster → cluster) (timers : list (string * string)).
Context (Hset : race_setting b ts act timers).

Notation logged_world := (cluster * list (string * string))%type.
Notation fire := (SendTimerCallback (W := logged_world) (logged act) (worker_handle b)).

(** [pre]: the ids the tick read; [l]: those in the marker; [lost]: the others. *)
Definition tick_inv (p : tick_phase) (log : list (string * string)) (done l pre lost : list string) : Prop :=
  match p with
  | TickWaits => pre = [] ∧ lost = [] ∧ log = [] ∧ done ≡ₚ l
  | TickGot v => v = join_term ";" pre ∧ log = [] ∧ l = pre ++ lost ∧ done ≡ₚ l
  | TickCalled v => v = join_term ";" pre ∧ log.*2 = pre ∧ l = pre ++ lost ∧ done ≡ₚ l
  | TickDeletes ks => log.*2 = pre ∧ ks ⊆ EmptyString :: pre ∧ done ≡ₚ pre ++ l ++ lost
  end.

Definition deletes (p : tick_phase) : Prop := match p with TickDeletes _ => True | _ => False end.
Definition in_window (p : tick_phase) : Prop :=
  match p with TickGot _ | TickCalled _ => True | _ => False end.

(** With [quiet], nothing gets lost. *)
Record race_inv (quiet : bool) (l pre lost : list string) (s : race (W := logged_world)) : Prop := {
  i_timers : reg_timer <$> race_regs s = timers;
  i_marker : marker_lists b ts (race_world s).1 l;
  i_tick : tick_inv (race_tick s) (race_world s).2 (registered (race_regs s)) l pre lost;
  i_log : (race_world s).2 ⊆ timers;
  i_blobs r : r ∈ race_regs s → reg_at r ≠ ToSet →
    (deletes (race_tick s) → reg_id r ∉ pre) → has_timer b (race_world s).1 (reg_timer r).1 (reg_id r);
  i_append : (deletes (race_tick s) → quiet = true) → appending (race_regs s) →
    is_Some (marker b ts (race_world s).1);
  i_quiet : quiet = true → lost = []
}.

Lemma timer_by_id t t' : t ∈ timers → t' ∈ timers → t.2 = t'.2 → t = t'.
Proof.
  intros (i & Hi)%list_elem_of_lookup (j & Hj)%list_elem_of_lookup E.
  assert (i = j) as ->; [|congruence].
  apply (NoDup_lookup (timers.*2) i j t.2); [apply Hset| |rewrite E]; by rewrite list_lookup_fmap, ?Hi, ?Hj.
Qed.

Lemma reg_in s quiet l pre lost r :
  race_inv quiet l pre lost s → r ∈ race_regs s → reg_timer r ∈ timers.
Proof. intros HI Hr. rewrite <-(i_timers _ _ _ _ _ HI). by apply list_elem_of_fmap_2. Qed.

Lemma registered_sub s quiet l pre lost :
  race_inv quiet l pre lost s → registered (race_regs s) ⊆+ timers.*2.
Proof.
  intros HI. etransitivity; [apply registered_ids|].
  rewrite <-(i_timers _ _ _ _ _ HI), <-list_fmap_compose. done.
Qed.

(** A request that finishes no registration. *)
Lemma inv_move quiet l pre lost regs p c log i r q c' :
  race_inv quiet l pre lost (Race regs p (c, log)) →
  regs !! i = Some r → reg_at r ≠ Registered → q ≠ Registered →
  marker_lists b ts c' l → (is_Some (marker b ts c) → is_Some (marker b ts c')) →
  (q = ToAppend → is_Some (marker b ts c')) →
  (∀ k, k ≠ ts → k ≠ reg_id r → contents c' b !! k = contents c b !! k) →
  ((deletes p → reg_id r ∉ pre) → has_timer b c' (reg_timer r).1 (reg_id r)) →
  race_inv quiet l pre lost (Race (<[i := Registration (reg_timer r) q]> regs) p (c', log)).
Proof.
  intros HI Hi Hr Hq Hm Hs Hap Hk Hown.
  assert (Hin : r ∈ regs) by by eapply list_elem_of_lookup_2.
  pose proof (reg_in _ _ _ _ _ r HI Hin) as Ht.
  split; cbn [race_regs race_tick race_world fst snd].
  - rewrite (set_timers regs i r q Hi). apply HI.
  - exact Hm.
  - pose proof (i_tick _ _ _ _ _ HI) as T. cbn in T.
    pose proof (registered_set regs i r q Hi Hr) as P. rewrite decide_False in P by done.
    unfold tick_inv in *. destruct p; by setoid_rewrite P.
  - apply HI.
  - intros r' [-> | Hr']%elem_of_set Hat Hd; [by apply Hown|].
    pose proof (reg_in _ _ _ _ _ r' HI Hr') as Ht'.
    destruct (decide (reg_id r' = reg_id r)) as [E|Hne].
    + unfold reg_id in *. rewrite (timer_by_id _ _ Ht' Ht E). apply Hown. by rewrite <-E.
    + destruct (i_blobs _ _ _ _ _ HI r' Hr' Hat Hd) as [t Hb]. exists t. rewrite Hk; [done| |done].
      by apply (rs_good _ _ _ _ Hset).
  - intros Hd (r' & [-> | Hr']%elem_of_set & Hat); [by apply Hap|].
    apply Hs, (i_append _ _ _ _ _ HI Hd). by exists r'.
  - apply HI.
Qed.

Lemma done_sub l pre lost p log done : tick_inv p log done l pre lost → l ⊆+ done.
Proof.
  destruct p; cbn; intros T.
  1-3: destruct T as (_ & _ & _ & ->); done.
  destruct T as (_ & _ & ->). apply submseteq_inserts_l, submseteq_inserts_r. done.
Qed.

(** The append that finishes a registration. *)
Lemma inv_registered quiet l pre lost regs p c log i r l' lost' c' :
  race_inv quiet l pre lost (Race regs p (c, log)) →
  regs !! i = Some r → reg_at r = ToAppend → same_blobs b ts c c' →
  marker_lists b ts c' l' →
  tick_inv p log (reg_id r :: registered regs) l' pre lost' →
  ((deletes p → quiet = true) → is_Some (marker b ts c')) → (quiet = true → lost' = []) →
  race_inv quiet l' pre lost' (Race (<[i := Registration (reg_timer r) Registered]> regs) p (c', log)).
Proof.
  intros HI Hi Hat Hsame Hm HT Hap Hq.
  assert (Hin : r ∈ regs) by by eapply list_elem_of_lookup_2.
  split; cbn [race_regs race_tick race_world fst snd].
  - rewrite (set_timers regs i r _ Hi). apply HI.
  - exact Hm.
  - pose proof (registered_set regs i r Registered Hi) as P. rewrite decide_True in P by done.
    rewrite Hat in P. specialize (P ltac:(done)). unfold tick_inv in *. destruct p; by setoid_rewrite P.
  - apply HI.
  - intros r' Hr' Hne Hd.
    assert (∃ r0, r0 ∈ regs ∧ reg_timer r0 = reg_timer r' ∧ reg_at r0 ≠ ToSet) as (r0 & Hr0 & E & Hne0).
    { apply elem_of_set in Hr' as [-> | Hr']; [exists r|by exists r']. by rewrite Hat. }
    unfold reg_id in *. rewrite <-E in Hd |- *. apply (same_blobs_timer b ts c c' _ _ Hsame).
    + by apply (rs_good _ _ _ _ Hset), (reg_in _ _ _ _ _ r0 HI).
    + by apply (i_blobs _ _ _ _ _ HI).
  - intros Hd _. by apply Hap.
  - exact Hq.
Qed.

Lemma append_inv quiet l pre lost regs p c log i r :
  race_inv quiet l pre lost (Race regs p (c, log)) → (quiet = true → ¬ in_window p) →
  regs !! i = Some r → reg_at r = ToAppend →
  ∃ l' lost', race_inv quiet l' pre lost'
    (Race (<[i := Registration (reg_timer r) Registered]> regs) p (after_append b (reg_id r) ts c, log)).
Proof.
  intros HI Hw Hi Hat. pose proof (i_tick _ _ _ _ _ HI) as T. cbn in T.
  assert (Hap : (deletes p → quiet = true) → is_Some (marker b ts c)).
  { intros Hd. apply (i_append _ _ _ _ _ HI Hd). exists r. split; [by eapply list_elem_of_lookup_2|done]. }
  destruct (append_effect b ts (reg_id r) c l) as [Hs [(_ & Hl & Hsome)|(Hnone & Hl)]].
  - apply Hset.
  - apply HI.
  - etransitivity; [|apply (rs_size _ _ _ _ Hset)]. apply slen_join_submseteq.
    transitivity (registered (<[i := Registration (reg_timer r) Registered]> regs)).
    + rewrite (registered_set regs i r _ Hi) by by rewrite Hat. rewrite decide_True by done.
      rewrite (Permutation_app_comm l). apply submseteq_app; [done|]. by eapply done_sub.
    + etransitivity; [apply registered_ids|].
      pose proof (i_timers _ _ _ _ _ HI) as E. cbn in E.
      rewrite <-E, <-(set_timers regs i r Registered Hi), <-list_fmap_compose. done.
  - assert (∃ lost', tick_inv p log (reg_id r :: registered regs) (l ++ [reg_id r]) pre lost' ∧
      (quiet = true → lost' = [])) as (lost' & HT & Hq).
    { pose proof (i_quiet _ _ _ _ _ HI) as Hq. unfold tick_inv in *. destruct p; [exists lost|exists (lost ++ [reg_id r])..|exists lost].
      - destruct T as (-> & -> & -> & ->). split; [|done]. by rewrite Permutation_app_comm.
      - destruct T as (-> & -> & -> & ->). rewrite app_assoc. split; [|by intros []%Hw].
        split_and!; [done..|]. by rewrite (Permutation_app_comm _ [_]).
      - destruct T as (-> & ? & -> & ->). rewrite app_assoc. split; [|by intros []%Hw].
        split_and!; [done..|]. by rewrite (Permutation_app_comm _ [_]).
      - destruct T as (? & ? & ->). split; [|done]. split_and!; [done..|].
        rewrite (Permutation_app_comm l [_]), Permutation_middle. done. }
    exists (l ++ [reg_id r]), lost'. by eapply inv_registered.
  - assert (¬ (deletes p → quiet = true)) as Hnd by (intros Hd; destruct (Hap Hd); congruence).
    destruct p; try by (exfalso; apply Hnd).
    exists l, (lost ++ [reg_id r]). eapply inv_registered; [done..| |done|].
    + cbn in *. destruct T as (? & ? & ->). split_and!; [done..|].
      rewrite !app_assoc, (Permutation_app_comm _ [_]). done.
    + intros Hq. exfalso. by apply Hnd.
Qed.

Lemma reg_inv quiet l pre lost i s :
  race_inv quiet l pre lost s → (quiet = true → ¬ in_window (race_tick s)) →
  ∃ l' lost', race_inv quiet l' pre lost' (reg_step b ts i s).
Proof.
  intros HI Hw. destruct s as [regs p [c log]]. unfold reg_step. cbn [race_regs race_tick race_world].
  destruct (regs !! i) as [r|] eqn:Hi; [|by exists l, lost].
  assert (Hin : r ∈ regs) by by eapply list_elem_of_lookup_2.
  pose proof (i_marker _ _ _ _ _ HI) as Hm. cbn in Hm.
  destruct (rs_good _ _ _ _ Hset _ (reg_in _ _ _ _ _ r HI Hin)) as ((_ & _ & Hk) & Hne & _ & Hsz).
  assert (Hts : valid_key ts = true) by apply Hset.
  assert (Hold : reg_at r ≠ ToSet → (deletes p → reg_id r ∉ pre) → has_timer b c (reg_timer r).1 (reg_id r))
    by (by apply (i_blobs _ _ _ _ _ HI)).
  destruct (reg_at r) eqn:Hat; cbn [reg_request]; unfold update, view, log_lens; cbn [fst snd].
  - destruct (set_effect b ts (reg_timer r).1 (reg_id r) c Hne Hk Hsz) as (Em & Hb & Hc).
    unfold reg_id in *. exists l, lost.
    eapply inv_move; [done|done|by rewrite Hat|done| | |done| |done].
    + unfold marker_lists. by rewrite Em.
    + by rewrite Em.
    + intros k _. apply Hc.
  - destruct (probe_effect b ts c Hts) as [Hc Hf].
    assert (marker b ts (after_probe b ts c) = marker b ts c) as Em by (unfold marker; by rewrite Hc).
    exists l, lost. eapply inv_move; [done|done|by rewrite Hat|by destruct (found b ts c)|..].
    + unfold marker_lists. by rewrite Em.
    + by rewrite Em.
    + rewrite Em. by destruct (found b ts c); [intros _; apply Hf|].
    + intros k _ _. by rewrite Hc.
    + intros Hd. destruct (Hold ltac:(done) Hd) as [t Ht]. exists t. by rewrite Hc.
  - destruct (add_effect b ts c l Hts Hm) as (Hs & Hl & Hsome).
    exists l, lost. eapply inv_move; [done|done|by rewrite Hat|done|done|done|done| |].
    + intros k Hk' _. by apply Hs.
    + intros Hd. by apply (same_blobs_timer b ts c), Hold.
  - by eapply append_inv.
  - exists l, lost. rewrite <-Hat, list_insert_id; [done|]. by destruct r.
Qed.

Lemma ids_of_timers ids : ids ⊆ timers.*2 → ∃ tl, tl.*2 = ids ∧ tl ⊆ timers.
Proof.
  induction ids as [|id ids IH]; intros Hs; [exists []; split; [done|set_solver]|].
  destruct IH as (tl & <- & Htl); [set_solver|].
  assert (id ∈ timers.*2) as (t & -> & Ht)%list_elem_of_fmap by set_solver.
  exists (t :: tl). split; [done|]. set_solver.
Qed.

(** The tick's callbacks: those of the ids it read. *)
Lemma fire_pre pre c :
  pre ⊆ timers.*2 → (∀ t, t ∈ timers → t.2 ∈ pre → has_timer b c t.1 t.2) →
  ∃ c' tl, fire (join_term ";" pre) (c, []) = ((c', tl), Ok tt) ∧ tl.*2 = pre ∧ tl ⊆ timers ∧
    ∀ id, id ∈ ts :: timers.*2 → contents c' b !! id = contents c b !! id.
Proof.
  intros Hpre Hb. destruct (ids_of_timers pre Hpre) as (tl & <- & Htl).
  assert (Hgood : ∀ t, t ∈ tl → good_timer t ∧ t.2 ≠ ts ∧ lacks ";" t.2 = true ∧
    slen (timer_blob t.1 t.2 ts) <= max_value) by (intros t Ht; apply (rs_good _ _ _ _ Hset); set_solver).
  destruct (timer_loop_prefix b act tl [] c []) as (c' & Hrun & Hc').
  - apply Forall_forall. intros t Ht. by apply Hgood.
  - intros f arg c0 id Hid. apply (rs_act _ _ _ _ Hset). set_solver.
  - intros t Ht. apply Hb; [set_solver|]. by apply list_elem_of_fmap_2.
  - exists c', tl. split; [|split_and!; [done|done|]].
    + unfold SendTimerCallback, split. rewrite c_str_id.
      * rewrite getline_join_term, <-(app_nil_r (tl.*2)), Hrun; [done|].
        apply Forall_fmap, Forall_forall. intros t Ht. by apply Hgood.
      * clear - Hgood. induction tl as [|t tl IH]; [done|]. cbn. unfold nul_free in *.
        rewrite sforall_app. cbn. rewrite IH by (intros t' Ht'; apply Hgood; by right).
        rewrite andb_true_r. apply (Hgood t). by left.
    + intros id Hid. apply Hc'. intros f arg c0. by apply (rs_act _ _ _ _ Hset).
Qed.

(** A step that changes neither the registrations nor, for those that matter,
    their documents. *)
Lemma inv_tick quiet l pre lost regs p c log l' pre' p' c' log' :
  race_inv quiet l pre lost (Race regs p (c, log)) →
  marker_lists b ts c' l' → tick_inv p' log' (registered regs) l' pre' lost → log' ⊆ timers →
  (∀ id, id ∈ timers.*2 → (deletes p' → id ∉ pre') →
         (deletes p → id ∉ pre) ∧ contents c' b !! id = contents c b !! id) →
  ((deletes p' → quiet = true) → appending regs → is_Some (marker b ts c')) →
  race_inv quiet l' pre' lost (Race regs p' (c', log')).
Proof.
  intros HI Hm HT Hlog Hc Hap. split; cbn [race_regs race_tick race_world fst snd]; try done; try apply HI.
  intros r Hr Hne Hd. pose proof (reg_in _ _ _ _ _ r HI Hr) as Hin.
  destruct (Hc (reg_id r)) as [Hd' Hsame]; [unfold reg_id; by apply list_elem_of_fmap_2|done|].
  destruct (i_blobs _ _ _ _ _ HI r Hr Hne Hd') as [t Ht]. exists t. by rewrite Hsame.
Qed.

Lemma done_timers quiet l pre lost s id :
  race_inv quiet l pre lost s → id ∈ registered (race_regs s) → id ∈ timers.*2.
Proof. intros HI Hid. eapply elem_of_submseteq; [exact Hid|]. by eapply registered_sub. Qed.

Lemma fire_inv quiet l pre lost regs v c log :
  race_inv quiet l pre lost (Race regs (TickGot v) (c, log)) →
  ∃ c' log', fire v (c, log) = ((c', log'), Ok tt) ∧
    race_inv quiet l pre lost (Race regs (TickCalled v) (c', log')).
Proof.
  intros HI. pose proof (i_tick _ _ _ _ _ HI) as T. cbn in T. destruct T as (-> & -> & -> & P).
  assert (Hpre : pre ⊆ timers.*2).
  { intros id Hid. eapply (done_timers _ _ _ _ _ _ HI). cbn. rewrite P. set_solver. }
  destruct (fire_pre pre c Hpre) as (c' & tl & Hrun & Htl & Hin & Hc).
  { intros t Ht Hid. assert (t.2 ∈ registered regs) as Hreg by (rewrite P; set_solver).
    apply list_elem_of_fmap in Hreg as (r & E & [Hat Hr]%list_elem_of_filter).
    pose proof (reg_in _ _ _ _ _ r HI Hr) as Hr'.
    rewrite (timer_by_id _ _ Ht Hr') by done. apply (i_blobs _ _ _ _ _ HI r Hr); [by rewrite Hat|done]. }
  exists c', tl. split; [exact Hrun|].
  assert (Em : marker b ts c' = marker b ts c) by (unfold marker; rewrite Hc; [done|by left]).
  eapply (inv_tick _ _ _ _ _ _ _ _ _ _ _ _ _ HI).
  - unfold marker_lists. rewrite Em. apply HI.
  - by cbn.
  - exact Hin.
  - intros id Hid _. split; [by intros []|]. apply Hc. by right.
  - intros _ Ha. rewrite Em. by apply (i_append _ _ _ _ _ HI).
Qed.

Lemma tick_preserves quiet l pre lost s :
  race_inv quiet l pre lost s → (quiet = true → ¬ appending (race_regs s)) →
  ∃ p' w' l' pre', tick_step b ts fire s = (Race (race_regs s) p' w', Ok tt) ∧
    race_inv quiet l' pre' lost (Race (race_regs s) p' w').
Proof.
  intros HI Hna. destruct s as [regs p [c log]]. cbn [race_regs] in *.
  assert (Hts : valid_key ts = true) by apply Hset.
  pose proof (i_tick _ _ _ _ _ HI) as T. cbn in T. pose proof (i_marker _ _ _ _ _ HI) as Hm. cbn in Hm.
  destruct p as [|v|v|[|key ks]]; cbn in T.
  - destruct T as (-> & -> & -> & P).
    exists (TickGot (got (lcb_get3 b ts c).2)), ((lcb_get3 b ts c).1, []), l, l. split.
    { unfold tick_step. cbn. unfold bucketGet, mbind, prog_bind, zoom. cbn. by destruct (lcb_get3 b ts c). }
    eapply (inv_tick _ _ _ _ _ _ _ _ _ _ _ _ _ HI).
    + unfold marker_lists, marker. rewrite get_contents. exact Hm.
    + cbn. rewrite got_marker by done. rewrite (marker_lists_text b ts c l Hm), app_nil_r. done.
    + apply HI.
    + intros id _ _. split; [by intros []|]. by rewrite get_contents.
    + intros _ Ha. unfold marker. rewrite get_contents. by apply (i_append _ _ _ _ _ HI).
  - destruct (fire_inv _ _ _ _ _ _ _ _ HI) as (c' & log' & Hrun & HI').
    exists (TickCalled v), (c', log'), l, pre. split; [|exact HI'].
    unfold tick_step. cbn [race_tick race_world race_regs tick_request]. by erewrite bind_Ok by exact Hrun.
  - destruct T as (-> & Hpre & -> & P).
    exists (TickDeletes (go_split ";" EmptyString (join_term ";" pre))), ((lcb_remove3 b ts c).1, log), [], pre.
    split; [done|]. destruct (remove_effect b ts ts c) as [Hc Hn]. specialize (Hn eq_refl Hts).
    assert (Hpre' : ∀ id, id ∈ pre → id ∈ timers.*2).
    { intros id Hid. eapply (done_timers _ _ _ _ _ _ HI). cbn. rewrite P. set_solver. }
    eapply (inv_tick _ _ _ _ _ _ _ _ _ _ _ _ _ HI).
    + by right.
    + cbn. split_and!; [done| |done]. rewrite go_split_join; [set_solver|].
      apply Forall_forall. intros id (t & -> & Ht)%Hpre'%list_elem_of_fmap.
      by apply (rs_good _ _ _ _ Hset).
    + apply HI.
    + intros id (t & -> & Ht)%list_elem_of_fmap _. split; [by intros []|]. apply Hc.
      by apply (rs_good _ _ _ _ Hset).
    + intros Hq Ha. exfalso. by apply Hna; [apply Hq|].
  - exists (TickDeletes []), (c, log), l, pre. by split.
  - destruct T as (Hpre & Hks & P).
    exists (TickDeletes ks), ((lcb_remove3 b key c).1, log), l, pre. split; [done|].
    assert (Hkey : key = EmptyString ∨ key ∈ pre) by set_solver.
    assert (Hgood : ∀ id, id ∈ timers.*2 → id ≠ ts ∧ id ≠ EmptyString).
    { intros id (t & -> & Ht)%list_elem_of_fmap.
      destruct (rs_good _ _ _ _ Hset t Ht) as ((_ & _ & Hk) & Hne & _). split; [done|].
      intros E. by rewrite E in Hk. }
    destruct (remove_effect b ts key c) as [Hc _].
    assert (Em : marker b ts (lcb_remove3 b key c).1 = marker b ts c).
    { unfold marker. rewrite Hc; [done|]. intros E. destruct Hkey as [Ek|Hin]; [by rewrite E, Ek in Hts|].
      destruct (Hgood key) as [Hne _]; [|by symmetry in E]. eapply (done_timers _ _ _ _ _ _ HI). cbn. rewrite P. set_solver. }
    eapply (inv_tick _ _ _ _ _ _ _ _ _ _ _ _ _ HI).
    + unfold marker_lists. rewrite Em. exact Hm.
    + cbn. split_and!; [done|set_solver|done].
    + apply HI.
    + intros id Hid Hd. split; [done|]. apply Hc. intros ->.
      destruct Hkey as [E|Hin]; [by apply (Hgood key)|by apply Hd].
    + intros Hq Ha. rewrite Em. by apply (i_append _ _ _ _ _ HI).
Qed.

Lemma log_sub p log done l pre lost : tick_inv p log done l pre lost → log.*2 ⊆+ done.
Proof.
  destruct p; cbn; intros T.
  1-2: assert (log = []) as -> by apply T; apply submseteq_nil_l.
  - destruct T as (_ & -> & -> & ->). by apply submseteq_inserts_r.
  - destruct T as (-> & _ & ->). by apply submseteq_inserts_r.
Qed.

Lemma submseteq_NoDup (l k : list string) : l ⊆+ k → NoDup k → NoDup l.
Proof. intros (k' & ->)%submseteq_Permutation. by intros [? _]%NoDup_app. Qed.

(** ** Schedules *)

Definition is_reg (e : race_event) : bool := match e with Reg _ => true | Tick => false end.

Lemma start_inv c : marker b ts c = None → race_inv true [] [] [] (race_start timers (c, [])).
Proof.
  intros Hm. assert (Hat : ∀ r, r ∈ (λ t, Registration t ToSet) <$> timers → reg_at r = ToSet).
  { by intros r (t & -> & _)%list_elem_of_fmap. }
  split; cbn [race_start race_regs race_tick race_world fst snd].
  - rewrite <-list_fmap_compose. apply list_fmap_id.
  - by right.
  - cbn. split_and!; [done..|]. unfold registered.
    assert (filter (λ r, reg_at r = Registered) ((λ t, Registration t ToSet) <$> timers) = []) as ->; [|done].
    clear. induction timers as [|t l IH]; [done|]. exact IH.
  - set_solver.
  - intros r Hr Hne. by apply Hat in Hr.
  - intros _ (r & Hr & Ha). apply Hat in Hr. congruence.
  - done.
Qed.

Lemma inv_weaken quiet l pre lost s : race_inv quiet l pre lost s → race_inv false l pre lost s.
Proof.
  intros HI. split; try apply HI; [|done]. intros Hd. apply (i_append _ _ _ _ _ HI). intros Hdel.
  by apply Hd in Hdel.
Qed.

Notation run := (run_schedule b ts fire).

(** Any schedule at all. *)
Lemma schedule_inv es l pre lost s :
  race_inv false l pre lost s →
  ∃ s' l' pre' lost', run es s = (s', Ok tt) ∧ race_inv false l' pre' lost' s'.
Proof.
  revert l pre lost s. induction es as [|[i|] es IH]; intros l pre lost s HI.
  - by exists s, l, pre, lost.
  - destruct (reg_inv false l pre lost i s HI) as (l' & lost' & HI'); [done|]. by eapply IH.
  - destruct (tick_preserves false l pre lost s HI) as (p' & w' & l' & pre' & Hrun & HI'); [done|].
    unfold run_schedule. cbn [for_each race_step]. erewrite bind_Ok by exact Hrun. by eapply IH.
Qed.

(** Registrations only, while the tick is not at work. *)
Lemma registrations_inv es l pre s :
  Forall is_reg es → ¬ in_window (race_tick s) → race_inv true l pre [] s →
  ∃ s' l', run es s = (s', Ok tt) ∧ race_tick s' = race_tick s ∧ race_inv true l' pre [] s'.
Proof.
  intros Hes. revert l s. induction Hes as [|[i|] es Hi Hes IH]; intros l s Hw HI; [by exists s, l| |done].
  destruct (reg_inv true l pre [] i s HI) as (l' & lost' & HI'); [done|].
  assert (race_tick (reg_step b ts i s) = race_tick s) as E.
  { unfold reg_step. destruct (race_regs s !! i); [|done]. by destruct (reg_request _ _ _ _ _). }
  assert (lost' = []) as -> by by apply (i_quiet _ _ _ _ _ HI').
  destruct (IH l' (reg_step b ts i s)) as (s' & l'' & Hrun & E' & HI''); [by rewrite E|done|].
  exists s', l''. split_and!; [exact Hrun|congruence|done].
Qed.

(** How far the tick is. *)
Definition tick_rank (p : tick_phase) : nat :=
  match p with TickWaits => 0 | TickGot _ => 1 | TickCalled _ => 2 | TickDeletes _ => 3 end.

Lemma tick_advances s s' :
  tick_step b ts fire s = (s', Ok tt) → (tick_rank (race_tick s') = 3 `min` S (tick_rank (race_tick s)))%nat.
Proof.
  destruct s as [regs p [c log]]. unfold tick_step. cbn [race_tick race_world race_regs].
  destruct (tick_request b ts fire p (c, log)) as [w [p'|e]] eqn:E; [|done]. intros [= <-]. cbn.
  destruct p as [|v|v|[|k ks]]; cbn [tick_request] in E;
    try (by apply (f_equal snd) in E; cbn in E; injection E as <-).
  - apply bind_Ok_inv in E as (w1 & r & _ & E). by injection E as _ <-.
  - apply bind_Ok_inv in E as (w1 & r & _ & E). by injection E as _ <-.
Qed.

(** The tick's requests, while no registration is about to append. *)
Lemma ticks_inv n l pre s :
  ¬ appending (race_regs s) → race_inv true l pre [] s →
  ∃ p' w' l' pre', run (replicate n Tick) s = (Race (race_regs s) p' w', Ok tt) ∧
    race_inv true l' pre' [] (Race (race_regs s) p' w') ∧
    (tick_rank p' = 3 `min` (n + tick_rank (race_tick s)))%nat.
Proof.
  revert l pre s. induction n as [|n IH]; intros l pre s Hna HI.
  - exists (race_tick s), (race_world s), l, pre. split_and!; [by destruct s..|].
    destruct (race_tick s); done.
  - destruct (tick_preserves true l pre [] s HI) as (p1 & w1 & l1 & pre1 & Hrun & HI1); [done|].
    pose proof (tick_advances _ _ Hrun) as Hr. cbn [race_tick] in Hr.
    destruct (IH _ _ (Race (race_regs s) p1 w1) Hna HI1) as (p' & w' & l' & pre' & Hrun' & HI' & Hp).
    exists p', w', l', pre'. split_and!; [|exact HI'|cbn [race_tick] in Hp; lia].
    unfold run_schedule. cbn [replicate for_each race_step].
    erewrite bind_Ok by exact Hrun. exact Hrun'.
Qed.

Lemma registered_all quiet l pre lost s :
  race_inv quiet l pre lost s → Forall (λ r, reg_at r = Registered) (race_regs s) →
  registered (race_regs s) = timers.*2.
Proof.
  intros HI Hall. rewrite <-(i_timers _ _ _ _ _ HI), <-list_fmap_compose. unfold registered. f_equal.
  induction Hall as [|r regs Hr Hall IH]; [done|]. rewrite filter_cons_True by done. by rewrite IH.
Qed.

(** Ids determine timers, so what is left of the ids is left of the timers. *)
Lemma split_timers log ids :
  log ⊆ timers → log.*2 ++ ids ≡ₚ timers.*2 →
  ∃ waiting, waiting.*2 = ids ∧ log ++ waiting ≡ₚ timers.
Proof.
  intros Hlog P. destruct (Permutation_map_inv _ _ P) as (l & E & P').
  change (log.*2 ++ ids = l.*2) in E. symmetry in E. apply fmap_app_inv in E as (l1 & l2 & E1 & E2 & ->).
  exists l2. split; [done|]. rewrite P'.
  assert (log = l1) as ->; [|done].
  assert (Hl1 : l1 ⊆ timers) by (intros t Ht; rewrite P'; set_solver).
  clear P P'. revert l1 E1 Hl1. induction log as [|t log IH]; intros [|t1 l1] E1 Hl1; try done.
  cbn in E1. injection E1 as Et El. f_equal; [|apply IH; [set_solver|done|set_solver]].
  apply timer_by_id; [set_solver..|done].
Qed.
End invariant.

(** ** Properties *)

Section properties.
Context `{LcbHealthy} `{RapidJsonLaws}.
Context (b ts : string) (act : string → string → cluster → cluster) (timers : list (string * string)).

(** The run of a schedule from the start, with a log of the calls. *)
Definition race_run (es : list race_event) (c : cluster)
    : race (W := cluster * list (string * string)) * outcome unit :=
  run_schedule b ts (SendTimerCallback (logged act) (worker_handle b)) es (race_start timers (c, [])).

(** C11: a timer is called at most once.  Let any number of workers register
    timers of one second, for different documents, while the tick of that second
    runs, on servers where no request fails; let the requests of all of them
    interleave in any way.  At every moment each timer has been called at most
    once, only timers whose registration is over have been called, and the
    registered ids are those in the marker; once the marker has been deleted, they
    are the called ones, those in the marker and the lost ones, and no timer
    is in two of these. *)
Theorem timers_called_at_most_once es c :
  race_setting b ts act timers → marker b ts c = None →
  ∃ s c' log l lost, race_run es c = (s, Ok tt) ∧ race_world s = (c', log) ∧
    log ⊆ timers ∧ NoDup (log.*2) ∧ log.*2 ⊆ registered (race_regs s) ∧
    default EmptyString (marker b ts c') = join_term ";" l ∧
    match race_tick s with
    | TickDeletes _ => log.*2 ++ l ++ lost ≡ₚ registered (race_regs s) ∧ NoDup (log.*2 ++ l ++ lost)
    | _ => l ≡ₚ registered (race_regs s)
    end.
Proof.
  intros Hset Hm. destruct (schedule_inv b ts act timers Hset es [] [] [] (race_start timers (c, [])))
    as (s & l & pre & lost & Hrun & HI); [by eapply inv_weaken, start_inv|].
  pose proof (i_tick _ _ _ _ _ _ _ _ HI) as T.
  pose proof (log_sub _ _ _ _ _ _ T) as Hlog.
  pose proof (submseteq_NoDup _ _ (registered_sub _ _ _ _ _ _ _ _ HI) (rs_distinct _ _ _ _ Hset)) as Hnd.
  pose proof (i_log _ _ _ _ _ _ _ _ HI) as Hin.
  pose proof (marker_lists_text _ _ _ _ (i_marker _ _ _ _ _ _ _ _ HI)) as Hml.
  destruct (race_world s) as [c' log] eqn:E. cbn [fst snd] in *.
  exists s, c', log, l, lost. split_and!; [done..| | |done|].
  - by eapply submseteq_NoDup.
  - intros id Hid. by eapply elem_of_submseteq.
  - destruct (race_tick s) as [| | |ks]; cbn in T; try by symmetry; apply T.
    destruct T as (-> & _ & T). split; [by symmetry|by rewrite <-T].
Qed.

(** C17: no timer is lost to a tick that no append meets.  Let workers
    register timers of one second in any interleaving [es1], then let the
    tick run while no registration is between having seen the marker and
    its append, and then let the registrations go on in any interleaving
    [es2].  When all are over, the timers called and the timers that the
    marker still lists, with their documents, are together exactly the timers
    registered. *)
Theorem timers_called_or_waiting es1 n es2 c s1 s o :
  race_setting b ts act timers → marker b ts c = None →
  Forall is_reg es1 → Forall is_reg es2 →
  race_run es1 c = (s1, Ok tt) → ¬ appending (race_regs s1) →
  race_run (es1 ++ replicate n Tick ++ es2) c = (s, o) →
  (3 <= n)%nat → Forall (λ r, reg_at r = Registered) (race_regs s) →
  ∃ c' log waiting, o = Ok tt ∧ race_world s = (c', log) ∧ log ++ waiting ≡ₚ timers ∧
    default EmptyString (marker b ts c') = join_term ";" (waiting.*2) ∧
    ∀ t, t ∈ waiting → has_timer b c' t.1 t.2.
Proof.
  intros Hset Hm Hes1 Hes2 R1 Hna R Hn Hall. unfold race_run in *.
  destruct (registrations_inv b ts act timers Hset es1 [] [] (race_start timers (c, [])))
    as (s1' & l1 & R1' & E1 & HI1); [done|by intros []|by eapply start_inv|].
  assert (s1' = s1) as -> by congruence.
  destruct (ticks_inv b ts act timers Hset n l1 [] s1 Hna HI1) as (p2 & w2 & l2 & pre & R2 & HI2 & Hp).
  rewrite E1 in Hp. assert (∃ ks, p2 = TickDeletes ks) as [ks ->].
  { destruct p2; cbn [race_start race_tick tick_rank] in Hp; [lia..|eauto]. }
  destruct (registrations_inv b ts act timers Hset es2 l2 pre (Race (race_regs s1) (TickDeletes ks) w2))
    as (s3 & l & R3 & E3 & HI3); [done|by intros []|done|].
  unfold run_schedule in *. erewrite for_each_app in R by exact R1.
  erewrite for_each_app in R by exact R2. rewrite R3 in R. injection R as -> <-.
  pose proof (i_tick _ _ _ _ _ _ _ _ HI3) as T. pose proof (i_log _ _ _ _ _ _ _ _ HI3) as Hlog.
  rewrite E3 in T. cbn in T. rewrite (registered_all _ _ _ _ _ _ _ _ HI3 Hall), app_nil_r in T.
  destruct T as (<- & _ & T).
  destruct (split_timers b ts act timers Hset _ _ Hlog (Permutation_sym T)) as (waiting & El & P).
  pose proof (marker_lists_text _ _ _ _ (i_marker _ _ _ _ _ _ _ _ HI3)) as Hml.
  exists (race_world s).1, (race_world s).2, waiting.
  split_and!; [done|apply surjective_pairing|done|by rewrite El|].
  intros t Ht. assert (Hin : t ∈ timers) by (rewrite <-P; set_solver).
  rewrite <-(i_timers _ _ _ _ _ _ _ _ HI3) in Hin. apply list_elem_of_fmap in Hin as (r & -> & Hr).
  apply (i_blobs _ _ _ _ _ _ _ _ HI3 r Hr).
  - rewrite Forall_forall in Hall. by rewrite Hall.
  - intros _ Hlg. assert (Hnd : NoDup ((race_world s).2.*2 ++ waiting.*2)).
    { rewrite El, <-T. apply Hset. }
    apply NoDup_app in Hnd as (_ & Hd & _). apply (Hd (reg_id r) Hlg). unfold reg_id.
    by apply list_elem_of_fmap_2.
Qed.
End properties.

(** ** Witnesses, on the fault-free service and the small JSON reader *)

From S2P Require Import KvRef MiniJson.

Definition two_timers : list (string * string) := [("OnExpiry", "order_1"); ("Remind", "order_2")]%string.

Lemma two_timers_setting : race_setting example_bucket example_second idle two_timers.
Proof.
  split.
  - reflexivity.
  - intros t Ht. unfold two_timers in Ht. rewrite !elem_of_cons in Ht.
    destruct Ht as [-> |[-> |[]%not_elem_of_nil]]; (split; [split_and!; reflexivity|]);
      split_and!; vm_compute; congruence.
  - cbn. apply NoDup_cons; split; [set_solver|apply NoDup_singleton].
  - vm_compute. congruence.
  - by intros f arg c id _.
Qed.

(** Both workers are in the middle of a registration when the tick starts. *)
Lemma timers_called_at_most_once_witness :
  let es := [Reg 0; Reg 1; Reg 0; Reg 0; Reg 1; Reg 0; Tick; Reg 1; Tick; Tick; Reg 1; Tick] in
  ∃ s c' log l lost, race_run example_bucket example_second idle two_timers es example_start = (s, Ok tt) ∧
    race_world s = (c', log) ∧
    log ⊆ two_timers ∧ NoDup (log.*2) ∧ log.*2 ⊆ registered (race_regs s) ∧
    default EmptyString (marker example_bucket example_second c') = join_term ";" l ∧
    match race_tick s with
    | TickDeletes _ => log.*2 ++ l ++ lost ≡ₚ registered (race_regs s) ∧ NoDup (log.*2 ++ l ++ lost)
    | _ => l ≡ₚ registered (race_regs s)
    end.
Proof.
  intros es. apply (timers_called_at_most_once example_bucket example_second idle two_timers es example_start).
  - exact two_timers_setting.
  - reflexivity.
Defined.

Lemma timers_called_or_waiting_witness :
  let es1 := [Reg 0; Reg 1; Reg 0; Reg 0; Reg 0] in
  let es2 := [Reg 1; Reg 1; Reg 1] in
  let s := (race_run example_bucket example_second idle two_timers
              (es1 ++ replicate 3 Tick ++ es2) example_start).1 in
  ∃ c' log waiting, Ok tt = Ok tt ∧ race_world s = (c', log) ∧ log ++ waiting ≡ₚ two_timers ∧
    default EmptyString (marker example_bucket example_second c') = join_term ";" (waiting.*2) ∧
    ∀ t, t ∈ waiting → has_timer example_bucket c' t.1 t.2.
Proof.
  intros es1 es2 s.
  apply (timers_called_or_waiting example_bucket example_second idle two_timers es1 3 es2 example_start
           (race_run example_bucket example_second idle two_timers es1 example_start).1 s (Ok tt)).
  - exact two_timers_setting.
  - reflexivity.
  - repeat constructor.
  - repeat constructor.
  - vm_compute. reflexivity.
  - apply not_appending. vm_compute. repeat constructor; discriminate.
  - vm_compute. reflexivity.
  - lia.
  - vm_compute. repeat constructor.
Defined.

(** The other case: an append that comes after the tick's get and before
    its delete is lost.  The registration has succeeded and its document
    stays, but no marker leads to it any more and nobody has called it. *)
Theorem late_append_is_lost :
  let '(s, r) := race_run example_bucket example_second idle [("OnExpiry", "order_1")]%string
    [Reg 0; Reg 0; Reg 0; Tick; Reg 0; Tick; Tick; Tick] example_start in
  r = Ok tt ∧ registered (race_regs s) = ["order_1"%string] ∧ (race_world s).2 = [] ∧
  marker example_bucket example_second (race_world s).1 = None ∧
  has_timer example_bucket (race_world s).1 "OnExpiry" "order_1".
Proof.
  destruct (race_run _ _ _ _ _ _) as [s r] eqn:E. vm_compute in E. injection E as <- <-.
  split_and!; [reflexivity..|]. exists example_second. vm_compute. reflexivity.
Qed.

(** So is one whose worker saw the marker before the delete, if it appends
    after it: the server refuses the append, and nothing looks at the answer. *)
Theorem append_after_delete_is_lost :
  let '(s, r) := race_run example_bucket example_second idle two_timers
    [Reg 0; Reg 0; Reg 0; Reg 0; Reg 1; Reg 1; Tick; Tick; Tick; Reg 1] example_start in
  r = Ok tt ∧ registered (race_regs s) = ["order_1"; "order_2"]%string ∧
  (race_world s).2 = [("OnExpiry", "order_1")]%string ∧
  marker example_bucket example_second (race_world s).1 = None.
Proof.
  destruct (race_run _ _ _ _ _ _) as [s r] eqn:E. vm_compute in E. injection E as <- <-.
  split_and!; reflexivity.
Qed.
