(* ===== verification/GoFeed.v ===== *)
(** * The mutation feed of the Go program ([handleDcpEvent], v8_worker.go)

    Every mutation of the source bucket comes back through the feed, those of the
    handlers too.  [BucketSet] leaves a marker, named after the CAS, for each of
    its stores; the feed looks for the marker of a mutation, and skips the
    mutation and removes the marker when it is there.  The two sides meet in the
    decimal text of the CAS: libcouchbase hands out its bytes as they are on the
    wire, the Go client reads them as a big-endian number. *)

From S2P Require Import Prelude CStd StdMap Calendar Endian Kv Json V8 Engine Timers HttpResponse.
From S2P Require Import Heap Bucket N1ql Queue Mail Debug Host Worker.
#[local] Open Scope Z_scope.

(** ** Events *)

Inductive opcode : Type := DCP_MUTATION | DCP_DELETION | DCP_OTHER.

(** [mc.DcpEvent]: the fields that are used. *)
Record DcpEvent := Dcp {
  Opcode : opcode;
  Key : string;
  Value : string;
  Flags : Z;
  Cas : Z;
  Expiry : Z
}.

(** [eventMeta]. *)
Record eventMeta := EventMeta { em_Key : string; em_Type : string; em_Cas : string; em_Expiry : string }.

Definition JSONType : Z := 0x2000000.

(** [strconv.FormatUint(v, 16)]. *)
Definition hex_digit (d : Z) : ascii :=
  Ascii.ascii_of_nat (Z.to_nat (if d <? 10 then 48 + d else 87 + d)).
Fixpoint hex_go (fuel : nat) (v : Z) (acc : string) : string :=
  match fuel with
  | O => acc
  | S fuel =>
      let acc := String (hex_digit (v mod 16)) acc in
      if v / 16 =? 0 then acc else hex_go fuel (v / 16) acc
  end.
Definition FormatUint16 (v : Z) : string := hex_go 16 v EmptyString.

(** ** The Go client's requests *)

Section requests.
Context `{Lcb} {W : Type} `{!Lens W cluster}.

(** [bucket.GetRaw]: [None] is an error, of a missing document too. *)
Definition GetRaw (b k : string) : prog W (option string) :=
  r ← zoom (λ c : cluster, let '(c, r) := lcb_get3 b k c in (c, Ok r));
  mret (match r with
        | Some x => if get_rc x =? LCB_SUCCESS then Some (get_value x) else None
        | None => None
        end).

Definition Delete (b k : string) : prog W unit :=
  zoom (modify (λ c : cluster, (lcb_remove3 b k c).1)).

Lemma GetRaw_view b k w :
  GetRaw b k w
  = (update (lcb_get3 b k (view w)).1 w,
     Ok (match (lcb_get3 b k (view w)).2 with
         | Some x => if get_rc x =? LCB_SUCCESS then Some (get_value x) else None
         | None => None
         end)).
Proof. unfold GetRaw, mbind, prog_bind, zoom. by destruct (lcb_get3 b k (view w)). Qed.
End requests.

(** ** The handler of events *)

Section feed.
Context `{Lcb} `{!LcbN1ql} `{Redis} `{Curl} `{RapidJson} `{Engine}.
Context (little : bool) (now : Z) (alloc address : Z) (process : prog debug_globals unit).

(** encoding/json: a string as a JSON literal, and an event. *)
Context (quote : string → string) (marshal_event : DcpEvent → option string).

(** [json.Marshal(meta)]: a struct of strings, which never fails. *)
Definition marshal_meta (meta : eventMeta) : string :=
  let field name v := quote name +:+ ":" +:+ quote v in
  "{" +:+ field "key" (em_Key meta) +:+ "," +:+ field "type" (em_Type meta) +:+ ","
  +:+ field "cas" (em_Cas meta) +:+ "," +:+ field "expiry" (em_Expiry meta) +:+ "}".

(** [handle.SendUpdate] with its error dropped. *)
Definition feed_update (m : DcpEvent) (type doc_type : string) : prog world unit :=
  let meta := EventMeta (Key m) type (FormatUint16 (Cas m)) (dec (Expiry m)) in
  _ ← worker_send_update little now alloc address process (Value m) (marshal_meta meta) doc_type;
  mret tt.

(** [handleDcpEvent] with the metadata bucket [bucket]. *)
Definition handleDcpEvent (bucket : string) (m : DcpEvent) : prog world unit :=
  match Opcode m with
  | DCP_MUTATION =>
      let casValue := dec (Cas m) in
      marker ← GetRaw bucket casValue;
      match marker with
      | None => if Flags m =? JSONType then feed_update m "json" "json" else feed_update m "base64" "non-json"
      | Some _ => Delete bucket casValue
      end
  | DCP_DELETION =>
      let msg := default EmptyString (marshal_event m) in
      _ ← worker_send_delete little now alloc address process msg; mret tt
  | DCP_OTHER => mret tt
  end.

(** The event of the mutation that left [d] under [k]. *)
Definition mutation_of (k : string) (expiry : Z) (d : doc) : DcpEvent :=
  Dcp DCP_MUTATION k (doc_value d) (doc_flags d) (htonll_64 little (doc_cas d)) expiry.

End feed.

(** The same, in the world. *)
Lemma GetRaw_eq `{Lcb} `{!LcbN1ql} `{Redis} `{Curl} `{Engine} b k (w : world) :
  GetRaw b k w
  = (update (lcb_get3 b k (w_cluster w)).1 w,
     Ok (match (lcb_get3 b k (w_cluster w)).2 with
         | Some x => if get_rc x =? LCB_SUCCESS then Some (get_value x) else None
         | None => None
         end)).
Proof. exact (GetRaw_view b k w). Qed.

Example hex_255 : FormatUint16 0x1a2b00 = "1a2b00"%string.
Proof. reflexivity. Qed.

(** ** Writes of handlers *)

Section own_writes.
Context `{LcbHealthy} `{!LcbN1ql} `{Redis} `{Curl} `{RapidJson} `{Engine} `{!V8Laws}.
Context (little : bool) (now : Z) (alloc address : Z) (process : prog debug_globals unit).
Context (quote : string → string) (marshal_event : DcpEvent → option string).
Implicit Types w : world.

#[local] Notation handle := (handleDcpEvent little now alloc address process quote marshal_event).

(** Properties set one after the other, on objects of buckets other than the
    worker's own [wb], and the events of the documents they leave. *)
Inductive writes (wb : string) : world → list DcpEvent → world → Prop :=
  | writes_nil w : writes wb w [] w
  | writes_set w n b s v t w1 d expiry evs w2 :
      connected n b wb w → b ≠ wb → ToString v = Ok t → valid_key (c_str s) = true → slen t <= max_value →
      BucketSet little (bucket_object n) (NString s) v w = (w1, Ok (Return v)) →
      contents (w_cluster w1) b !! c_str s = Some d →
      writes wb w1 evs w2 →
      writes wb w (mutation_of little (c_str s) expiry d :: evs) w2.

Definition marker_of (e : DcpEvent) : string := dec (Cas e).

(** The marker of every event is there after the writes, which touch no other
    document of [wb]. *)
Lemma writes_markers wb w evs w' :
  writes wb w evs w' →
  (∀ e, e ∈ evs → Opcode e = DCP_MUTATION ∧ 0 <= Cas e < 2 ^ 64) ∧
  (∀ e, e ∈ evs → is_Some (contents (w_cluster w') wb !! marker_of e)) ∧
  (∀ k, is_Some (contents (w_cluster w) wb !! k) → is_Some (contents (w_cluster w') wb !! k)) ∧
  (∀ k, k ∉ marker_of <$> evs → contents (w_cluster w') wb !! k = contents (w_cluster w) wb !! k).
Proof.
  induction 1 as [w|w n b s v t w1 d expiry evs w2 Hc Hne Ht Hk Hs Hset Hd _ (IH1 & IH2 & IH3 & IH4)].
  { split_and!; [intros e []%not_elem_of_nil|intros e []%not_elem_of_nil|done|done]. }
  destruct (BucketSet_healthy little n b wb s v t w Hc Ht Hne Hk Hs) as (c & cas & cas' & E & Eb & Ew & _ & Hr).
  rewrite Hset in E. apply (f_equal fst) in E. cbn [fst] in E. subst w1.
  change (w_cluster (update c w)) with c in *. change (view w) with (w_cluster w) in *.
  rewrite Eb, lookup_insert_eq in Hd. injection Hd as <-.
  set (ev := mutation_of _ _ _ _) in *. assert (marker_of ev = cas_key little cas) as Em by done.
  split_and!.
  - intros e [->|He]%elem_of_cons; [|by apply IH1]. split; [done|]. by apply htonll_64_range.
  - intros e [->|He]%elem_of_cons; [|by apply IH2]. apply IH3. rewrite Em, Ew, lookup_insert_eq. eauto.
  - intros k Hk'. apply IH3. rewrite Ew. by apply lookup_insert_is_Some'; right.
  - intros k Hk'. rewrite fmap_cons in Hk'. apply not_elem_of_cons in Hk' as [Hk1 Hk2].
    rewrite IH4 by done. rewrite Ew, lookup_insert_ne; [done|]. by rewrite <-Em.
Qed.

(** An event whose marker is there: the marker goes, nothing else happens. *)
Lemma handle_marked wb e w :
  Opcode e = DCP_MUTATION → 0 <= Cas e < 2 ^ 64 → is_Some (contents (w_cluster w) wb !! marker_of e) →
  ∃ c : cluster,
    handle wb e w = (update c w, Ok tt) ∧
    contents c wb = delete (marker_of e) (contents (w_cluster w) wb) ∧
    (∀ b, b ≠ wb → contents c b = contents (w_cluster w) b) ∧
    c = (lcb_remove3 wb (marker_of e) (lcb_get3 wb (marker_of e) (w_cluster w)).1).1.
Proof.
  intros Ho Hr [m Hm]. assert (valid_key (marker_of e) = true) as Hk.
  { unfold marker_of. rewrite <-(htonll_64_twice little (Cas e)) by done.
    apply (cas_key_valid little). by apply htonll_64_range. }
  destruct (healthy_get wb (marker_of e) (w_cluster w) Hk) as (x & Hx & Hok).
  exists (lcb_remove3 wb (marker_of e) (lcb_get3 wb (marker_of e) (w_cluster w)).1).1.
  destruct (healthy_delete wb (marker_of e) (lcb_get3 wb (marker_of e) (w_cluster w)).1 Hk) as [Hd Hdo].
  split_and!.
  - unfold handleDcpEvent. rewrite Ho. cbv zeta. fold (marker_of e).
    assert (GetRaw wb (marker_of e) w
            = (update (lcb_get3 wb (marker_of e) (w_cluster w)).1 w, Ok (Some (get_value x)))) as E.
    { rewrite GetRaw_eq, Hx, (Hok ltac:(by exists m)). by rewrite Z.eqb_refl. }
    erewrite bind_Ok by exact E. cbv beta iota. unfold Delete. rewrite zoom_modify. by rewrite update_update.
  - rewrite Hd. by rewrite get_contents.
  - intros b Hb. by rewrite Hdo, get_contents.
  - done.
Qed.

(** A mutation without a marker goes to the handler, once. *)
Lemma handle_unmarked wb e w :
  Opcode e = DCP_MUTATION → contents (w_cluster w) wb !! marker_of e = None →
  let type := if Flags e =? JSONType then ("json", "json")%string else ("base64", "non-json")%string in
  handle wb e w
  = feed_update little now alloc address process quote e type.1 type.2
      (update (lcb_get3 wb (marker_of e) (w_cluster w)).1 w).
Proof.
  intros Ho Hn. unfold handleDcpEvent. rewrite Ho. cbv zeta. fold (marker_of e).
  erewrite bind_Ok by apply GetRaw_eq. cbv beta.
  pose proof (get_absent wb (marker_of e) (w_cluster w) Hn) as Hg. unfold get_ok in Hg.
  destruct (lcb_get3 wb (marker_of e) (w_cluster w)).2 as [x|]; [rewrite Hg|]; by destruct (Flags e =? JSONType).
Qed.

(** Between the two requests of [BucketSet] the marker is not there yet: a feed
    that is faster than the second request calls the handler for its own write. *)
Lemma early_event_is_fed_back wb b k t w expiry :
  b ≠ wb → valid_key k = true → slen t <= max_value →
  let w1 := update (lcb_store3 b (CmdStore k t LCB_SET json_flags) (w_cluster w)).1 w in
  ∃ d, contents (w_cluster w1) b !! k = Some d ∧
    let e := mutation_of little k expiry d in
    (contents (w_cluster w) wb !! marker_of e = None →
     handle wb e w1
     = feed_update little now alloc address process quote e "json" "json"
         (update (lcb_get3 wb (marker_of e) (w_cluster w1)).1 w1)).
Proof.
  intros Hne Hk Hs w1. destruct (healthy_set_response b k t json_flags (w_cluster w) Hk Hs) as (x & _ & Hb & Ho).
  change (w_cluster w1) with (lcb_store3 b (CmdStore k t LCB_SET json_flags) (w_cluster w)).1.
  eexists. split; [rewrite Hb; apply lookup_insert_eq|]. cbv zeta. intros Hn.
  rewrite handle_unmarked; [done|done|].
  change (w_cluster w1) with (lcb_store3 b (CmdStore k t LCB_SET json_flags) (w_cluster w)).1.
  by rewrite Ho by done.
Qed.

(** ** Property *)

(** C6: a handler is not called for its own writes.  Let handlers set any
    number of properties on objects of buckets other than the worker's own, by
    stores that got different CAS values, and let the feed bring the mutations
    back after all these writes and their markers, in their order, on servers
    where no request fails: no handler is called for any of them and no
    document changes, except that their markers go; when there were no markers
    of these names before the writes, the worker's bucket is as it was. *)
Theorem own_writes_are_not_fed_back wb w evs w' :
  writes wb w evs w' → NoDup (Cas <$> evs) →
  ∃ c : cluster,
    for_each (handle wb) evs w' = (update c w', Ok tt) ∧
    (∀ b, b ≠ wb → contents c b = contents (w_cluster w') b) ∧
    ((∀ e, e ∈ evs → contents (w_cluster w) wb !! dec (Cas e) = None) →
     contents c wb = contents (w_cluster w) wb).
Proof.
  intros Hw Hnd. destruct (writes_markers _ _ _ _ Hw) as (M1 & M2 & _ & M4). clear Hw.
  assert (∃ c : cluster,
    for_each (handle wb) evs w' = (update c w', Ok tt) ∧
    (∀ b, b ≠ wb → contents c b = contents (w_cluster w') b) ∧
    contents c wb = foldr (delete ∘ marker_of) (contents (w_cluster w') wb) (reverse evs)) as (c & Hc & Ho & Hwb).
  { clear M4. revert w' M2. induction evs as [|e evs IH]; intros w' M2.
    { exists (w_cluster w'). by destruct w'. }
    rewrite fmap_cons in Hnd. apply NoDup_cons in Hnd as [Hn Hnd].
    destruct (M1 e ltac:(left)) as [Hop Hr].
    destruct (handle_marked wb e w' Hop Hr (M2 e ltac:(left))) as (c1 & E1 & Hc1 & Ho1 & _).
    destruct (IH Hnd (λ e0 He, M1 e0 ltac:(by right)) (update c1 w')) as (c & E & Hoc & Hc).
    { intros e' He'. change (w_cluster (update c1 w')) with c1. rewrite Hc1, lookup_delete_ne.
      - by apply M2; right.
      - intros Em%(inj dec). apply Hn. rewrite Em. by apply list_elem_of_fmap_2. }
    exists c. change (w_cluster (update c1 w')) with c1 in *. split_and!.
    - cbn [for_each]. erewrite bind_Ok by exact E1. cbv beta. rewrite E. by rewrite update_update.
    - intros b Hb. by rewrite Hoc, Ho1.
    - rewrite Hc, Hc1. by rewrite reverse_cons, foldr_app. }
  exists c. split_and!; [done|done|]. intros Hnone. rewrite Hwb. apply map_eq. intros k.
  assert (∀ l (m : gmap string doc), foldr (delete ∘ marker_of) m l !! k
            = if decide (k ∈ marker_of <$> l) then None else m !! k) as Hfold.
  { intros l m. induction l as [|e l IH]; [done|]. cbn [foldr fmap list_fmap]. unfold compose at 1.
    destruct (decide (marker_of e = k)) as [<-|Hne].
    - rewrite lookup_delete_eq, decide_True; [done|]. left.
    - rewrite lookup_delete_ne, IH by done. apply decide_ext. rewrite elem_of_cons. naive_solver. }
  rewrite Hfold. destruct (decide (k ∈ marker_of <$> reverse evs)) as [(e & -> & He)%list_elem_of_fmap|Hk].
  - symmetry. apply Hnone. rewrite <-elem_of_reverse. done.
  - apply M4. intros (e & -> & He)%list_elem_of_fmap. apply Hk, list_elem_of_fmap_2. by rewrite elem_of_reverse.
Qed.
End own_writes.
