(* ===== verification/FeedRace.v ===== *)
(** * Writes of handlers and the feed, interleaved (bucket.cc, v8_worker.go)

    [BucketSet] stores a document and then its marker; the feed may bring the
    mutation back in between, since it runs in a goroutine of its own and
    handlers of requests and timers write too.  Here each request is one
    step, and a schedule says whose turn it is. *)

From S2P Require Import Prelude CStd StdMap Calendar Endian Kv Json V8 Engine Timers HttpResponse.
From S2P Require Import Heap Bucket N1ql Queue Mail Debug Host Worker GoFeed.
#[local] Open Scope Z_scope.

(** ** Lists with partial images *)

Section omap.
Context {A B : Type} (f : A → option B).
Implicit Types l : list A.

(** An element is replaced by one with the same image. *)
Lemma omap_insert_same l i a a' :
  l !! i = Some a → f a' = f a → omap f (<[i := a']> l) = omap f l.
Proof.
  revert i. induction l as [|x l IH]; intros [|i] Hi E; cbn in *; try done.
  - injection Hi as ->. by rewrite E.
  - destruct (f x); [f_equal|]; by apply IH.
Qed.

(** An element without an image is replaced by one that has one. *)
Lemma omap_insert_new l i a a' y :
  l !! i = Some a → f a = None → f a' = Some y → omap f (<[i := a']> l) ≡ₚ y :: omap f l.
Proof.
  revert i. induction l as [|x l IH]; intros [|i] Hi Ea Ey; cbn in *; try done.
  - injection Hi as ->. by rewrite Ea, Ey.
  - pose proof (IH i Hi Ea Ey) as P. destruct (f x) as [z|]; [|exact P].
    transitivity (z :: y :: omap f l); [by constructor|constructor].
Qed.

(** Without duplicates, an image tells the place. *)
Lemma omap_NoDup_index l i j a b y :
  NoDup (omap f l) → l !! i = Some a → l !! j = Some b → f a = Some y → f b = Some y → i = j.
Proof.
  revert i j. induction l as [|x l IH]; intros [|i] [|j] Hn Hi Hj Ea Eb; cbn in *; try done.
  - injection Hi as ->. rewrite Ea in Hn. apply NoDup_cons in Hn as [Hn _]. exfalso. apply Hn.
    apply list_elem_of_omap. exists b. split; [|done]. by eapply list_elem_of_lookup_2.
  - injection Hj as ->. rewrite Eb in Hn. apply NoDup_cons in Hn as [Hn _]. exfalso. apply Hn.
    apply list_elem_of_omap. exists a. split; [|done]. by eapply list_elem_of_lookup_2.
  - f_equal. apply IH; try done. destruct (f x); [by apply NoDup_cons in Hn as [_ ?]|done].
Qed.
End omap.

(** ** The machine *)

(** The request of [BucketSet] that comes next, with the CAS once it is known. *)
Inductive write_stage := ToStore | ToMark (cas : Z) | Marked (cas : Z).

(** What the feed has done with the mutation of a write. *)
Inductive feed_stage := Unseen | MarkerSeen | Skipped | Handled.

#[export] Instance feed_stage_eq_dec : EqDecision feed_stage.
Proof. solve_decision. Defined.

Record own_write := OwnWrite {
  ow_key : string; ow_text : string; ow_stage : write_stage; ow_feed : feed_stage
}.

Definition ow_cas (o : own_write) : option Z :=
  match ow_stage o with ToStore => None | ToMark cas | Marked cas => Some cas end.

Inductive feed_turn := Write (i : nat) | Feed (i : nat).

Section machine.
Context `{Lcb} {W : Type} `{!Lens W cluster}.
(** [b]: the bucket of the writes; [wb]: the worker's own; [deliver]: the call of
    the handler. *)
Context (little : bool) (b wb : string) (deliver : DcpEvent → prog W unit).

(** The mutation that the write with this CAS comes back as. *)
Definition own_event (o : own_write) (cas : Z) : DcpEvent :=
  mutation_of little (ow_key o) 0 (Doc (ow_text o) json_flags cas).

(** One request of [BucketSet]. *)
Definition write_request (o : own_write) (c : cluster) : write_stage * cluster :=
  match ow_stage o with
  | ToStore =>
      let '(c, r) := lcb_store3 b (CmdStore (ow_key o) (ow_text o) LCB_SET json_flags) c in
      (ToMark (set_cas r), c)
  | ToMark cas => (Marked cas, (lcb_store3 wb (CmdStore (cas_key little cas) (ow_key o) LCB_SET 0) c).1)
  | Marked cas => (Marked cas, c)
  end.

(** One request of [handleDcpEvent] for the mutation [e], and what follows it. *)
Definition feed_request (e : DcpEvent) (p : feed_stage) : prog W feed_stage :=
  match p with
  | Unseen =>
      marker ← GetRaw wb (dec (Cas e));
      match marker with
      | None => _ ← deliver e; mret Handled
      | Some _ => mret MarkerSeen
      end
  | MarkerSeen => _ ← Delete wb (dec (Cas e)); mret Skipped
  | p => mret p
  end.

Record feed_race := FeedRace { fr_writes : list own_write; fr_world : W }.

Definition turn (t : feed_turn) : prog feed_race unit := λ s,
  match t with
  | Write i =>
      match fr_writes s !! i with
      | None => (s, Ok tt)
      | Some o =>
          let '(p, c) := write_request o (view (fr_world s)) in
          (FeedRace (<[i := OwnWrite (ow_key o) (ow_text o) p (ow_feed o)]> (fr_writes s))
             (update c (fr_world s)), Ok tt)
      end
  | Feed i =>
      match o ← fr_writes s !! i; cas ← ow_cas o; Some (o, cas) with
      | None => (s, Ok tt)
      | Some (o, cas) =>
          match feed_request (own_event o cas) (ow_feed o) (fr_world s) with
          | (w, Ok p) =>
              (FeedRace (<[i := OwnWrite (ow_key o) (ow_text o) (ow_stage o) p]> (fr_writes s)) w, Ok tt)
          | (w, Fail e) => (FeedRace (fr_writes s) w, Fail e)
          end
      end
  end.

Definition run_turns : list feed_turn → prog feed_race unit := for_each turn.

Definition feed_start (sets : list (string * string)) (w : W) : feed_race :=
  FeedRace ((λ '(k, t), OwnWrite k t ToStore Unseen) <$> sets) w.
End machine.
Arguments FeedRace {_} fr_writes fr_world.

(** ** The machine and the code *)

(** A write that is left alone is [BucketSet]. *)
Lemma write_steps_alone `{LcbHeap W} `{Engine} `{!Lens W (list Bucket)} `{!Lens W js_state}
    `{!V8Laws} little deliver n b wb s v t (w : W) :
  connected n b wb w → ToString v = Ok t →
  let '(w', r) := BucketSet little (bucket_object n) (NString s) v w in
  r = Ok (Return v) ∧
  ∃ cas, run_turns little b wb deliver [Write 0; Write 0] (feed_start [(c_str s, t)] w)
         = (FeedRace [OwnWrite (c_str s) t (Marked cas) Unseen] w', Ok tt).
Proof.
  intros Hc Ht. rewrite (BucketSet_eq little n b wb s v t w Hc Ht). split; [done|].
  exists (set_cas (lcb_store3 b (CmdStore (c_str s) t LCB_SET json_flags) (view w)).2).
  unfold run_turns. cbn [for_each]. unfold mbind, prog_bind, turn, write_request. cbn.
  destruct (lcb_store3 b _ (view w)) as [c1 r]. cbn. by rewrite view_update, update_update.
Qed.

(** The feed's work on a mutation that is left alone is [handleDcpEvent]. *)
Lemma feed_steps_alone `{Lcb} `{!LcbN1ql} `{Redis} `{Curl} `{RapidJson} `{Engine}
    little now alloc address process quote marshal_event wb o cas (w : world) :
  let e := own_event little o cas in
  let deliver e := feed_update little now alloc address process quote e "json" "json" in
  handleDcpEvent little now alloc address process quote marshal_event wb e w
  = (p ← feed_request wb deliver e Unseen; _ ← feed_request wb deliver e p; mret tt) w.
Proof.
  cbn zeta. unfold handleDcpEvent, feed_request. cbn [own_event mutation_of Opcode Flags Cas doc_flags].
  change (json_flags =? JSONType) with true. cbv iota zeta.
  unfold mbind, prog_bind. destruct (GetRaw _ _ w) as [w1 [[m|]|e]]; [| |done]; cbn.
  - reflexivity.
  - by destruct (feed_update _ _ _ _ _ _ _ _ _) as [w2 [[]|e]].
Qed.

(** ** The invariant *)

Section invariant.
Context `{LcbHealthy}.
Context (little : bool) (b wb : string) (Hb : b ≠ wb).
Implicit Types c : cluster.

Notation logged_world := (cluster * list DcpEvent)%type.

(** The calls of the handler are logged. *)
Definition log_event (e : DcpEvent) : prog logged_world unit := λ w, ((w.1, w.2 ++ [e]), Ok tt).

Definition mark c cas : option doc := contents c wb !! cas_key little cas.

Definition valid_cas (cas : Z) : Prop := 0 <= cas < 2 ^ 64.

Definition write_ok c (o : own_write) : Prop :=
  (valid_key (ow_key o) = true ∧ slen (ow_text o) <= max_value) ∧
  match ow_stage o with
  | ToStore => ow_feed o = Unseen
  | ToMark cas => valid_cas cas ∧ mark c cas = None ∧ (ow_feed o = Unseen ∨ ow_feed o = Handled)
  | Marked cas => valid_cas cas ∧ (ow_feed o = Skipped ↔ mark c cas = None)
  end.

(** The mutation of a write that the handler was called for. *)
Definition handled_event (o : own_write) : option DcpEvent :=
  cas ← ow_cas o; if decide (ow_feed o = Handled) then Some (own_event little o cas) else None.

Definition cas_list (s : feed_race (W := logged_world)) : list Z := omap ow_cas (fr_writes s).

Definition feed_inv (s : feed_race (W := logged_world)) : Prop :=
  NoDup (cas_list s) →
  Forall (write_ok (fr_world s).1) (fr_writes s) ∧
  (∀ cas, valid_cas cas → cas ∉ cas_list s → mark (fr_world s).1 cas = None) ∧
  (fr_world s).2 ≡ₚ omap handled_event (fr_writes s).

(** A step of write [i] that touches no marker but its own. *)
Lemma write_ok_others c c' ws i o o' cas :
  NoDup (omap ow_cas (<[i := o']> ws)) → ws !! i = Some o → ow_cas o' = Some cas → valid_cas cas →
  (∀ k, k ≠ cas_key little cas → contents c' wb !! k = contents c wb !! k) →
  Forall (write_ok c) ws → write_ok c' o' → Forall (write_ok c') (<[i := o']> ws).
Proof.
  intros Hnd Hi Ho' Hv Hk Hall Hok. apply Forall_lookup. intros j x Hj.
  apply list_lookup_insert_Some in Hj as Hj'. destruct Hj' as [(-> & -> & _)|(Hne & Hj')]; [done|].
  rewrite Forall_lookup in Hall. specialize (Hall j x Hj') as [Hg Hx]. split; [exact Hg|].
  assert (∀ cas', ow_cas x = Some cas' → valid_cas cas' → mark c' cas' = mark c cas') as Hm.
  { intros cas' Hx' Hv'. apply Hk. intros E%cas_key_inj; [|done..]. subst cas'.
    assert (j = i); [|congruence].
    apply (omap_NoDup_index ow_cas _ j i x o' cas Hnd Hj); [|done..].
    apply list_lookup_insert_eq. by eapply lookup_lt_Some. }
  unfold ow_cas in Hm. destruct (ow_stage x) as [|cas'|cas']; [done|..];
    destruct Hx as (Hv' & Hx); by rewrite (Hm cas' eq_refl Hv').
Qed.

Notation go := (turn little b wb log_event).

(** The feed's get tells whether the document is there. *)
Lemma GetRaw_marker k (w : logged_world) :
  valid_key k = true →
  ∃ c, GetRaw wb k w = ((c, w.2), Ok (doc_value <$> contents w.1 wb !! k)) ∧
       ∀ b', contents c b' = contents w.1 b'.
Proof.
  intros Hk. exists (lcb_get3 wb k w.1).1. split; [|intros b'; apply get_contents].
  rewrite GetRaw_view. unfold view, update, log_lens. destruct (contents w.1 wb !! k) as [d|] eqn:E.
  - destruct (healthy_get_value wb k w.1 d E Hk) as (x & -> & -> & ->). by rewrite Z.eqb_refl.
  - destruct (healthy_get_absent wb k w.1 E Hk) as (x & -> & Hx). by rewrite (proj2 (Z.eqb_neq _ _) Hx).
Qed.

(** What every step has to show: the list of CAS values stays, or grows by this one. *)
Lemma inv_step s i o o' cas c' log' :
  feed_inv s → fr_writes s !! i = Some o → ow_cas o' = Some cas →
  ow_cas o = None ∨ ow_cas o = Some cas →
  (NoDup (cas_list s) → Forall (write_ok (fr_world s).1) (fr_writes s) →
   write_ok (fr_world s).1 o → (ow_cas o = None → valid_cas cas → mark (fr_world s).1 cas = None) →
   valid_cas cas ∧ write_ok c' o' ∧
   (∀ k, k ≠ cas_key little cas → contents c' wb !! k = contents (fr_world s).1 wb !! k) ∧
   (log' = (fr_world s).2 ∧ handled_event o' = handled_event o ∨
    handled_event o = None ∧ ∃ e, handled_event o' = Some e ∧ log' = (fr_world s).2 ++ [e])) →
  feed_inv (FeedRace (<[i := o']> (fr_writes s)) (c', log')).
Proof.
  intros HI Hi Hcas Hold Hstep Hnd. unfold cas_list in *. cbn [fr_writes fr_world fst snd] in *.
  assert (NoDup (omap ow_cas (fr_writes s)) ∧ (ow_cas o = None → cas ∉ omap ow_cas (fr_writes s)) ∧
          (∀ x, x ∈ omap ow_cas (<[i := o']> (fr_writes s)) ↔ x = cas ∨ x ∈ omap ow_cas (fr_writes s)))
    as (Hnd0 & Hfresh & Hin).
  { destruct Hold as [Ho|Ho].
    - pose proof (omap_insert_new ow_cas _ i o o' cas Hi Ho Hcas) as P. rewrite P in Hnd.
      apply NoDup_cons in Hnd as [Hn Hnd]. split_and!; [done|done|]. intros x. by rewrite P, elem_of_cons.
    - rewrite (omap_insert_same ow_cas _ i o o' Hi) in * by congruence. split_and!; [done|congruence|].
      intros x. split; [by right|]. intros [-> |Hx]; [|done]. apply list_elem_of_omap.
      exists o. split; [by eapply list_elem_of_lookup_2|done]. }
  destruct (HI Hnd0) as (Hall & Hn & Hlog).
  assert (write_ok (fr_world s).1 o) as Hok by (rewrite Forall_lookup in Hall; by eapply Hall).
  destruct (Hstep Hnd0 Hall Hok) as (Hv & Hok' & Hk & Hlog').
  { intros Ho Hv. apply Hn; [done|]. by apply Hfresh. }
  split_and!.
  - by eapply write_ok_others.
  - intros x Hx Hnot. rewrite Hin in Hnot. unfold mark. rewrite Hk; [apply Hn; [done|tauto]|].
    intros E%cas_key_inj; [|done..]. apply Hnot. by left.
  - destruct Hlog' as [[-> E]|(En & e & E & ->)].
    + by rewrite (omap_insert_same handled_event _ i o o' Hi E).
    + rewrite (omap_insert_new handled_event _ i o o' e Hi En E), Hlog. by rewrite Permutation_app_comm.
Qed.

Lemma write_inv i s s' : feed_inv s → go (Write i) s = (s', Ok tt) → feed_inv s'.
Proof.
  intros HI. unfold turn. destruct (fr_writes s !! i) as [o|] eqn:Hi; [|by intros [= <-]].
  destruct s as [ws [c log]]. cbn [fr_writes fr_world] in *. unfold view, update, log_lens. cbn [fst snd].
  destruct o as [key text stage fd]. unfold write_request. cbn [ow_stage ow_key ow_text ow_feed].
  destruct stage as [|cas|cas].
  - destruct (lcb_store3 b (CmdStore key text LCB_SET json_flags) c) as [c1 r] eqn:E. intros [= <-].
    assert (Hwb : ∀ k, contents c1 wb !! k = contents c wb !! k).
    { intros k. replace c1 with (lcb_store3 b (CmdStore key text LCB_SET json_flags) c).1 by (by rewrite E).
      apply (store_frame b). by left. }
    eapply (inv_step _ i _ _ (set_cas r) c1 log HI Hi); [done|by left|].
    intros Hnd Hall [Hg Hun] Hfresh. cbn in Hg, Hun. subst fd.
    assert (valid_cas (set_cas r)) as Hv.
    { destruct r as [x|]; [|done]. apply (store_response_range b (CmdStore key text LCB_SET json_flags) c).
      by rewrite E. }
    split_and!; [exact Hv| | |].
    + split; [exact Hg|]. cbn. split_and!; [exact Hv| |by left]. unfold mark. rewrite Hwb. by apply Hfresh.
    + intros k _. apply Hwb.
    + left. split; [done|]. unfold handled_event. cbn. done.
  - intros [= <-]. set (cmd := CmdStore (cas_key little cas) key LCB_SET 0).
    eapply (inv_step _ i _ _ cas _ log HI Hi); [done|by right|].
    intros Hnd Hall [Hg (Hv & Hm & Hfd)] _. cbn in Hg, Hm, Hfd.
    destruct (healthy_set wb (cas_key little cas) key 0 c) as [ca Eca];
      [by apply cas_key_valid|unfold valid_key, max_value in *; lia|]. fold cmd in Eca. split_and!.
    + exact Hv.
    + split; [exact Hg|]. cbn. split; [exact Hv|]. unfold mark. rewrite Eca, lookup_insert_eq.
      by destruct Hfd as [-> | ->].
    + intros k Hk. by rewrite Eca, lookup_insert_ne.
    + left. done.
  - intros [= <-]. by rewrite list_insert_id.
Qed.

Lemma write_ok_at s i o : feed_inv s → NoDup (cas_list s) → fr_writes s !! i = Some o → write_ok (fr_world s).1 o.
Proof.
  intros HI Hnd Hi. destruct (HI Hnd) as (Hall & _). rewrite Forall_lookup in Hall. by eapply Hall.
Qed.

(** A step of the feed on write [i], with what it does to the servers. *)
Lemma feed_moved s i o cas p c' log' :
  feed_inv s → fr_writes s !! i = Some o → ow_cas o = Some cas →
  (NoDup (cas_list s) → write_ok (fr_world s).1 o →
   let o' := OwnWrite (ow_key o) (ow_text o) (ow_stage o) p in
   write_ok c' o' ∧
   (∀ k, k ≠ cas_key little cas → contents c' wb !! k = contents (fr_world s).1 wb !! k) ∧
   (log' = (fr_world s).2 ∧ handled_event o' = handled_event o ∨
    handled_event o = None ∧ ∃ e, handled_event o' = Some e ∧ log' = (fr_world s).2 ++ [e])) →
  feed_inv (FeedRace (<[i := OwnWrite (ow_key o) (ow_text o) (ow_stage o) p]> (fr_writes s)) (c', log')).
Proof.
  intros HI Hi Hcas Hstep. eapply (inv_step s i o _ cas c' log' HI Hi); [exact Hcas|by right|].
  intros Hnd Hall Hok _. split; [|by apply Hstep].
  destruct Hok as [_ Hok]. unfold ow_cas in Hcas. destruct (ow_stage o); [done|..];
    injection Hcas as ->; apply Hok.
Qed.

Lemma valid_marker o cas c : write_ok c o → ow_cas o = Some cas → valid_key (dec (Cas (own_event little o cas))) = true.
Proof.
  intros [_ Hok] Hcas. change (valid_key (cas_key little cas) = true). apply cas_key_valid.
  unfold ow_cas in Hcas. destruct (ow_stage o); [done|..]; injection Hcas as ->; apply Hok.
Qed.

Lemma feed_step_inv i s :
  feed_inv s → NoDup (cas_list s) → ∃ s', go (Feed i) s = (s', Ok tt) ∧ feed_inv s' ∧ cas_list s' = cas_list s.
Proof.
  intros HI Hnd. unfold turn. destruct (fr_writes s !! i) as [o|] eqn:Hi; [|by exists s].
  cbn [mbind option_bind]. destruct (ow_cas o) as [cas|] eqn:Hcas; [|by exists s].
  change (Some cas ≫= λ cas, Some (o, cas)) with (Some (o, cas)). cbv beta iota.
  pose proof (write_ok_at s i o HI Hnd Hi) as Hok. pose proof (valid_marker o cas _ Hok Hcas) as Hk.
  assert (∀ p w, feed_inv (FeedRace (<[i := OwnWrite (ow_key o) (ow_text o) (ow_stage o) p]> (fr_writes s)) w) →
    ∃ s', (FeedRace (<[i := OwnWrite (ow_key o) (ow_text o) (ow_stage o) p]> (fr_writes s)) w, Ok tt)
          = (s', Ok tt) ∧ feed_inv s' ∧ cas_list s' = cas_list s) as Hdone.
  { intros p w HI'. eexists; split; [reflexivity|]. split; [exact HI'|].
    by apply (omap_insert_same ow_cas _ i o _ Hi). }
  destruct (ow_feed o) eqn:Hfd; cbn [feed_request].
  - destruct (GetRaw_marker _ (fr_world s) Hk) as (c & E & Hc).
    erewrite bind_Ok by exact E. cbv beta iota.
    assert (∀ x, mark c x = mark (fr_world s).1 x) as Hm by (intros x; unfold mark; by rewrite Hc).
    change (contents (fr_world s).1 wb !! dec (Cas (own_event little o cas))) with (mark (fr_world s).1 cas).
    destruct (mark (fr_world s).1 cas) as [d|] eqn:Em; cbn [fmap option_fmap option_map].
    + apply Hdone, (feed_moved s i o cas); [done..|]. intros _ [Hg Hst]. split_and!.
      * split; [exact Hg|]. cbn. unfold ow_cas in Hcas. destruct (ow_stage o) as [|x|x]; [done|..];
          injection Hcas as ->; [destruct Hst as (_ & Hn & _); congruence|].
        split; [apply Hst|]. by rewrite Hm, Em.
      * intros k _. by rewrite Hc.
      * left. split; [done|]. unfold handled_event. unfold ow_cas in Hcas |- *. cbn. rewrite Hfd.
        by destruct (ow_stage o).
    + erewrite bind_Ok by reflexivity.
      apply Hdone, (feed_moved s i o cas); [done..|]. intros _ [Hg Hst]. split_and!.
      * split; [exact Hg|]. cbn. unfold ow_cas in Hcas. destruct (ow_stage o) as [|x|x]; [done|..];
          injection Hcas as ->; [|exfalso; destruct Hst as (_ & Hst); rewrite Hfd in Hst; by apply Hst in Em].
        split_and!; [apply Hst| |by right]. by rewrite Hm, Em.
      * intros k _. cbn. by rewrite Hc.
      * right. unfold handled_event. unfold ow_cas in Hcas |- *. cbn. rewrite Hfd.
        destruct (ow_stage o) as [|x|x]; [done|..]; injection Hcas as ->; (split; [done|]); eauto.
  - set (mk := dec _) in *. destruct (healthy_delete wb mk (fr_world s).1 Hk) as [Hd _].
    erewrite bind_Ok by reflexivity. cbv beta.
    apply Hdone, (feed_moved s i o cas); [done..|]. intros _ [Hg Hst]. split_and!.
    + split; [exact Hg|]. cbn. unfold ow_cas in Hcas. destruct (ow_stage o) as [|x|x]; [done|..];
        injection Hcas as ->; [destruct Hst as (_ & _ & [E|E]); congruence|].
      split; [apply Hst|]. split; [intros _|done]. unfold mark, view, update, log_lens. cbn.
      rewrite Hd. apply lookup_delete_eq.
    + intros k Hne. cbn. rewrite Hd. by apply lookup_delete_ne, not_eq_sym.
    + left. split; [done|]. unfold handled_event. unfold ow_cas in Hcas |- *. cbn. rewrite Hfd.
      by destruct (ow_stage o).
  - rewrite <-Hfd. exists s. split; [|done]. destruct s as [ws w], o as [k t st fd]. cbn in *.
    by rewrite list_insert_id.
  - rewrite <-Hfd. exists s. split; [|done]. destruct s as [ws w], o as [k t st fd]. cbn in *.
    by rewrite list_insert_id.
Qed.

Notation run := (run_turns little b wb log_event).

(** The CAS values only become more. *)
Lemma turn_cas t s : NoDup (cas_list (go t s).1) → NoDup (cas_list s).
Proof.
  unfold turn. destruct t as [i|i]; (destruct (fr_writes s !! i) as [o|] eqn:Hi; [|done]).
  - destruct (write_request _ _ _ _ _) as [p c] eqn:E. unfold cas_list. cbn [fst fr_writes].
    destruct (ow_cas o) as [cas|] eqn:Hcas.
    + rewrite (omap_insert_same ow_cas _ i o _ Hi); [done|]. rewrite Hcas. unfold write_request in E.
      unfold ow_cas in *. destruct (ow_stage o); [done|..]; injection E as <- _; done.
    + unfold write_request in E. unfold ow_cas in Hcas. destruct (ow_stage o) eqn:Hst; [|done..].
      destruct (lcb_store3 _ _ _) as [c1 r]. injection E as <- _. intros Hnd.
      rewrite (omap_insert_new ow_cas _ i o _ (set_cas r) Hi) in Hnd;
        [by apply NoDup_cons in Hnd as [_ ?]|unfold ow_cas; by rewrite Hst|done].
  - cbn [mbind option_bind]. destruct (ow_cas o) as [cas|] eqn:Hcas; [|done].
    change (Some cas ≫= λ cas, Some (o, cas)) with (Some (o, cas)). cbv beta iota.
    destruct (feed_request _ _ _ _ _) as [w [p|e]]; [|done]. unfold cas_list. cbn [fst fr_writes].
    by rewrite (omap_insert_same ow_cas _ i o _ Hi).
Qed.

Lemma run_cons t es s :
  run (t :: es) s = match go t s with (s1, Ok _) => run es s1 | (s1, Fail e) => (s1, Fail e) end.
Proof. done. Qed.

Lemma run_cas es s : NoDup (cas_list (run es s).1) → NoDup (cas_list s).
Proof.
  revert s. induction es as [|t es IH]; intros s; [done|]. rewrite run_cons. intros Hnd.
  apply (turn_cas t). destruct (go t s) as [s1 [u|e]]; [by apply IH|exact Hnd].
Qed.

Lemma run_inv es s :
  feed_inv s → NoDup (cas_list (run es s).1) → (run es s).2 = Ok tt ∧ feed_inv (run es s).1.
Proof.
  revert s. induction es as [|t es IH]; intros s HI Hnd; [done|].
  pose proof (run_cas _ _ Hnd) as Hnd0. rewrite run_cons in *. destruct t as [i|i].
  - destruct (go (Write i) s) as [s1 o] eqn:E.
    assert (o = Ok tt) as ->.
    { unfold turn in E. destruct (fr_writes s !! i); [destruct (write_request _ _ _ _ _)|]; by injection E as _ <-. }
    apply IH; [|done]. by eapply write_inv.
  - destruct (feed_step_inv i s HI Hnd0) as (s1 & E & HI1 & _). rewrite E in *. by apply IH.
Qed.

Lemma start_feed_inv sets c :
  Forall (λ kt, valid_key kt.1 = true ∧ slen kt.2 <= max_value) sets →
  (∀ cas, valid_cas cas → mark c cas = None) → feed_inv (feed_start sets (c, [])).
Proof.
  intros Hs Hm _. unfold cas_list, feed_start. cbn [fr_writes fr_world fst snd]. split_and!.
  - apply Forall_fmap. eapply Forall_impl; [exact Hs|]. by intros [k t] Hk.
  - intros cas Hv _. by apply Hm.
  - assert (omap handled_event ((λ '(k, t), OwnWrite k t ToStore Unseen) <$> sets) = []) as ->; [|done].
    clear. induction sets as [|[k t] sets IH]; [done|exact IH].
Qed.
End invariant.

(** ** Property *)

(** A write that is over, and whose mutation the feed is done with. *)
Definition settled (o : own_write) : Prop :=
  (∃ cas, ow_stage o = Marked cas) ∧ (ow_feed o = Skipped ∨ ow_feed o = Handled).

Section property.
Context `{LcbHealthy}.
Context (little : bool) (b wb : string).

(** The mutation that a write has left behind its marker. *)
Definition leaked_event (c : cluster) (o : own_write) : option DcpEvent :=
  cas ← ow_cas o;
  if decide (is_Some (contents c wb !! cas_key little cas)) then Some (own_event little o cas) else None.

(** C7: for which of its own writes a handler is called.  Let handlers write
    any properties, and let the feed bring the mutations back, in any
    interleaving of the requests of both sides, on servers where no request
    fails and whose CAS values differ.  When all writes are over and all
    mutations dealt with, the handler has been called once for each of those
    writes whose marker is still in the worker's bucket, and for no other:
    either the marker did its work and is gone, or the feed was faster, the
    handler was called for its own write, and the marker stays for good. *)
Theorem own_writes_skipped_or_leaked es sets c :
  b ≠ wb → Forall (λ kt, valid_key kt.1 = true ∧ slen kt.2 <= max_value) sets →
  (∀ cas, 0 <= cas < 2 ^ 64 → contents c wb !! cas_key little cas = None) →
  let s := (run_turns little b wb log_event es (feed_start sets (c, []))).1 in
  NoDup (omap ow_cas (fr_writes s)) → Forall settled (fr_writes s) →
  (run_turns little b wb log_event es (feed_start sets (c, []))).2 = Ok tt ∧
  (fr_world s).2 ≡ₚ omap (leaked_event (fr_world s).1) (fr_writes s).
Proof.
  intros Hb Hsets Hm s Hnd Hset.
  destruct (run_inv little b wb Hb es (feed_start sets (c, []))) as [Hok HI]; [by apply start_feed_inv|done|].
  split; [exact Hok|]. fold s in HI. destruct (HI Hnd) as (Hall & _ & Hlog). rewrite Hlog.
  clear Hlog Hnd HI Hok. clearbody s. destruct s as [ws [c' log]]. cbn [fr_writes fr_world fst snd] in *.
  induction Hall as [|o ws Ho Hall IH]; [done|]. apply Forall_cons in Hset as [[(cas & Hst) Hfd] Hset].
  specialize (IH Hset). cbn [omap list_omap].
  assert (handled_event little o = leaked_event c' o) as ->; [|by destruct (leaked_event c' o); [constructor|]].
  destruct Ho as [_ Ho]. unfold handled_event, leaked_event, ow_cas. rewrite Hst in *. cbn.
  destruct Ho as [_ Ho]. unfold mark in Ho.
  destruct (contents c' wb !! cas_key little cas) as [d|] eqn:E.
  - rewrite (decide_True (P := is_Some (Some d))) by eauto. rewrite decide_True; [done|].
    destruct Hfd as [Hfd|Hfd]; [|done]. apply Ho in Hfd. congruence.
  - rewrite (decide_False (P := is_Some None)) by (by intros [? ?]). rewrite decide_False; [done|].
    intros Hh. assert (ow_feed o = Skipped) by by apply Ho. congruence.
Qed.
End property.

(** ** Witness, on the fault-free service *)

From S2P Require Import KvRef.

(** The feed overtakes the marker of the first write, not that of the second. *)
Definition race_turns : list feed_turn :=
  [Write 0; Feed 0; Write 1; Write 0; Write 1; Feed 1; Feed 1].
Definition race_sets : list (string * string) := [("ale", "true"); ("stout", "null")]%string.
Definition race_end : feed_race * outcome unit :=
  run_turns true "couchbase://localhost/beer-sample" "couchbase://localhost/eventing" log_event race_turns
    (feed_start race_sets (ref_empty : @cluster ref_lcb, [])).

Lemma own_writes_skipped_or_leaked_witness :
  race_end.2 = Ok tt ∧
  (fr_world race_end.1).2
  ≡ₚ omap (leaked_event true "couchbase://localhost/eventing" (fr_world race_end.1).1) (fr_writes race_end.1).
Proof.
  apply (own_writes_skipped_or_leaked true "couchbase://localhost/beer-sample" "couchbase://localhost/eventing"
           race_turns race_sets (ref_empty : @cluster ref_lcb)).
  - discriminate.
  - repeat constructor; vm_compute; congruence.
  - intros cas _. cbn. apply lookup_empty.
  - vm_compute. apply NoDup_cons; split; [set_solver|apply NoDup_singleton].
  - vm_compute. constructor; [split; [by eexists|by right]|].
    constructor; [split; [by eexists|by left]|constructor].
Defined.

Example race_end_log : (Key <$> (fr_world race_end.1).2) = ["ale"%string].
Proof. vm_compute. reflexivity. Qed.
