(* ===== verification/Construct.v ===== *)
(** * What the constructor builds

    The objects, handles and connection of a worker that was constructed from a
    deployment without queues, and what loading code into a worker without a
    handle can return. *)

From S2P Require Import Prelude CStd StdMap Calendar Endian Kv Json V8 Engine Timers.
From S2P Require Import HttpResponse Heap Bucket N1ql Queue Deployment Preprocess Mail Debug.
From S2P Require Import ExceptionFmt Host HostSafety Worker WorkerFacts.
#[local] Open Scope Z_scope.

Section construct.
Context `{Lcb} `{!LcbN1ql} `{Redis} `{Curl} `{RapidJson} `{Engine}.
Context (little : bool) (now : Z) (alloc address : Z) (read_file : string → option string).
Implicit Types w : world.

(** ** The loop over the buckets *)

(** The bucket made for an entry. *)
Definition entry_bucket (endpoint : string) (it : string * list string) : Bucket :=
  Bucket_new (default EmptyString (it.2 !! 0%nat)) endpoint it.1.

(** The handle after [n] objects were appended to [len]. *)
Definition handle_after (h : object_ptr) (len n : nat) : object_ptr :=
  match n with O => h | S k => Points (len + k) end.

Definition with_buckets (bs : list Bucket) w : world :=
  let x := w_worker w in
  update (set_handles (handle_after (bucket_handle x) (length (w_buckets w)) (length bs))
            (n1ql_handle x) (queue_handle x) x)
    (update (w_buckets w ++ bs) w).

Definition with_n1ql (n : N1QL) w : world :=
  let x := w_worker w in
  update (set_handles (bucket_handle x) (Points (length (w_n1qls w))) (queue_handle x) x)
    (update (w_n1qls w ++ [n]) w).

Lemma new_bucket_eq info alias w :
  (0 < length info)%nat →
  new_bucket info alias w
  = (with_buckets [entry_bucket (cb_cluster_endpoint (w_names w)) (alias, info)] w, Ok tt).
Proof.
  intros [nm Hn]%lookup_lt_is_Some. unfold new_bucket, vector_at. rewrite Hn. step. step. step. step.
  rewrite modify_worker_eq. unfold with_buckets, entry_bucket. cbn [fst snd length handle_after].
  rewrite Hn, Nat.add_0_r. reflexivity.
Qed.

Lemma with_buckets_app bs b w : with_buckets [b] (with_buckets bs w) = with_buckets (bs ++ [b]) w.
Proof.
  destruct w. unfold with_buckets. cbn. f_equal; [symmetry; apply assoc; apply _|].
  rewrite !length_app, Nat.add_0_r. cbn [length]. rewrite (Nat.add_comm (length bs) 1). reflexivity.
Qed.

Lemma with_buckets_nil w : with_buckets [] w = w.
Proof. destruct w as [???????????[]]. unfold with_buckets. cbn. by rewrite app_nil_r. Qed.

Lemma new_buckets_eq l w :
  Forall (λ it, (0 < length it.2)%nat) l →
  for_each (λ '(alias, info), new_bucket info alias) l w
  = (with_buckets (entry_bucket (cb_cluster_endpoint (w_names w)) <$> l) w, Ok tt).
Proof.
  induction l as [|[alias info] l IH] using rev_ind; intros Hl; [by rewrite with_buckets_nil|].
  apply Forall_app in Hl as [Hl [Hi _]%Forall_cons]. cbn [snd] in Hi.
  rewrite (for_each_app _ _ _ _ _ (IH Hl)). cbn [for_each]. erewrite bind_Ok by by apply new_bucket_eq.
  cbn [mret prog_ret]. rewrite with_buckets_app, fmap_app. reflexivity.
Qed.

Lemma new_n1ql_eq w :
  new_n1ql w = (with_n1ql (N1QL_new (cb_cluster_bucket (w_names w)) (cb_cluster_endpoint (w_names w)) "_n1ql") w,
                Ok tt).
Proof. unfold new_n1ql. step. step. step. by rewrite modify_worker_eq. Qed.

(** ** The loop over the queues *)

Definition with_queues (qs : list Queue) (r : redis) w : world :=
  let x := w_worker w in
  update (set_handles (bucket_handle x) (n1ql_handle x)
            (handle_after (queue_handle x) (length (w_queues w)) (length qs)) x)
    (update (w_queues w ++ qs) (update r w)).

(** A queue made for an entry: provider, endpoint, alias and name. *)
Definition entry_queue (it : string * list string) (q : Queue) : Prop :=
  provider q = c_str it.1 ∧
  c_str <$> it.2 !! 2%nat = Some (queue_alias q) ∧ c_str <$> it.2 !! 3%nat = Some (queue_name q).

Lemma Queue_new_Ok p ep alias qn w w' q :
  Queue_new p ep alias qn w = (w', Ok q) →
  (∃ r : redis, w' = update r w) ∧ provider q = c_str p ∧ queue_alias q = c_str alias ∧ queue_name q = c_str qn.
Proof.
  unfold Queue_new. destruct (split_endpoint (c_str ep)) as [[ho rest] po].
  intros (w1 & pt & [= <- _] & (w2 & c & Hc & Hr)%bind_Ok_inv)%bind_Ok_inv.
  unfold zoom in Hc. destruct (redisConnectWithTimeout _ _ _) as [r1 c1].
  apply (f_equal fst) in Hc. cbn [fst] in Hc. subst w2.
  destruct c as [[c []]|]; [done| |done].
  apply bind_Ok_inv in Hr as (w3 & [] & Hm & [= <- <-]). rewrite zoom_modify in Hm.
  apply (f_equal fst) in Hm. cbn [fst] in Hm. subst w3.
  split; [|done]. eexists. by rewrite update_update.
Qed.

Lemma new_queue_Ok info p w w' :
  new_queue info p w = (w', Ok tt) → ∃ q r, w' = with_queues [q] r w ∧ entry_queue (p, info) q.
Proof.
  unfold new_queue. destruct (vector_at info 1) as [ep|]; [|done].
  unfold vector_at. destruct (info !! 2%nat) as [al|] eqn:Ha; [|by intros (?&?&_&[=])%bind_Ok_inv].
  destruct (info !! 3%nat) as [qn|] eqn:Hn; [|by intros (?&?&_&(?&?&_&[=])%bind_Ok_inv)%bind_Ok_inv].
  intros E. erewrite bind_Ok in E by apply lift_Ok. erewrite bind_Ok in E by apply lift_Ok.
  erewrite bind_Ok in E by apply lift_Ok.
  apply bind_Ok_inv in E as (w1 & q & ([r ->] & E1 & E2 & E3)%Queue_new_Ok & E).
  erewrite bind_Ok in E by apply zoom_get. cbv beta in E. erewrite bind_Ok in E by apply zoom_put.
  rewrite modify_worker_eq in E. apply (f_equal fst) in E. cbn [fst] in E. subst w'.
  exists q, r. split.
  - unfold with_queues. cbn [length handle_after]. rewrite Nat.add_0_r. reflexivity.
  - split; [done|]. cbn [snd]. rewrite Ha, Hn. cbn. by rewrite E2, E3.
Qed.

Lemma with_queues_app qs q r r' w : with_queues [q] r (with_queues qs r' w) = with_queues (qs ++ [q]) r w.
Proof.
  destruct w. unfold with_queues. cbn. f_equal; [symmetry; apply assoc; apply _|].
  rewrite !length_app, Nat.add_0_r. cbn [length]. rewrite (Nat.add_comm (length qs) 1). reflexivity.
Qed.

Lemma with_queues_nil w : with_queues [] (w_redis w) w = w.
Proof. destruct w as [???????????[]]. unfold with_queues. cbn. by rewrite app_nil_r. Qed.

(** Whatever happens to the connections, once all queues are made they are those
    of the entries, in order. *)
Lemma new_queues_Ok l w w' :
  for_each (λ '(p, info), new_queue info p) l w = (w', Ok tt) →
  ∃ qs r, w' = with_queues qs r w ∧ Forall2 entry_queue l qs.
Proof.
  revert w'. induction l as [|[p info] l IH] using rev_ind; intros w'.
  - intros [= <-]. exists [], (w_redis w). by rewrite with_queues_nil.
  - intros E. destruct (for_each (λ '(p, info), new_queue info p) l w) as [w1 [[]|e]] eqn:Hl.
    + rewrite (for_each_app _ _ _ _ _ Hl) in E. destruct (IH _ eq_refl) as (qs & r & -> & Hqs).
      cbn [for_each] in E. apply bind_Ok_inv in E as (w2 & [] & (q & r' & Ew & Hq)%new_queue_Ok & [= <-]).
      rewrite Ew.
      exists (qs ++ [q]), r'. rewrite with_queues_app. split; [done|]. apply Forall2_app; [done|by constructor].
    + exfalso. clear IH. revert w E Hl. induction l as [|[p' i'] l IHl]; intros w; [done|].
      cbn [for_each app]. intros (w2 & [] & H1' & H2')%bind_Ok_inv Hl.
      erewrite bind_Ok in Hl by exact H1'. by apply (IHl w2).
Qed.

(** ** The loop over the components *)

Lemma in_order_components (bs qs : gmap string (list string)) :
  in_order (<["queue" := qs]> (<["buckets" := bs]> ∅) : gmap string _)%string
  = [("buckets", bs); ("queue", qs)]%string.
Proof.
  apply in_order_unique.
  - unfold key_sorted. repeat constructor.
  - intros k v. rewrite !elem_of_cons, elem_of_nil.
    destruct (decide (k = "queue"%string)) as [->|]; [|destruct (decide (k = "buckets"%string)) as [->|]].
    + rewrite lookup_insert_eq. naive_solver.
    + rewrite lookup_insert_ne, lookup_insert_eq by done. naive_solver.
    + rewrite !lookup_insert_ne, lookup_empty by congruence. naive_solver.
Qed.

Lemma component_buckets_eq bs w :
  map_Forall (λ _ v, length v = 2%nat) bs →
  component ("buckets"%string, bs) w
  = (let w1 := with_buckets (entry_bucket (cb_cluster_endpoint (w_names w)) <$> in_order bs) w in
     with_n1ql (N1QL_new (cb_cluster_bucket (w_names w)) (cb_cluster_endpoint (w_names w)) "_n1ql") w1, Ok tt).
Proof.
  intros Hbs. unfold component. rewrite (decide_True (P:=("buckets" = "buckets")%string)) by done.
  erewrite bind_Ok.
  2: { apply new_buckets_eq, Forall_forall. intros [k v] Hk%elem_of_in_order.
       specialize (Hbs k v Hk). cbn in *. lia. }
  erewrite bind_Ok by apply new_n1ql_eq.
  by rewrite (decide_False (P:=("buckets" = "queue")%string)) by done.
Qed.

Lemma component_queue_eq qs w :
  component ("queue"%string, qs) w
  = for_each (λ '(p, info), new_queue info p) (in_order qs)
      (with_n1ql (N1QL_new (cb_cluster_bucket (w_names w)) (cb_cluster_endpoint (w_names w)) "_n1ql") w).
Proof.
  unfold component. rewrite (decide_False (P:=("queue" = "buckets")%string)) by done. erewrite bind_Ok by reflexivity. cbv beta.
  erewrite bind_Ok by apply new_n1ql_eq.
  by rewrite (decide_True (P:=("queue" = "queue")%string)) by done.
Qed.

(** What a worker built from a configuration is. *)
Definition built_from (cfg : deployment_config) (bs qs : gmap string (list string)) w w' : Prop :=
  w_buckets w' = w_buckets w ++ (entry_bucket (source_endpoint cfg) <$> in_order bs) ∧
  w_n1qls w' = w_n1qls w ++ replicate 2 (N1QL_new (source_bucket cfg) (source_endpoint cfg) "_n1ql") ∧
  (∃ objs, w_queues w' = w_queues w ++ objs ∧ Forall2 entry_queue (in_order qs) objs) ∧
  bucket_handle (w_worker w') = handle_after Indeterminate (length (w_buckets w)) (length (in_order bs)) ∧
  n1ql_handle (w_worker w') = Points (S (length (w_n1qls w))) ∧
  queue_handle (w_worker w') = handle_after Indeterminate (length (w_queues w)) (length (in_order qs)) ∧
  cb_instance (w_worker w')
  = Some (worker_handle (c_str ("couchbase://" +:+ source_endpoint cfg +:+ "/" +:+ c_str (metadata_bucket cfg)))).

(** C15: whenever the constructor returns, and for a deployment without queues
    it does return, the worker has one bucket per alias, in the order of the
    aliases, one queue per provider, in the order of the providers, and, because
    the object is made once per kind of component, two query objects; each
    handle points to the last object of its class and, where there is none, is
    never assigned.  The worker's own connection is to the metadata bucket. *)
Theorem Worker_new_builds tindex app cfg w :
  ParseDeployment read_file app = Ok cfg →
  ∃ bs qs w' r,
    component_configs cfg = <["queue" := qs]> (<["buckets" := bs]> ∅)%string ∧
    worker_new read_file tindex app w = (w', r) ∧
    (qs = ∅ → r = Ok tt) ∧ (r = Ok tt → built_from cfg bs qs w w').
Proof.
  intros Hp.
  assert (∃ bs qs, component_configs cfg = <["queue" := qs]> (<["buckets" := bs]> ∅)%string ∧
          map_Forall (λ _ v, length v = 2%nat) bs) as (bs & qs & Hc & Hbs).
  { unfold ParseDeployment in Hp. destruct (rj_parse _) as [d|]; [|done].
    destruct (IsObject d); [|done]. apply config_of_document_shape in Hp as (bs & qs & ? & ? & _).
    by exists bs, qs. }
  exists bs, qs.
  destruct (worker_new read_file tindex app w) as [w' r] eqn:E. exists w', r.
  split; [done|]. split; [done|]. unfold worker_new, Worker_new in E.
  do 3 erewrite bind_Ok in E by apply zoom_put.
  erewrite bind_Ok in E by apply lift_Ok_eq, Hp. cbv beta in E.
  erewrite bind_Ok in E by apply zoom_put. rewrite Hc, in_order_components in E.
  set (w1 := update (ClusterNames _ _) _) in E. cbn [for_each] in E.
  assert (∀ (f : unit → prog world unit), ((_ ← component ("buckets"%string, bs);
             _ ← component ("queue"%string, qs); mret tt) ≫= f) w1 = (w', r) →
          ((for_each (λ '(p, info), new_queue info p) (in_order qs)) ≫= f)
            (with_n1ql (N1QL_new (source_bucket cfg) (source_endpoint cfg) "_n1ql")
              (with_n1ql (N1QL_new (source_bucket cfg) (source_endpoint cfg) "_n1ql")
                (with_buckets (entry_bucket (source_endpoint cfg) <$> in_order bs) w1))) = (w', r)) as Hloop.
  { intros f. unfold mbind, prog_bind. rewrite component_buckets_eq by done. rewrite component_queue_eq.
    cbv zeta. change (cb_cluster_endpoint (w_names w1)) with (source_endpoint cfg).
    change (cb_cluster_bucket (w_names w1)) with (source_bucket cfg).
    set (w2 := with_n1ql _ (with_buckets _ _)).
    change (cb_cluster_endpoint (w_names w2)) with (source_endpoint cfg).
    change (cb_cluster_bucket (w_names w2)) with (source_bucket cfg).
    by destruct (for_each _ _ (with_n1ql _ w2)) as [? [[]|]]. }
  apply Hloop in E. clear Hloop. set (w2 := with_n1ql _ _) in E.
  split.
  - intros ->. rewrite in_order_empty in E. by injection E as _ <-.
  - intros ->. apply bind_Ok_inv in E as (w3 & [] & (qo & r & -> & Hq)%new_queues_Ok & E).
    erewrite bind_Ok in E by apply zoom_put. rewrite modify_worker_eq in E.
    apply (f_equal fst) in E. cbn [fst] in E. subst w'.
    pose proof (Forall2_length _ _ _ Hq) as Hlen. unfold built_from. cbn. rewrite Hlen.
    split_and!; try done.
    + by rewrite <-app_assoc.
    + by exists qo.
    + by rewrite length_fmap.
    + by rewrite length_app, Nat.add_comm.
Qed.

(** ** Loading *)

(** Some handle was never assigned. *)
Definition no_handle (x : Worker) : Prop :=
  bucket_handle x = Indeterminate ∨ queue_handle x = Indeterminate.

Lemma initialize_without_handle w w' r :
  no_handle (w_worker w) → initialize_handles w ≠ (w', Ok r).
Proof.
  intros Hn E. unfold initialize_handles in E. erewrite bind_Ok in E by apply the_worker_eq.
  apply bind_Ok_inv in E as (w1 & b & [= _ Hb] & E).
  assert (queue_handle (w_worker w) = Indeterminate) as Hq.
  { destruct Hn as [Hn|Hn]; [by rewrite Hn in Hb|done]. }
  apply bind_Ok_inv in E as (w2 & ok & Hok & E). rewrite Hq in E.
  assert (ok = true) as ->.
  { unfold Bucket_Initialize, Bucket_InstallMaps in Hok.
    repeat (apply bind_Ok_inv in Hok as (? & ? & _ & Hok)). by injection Hok. }
  cbn [negb] in E. apply bind_Ok_inv in E as (w3 & n & _ & E). apply bind_Ok_inv in E as (w4 & ok & Hok' & E).
  assert (ok = true) as ->.
  { unfold N1QL_Initialize, N1QL_InstallMaps in Hok'.
    repeat (apply bind_Ok_inv in Hok' as (? & ? & _ & Hok')). by injection Hok'. }
  cbn [negb] in E. by apply bind_Ok_inv in E as (? & ? & [=] & _).
Qed.

Lemma ExecuteScript_keeps_handles script w w' ok :
  no_handle (w_worker w) → ExecuteScript little now alloc address script w = (w', ok) → no_handle (w_worker w').
Proof.
  intros Hn. rewrite ExecuteScript_eq. destruct (compile script (w_js w)) as [c|p]; [by intros [= <- _]|].
  pose proof (run_js_keeps_worker little now alloc address (w_worker w) p w eq_refl) as Hk.
  destruct (run_js little now alloc address p w) as [w2 r]. cbn [fst] in Hk. unfold has_worker in Hk.
  unfold no_handle in *. rewrite <-Hk in Hn.
  destruct r as [[v|e]|e]; intros [= <- _]; done.
Qed.

(** Whatever the code, loading that returns gives 1 or 2. *)
Lemma load_without_handle name_s source_s w w' z :
  no_handle (w_worker w) →
  worker_load little now alloc address read_file name_s source_s w = (w', Ok z) →
  z = 1 ∨ z = 2.
Proof.
  intros Hn (w1 & r & Hl & [= _ <-])%bind_Ok_inv.
  destruct (script_to_execute (LoadBuiltins read_file) source_s) as [script|] eqn:Hs.
  2: { unfold WorkerLoad in Hl. by rewrite Hs in Hl. }
  destruct (ExecuteScript little now alloc address (c_str script) (update (set_script script (w_worker w)) w))
    as [w2 ok] eqn:He.
  erewrite WorkerLoad_eq in Hl by done. apply ExecuteScript_keeps_handles in He; [|exact Hn].
  destruct ok as [[]|e]; [|injection Hl as _ <-; by left|done].
  do 4 (destruct (global_handler _ (w_js w2)); [|injection Hl as _ <-; by right]).
  by apply initialize_without_handle in Hl.
Qed.
End construct.
