(* ===== verification/Lifecycle.v ===== *)
(** * A worker's life: construction, loading and events

    The C functions as one kind of call ([entry]) and the worlds that a sequence
    of calls can reach.  Every reachable world satisfies the invariant of
    [HostSafety.v], and the handles point to objects that exist. *)

From S2P Require Import Prelude CStd StdMap Calendar Endian Kv Json V8 Engine Timers.
From S2P Require Import HttpResponse Heap Bucket N1ql Queue Deployment Preprocess Mail Debug.
From S2P Require Import ExceptionFmt Host HostSafety Worker WorkerFacts Construct.
#[local] Open Scope Z_scope.

(** ** Calls *)

(** A call of binding.h on a worker that exists. *)
Inductive entry : Type :=
  | ELoad (name_s source_s : string)
  | EUpdate (value meta type : string)
  | EDelete (msg : string)
  | EHTTPGet (http_req : string)
  | EHTTPPost (http_req : string)
  | ETimer (keys : string)
  | ELastException
  | EStartDebugger
  | EStopDebugger.

Section lifecycle.
Context `{LcbLaws} `{!LcbN1ql} `{Redis} `{Curl} `{RapidJson} `{Engine} `{!V8Laws}.
Context (little : bool) (now : Z) (alloc address : Z) (read_file : string → option string).
Context (process : prog debug_globals unit).
Implicit Types w : world.

(** The result of a call is Go's; only the world goes on. *)
Definition run_entry (e : entry) : prog world unit :=
  match e with
  | ELoad n s => _ ← worker_load little now alloc address read_file n s; mret tt
  | EUpdate v m t => _ ← worker_send_update little now alloc address process v m t; mret tt
  | EDelete m => _ ← worker_send_delete little now alloc address process m; mret tt
  | EHTTPGet r => _ ← worker_send_http_get little now alloc address r; mret tt
  | EHTTPPost r => _ ← worker_send_http_post little now alloc address r; mret tt
  | ETimer k => worker_send_timer_callback little now alloc address k
  | ELastException => _ ← worker_last_exception; mret tt
  | EStartDebugger => start_v8_debugger
  | EStopDebugger => stop_v8_debugger
  end.

(** The objects that exist before are those of other workers. *)
Definition objects_ok w : Prop :=
  Forall (λ b, (∃ conn, bucket_lcb_obj b = bucket_handle_of conn) ∧
               slot_ok (bucket_map_template_ b) MakeBucketMapTemplate) (w_buckets w) ∧
  Forall (λ n, slot_ok (n1ql_map_template_ n) MakeN1QLMapTemplate) (w_n1qls w) ∧
  Forall (λ q, slot_ok (queue_map_template_ q) MakeQueueMapTemplate) (w_queues w).

(** ** The invariant *)

Definition points_below (p : object_ptr) (n : nat) : Prop :=
  match p with Indeterminate => True | Points i => (i < n)%nat end.

Definition handles_ok w : Prop :=
  points_below (bucket_handle (w_worker w)) (length (w_buckets w)) ∧
  points_below (n1ql_handle (w_worker w)) (length (w_n1qls w)) ∧
  points_below (queue_handle (w_worker w)) (length (w_queues w)).

Definition inv w : Prop := wf w ∧ handles_ok w.

Lemma inv_same_objects w w' : same_objects w w' → inv w → inv w'.
Proof.
  intros Hs [Hw Hh]. split; [by eapply same_objects_wf|].
  destruct Hs as (E1 & E2 & E3 & _ & E5). unfold handles_ok. by rewrite E1, E2, E3, E5.
Qed.

Lemma keeps_zoom_same {T A} `{!Lens world T} (m : prog T A) :
  (∀ t w, same_objects w (update t w)) → keeps inv (zoom m).
Proof. intros Hl w Hw. unfold zoom. destruct (m (view w)). cbn. by eapply inv_same_objects. Qed.

Lemma same_objects_curl (t : curl) w : same_objects w (update t w). Proof. by destruct w. Qed.
Lemma same_objects_js (t : js_state) w : same_objects w (update t w). Proof. by destruct w. Qed.
Lemma same_objects_debug (t : debug_globals) w : same_objects w (update t w). Proof. by destruct w. Qed.

(** Reading changes nothing. *)
Lemma keeps_read {T} `{!Lens world T} : keeps inv (zoom (get (S:=T))).
Proof. intros w Hw. by rewrite zoom_get. Qed.

Lemma keeps_inv_object_at {T} `{!Lens world (list T)} i : keeps inv (object_at (T:=T) i).
Proof.
  apply keeps_bind; [apply keeps_read|]. intros l. destruct (l !! i); [apply keeps_ret|apply keeps_throw].
Qed.

Lemma keeps_inv_deref id : keeps inv (deref_lcb (W:=world) id).
Proof. intros w Hw. unfold deref_lcb. by destruct (lcb_at id w). Qed.

(** Changes of the worker that concern neither its connection nor its handles. *)
Lemma keeps_modify_worker f :
  (∀ x, cb_instance (f x) = cb_instance x ∧ bucket_handle (f x) = bucket_handle x ∧
        n1ql_handle (f x) = n1ql_handle x ∧ queue_handle (f x) = queue_handle x) →
  keeps inv (modify_worker f).
Proof.
  intros Hf w [Hw Hh]. rewrite modify_worker_eq. cbn [fst]. destruct (Hf (w_worker w)) as (E1 & E2 & E3 & E4).
  unfold inv, wf, handles_ok in *. destruct w. cbn in *. by rewrite E1, E2, E3, E4.
Qed.

(** ** Every operation keeps the invariant *)

(** Replacing one object by one of the same kind. *)
Lemma inv_set_bucket n b w (s : js_state) :
  inv w → (∃ conn, bucket_lcb_obj b = bucket_handle_of conn) ∧
          slot_ok (bucket_map_template_ b) MakeBucketMapTemplate →
  inv (update s (update (<[n := b]> (w_buckets w)) w)).
Proof.
  intros [(W1 & W2 & W3 & W4 & W5) Hh] Hb. destruct w. unfold inv, wf, handles_ok in *. cbn in *.
  rewrite length_insert. split_and!; [by apply Forall_insert|done..|apply Hh|apply Hh|apply Hh].
Qed.

Lemma inv_set_n1ql n b w (s : js_state) :
  inv w → slot_ok (n1ql_map_template_ b) MakeN1QLMapTemplate →
  inv (update s (update (<[n := b]> (w_n1qls w)) w)).
Proof.
  intros [(W1 & W2 & W3 & W4 & W5) Hh] Hb. destruct w. unfold inv, wf, handles_ok in *. cbn in *.
  rewrite length_insert. split_and!; [done|by apply Forall_insert|done..|apply Hh|apply Hh|apply Hh].
Qed.

Lemma inv_set_queue n b w (s : js_state) :
  inv w → slot_ok (queue_map_template_ b) MakeQueueMapTemplate →
  inv (update s (update (<[n := b]> (w_queues w)) w)).
Proof.
  intros [(W1 & W2 & W3 & W4 & W5) Hh] Hb. destruct w. unfold inv, wf, handles_ok in *. cbn in *.
  rewrite length_insert. split_and!; [done|done|by apply Forall_insert|done..|apply Hh|apply Hh|apply Hh].
Qed.

Lemma slot_ok_filled make : slot_ok (Some make) make.
Proof. by right. Qed.

Lemma keeps_Bucket_Initialize n : keeps inv (Bucket_Initialize n).
Proof.
  intros w Hw. unfold Bucket_Initialize, Bucket_InstallMaps.
  destruct (w_buckets w !! n) as [b|] eqn:Hn.
  - pose proof (Forall_lookup_1 _ _ _ _ (proj1 (proj1 Hw)) Hn) as [Hc Hs].
    erewrite bind_Ok by (by apply object_at_Ok). cbv beta zeta. rewrite (cached_ok _ _ Hs).
    erewrite bind_Ok by apply zoom_modify. cbv beta.
    erewrite bind_Ok by (apply lift_Ok_eq, WrapBucketMap_eq). cbv beta.
    erewrite bind_Ok by apply zoom_modify.
    apply (inv_set_bucket n); [done|]. split; [exact Hc|apply slot_ok_filled].
  - unfold object_at, mbind, prog_bind. rewrite zoom_get. change (view w) with (w_buckets w). by rewrite Hn.
Qed.

Lemma keeps_N1QL_Initialize n : keeps inv (N1QL_Initialize n).
Proof.
  intros w Hw. unfold N1QL_Initialize, N1QL_InstallMaps.
  destruct (w_n1qls w !! n) as [b|] eqn:Hn.
  - pose proof (Forall_lookup_1 _ _ _ _ (proj1 (proj2 (proj1 Hw))) Hn) as Hs. cbv beta in Hs.
    erewrite bind_Ok by (by apply object_at_Ok). cbv beta zeta. rewrite (cached_ok _ _ Hs).
    erewrite bind_Ok by apply zoom_modify. cbv beta.
    erewrite bind_Ok by (apply lift_Ok_eq, WrapN1QLMap_eq). cbv beta.
    erewrite bind_Ok by apply zoom_modify.
    apply (inv_set_n1ql n); [done|apply slot_ok_filled].
  - unfold object_at, mbind, prog_bind. rewrite zoom_get. change (view w) with (w_n1qls w). by rewrite Hn.
Qed.

Lemma keeps_Queue_Initialize n : keeps inv (Queue_Initialize n).
Proof.
  intros w Hw. unfold Queue_Initialize, InstallQueueMaps.
  destruct (w_queues w !! n) as [b|] eqn:Hn.
  - pose proof (Forall_lookup_1 _ _ _ _ (proj1 (proj2 (proj2 (proj1 Hw)))) Hn) as Hs. cbv beta in Hs.
    erewrite bind_Ok by (by apply object_at_Ok). cbv beta zeta. rewrite (cached_ok _ _ Hs).
    erewrite bind_Ok by apply zoom_modify. cbv beta.
    erewrite bind_Ok by (apply lift_Ok_eq, WrapQueueMap_eq). cbv beta.
    erewrite bind_Ok by apply zoom_modify.
    apply (inv_set_queue n); [done|apply slot_ok_filled].
  - unfold object_at, mbind, prog_bind. rewrite zoom_get. change (view w) with (w_queues w). by rewrite Hn.
Qed.

Lemma keeps_WrapHTTPResponseMap : keeps inv (WrapHTTPResponseMap (W:=world)).
Proof.
  intros w [(W1 & W2 & W3 & W4 & W5) Hh]. unfold WrapHTTPResponseMap. step.
  cbv zeta. change (http_response_map_template_ (view w)) with (http_response_map_template_ (w_http w)).
  rewrite (cached_ok _ _ W4).
  step. step. cbn [lift fst]. destruct w. unfold inv, wf, handles_ok in *. cbn in *.
  split_and!; try done; try apply Hh. apply slot_ok_filled.
Qed.

(** Takes a program apart at its binds; [known] has the lemmas on its parts. *)
Local Ltac keeps_with known :=
  repeat first
    [ known | apply keeps_ret | apply keeps_lift | apply keeps_throw | apply keeps_read | apply keeps_inv_deref
    | apply keeps_inv_object_at | apply keeps_WrapHTTPResponseMap
    | apply keeps_zoom_same, same_objects_cluster | apply keeps_zoom_same, same_objects_redis
    | apply keeps_zoom_same, same_objects_curl | apply keeps_zoom_same, same_objects_js
    | apply keeps_zoom_same, same_objects_maps | apply keeps_zoom_same, same_objects_debug
    | apply keeps_modify_worker; by intros []
    | apply keeps_for_each; intros ?
    | apply keeps_bind; [|intros ?]
    | progress cbv zeta
    | match goal with |- keeps _ (match ?x with _ => _ end) => destruct x end
    | by intros w ].
Local Ltac keeps_tac := keeps_with ltac:(fail).

Lemma keeps_host c : keeps inv (host little now alloc address c).
Proof.
  destruct c as [o name|o name v|o name|f args]; cbn [host].
  - unfold property_get, BucketGet, QueueGetCall, UnwrapQueueName, N1QLEnumGetCall, HTTPResponseGet.
    keeps_tac.
  - unfold property_set, BucketSet, HTTPBodySet. keeps_tac.
  - unfold property_delete, BucketDelete. keeps_tac.
  - unfold call_function, Print, SendMail, PostMail. keeps_tac.
Qed.

Lemma keeps_run_js p : keeps inv (run_js little now alloc address p).
Proof.
  induction p as [s v|s e|c k IH]; cbn [run_js]; [keeps_tac..|].
  apply keeps_bind; [apply keeps_host|exact IH].
Qed.

Lemma keeps_Call f args : keeps inv (Call little now alloc address f args).
Proof. unfold Call. keeps_with ltac:(apply keeps_run_js). Qed.

Lemma keeps_after_handler : keeps inv (after_handler process).
Proof. unfold after_handler, the_worker. keeps_tac. Qed.

Lemma keeps_ExecuteScript script : keeps inv (ExecuteScript little now alloc address script).
Proof. unfold ExecuteScript. keeps_with ltac:(apply keeps_run_js). Qed.

Lemma keeps_initialize_handles : keeps inv initialize_handles.
Proof.
  unfold initialize_handles, the_worker.
  keeps_with ltac:(first [apply keeps_Bucket_Initialize|apply keeps_N1QL_Initialize|apply keeps_Queue_Initialize]).
Qed.

Lemma keeps_WorkerLoad n s : keeps inv (WorkerLoad little now alloc address read_file n s).
Proof.
  unfold WorkerLoad. keeps_with ltac:(first [apply keeps_ExecuteScript|apply keeps_initialize_handles]).
Qed.

Lemma keeps_log_parse_failure c : keeps inv (log_parse_failure c).
Proof. unfold log_parse_failure. keeps_tac. Qed.

Lemma keeps_SendHTTP h r : keeps inv (SendHTTP little now alloc address h r).
Proof.
  unfold SendHTTP, clear_body, ConvertMapToJson, the_worker.
  keeps_with ltac:(first [apply keeps_log_parse_failure|apply keeps_Call]).
Qed.

Lemma keeps_call_global f id : keeps inv (call_global little now alloc address f id).
Proof. unfold call_global. keeps_with ltac:(apply keeps_Call). Qed.

Lemma keeps_timer_loop (act : string → string → prog world unit) h keys :
  (∀ f id, keeps inv (act f id)) → keeps inv (timer_loop act h keys).
Proof.
  intros Ha. induction keys as [|k keys IH]; cbn [timer_loop]; [apply keeps_ret|].
  keeps_with ltac:(first [apply Ha|apply IH]).
Qed.

(** Every call keeps the invariant, however it ends. *)
Lemma keeps_run_entry e : keeps inv (run_entry e).
Proof.
  destruct e; cbn [run_entry]; try (apply keeps_bind; [|intros ?; apply keeps_ret]).
  - apply keeps_bind; [apply keeps_WorkerLoad|]. intros ?. apply keeps_ret.
  - apply keeps_bind; [|intros ?; apply keeps_ret]. unfold SendUpdate, the_worker. cbv zeta.
    keeps_with ltac:(first [apply keeps_log_parse_failure|apply keeps_Call|apply keeps_after_handler]).
  - apply keeps_bind; [|intros ?; apply keeps_ret]. unfold SendDelete, the_worker.
    keeps_with ltac:(first [apply keeps_Call|apply keeps_after_handler]).
  - apply keeps_SendHTTP.
  - apply keeps_SendHTTP.
  - unfold worker_send_timer_callback, Worker_SendTimerCallback, SendTimerCallback, the_worker.
    keeps_with ltac:(apply keeps_timer_loop, keeps_call_global).
  - unfold worker_last_exception, WorkerLastException, the_worker. keeps_tac.
  - unfold start_v8_debugger, StartV8Debugger. keeps_tac.
  - unfold stop_v8_debugger, StopV8Debugger. keeps_tac.
Qed.

(** ** Construction *)

Definition building w : Prop := objects_ok w ∧ handles_ok w.

Lemma keeps_building_zoom {T A} `{!Lens world T} (m : prog T A) :
  (∀ t w, w_buckets (update t w) = w_buckets w ∧ w_n1qls (update t w) = w_n1qls w ∧
          w_queues (update t w) = w_queues w ∧ w_worker (update t w) = w_worker w) →
  keeps building (zoom m).
Proof.
  intros Hl w Hw. unfold zoom. destruct (m (view w)) as [t r]. cbn [fst].
  destruct (Hl t w) as (E1 & E2 & E3 & E4). unfold building, objects_ok, handles_ok in *.
  by rewrite E1, E2, E3, E4.
Qed.

Lemma keeps_new_bucket info alias : keeps building (new_bucket info alias).
Proof.
  intros w [(W1 & W2 & W3) Hh]. unfold new_bucket. destruct (vector_at info 0) as [nm|e]; [|done].
  step. step. step. step. rewrite modify_worker_eq. cbn [fst].
  destruct w. unfold building, objects_ok, handles_ok in *. cbn in *. rewrite length_app. cbn [length].
  split_and!; try done; try apply Hh; [|lia].
  apply Forall_app. split; [done|]. constructor; [|done]. split; [by eexists|by left].
Qed.

Lemma keeps_new_n1ql : keeps building new_n1ql.
Proof.
  intros w [(W1 & W2 & W3) Hh]. unfold new_n1ql. step. step. step. rewrite modify_worker_eq. cbn [fst].
  destruct w. unfold building, objects_ok, handles_ok in *. cbn in *. rewrite length_app. cbn [length].
  split_and!; try done; try apply Hh; [|lia].
  apply Forall_app. split; [done|]. constructor; [by left|done].
Qed.

Lemma keeps_Queue_new p ep alias qn : keeps building (Queue_new p ep alias qn).
Proof.
  unfold Queue_new. destruct (split_endpoint (c_str ep)) as [[ho rest] po].
  apply keeps_bind; [apply keeps_lift|]. intros port. apply keeps_bind.
  - apply keeps_building_zoom. intros t w. by destruct w.
  - intros [[c []]|]; [apply keeps_throw| |apply keeps_throw].
    apply keeps_bind; [|intros ?; apply keeps_ret].
    apply keeps_building_zoom. intros t w. by destruct w.
Qed.

(** A queue that was constructed has no template yet. *)
Lemma Queue_new_slot p ep alias qn w w' q :
  Queue_new p ep alias qn w = (w', Ok q) → queue_map_template_ q = None.
Proof.
  unfold Queue_new. destruct (split_endpoint (c_str ep)) as [[ho rest] po].
  intros (w1 & pt & _ & (w2 & c & _ & Hr)%bind_Ok_inv)%bind_Ok_inv.
  destruct c as [[c []]|]; [done| |done].
  by apply bind_Ok_inv in Hr as (w3 & [] & _ & [= <- <-]).
Qed.

Lemma keeps_new_queue info p : keeps building (new_queue info p).
Proof.
  intros w Hw. unfold new_queue.
  destruct (vector_at info 1) as [ep|]; [|done]. step.
  destruct (vector_at info 2) as [al|]; [|done]. step.
  destruct (vector_at info 3) as [qn|]; [|done]. step.
  pose proof (keeps_Queue_new p ep al qn w Hw) as Hk.
  destruct (Queue_new p ep al qn w) as [w1 [q|e]] eqn:Hq; [|by erewrite bind_Fail by exact Hq].
  erewrite bind_Ok by exact Hq. cbv beta. pose proof (Queue_new_slot _ _ _ _ _ _ _ Hq) as Hs.
  cbn [fst] in Hk. destruct Hk as [(W1 & W2 & W3) Hh].
  step. step. rewrite modify_worker_eq. cbn [fst].
  clear Hq. destruct w1. unfold building, objects_ok, handles_ok in *. cbn in *. rewrite length_app. cbn [length].
  split_and!; try done; try apply Hh; [|lia].
  apply Forall_app. split; [done|]. constructor; [by left|done].
Qed.

Lemma keeps_component it : keeps building (component it).
Proof.
  destruct it as [name infos]. unfold component.
  apply keeps_bind; [destruct (decide _); [|apply keeps_ret]|intros _].
  { apply keeps_for_each. intros [alias info]. apply keeps_new_bucket. }
  apply keeps_bind; [apply keeps_new_n1ql|intros _].
  destruct (decide _); [|apply keeps_ret].
  apply keeps_for_each. intros [pr info]. apply keeps_new_queue.
Qed.

(** What the constructor leaves, when it returns. *)
Lemma Worker_new_inv w0 w tindex app :
  objects_ok w0 → Worker_new read_file tindex app w0 = (w, Ok tt) → inv w.
Proof.
  intros Ho Hr. unfold Worker_new in Hr. erewrite bind_Ok in Hr by apply zoom_put.
  set (w1 := update _ w0) in Hr. assert (building w1) as Hb by done. clearbody w1. clear Ho.
  do 2 erewrite bind_Ok in Hr by apply zoom_put.
  set (w2 := update _ (update _ w1)) in Hr. assert (building w2) as Hb2 by done. clearbody w2. clear w1 Hb.
  apply bind_Ok_inv in Hr as (w3 & cfg & [= <- _] & Hr). erewrite bind_Ok in Hr by apply zoom_put.
  set (w4 := update _ w2) in Hr. assert (building w4) as Hb4 by done. clearbody w4.
  apply bind_Ok_inv in Hr as (w5 & [] & Hc & Hr).
  pose proof (keeps_for_each building component (in_order (component_configs cfg)) keeps_component w4 Hb4) as Hb5.
  rewrite Hc in Hb5. cbn [fst] in Hb5. clear Hc.
  erewrite bind_Ok in Hr by apply zoom_put. rewrite modify_worker_eq in Hr.
  apply (f_equal fst) in Hr. cbn [fst] in Hr. subst w.
  destruct w5. unfold inv, wf, building, objects_ok, handles_ok in *. cbn in *.
  destruct Hb5 as [(W1 & W2 & W3) Hh]. split_and!; try done; try apply Hh; [by left|by eexists].
Qed.

(** ** Loading without a handle *)

(** The initialisation of the handles comes to the one that was never assigned. *)
Lemma initialize_reads_indeterminate w :
  inv w → no_handle (w_worker w) →
  ∃ w', initialize_handles w = (w', Fail (Undefined "indeterminate pointer")).
Proof.
  intros [(Wb & Wn & _) (Hb & Hn & _)] Hno. unfold initialize_handles.
  erewrite bind_Ok by apply the_worker_eq. cbv beta. unfold no_handle in Hno.
  destruct (bucket_handle (w_worker w)) as [|b]; [by eexists|]. destruct Hno as [|Hq]; [done|]. rewrite Hq.
  apply lookup_lt_is_Some in Hb as [bo Eb]. destruct (Forall_lookup_1 _ _ _ _ Wb Eb) as [_ Sb].
  step. destruct (Bucket_Initialize_eq b bo w Eb Sb) as [bs Hi].
  erewrite bind_Ok by exact Hi. cbn [negb]. set (w1 := update _ _).
  destruct (n1ql_handle (w_worker w)) as [|n]; [by eexists|].
  apply lookup_lt_is_Some in Hn as [no En]. pose proof (Forall_lookup_1 _ _ _ _ Wn En) as Sn.
  step. destruct (N1QL_Initialize_eq n no w1) as [ns Hi2]; [by destruct w|done|].
  erewrite bind_Ok by exact Hi2. cbn [negb]. by eexists.
Qed.

(** ** Property *)


(** C37: in a worker whose deployment had no bucket or no queue, no code can
    be loaded.  Whatever the code, when loading returns it returns 1 (the code
    does not compile or throws) or 2 (a handler is missing).  Code that compiles,
    runs to its end and leaves all four handlers defined, which is all that is
    asked of it, makes the worker read a pointer that was never assigned. *)
Theorem loading_needs_bucket_and_queue name_s source_s w :
  no_handle (w_worker w) →
  let load := worker_load little now alloc address read_file name_s source_s w in
  (∀ w' z, load = (w', Ok z) → z = 1 ∨ z = 2) ∧
  (∀ script p w2 v, inv w →
     script_to_execute (LoadBuiltins read_file) source_s = Some script →
     compile (c_str script) (w_js w) = inr p →
     run_js little now alloc address p (update (set_script script (w_worker w)) w) = (w2, Ok (inl v)) →
     (∀ name, name ∈ ["OnUpdate"; "OnDelete"; "OnHTTPGet"; "OnHTTPPost"]%string →
        is_Some (global_handler name (w_js w2))) →
     ∃ w', load = (w', Fail (Undefined "indeterminate pointer"))).
Proof.
  intros Hno load. split; [intros w' z; by apply load_without_handle|].
  intros script p w2 v Hw Hs Hc Hr Hg. set (w1 := update _ w) in Hr.
  assert (inv w1) as Hw1.
  { pose proof (keeps_modify_worker (set_script script) ltac:(by intros []) w Hw) as Hk.
    by rewrite modify_worker_eq in Hk. }
  assert (ExecuteScript little now alloc address (c_str script) w1 = (w2, Ok true)) as He.
  { rewrite ExecuteScript_eq. replace (w_js w1) with (w_js w) by (by destruct w). by rewrite Hc, Hr. }
  assert (no_handle (w_worker w2)) as Hno2 by (by eapply ExecuteScript_keeps_handles; [|exact He]).
  assert (inv w2) as Hw2.
  { pose proof (keeps_ExecuteScript (c_str script) w1 Hw1) as Hk. by rewrite He in Hk. }
  destruct (Hg "OnUpdate"%string ltac:(set_solver)) as [u Eu], (Hg "OnDelete"%string ltac:(set_solver)) as [d Ed],
    (Hg "OnHTTPGet"%string ltac:(set_solver)) as [g Eg], (Hg "OnHTTPPost"%string ltac:(set_solver)) as [h Eh].
  pose proof (WorkerLoad_eq little now alloc address read_file name_s source_s script w w2 (Ok true) Hs He) as Hl.
  cbn beta iota in Hl. rewrite Eu, Ed, Eg, Eh in Hl.
  destruct (initialize_reads_indeterminate (update (set_handlers u d g h (w_worker w2)) w2)) as [w' Hi]; [|done|].
  { pose proof (keeps_modify_worker (set_handlers u d g h) ltac:(by intros []) w2 Hw2) as Hk.
    by rewrite modify_worker_eq in Hk. }
  exists w'. unfold load, worker_load. apply bind_Fail. by rewrite Hl, Hi.
Qed.
End lifecycle.

(** ** What a worker can reach *)

Section reachability.
Context `{LcbLaws} `{!LcbN1ql} `{Redis} `{Curl} `{RapidJson} `{Engine} `{!V8Laws}.
Context (little : bool) (alloc address : Z) (read_file : string → option string).
Context (process : prog debug_globals unit).
Implicit Types w : world.

(** Each call has its own reading of the clock. *)
Inductive reachable : world → Prop :=
  | reach_new w0 w tindex app :
      objects_ok w0 → worker_new read_file tindex app w0 = (w, Ok tt) → reachable w
  | reach_call w now e w' :
      reachable w → run_entry little now alloc address read_file process e w = (w', Ok tt) → reachable w'.

(** C8: in every world that a worker can reach, by its construction from
    any deployment that the constructor gets through and any sequence of calls
    of the C functions, whatever the handlers do and whatever requests fail:
    every bucket has the callbacks of bucket.cc and the worker's own connection
    those of worker.cc, every template slot is empty or holds the template of
    its class, and every handle that is set points to an object that exists. *)
Theorem reachable_invariant w : reachable w → wf w ∧ handles_ok w.
Proof.
  induction 1 as [w0 w tindex app Ho Hn|w now e w' _ IH He]; [exact (Worker_new_inv read_file _ _ _ _ Ho Hn)|].
  pose proof (keeps_run_entry little now alloc address read_file process e w IH) as Hk. by rewrite He in Hk.
Qed.
End reachability.
