(* ===== verification/Terminate.v ===== *)
(** * Stopping a handler (worker.cc, [WorkerTerminateExecution])

    Elsewhere a handler is the finite tree of its calls into the binding.  Here
    it is a state machine, which may run for ever, next to a thread that calls
    [worker_terminate_execution] at any moment.  Whatever their interleaving, an
    execution that ends is the one of a finite tree, so that the theorems
    about the worker hold of handlers that are stopped.  When V8 notices a request
    is up to V8: here at any moment after it, or never. *)

From S2P Require Import Prelude CStd StdMap Calendar Endian Kv Json V8 Engine Timers.
From S2P Require Import HttpResponse Heap Bucket N1ql Queue Deployment Preprocess Mail Debug.
From S2P Require Import ExceptionFmt Host HostSafety Worker WorkerFacts Lifecycle.
#[local] Open Scope Z_scope.

(** ** JavaScript as a machine *)

Section moves.
Context `{V8}.

(** What a piece of JavaScript does next; [S]: the engine's state, [C]: its code. *)
Inductive js_move (S C : Type) : Type :=
  | Returns (s : S) (result : jsval)
  | Throws (s : S) (exception : jsval)
  | Asks (c : host_call) (k : reply → C)
  | Computes (x : C).
End moves.
Arguments Returns {_ _ _} s result.
Arguments Throws {_ _ _} s exception.
Arguments Asks {_ _ _} c k.
Arguments Computes {_ _ _} x.

(** The calls of the first [n] moves of a machine, and then the termination. *)
Fixpoint prefix_of `{V8} {S C} (next : C → js_move S C) (heap : C → S) (terminated : jsval)
    (n : nat) (x : C) : js_prog S :=
  match n with
  | O => JThrow (heap x) terminated
  | Datatypes.S n =>
      match next x with
      | Returns s v => JDone s v
      | Throws s e => JThrow s e
      | Asks c k => JHost c (λ r, prefix_of next heap terminated n (k r))
      | Computes x => prefix_of next heap terminated n x
      end
  end.

(** The inside of an engine. *)
Class Interpreter `{Engine} := {
  code : Type;
  (** A call about to start. *)
  start : jsval → list jsval → js_state → code;
  next : code → js_move js_state code;
  (** The engine's state when the code stops here. *)
  heap : code → js_state;
  (** What a [TryCatch] holds after a termination. *)
  terminated : jsval
}.

Definition prefix `{Interpreter} : nat → code → js_prog js_state := prefix_of next heap terminated.

(** An engine whose handlers are stopped or not: [stop_after] says when. *)
Class Interrupted `{Interpreter} := {
  stop_after : jsval → list jsval → js_state → nat;
  call_prefix f args s : call f args s = prefix (stop_after f args s) (start f args s)
}.

(** ** The handler's thread *)

Section thread.
Context `{Lcb} `{!LcbN1ql} `{Redis} `{Curl} `{RapidJson} `{Interpreter}.
Context (little : bool) (now : Z) (alloc address : Z).

(** [requested]: V8 has been asked to terminate the execution. *)
Inductive activity : Type :=
  | Running (x : code) (requested : bool) (w : world)
  | Ended (r : jsval + jsval) (w : world)
  | Failed (e : failure) (w : world).

Definition move (x : code) : prog world (code + (jsval + jsval)) :=
  match next x with
  | Returns s v => _ ← zoom (put s); mret (inr (inl v))
  | Throws s e => _ ← zoom (put s); mret (inr (inr e))
  | Asks c k => r ← host little now alloc address c; mret (inl (k r))
  | Computes x => mret (inl x)
  end.

Definition finish (wo : world * outcome (jsval + jsval)) : activity :=
  match wo with (w, Ok r) => Ended r w | (w, Fail e) => Failed e w end.

Definition settle (requested : bool) (wo : world * outcome (code + (jsval + jsval))) : activity :=
  match wo with
  | (w, Ok (inl x)) => Running x requested w
  | (w, Ok (inr r)) => Ended r w
  | (w, Fail e) => Failed e w
  end.

(** [V8::TerminateExecution] leaves a request for V8 to notice; a second one
    changes nothing.  A request that finds no handler running may stop the next
    one: [stop_after] allows for it. *)
Definition worker_terminate_execution (a : activity) : activity :=
  match a with Running x _ w => Running x true w | a => a end.

(** [TerminateExecution] of worker.go. *)
Definition go_TerminateExecution : activity → activity := worker_terminate_execution.

Inductive act_step : activity → activity → Prop :=
  | act_move x q w : act_step (Running x q w) (settle q (move x w))
  | act_notice x w :
      act_step (Running x true w) (Ended (inr terminated) (update (heap x) w))
  | act_request a : act_step a (worker_terminate_execution a).

(** The world of an activity. *)
Definition act_world (a : activity) : world :=
  match a with Running _ _ w | Ended _ w | Failed _ w => w end.
End thread.

(** ** Lemmas *)

Section facts.
Context `{Lcb} `{!LcbN1ql} `{Redis} `{Curl} `{RapidJson} `{Interpreter}.
Context (little : bool) (now : Z) (alloc address : Z).
Notation run := (run_js little now alloc address).
Notation step := (act_step little now alloc address).
Notation mv := (move little now alloc address).

(** One move, and the rest of the prefix. *)
Lemma run_prefix_S n x w :
  run (prefix (S n) x) w
  = match mv x w with
    | (w1, Ok (inl y)) => run (prefix n y) w1
    | (w1, Ok (inr r)) => (w1, Ok r)
    | (w1, Fail e) => (w1, Fail e)
    end.
Proof.
  unfold prefix. cbn [prefix_of]. unfold move. destruct (next x) as [s v|s e|c k|y]; [reflexivity..| |reflexivity].
  cbn [run_js]. unfold mbind, prog_bind. by destruct (host _ _ _ _ _ _) as [w1 [r|e]].
Qed.

Lemma finished_stays wo a : rtc step (finish wo) a → a = finish wo.
Proof.
  remember (finish wo) as b eqn:Eb. induction 1 as [|b a1 a Hs Hr IH]; [done|].
  assert (a1 = b) as ->; [|by apply IH]. rewrite Eb in *. destruct wo as [w [r|e]]; by inversion Hs.
Qed.

Lemma settle_finish q w1 o wo :
  rtc step (settle q (w1, o)) (finish wo) →
  match o with
  | Ok (inl y) => rtc step (Running y q w1) (finish wo)
  | Ok (inr r) => wo = (w1, Ok r)
  | Fail e => wo = (w1, Fail e)
  end.
Proof.
  destruct o as [[y|r]|e]; cbn [settle]; [done|intros E..].
  - apply (finished_stays (w1, Ok r)) in E. destruct wo as [w [r'|e]]; cbn in E; congruence.
  - apply (finished_stays (w1, Fail e)) in E. destruct wo as [w [r'|e']]; cbn in E; congruence.
Qed.

Lemma execution_is_prefix x q w wo :
  rtc step (Running x q w) (finish wo) → ∃ n, run (prefix n x) w = wo.
Proof.
  remember (Running x q w) as a eqn:Ea. remember (finish wo) as b eqn:Eb. intros Hr. revert x q w Ea Eb.
  induction Hr as [a|a a1 b Hs Hr IH]; intros x q w Ea Eb.
  { subst a. destruct wo as [w' [r|e]]; done. }
  subst a b. inversion Hs as [x' q' w'|x' w'|a']; subst; clear Hs.
  - destruct (mv x w) as [w1 o] eqn:Em. apply settle_finish in Hr as Hr'. destruct o as [[y|r]|e].
    1: destruct (IH y _ w1 eq_refl eq_refl) as [n Hn]; exists (S n).
    2,3: exists 1%nat; subst wo.
    all: by rewrite run_prefix_S, Em.
  - exists 0%nat. apply (finished_stays (_, Ok _)) in Hr.
    destruct wo as [w' [r|e]]; cbn in Hr; [|done]. by injection Hr as -> ->.
  - by eapply IH.
Qed.

Lemma prefix_is_execution n x w : rtc step (Running x false w) (finish (run (prefix n x) w)).
Proof.
  revert x w. induction n as [|n IH]; intros x w.
  - eapply rtc_l; [apply act_request|]. eapply rtc_l; [apply act_notice|]. apply rtc_refl.
  - eapply rtc_l; [apply act_move|]. rewrite run_prefix_S.
    destruct (mv x w) as [w1 [[y|r]|e]]; cbn [settle]; [apply IH|apply rtc_refl..].
Qed.

(** No move touches the worker's own fields. *)
Lemma move_keeps_worker y x : keeps (has_worker y) (mv x).
Proof.
  unfold move. destruct (next x) as [s v|s e|c k|z]; [| | |apply keeps_ret];
    (apply keeps_bind; [|intros ?; apply keeps_ret]).
  1-2: apply keeps_zoom_other, other_js.
  apply host_keeps_worker.
Qed.

Lemma settle_world q wo : act_world (settle q wo) = wo.1.
Proof. by destruct wo as [w [[?|?]|?]]. Qed.

(** An invariant of the moves holds at every moment. *)
Lemma step_keeps (P : world → Prop) a b :
  (∀ x, keeps P (mv x)) → (∀ s w, P w → P (update (s : js_state) w)) →
  step a b → P (act_world a) → P (act_world b).
Proof.
  intros Hm Hu [x q w|x w|a'] Ha; rewrite ?settle_world; cbn [act_world] in *; [by apply Hm|by apply Hu|by destruct a'].
Qed.
End facts.

(** Any machine makes such an engine out of another one. *)
Section stoppable.
Context `{E : Engine} {C : Type} (start : jsval → list jsval → js_state → C) (next : C → js_move js_state C).
Context (heap : C → js_state) (terminated : jsval) (stop_after : jsval → list jsval → js_state → nat).

Definition stoppable_engine : Engine := {|
  js_state := js_state; new_context := new_context; global_get := global_get;
  global_set := global_set; compile := compile;
  call f args s := prefix_of next heap terminated (stop_after f args s) (start f args s);
  describe := describe; syntax_error := syntax_error
|}.

Definition stoppable_interpreter : Interpreter (H0 := stoppable_engine) :=
  Build_Interpreter _ stoppable_engine C start next heap terminated.

Definition stoppable_interrupted : Interrupted (H1 := stoppable_interpreter) :=
  Build_Interrupted _ stoppable_engine stoppable_interpreter stop_after (λ f args s, eq_refl).

Lemma stoppable_laws : EngineLaws (H0 := E) → EngineLaws (H0 := stoppable_engine).
Proof. intros [L1 L2 L3]. by split. Qed.
End stoppable.

(** ** Properties *)

Section properties.
Context `{Lcb} `{!LcbN1ql} `{Redis} `{Curl} `{RapidJson} `{Interpreter}.
Context (little : bool) (now : Z) (alloc address : Z).
Notation run := (run_js little now alloc address).
Notation step := (act_step little now alloc address).

(** The executions of a handler next to a thread that may call
    [worker_terminate_execution] at any moment, as far as they end, are exactly
    the runs of the finite trees that the handler's first [n] moves and a
    termination make, for all [n].  This holds of handlers that never end, too,
    and of those that stop the process. *)
Theorem interrupted_runs_are_prefixes x w wo :
  rtc step (Running x false w) (finish wo) ↔ ∃ n, run (prefix n x) w = wo.
Proof. split; [apply execution_is_prefix|]. intros [n <-]. apply prefix_is_execution. Qed.

(** An update whose handler may be stopped: what [SendUpdate] does is one of the
    executions.  It returns 7 when the handler was stopped, as when it throws. *)
Theorem SendUpdate_interrupted `{!Interrupted} process value meta type w f a0 a1 :
  on_update_ (w_worker w) = Some f → start_debug_flag (w_worker w) = false →
  (if decide (c_str type = "json"%string) then json_parse (c_str value) else Some (js_string (c_str value)))
    = Some a0 →
  json_parse (c_str meta) = Some a1 →
  ∃ wo, rtc step (Running (start f [a0; a1] (w_js w)) false w) (finish wo) ∧
    worker_send_update little now alloc address process value meta type w
    = match wo with
      | (w1, Ok r) => (marked w1, Ok (match r with inl _ => 0 | inr _ => 7 end))
      | (w1, Fail e) => (w1, Fail e)
      end.
Proof.
  intros Hu Hf Ha0 Ha1. exists (run (call f [a0; a1] (w_js w)) w). split.
  { rewrite call_prefix. apply prefix_is_execution. }
  destruct (run (call f [a0; a1] (w_js w)) w) as [w1 [r|e]] eqn:Hrun; unfold worker_send_update.
  - erewrite bind_Ok by exact (SendUpdate_eq little now alloc address process value meta type w f a0 a1 w1 r Hu Hf Ha0 Ha1 Hrun).
    by destruct r.
  - apply bind_Fail. unfold SendUpdate. rewrite Ha0, Ha1. cbn [parse_failure].
    erewrite bind_Ok by reflexivity. erewrite bind_Ok by apply the_worker_eq. cbv beta. rewrite Hu.
    apply bind_Fail. etransitivity; [exact (Call_eq little now alloc address f [a0; a1] w)|exact Hrun].
Qed.
End properties.

Section stopping.
Context `{LcbLaws} `{!LcbN1ql} `{Redis} `{Curl} `{RapidJson} `{Interpreter} `{!V8Laws}.
Context (little : bool) (now : Z) (alloc address : Z).
Notation step := (act_step little now alloc address).

Lemma keeps_move x : keeps inv (move little now alloc address x).
Proof.
  unfold move. destruct (next x) as [s v|s e|c k|z]; [| | |apply keeps_ret];
    (apply keeps_bind; [|intros ?; apply keeps_ret]).
  1-2: apply keeps_zoom_same, same_objects_js.
  apply keeps_host.
Qed.

(** At whatever moment of a handler [worker_terminate_execution] is called, and
    whenever V8 notices: at every moment the worker's own fields are those of
    before, and the worker is as sound as it was, so that the next event finds a
    worker that works. *)
Theorem terminated_worker_is_sound x q w a :
  inv w → rtc step (Running x q w) a → inv (act_world a) ∧ w_worker (act_world a) = w_worker w.
Proof.
  intros Hw. remember (Running x q w) as a0 eqn:E0. intros Hr.
  assert (inv (act_world a0) ∧ has_worker (w_worker w) (act_world a0)) as Ha by (by subst a0).
  clear E0. induction Hr as [a|a a1 b Hs Hr IH]; [apply Ha|]. apply IH.
  split; (eapply step_keeps; [| |exact Hs|apply Ha]).
  - apply keeps_move.
  - intros s w1. apply inv_same_objects, same_objects_js.
  - apply move_keeps_worker.
  - intros s w1 Hk. unfold has_worker. by rewrite other_js.
Qed.
End stopping.
