(* ===== verification/Session.v ===== *)
(** * A worker as the Go program uses it (src/worker/worker.go)

    The life of one worker: V8 is initialised once, the worker constructed,
    loaded, called and at most once disposed of.  The Go functions turn a return
    code into an error with the text of the last exception.  [Dispose] destroys
    the isolate, not the C++ object, so that functions that need no isolate still
    answer. *)

From S2P Require Import Prelude CStd StdMap Calendar Endian Kv Json V8 Engine Timers.
From S2P Require Import HttpResponse Heap Bucket N1ql Queue Deployment Preprocess Mail Debug.
From S2P Require Import ExceptionFmt Host HostSafety Worker WorkerFacts.
#[local] Open Scope Z_scope.

Section session.
Context `{Lcb} `{!LcbN1ql} `{Redis} `{Curl} `{RapidJson} `{Engine}.
Context (little : bool) (now : Z) (alloc address : Z) (read_file : string → option string).
Context (process : prog debug_globals unit) (v8_version : string).
Implicit Types w : world.

(** ** The state *)

Record session := Session {
  s_world : world;
  s_initialized : bool;   (** [V8::Initialize] *)
  s_isolate : bool;       (** the worker's isolate exists *)
  s_disposed : bool       (** Go's [disposed] *)
}.

#[export] Program Instance lens_session : Lens session world :=
  {| view := s_world; update w s := Session w (s_initialized s) (s_isolate s) (s_disposed s) |}.
Solve Obligations with by intros; repeat match goal with s : session |- _ => destruct s end.

(** ** The C functions that concern V8 as a whole *)

Definition worker_version : string := v8_version.

Definition v8_init : prog session unit :=
  modify (λ s, Session (s_world s) true (s_isolate s) (s_disposed s)).

(** A function that works on the isolate. *)
Definition with_isolate {A} (m : prog world A) : prog session A :=
  alive ← gets s_isolate;
  if alive : bool then zoom m else throw (Undefined "use of an isolate that does not exist").

Definition worker_dispose : prog session unit :=
  _ ← with_isolate (mret tt);
  modify (λ s, Session (s_world s) (s_initialized s) false (s_disposed s)).

(** ** The Go functions *)

(** [New]; [initV8Once] runs [v8_init] once per process. *)
Definition New (tableIndex : Z) (aName : string) : prog session unit :=
  initialized ← gets s_initialized;
  _ ← (if initialized : bool then mret tt else v8_init);
  _ ← zoom (worker_new read_file tableIndex aName);
  modify (λ s, Session (s_world s) (s_initialized s) true false).

Definition Dispose : prog session unit :=
  disposed ← gets s_disposed;
  if disposed : bool then throw (Uncaught "worker already disposed") else
  _ ← modify (λ s, Session (s_world s) (s_initialized s) (s_isolate s) true);
  worker_dispose.

(** [C.GoString]. *)
Definition GoString (p : char_ptr) : prog session string := lift (read_ptr p).

(** [if r != 0 { return errors.New(C.GoString(C.worker_last_exception(...))) }; return nil]. *)
Definition error_of (r : Z) : prog session (option string) :=
  if r =? 0 then mret None else
  p ← zoom worker_last_exception;
  errStr ← GoString p;
  mret (Some errStr).

Definition Load (sName codeString : string) : prog session (option string) :=
  r ← with_isolate (worker_load little now alloc address read_file sName codeString); error_of r.
Definition go_SendUpdate (v m t : string) : prog session (option string) :=
  r ← with_isolate (worker_send_update little now alloc address process v m t); error_of r.
Definition go_SendDelete (m : string) : prog session (option string) :=
  r ← with_isolate (worker_send_delete little now alloc address process m); error_of r.
Definition go_SendHTTPGet (r : string) : prog session string :=
  res ← with_isolate (worker_send_http_get little now alloc address r); GoString res.
Definition go_SendHTTPPost (r : string) : prog session string :=
  res ← with_isolate (worker_send_http_post little now alloc address r); GoString res.
Definition go_SendTimerCallback (k : string) : prog session unit :=
  with_isolate (worker_send_timer_callback little now alloc address k).
Definition go_StartV8Debugger : prog session unit := zoom start_v8_debugger.
Definition go_StopV8Debugger : prog session unit := zoom stop_v8_debugger.

(** ** Lemmas *)

Definition live (s : session) : Prop := s_isolate s = true ∧ s_disposed s = false.

Lemma with_isolate_Ok {A} (m : prog world A) s w a :
  s_isolate s = true → m (s_world s) = (w, Ok a) → with_isolate m s = (update w s, Ok a).
Proof.
  intros Hs Hm. unfold with_isolate. erewrite bind_Ok by reflexivity. cbv beta. rewrite Hs.
  by apply zoom_Ok.
Qed.

Lemma error_of_eq r s :
  error_of r s
  = (s, Ok (if r =? 0 then None else Some (c_str (last_exception (w_worker (s_world s)))))).
Proof.
  unfold error_of. destruct (r =? 0); [done|].
  assert (zoom worker_last_exception s
          = (s, Ok (Valid (c_str (last_exception (w_worker (s_world s))))))) as E.
  { unfold zoom, worker_last_exception, WorkerLastException. cbn [view lens_session].
    erewrite bind_Ok by apply the_worker_eq. by destruct s. }
  erewrite bind_Ok by exact E. cbv beta. unfold GoString. erewrite bind_Ok by reflexivity.
  cbn. by rewrite c_str_idemp.
Qed.

(** After [Dispose] the C++ object still answers, the isolate does not, and a
    second [Dispose] panics before it reaches V8. *)
Lemma Dispose_eq s :
  live s → Dispose s = (Session (s_world s) (s_initialized s) false true, Ok tt).
Proof. intros [Hi Hd]. destruct s. cbn in *. by subst. Qed.

Lemma disposed_twice s : s_disposed s = true → Dispose s = (s, Fail (Uncaught "worker already disposed")).
Proof. intros Hd. unfold Dispose. erewrite bind_Ok by reflexivity. cbv beta. by rewrite Hd. Qed.

Lemma use_after_dispose {A} (m : prog world A) s :
  s_isolate s = false → with_isolate m s = (s, Fail (Undefined "use of an isolate that does not exist")).
Proof. intros Hi. unfold with_isolate. erewrite bind_Ok by reflexivity. cbv beta. by rewrite Hi. Qed.

(** [runtime.SetFinalizer] in [New]: the collector disposes of the worker. *)
Definition finalizer : prog session unit := Dispose.

(** [Dispose] does not take the finalizer off: after an explicit [Dispose] the
    collector's call panics, and nothing recovers from that. *)
Lemma finalizer_after_dispose s :
  live s → ∃ s1, Dispose s = (s1, Ok tt) ∧ finalizer s1 = (s1, Fail (Uncaught "worker already disposed")).
Proof. intros Hl. eexists. split; [by apply Dispose_eq|]. by apply disposed_twice. Qed.

(** ** Property *)

(** What the Go program is told of one event. *)
Definition told (s : session) (r : jsval + jsval) : option string :=
  match r with inl _ => None | inr _ => Some (c_str (last_exception (w_worker (s_world s)))) end.

(** Events whose handler runs to its end, from a session on. *)
Inductive handled : session → list (prog session (option string)) → list (jsval + jsval) → session → Prop :=
  | handled_nil s : handled s [] [] s
  | handled_update s v m t f a0 a1 w1 r calls rs s' :
      on_update_ (w_worker (s_world s)) = Some f →
      (if decide (c_str t = "json"%string) then json_parse (c_str v) else Some (js_string (c_str v))) = Some a0 →
      json_parse (c_str m) = Some a1 →
      run_js little now alloc address (call f [a0; a1] (w_js (s_world s))) (s_world s) = (w1, Ok r) →
      handled (update (marked w1) s) calls rs s' → handled s (go_SendUpdate v m t :: calls) (r :: rs) s'
  | handled_delete s m f w1 r calls rs s' :
      on_delete_ (w_worker (s_world s)) = Some f →
      run_js little now alloc address (call f [js_string (c_str m)] (w_js (s_world s))) (s_world s) = (w1, Ok r) →
      handled (update (marked w1) s) calls rs s' → handled s (go_SendDelete m :: calls) (r :: rs) s'.

(** The calls one after the other, with what each returns. *)
Fixpoint in_turn {A} (calls : list (prog session A)) : prog session (list A) :=
  match calls with
  | [] => mret []
  | c :: calls => a ← c; l ← in_turn calls; mret (a :: l)
  end.

Lemma marked_worker w1 : w_worker (marked w1) = w_worker w1.
Proof. by destruct w1. Qed.

(** C36: what the Go program is told of any sequence of updates and deletions
    of a live worker with the debugger off: no error for those whose handler
    returns, and for those whose handler throws an error whose text is the last
    exception that was recorded before the first of them.  After a load without
    exceptions that text is empty: the exception a handler throws is never
    told. *)
Theorem exceptions_are_not_told s calls rs s' :
  live s → start_debug_flag (w_worker (s_world s)) = false → handled s calls rs s' →
  in_turn calls s = (s', Ok (told s <$> rs)) ∧ live s' ∧
  last_exception (w_worker (s_world s')) = last_exception (w_worker (s_world s)).
Proof.
  intros Hl Hf Hh. revert Hl Hf.
  induction Hh as [s|s v m t f a0 a1 w1 r calls rs s' Hu Ha0 Ha1 Hr _ IH|s m f w1 r calls rs s' Hu Hr _ IH];
    intros Hl Hf; [done|..].
  all: pose proof (run_keeps_worker little now alloc address _ _ _ _ Hr) as Hk.
  all: assert (w_worker (s_world (update (marked w1) s)) = w_worker (s_world s)) as Ew
    by (cbn [s_world update lens_session]; by rewrite marked_worker).
  all: rewrite Ew in IH; destruct (IH Hl Hf) as (E & Hl' & El); split; [|by split].
  all: cbn [in_turn]; unfold go_SendUpdate, go_SendDelete.
  1: assert (worker_send_update little now alloc address process v m t (s_world s)
             = (marked w1, Ok (match r with inl _ => 0 | inr _ => 7 end))) as Es
       by (unfold worker_send_update;
           erewrite bind_Ok by exact (SendUpdate_eq little now alloc address process v m t _ f a0 a1 w1 r Hu Hf Ha0 Ha1 Hr);
           by destruct r).
  2: assert (worker_send_delete little now alloc address process m (s_world s)
             = (marked w1, Ok (match r with inl _ => 0 | inr _ => 8 end))) as Es
       by (unfold worker_send_delete;
           erewrite bind_Ok by exact (SendDelete_eq little now alloc address process m _ f w1 r Hu Hf Hr);
           by destruct r).
  all: erewrite bind_Ok by (erewrite bind_Ok by (apply with_isolate_Ok; [apply Hl|exact Es]); apply error_of_eq).
  all: erewrite bind_Ok by exact E; rewrite Ew; unfold told; rewrite ?Ew; by destruct r.
Qed.
End session.

(** ** The table of workers *)

(** [workerTable], by index, and [workerTableNextAvailable]; each function holds the
    lock for its use of them.  A Go [int] has 64 bits here. *)
Record worker_table := WorkerTable { entries : gmap Z nat; next_available : Z }.

Definition go_int (z : Z) : Z := (z + 2 ^ 63) mod 2 ^ 64 - 2 ^ 63.

Inductive table_op := TableNew (w : nat) | TableDispose (index : Z).

Definition table_step (t : worker_table) (op : table_op) : worker_table :=
  match op with
  | TableNew w => WorkerTable (<[next_available t := w]> (entries t)) (go_int (next_available t + 1))
  | TableDispose index => WorkerTable (delete index (entries t)) (next_available t)
  end.

Definition workerTableLookup (t : worker_table) (index : Z) : option nat := entries t !! index.

Definition table_start : worker_table := WorkerTable ∅ 0.

Definition is_new (op : table_op) : bool := match op with TableNew _ => true | TableDispose _ => false end.

(** The index of a worker is new: none that is in the table loses its place. *)
Lemma table_index_is_new ops w :
  Z.of_nat (length (filter is_new ops)) < 2 ^ 63 - 1 →
  let t := foldl table_step table_start ops in
  workerTableLookup t (next_available t) = None ∧
  workerTableLookup (table_step t (TableNew w)) (next_available t) = Some w ∧
  ∀ i v, workerTableLookup t i = Some v → workerTableLookup (table_step t (TableNew w)) i = Some v.
Proof.
  intros Hn t.
  assert (next_available t = Z.of_nat (length (filter is_new ops)) ∧
          ∀ i, is_Some (entries t !! i) → 0 <= i < next_available t) as [Hnext Hin].
  { subst t. induction ops as [|op ops IH] using rev_ind; [by split; [|intros i []]|].
    rewrite filter_app, length_app in Hn |- *. destruct IH as [E IH]; [lia|].
    rewrite foldl_app. cbn [foldl]. set (t := foldl _ _ _) in *.
    destruct op as [w'|i']; cbn [table_step next_available entries].
    - change (length (filter is_new [TableNew w'])) with 1%nat in *.
      rewrite E in *. unfold go_int. rewrite Z.mod_small by lia. split; [lia|].
      intros i [<-|[_ Hi]]%lookup_insert_is_Some; [lia|]. apply IH in Hi. lia.
    - change (length (filter is_new [TableDispose i'])) with 0%nat in *. split; [lia|]. intros i [_ Hi]%lookup_delete_is_Some. by apply IH. }
  assert (entries t !! next_available t = None) as Hfree.
  { apply eq_None_not_Some. intros Hs%Hin. lia. }
  unfold workerTableLookup. cbn. split_and!; [done|apply lookup_insert_eq|].
  intros i v Hi. rewrite lookup_insert_ne; [done|]. congruence.
Qed.
