(* ===== verification/Redeploy.v ===== *)
(** * Redeployment of an application (app_setup.go, http_handlers.go, v8_worker.go)

    Every save of an application in the user interface starts a goroutine that
    sets a new worker up, with channels, a feed and a timer routine of its own,
    and tells the old worker to quit, which in turn tells the feed and the timer
    routine that it finds in the tables under the application's name.  The old
    and the new deployment meet in these tables, in the channels and in
    [tableLock] only.  Here each send, receive and locked region is one step, for
    one application; a schedule says whose turn it is.

    The feed of a cluster is a library's: events come from it at any time, and once
    it has been closed its channel ends, after events that may be left in it. *)

From S2P Require Import Prelude.
#[local] Open Scope nat_scope.

(** ** One deployment *)

(** Where [setUpEventingApp] and [loadApp] are. *)
Inductive setup_pc :=
  | Connecting       (** connects to the buckets *)
  | ChansSet         (** its channels are in [appDoneChans], [startBucket] runs *)
  | AppLoaded        (** its worker is in [workerTable] *)
  | Referred         (** and in [workerHTTPReferrerTable], under its port *)
  | SetUp.           (** the timer routine and [runWorker] run *)

(** Where [runWorker] is. *)
Inductive worker_pc :=
  | NoWorker
  | Serving                      (** with an event, or on its way back to the [select] *)
  | Selecting
  | GotQuit
  | QuitLocked                   (** holds [tableLock] *)
  | ToldFeed (hChans : option nat)
  | ToldTimer
  | WorkerGone                   (** returned *)
  | WorkerPanicked.              (** recovered from a panic; what it has locked stays locked *)

(** A channel of capacity 1. *)
Inductive channel := Empty | Full | Closed.

Inductive routine := NotStarted | Running | Ended.

#[export] Instance setup_pc_eq_dec : EqDecision setup_pc.
Proof. solve_decision. Defined.
#[export] Instance worker_pc_eq_dec : EqDecision worker_pc.
Proof. solve_decision. Defined.
#[export] Instance channel_eq_dec : EqDecision channel.
Proof. solve_decision. Defined.
#[export] Instance routine_eq_dec : EqDecision routine.
Proof. solve_decision. Defined.

(** Where [startBucket] is. *)
Inductive bucket_pc :=
  | NotDialled
  | Dialling         (** connects, and asks for failover logs and a feed *)
  | Receiving        (** waits for the feed of the cluster *)
  | Sending          (** has an event for [rch] *)
  | BucketGone.      (** has closed [rch] and returned *)

#[export] Instance bucket_pc_eq_dec : EqDecision bucket_pc.
Proof. solve_decision. Defined.

(** The routines [startBucket] and [startDcp] of a deployment, with the channel
    that stops the latter and the events that wait in [rch]. *)
Record feed := Feed {
  dcpStreamClose : channel;
  d_startDcp : routine;
  d_startBucket : bucket_pc;
  rch : N
}.

#[export] Instance feed_eq_dec : EqDecision feed.
Proof. solve_decision. Defined.

(** The events that [rch] has room for. *)
Definition capacity : N := 10000.

(** A deployment: the progress of its set-up and of its worker, its channels and
    its routines. *)
Record deployment := Deployment {
  d_setup : setup_pc;
  d_worker : worker_pc;
  Quit : channel;
  d_feed : feed;
  timerEventClose : channel;
  d_timers : routine
}.

#[export] Instance deployment_eq_dec : EqDecision deployment.
Proof. solve_decision. Defined.

(** A new goroutine of [setUpEventingApp]. *)
Definition new_deployment : deployment :=
  Deployment Connecting NoWorker Empty (Feed Empty NotStarted NotDialled 0) Empty NotStarted.

Definition set_worker (w : worker_pc) (d : deployment) : deployment :=
  Deployment (d_setup d) w (Quit d) (d_feed d) (timerEventClose d) (d_timers d).
Definition set_quit (q : channel) (d : deployment) : deployment :=
  Deployment (d_setup d) (d_worker d) q (d_feed d) (timerEventClose d) (d_timers d).
Definition set_feed (f : feed) (d : deployment) : deployment :=
  Deployment (d_setup d) (d_worker d) (Quit d) f (timerEventClose d) (d_timers d).
Definition set_timer (c : channel) (t : routine) (d : deployment) : deployment :=
  Deployment (d_setup d) (d_worker d) (Quit d) (d_feed d) c t.

Definition set_close (c : channel) (f : feed) : feed := Feed c (d_startDcp f) (d_startBucket f) (rch f).
Definition set_rch (n : N) (f : feed) : feed := Feed (dcpStreamClose f) (d_startDcp f) (d_startBucket f) n.

(** ** The service *)

(** Who holds [tableLock] from one step to the next. *)
Inductive holder := Saver | Quitter (i : nat).

#[export] Instance holder_eq_dec : EqDecision holder.
Proof. solve_decision. Defined.

(** The deployments of the application, by age, and what the tables have under
    its name. *)
Record service := Service {
  deployments : list deployment;
  workerTable : option nat;
  appDoneChans : option nat;
  workerHTTPReferrerTable : option nat;
  tableLock : option holder
}.

Definition start : service := Service [] None None None None.

Definition set_deployment (i : nat) (d : deployment) (s : service) : service :=
  Service (<[i := d]> (deployments s)) (workerTable s) (appDoneChans s) (workerHTTPReferrerTable s) (tableLock s).
Definition set_lock (l : option holder) (s : service) : service :=
  Service (deployments s) (workerTable s) (appDoneChans s) (workerHTTPReferrerTable s) l.
Definition set_tables (w c h : option nat) (s : service) : service :=
  Service (deployments s) w c h (tableLock s).
Definition deploy (s : service) : service :=
  Service (deployments s ++ [new_deployment]) (workerTable s) (appDoneChans s) (workerHTTPReferrerTable s) (tableLock s).

(** The steps of a feed. *)
Inductive feed_turn := Opens | Gets | Sends | Closes | FeedStops.

Definition guard (b : bool) : option unit := if b then Some tt else None.

(** startBucket: up to [go startDcp]. *)
Definition bucket_opens (f : feed) : option feed :=
  _ ← guard (bool_decide (d_startBucket f = Dialling)); Some (Feed (dcpStreamClose f) Running Receiving (rch f)).

(** Its loop: an event; one may be left in the feed of the cluster when that has
    been closed. *)
Definition bucket_gets (f : feed) : option feed :=
  _ ← guard (bool_decide (d_startBucket f = Receiving)); Some (Feed (dcpStreamClose f) (d_startDcp f) Sending (rch f)).

(** The send on [rch], which waits while there is no room. *)
Definition bucket_sends (f : feed) : option feed :=
  _ ← guard (bool_decide (d_startBucket f = Sending) && (rch f <? capacity)%N);
  Some (Feed (dcpStreamClose f) (d_startDcp f) Receiving (rch f + 1)).

(** The feed of the cluster is closed and empty. *)
Definition bucket_closes (f : feed) : option feed :=
  _ ← guard (bool_decide (d_startBucket f = Receiving) && bool_decide (d_startDcp f = Ended));
  Some (Feed (dcpStreamClose f) (d_startDcp f) BucketGone (rch f)).

(** startDcp: its [select]. *)
Definition feed_stops (f : feed) : option feed :=
  _ ← guard (bool_decide (d_startDcp f = Running) && bool_decide (dcpStreamClose f = Full));
  Some (Feed Closed Ended (d_startBucket f) (rch f)).

Definition feed_move (m : feed_turn) : feed → option feed :=
  match m with
  | Opens => bucket_opens | Gets => bucket_gets | Sends => bucket_sends | Closes => bucket_closes
  | FeedStops => feed_stops
  end.

Inductive turn :=
  | SaveLocks | SaveSends                                       (* storeAppSetup *)
  | Registers (i : nat) | Loads (i : nat) | Refers (i : nat) | Starts (i : nat) (* setUpEventingApp *)
  | Selects (i : nat) | Mutation (i : nat) | ReadsNil (i : nat) (* runWorker *)
  | ReadsQuit (i : nat) | LocksToQuit (i : nat) | TellsFeed (i : nat) | TellsTimer (i : nat) | Leaves (i : nat)
  | Feeds (m : feed_turn) (i : nat)                             (* startBucket and startDcp *)
  | TimerStops (i : nat).                                       (* processTimerEvent *)

Notation free s := (bool_decide (tableLock s = None)).

(** A send to the feed of deployment [j]: on a nil channel it waits for ever, on
    a full one until it is read, on a closed one it panics. *)
Definition send_feed (i : nat) (hChans : option nat) (s : service) : option service :=
  j ← hChans;
  d ← deployments s !! j;
  match dcpStreamClose (d_feed d) with
  | Empty => let s := set_deployment j (set_feed (set_close Full (d_feed d)) d) s in
             w ← deployments s !! i; Some (set_deployment i (set_worker (ToldFeed hChans) w) s)
  | Full => None
  | Closed => w ← deployments s !! i; Some (set_deployment i (set_worker WorkerPanicked w) s)
  end.

Definition send_timer (i : nat) (hChans : option nat) (s : service) : option service :=
  j ← hChans;
  d ← deployments s !! j;
  _ ← guard (bool_decide (timerEventClose d = Empty));
  let s := set_deployment j (set_timer Full (d_timers d) d) s in
  w ← deployments s !! i;
  Some (set_deployment i (set_worker ToldTimer w) s).

(** storeAppSetup: [tableLock.Lock()]. *)
Definition save_locks (s : service) : option service :=
  _ ← guard (free s); Some (set_lock (Some Saver) s).

Definition save_sends (s : service) : option service :=
  _ ← guard (bool_decide (tableLock s = Some Saver));
  match workerTable s with
  | None => Some (set_lock None (deploy s))
  | Some i =>
      d ← deployments s !! i;
      _ ← guard (bool_decide (Quit d = Empty));
      Some (set_lock None (deploy (set_deployment i (set_quit Full d) s)))
  end.

(** setUpEventingApp, up to the start of the feed. *)
Definition registers (i : nat) (s : service) : option service :=
  d ← deployments s !! i;
  _ ← guard (bool_decide (d_setup d = Connecting) && free s);
  Some (set_tables (workerTable s) (Some i) (workerHTTPReferrerTable s)
          (set_deployment i (Deployment ChansSet NoWorker (Quit d) (Feed Empty NotStarted Dialling 0) Empty NotStarted) s)).

(** loadApp, and setUpEventingApp to its end. *)
Definition loads (i : nat) (s : service) : option service :=
  d ← deployments s !! i;
  _ ← guard (bool_decide (d_setup d = ChansSet) && free s);
  Some (set_tables (Some i) (appDoneChans s) (workerHTTPReferrerTable s)
          (set_deployment i (Deployment AppLoaded NoWorker Empty (d_feed d) (timerEventClose d) NotStarted) s)).

Definition refers (i : nat) (s : service) : option service :=
  d ← deployments s !! i;
  _ ← guard (bool_decide (d_setup d = AppLoaded) && free s);
  Some (set_tables (workerTable s) (appDoneChans s) (Some i)
          (set_deployment i (Deployment Referred NoWorker (Quit d) (d_feed d) (timerEventClose d) NotStarted) s)).

Definition starts (i : nat) (s : service) : option service :=
  d ← deployments s !! i;
  _ ← guard (bool_decide (d_setup d = Referred));
  Some (set_deployment i (Deployment SetUp Serving (Quit d) (d_feed d) (timerEventClose d) Running) s).

(** runWorker: around its [select]. *)
Definition selects (i : nat) (s : service) : option service :=
  d ← deployments s !! i;
  _ ← guard (bool_decide (d_worker d = Serving) && free s);
  Some (set_deployment i (set_worker Selecting d) s).

Definition mutation (i : nat) (s : service) : option service :=
  d ← deployments s !! i;
  _ ← guard (bool_decide (d_worker d = Selecting) && (0 <? rch (d_feed d))%N);
  Some (set_deployment i (set_worker Serving (set_feed (set_rch (rch (d_feed d) - 1) (d_feed d)) d)) s).

Definition reads_nil (i : nat) (s : service) : option service :=
  d ← deployments s !! i;
  _ ← guard (bool_decide (d_worker d = Selecting) &&
             (bool_decide (d_startBucket (d_feed d) = BucketGone) && (rch (d_feed d) =? 0)%N));
  Some (set_deployment i (set_worker WorkerPanicked d) s).

(** runWorker: the end. *)
Definition reads_quit (i : nat) (s : service) : option service :=
  d ← deployments s !! i;
  _ ← guard (bool_decide (d_worker d = Selecting) && bool_decide (Quit d = Full));
  Some (set_deployment i (set_worker GotQuit (set_quit Empty d)) s).

Definition locks_to_quit (i : nat) (s : service) : option service :=
  d ← deployments s !! i;
  _ ← guard (bool_decide (d_worker d = GotQuit) && free s);
  Some (set_lock (Some (Quitter i))
          (set_tables (workerTable s) (appDoneChans s) None (set_deployment i (set_worker QuitLocked d) s))).

Definition tells_feed (i : nat) (s : service) : option service :=
  d ← deployments s !! i;
  _ ← guard (bool_decide (d_worker d = QuitLocked));
  send_feed i (appDoneChans s) s.

Definition tells_timer (i : nat) (s : service) : option service :=
  d ← deployments s !! i;
  match d_worker d with ToldFeed hChans => send_timer i hChans s | _ => None end.

Definition leaves (i : nat) (s : service) : option service :=
  d ← deployments s !! i;
  _ ← guard (bool_decide (d_worker d = ToldTimer));
  Some (set_lock None (set_tables (workerTable s) None (workerHTTPReferrerTable s)
          (set_deployment i (set_worker WorkerGone d) s))).

(** A step of the feed of deployment [i]. *)
Definition feeds (m : feed_turn) (i : nat) (s : service) : option service :=
  d ← deployments s !! i;
  f ← feed_move m (d_feed d);
  Some (set_deployment i (set_feed f d) s).

(** processTimerEvent. *)
Definition timer_stops (i : nat) (s : service) : option service :=
  d ← deployments s !! i;
  _ ← guard (bool_decide (d_timers d = Running) && bool_decide (timerEventClose d = Full));
  Some (set_deployment i (set_timer Empty Ended d) s).

#[local] Arguments save_locks s /.
#[local] Arguments save_sends s /.
#[local] Arguments registers i s /.
#[local] Arguments loads i s /.
#[local] Arguments refers i s /.
#[local] Arguments starts i s /.
#[local] Arguments selects i s /.
#[local] Arguments mutation i s /.
#[local] Arguments reads_nil i s /.
#[local] Arguments reads_quit i s /.
#[local] Arguments locks_to_quit i s /.
#[local] Arguments tells_feed i s /.
#[local] Arguments tells_timer i s /.
#[local] Arguments leaves i s /.
#[local] Arguments feeds m i s /.
#[local] Arguments timer_stops i s /.

(** One step; [None] when it cannot be taken. *)
Definition do_turn (t : turn) (s : service) : option service :=
  match t with
  | SaveLocks => save_locks s
  | SaveSends => save_sends s
  | Registers i => registers i s
  | Loads i => loads i s
  | Refers i => refers i s
  | Starts i => starts i s
  | Selects i => selects i s
  | Mutation i => mutation i s
  | ReadsNil i => reads_nil i s
  | ReadsQuit i => reads_quit i s
  | LocksToQuit i => locks_to_quit i s
  | TellsFeed i => tells_feed i s
  | TellsTimer i => tells_timer i s
  | Leaves i => leaves i s
  | Feeds m i => feeds m i s
  | TimerStops i => timer_stops i s
  end.

Fixpoint run (ts : list turn) (s : service) : option service :=
  match ts with [] => Some s | t :: ts => s ← do_turn t s; run ts s end.

(** ** Orderly redeployments *)

(** An application is saved only when its last deployment serves, and a new
    deployment registers its channels only when no old worker is there any more. *)
Definition orderly_turn (t : turn) (s : service) : bool :=
  match t with
  | SaveLocks =>
      match deployments s !! pred (length (deployments s)) with
      | Some d => bool_decide (d_worker d = Serving ∨ d_worker d = Selecting) && bool_decide (Quit d = Empty)
      | None => true
      end
  | Registers _ => forallb (λ d, bool_decide (d_worker d = NoWorker ∨ d_worker d = WorkerGone)) (deployments s)
  | _ => true
  end.

Fixpoint orderly (ts : list turn) (s : service) : bool :=
  match ts with
  | [] => true
  | t :: ts => orderly_turn t s && match do_turn t s with Some s => orderly ts s | None => true end
  end.

(** What the service does by itself; saves and the events of the cluster come from
    outside. *)
Definition internal (t : turn) : bool := match t with SaveLocks | Feeds Gets _ => false | _ => true end.

(** A deployment that works, with nothing to do, and one that is over: all its
    routines have returned, but perhaps [startBucket], which waits for ever when
    [rch] was full as the worker left. *)
Definition live : deployment := Deployment SetUp Selecting Empty (Feed Empty Running Receiving 0) Empty Running.

Definition feed_over (f : feed) : Prop :=
  dcpStreamClose f = Closed ∧ d_startDcp f = Ended ∧
  (d_startBucket f = BucketGone ∨ d_startBucket f = Sending ∧ rch f = capacity).

Definition over (d : deployment) : Prop :=
  ∃ f, d = Deployment SetUp WorkerGone Empty f Empty Ended ∧ feed_over f.

(** ** The states of orderly executions *)

(** The stages of a feed from the registration of its channels on. *)
Inductive feeding : feed → Prop :=
  | feeding_dialling c : c ≠ Closed → feeding (Feed c NotStarted Dialling 0)
  | feeding_open c b n :
      c ≠ Closed → b = Receiving ∨ b = Sending → (n <= capacity)%N → feeding (Feed c Running b n)
  | feeding_closed b n :
      b = Receiving ∨ b = Sending ∨ b = BucketGone → (n <= capacity)%N → feeding (Feed Closed Ended b n).

Definition untold (f : feed) : Prop := feeding f ∧ dcpStreamClose f = Empty.
Definition told (f : feed) : Prop := feeding f ∧ dcpStreamClose f ≠ Empty.
Definition timer_told (c : channel) (r : routine) : Prop := (c = Full ∧ r = Running) ∨ (c = Empty ∧ r = Ended).
Definition busy (w : worker_pc) : Prop := w = Serving ∨ w = Selecting.
Definition quiet (l : option holder) : Prop := l = None ∨ l = Some Saver.

(** Its worker is gone; feed and timers have stopped or have a message. *)
Inductive retired : deployment → Prop :=
  | retired_deployment f t r :
      told f → timer_told t r → retired (Deployment SetUp WorkerGone Empty f t r).

(** The stages of the newest deployment, the [n]th, with what the tables say of
    it; [old] is what the worker table has from before. *)
Inductive newest (n : nat) (old : option nat) : deployment → option nat → option nat → option nat → option holder → Prop :=
  | newest_connecting : newest n old new_deployment old None None None
  | newest_registered f :
      untold f → newest n old (Deployment ChansSet NoWorker Empty f Empty NotStarted) old (Some n) None None
  | newest_loaded f :
      untold f → newest n old (Deployment AppLoaded NoWorker Empty f Empty NotStarted) (Some n) (Some n) None None
  | newest_referred f :
      untold f → newest n old (Deployment Referred NoWorker Empty f Empty NotStarted) (Some n) (Some n) (Some n) None
  | newest_serving f w l :
      untold f → busy w → quiet l →
      newest n old (Deployment SetUp w Empty f Empty Running) (Some n) (Some n) (Some n) l.

(** The stages of the [n]th deployment while its worker quits. *)
Inductive quitting (n : nat) : deployment → option nat → option holder → Prop :=
  | quitting_told f w :
      untold f → busy w → quitting n (Deployment SetUp w Full f Empty Running) (Some n) None
  | quitting_got f : untold f → quitting n (Deployment SetUp GotQuit Empty f Empty Running) (Some n) None
  | quitting_locked f : untold f → quitting n (Deployment SetUp QuitLocked Empty f Empty Running) None (Some (Quitter n))
  | quitting_feed f :
      told f → quitting n (Deployment SetUp (ToldFeed (Some n)) Empty f Empty Running) None (Some (Quitter n))
  | quitting_timer f t r :
      told f → timer_told t r → quitting n (Deployment SetUp ToldTimer Empty f t r) None (Some (Quitter n)).

(** The newest deployment before the last of these. *)
Definition before (n : nat) : option nat := match n with O => None | S n => Some n end.

Inductive orderly_state : service → Prop :=
  | orderly_start l : quiet l → orderly_state (Service [] None None None l)
  | orderly_newest olds d w c h l :
      Forall retired olds → newest (length olds) (before (length olds)) d w c h l →
      orderly_state (Service (olds ++ [d]) w c h l)
  | orderly_quitting olds d h l :
      Forall retired olds → quitting (length olds) d h l →
      orderly_state (Service (olds ++ [d; new_deployment]) (Some (length olds)) (Some (length olds)) h l).

(** ** Steps of orderly executions *)

(** Whose step it is. *)
Definition target (t : turn) : option nat :=
  match t with
  | SaveLocks | SaveSends => None
  | Registers i | Loads i | Refers i | Starts i | Selects i | Mutation i | ReadsNil i | ReadsQuit i
  | LocksToQuit i | TellsFeed i | TellsTimer i | Leaves i | Feeds _ i | TimerStops i => Some i
  end.

Lemma take_target t i s s' : target t = Some i → do_turn t s = Some s' → ∃ d, deployments s !! i = Some d.
Proof.
  intros Ht E. destruct t; try done; injection Ht as ->; cbn in E;
    (destruct (deployments s !! i) as [d|]; [by exists d|done]).
Qed.

(** The steps, one level deep. *)
Tactic Notation "open_turn" := cbn [do_turn save_locks save_sends registers loads refers starts selects mutation reads_nil reads_quit locks_to_quit tells_feed tells_timer leaves feeds timer_stops].
Tactic Notation "open_turn" "in" hyp(H) := cbn [do_turn save_locks save_sends registers loads refers starts selects mutation reads_nil reads_quit locks_to_quit tells_feed tells_timer leaves feeds timer_stops] in H.

(** *** Feeds *)

(** Decides the guard of a step of a feed. *)
Ltac moved H := unfold bucket_opens, bucket_gets, bucket_sends, bucket_closes, feed_stops in H; cbn in H;
  repeat (case_bool_decide; simplify_eq/=); simplify_eq/=; try done.

Lemma feeding_move m f f' :
  feeding f → feed_move m f = Some f' →
  feeding f' ∧ (dcpStreamClose f' = Empty ↔ dcpStreamClose f = Empty).
Proof.
  intros Hf Hm. destruct Hf as [c Hc|c b n Hc Hb Hn|b n Hb Hn]; destruct m; cbn [feed_move] in Hm; moved Hm.
  all: try (destruct (N.ltb_spec n capacity); simplify_eq/=).
  all: try (by destruct_or? Hb).
  all: split; [|done].
  all: match goal with |- feeding (Feed Closed Ended _ _) => apply feeding_closed | _ => apply feeding_open end;
    unfold capacity in *; (done || lia || tauto).
Qed.

Lemma untold_move m f f' : untold f → feed_move m f = Some f' → untold f'.
Proof. intros [Hf Hc] Hm. destruct (feeding_move m f f' Hf Hm) as [Hf' Hc']. split; [done|by apply Hc']. Qed.

Lemma told_move m f f' : told f → feed_move m f = Some f' → told f'.
Proof. intros [Hf Hc] Hm. destruct (feeding_move m f f' Hf Hm) as [Hf' Hc']. split; [done|by rewrite Hc']. Qed.

(** The worker takes an event. *)
Lemma untold_take f : untold f → untold (set_rch (rch f - 1) f).
Proof. intros [[c Hc|c b n Hc Hb Hn|b n Hb Hn] E]; split; try done; cbn; constructor; auto; lia. Qed.

Lemma untold_told f : untold f → told (set_close Full f).
Proof. by intros [[c Hc|c b n Hc Hb Hn|b n Hb Hn] E]; split; try done; constructor. Qed.

Lemma untold_here f : untold f → bool_decide (d_startBucket f = BucketGone) = false.
Proof. by intros [[c Hc|c b n Hc [-> | ->] Hn|b n Hb Hn] E]. Qed.

Lemma fresh_still m : feed_move m (Feed Empty NotStarted NotDialled 0) = None.
Proof. by destruct m. Qed.

Lemma sends_room c d n :
  (n < capacity)%N → feed_move Sends (Feed c d Sending n) = Some (Feed c d Receiving (n + 1)).
Proof. intros Hn. unfold feed_move, bucket_sends. cbn [d_startBucket rch]. by rewrite (proj2 (N.ltb_lt _ _) Hn). Qed.

(** What a feed that was told to stop can still do by itself. *)
Lemma told_progress f :
  told f → feed_over f ∨ ∃ m f', m ≠ Gets ∧ feed_move m f = Some f'.
Proof.
  intros [[c Hc|c b n Hc [-> | ->] Hn|b n [-> | [-> | ->]] Hn] E]; cbn in E.
  - right. by eexists Opens, _.
  - destruct c; [done| |done]. right. by eexists FeedStops, _.
  - destruct c; [done| |done]. right. by eexists FeedStops, _.
  - right. by eexists Closes, _.
  - destruct (N.eq_dec n capacity) as [->|Hne]; [left; split_and!; [done|done|by right]|].
    right. exists Sends. eexists. split; [done|]. apply sends_room. lia.
  - left. split_and!; [done|done|by left].
Qed.

(** One that works: it waits with nothing in [rch], or goes on, or the worker
    finds an event. *)
Lemma untold_progress f :
  untold f → f = Feed Empty Running Receiving 0 ∨ (0 <? rch f)%N = true ∨ ∃ m f', m ≠ Gets ∧ feed_move m f = Some f'.
Proof.
  intros [[c Hc|c b n Hc [-> | ->] Hn|b n Hb Hn] E]; cbn in E; subst.
  - right. right. by eexists Opens, _.
  - destruct n; [by left|right; by left].
  - right. change (rch _) with n. destruct (N.ltb_spec 0 n); [by left|right]. exists Sends. eexists. split; [done|].
    apply sends_room. unfold capacity in *. lia.
  - done.
Qed.

(** *** Deployments *)

(** Decides the guard of a step and leaves the cases where it is taken. *)
Ltac taken Ht := cbn in Ht; repeat (case_bool_decide; simplify_eq/=); simplify_eq/=; try done.

Lemma retired_step t i d s s' :
  target t = Some i → deployments s !! i = Some d → retired d → do_turn t s = Some s' →
  ∃ d', retired d' ∧ s' = set_deployment i d' s.
Proof.
  intros Hi Hd Hr Ht. destruct Hr as [f k r Hf Hk]. destruct t as [| |j|j|j|j|j|j|j|j|j|j|j|j|m j|j]; try done; injection Hi as ->;
    cbn in Ht; rewrite Hd in Ht; cbn in Ht; try done.
  - apply bind_Some in Ht as (f' & Hm & [= <-]). eexists. split; [|reflexivity].
    constructor; [by eapply told_move|done].
  - destruct Hk as [[-> ->]|[-> ->]]; taken Ht. eexists. split; [|reflexivity]. constructor; [done|by right].
Qed.

Lemma insert_middle {A} (l : list A) (x y : A) k : <[length l := y]> (l ++ x :: k) = l ++ y :: k.
Proof. rewrite insert_app_r_alt, Nat.sub_diag by done. done. Qed.

Lemma lookup_next {A} (l : list A) (x y : A) k : (l ++ x :: y :: k) !! S (length l) = Some y.
Proof. rewrite lookup_app_r by lia. by replace (S (length l) - length l) with 1 by lia. Qed.

Lemma insert_next {A} (l : list A) (x y z : A) k : <[S (length l) := z]> (l ++ x :: y :: k) = l ++ x :: z :: k.
Proof. rewrite insert_app_r_alt by lia. by replace (S (length l) - length l) with 1 by lia. Qed.

(** An index of the deployments: one of the old ones, or one of the last. *)
Lemma index_cases {A} (l k : list A) i x :
  (l ++ k) !! i = Some x → (i < length l ∧ l !! i = Some x) ∨ ∃ j, i = length l + j ∧ k !! j = Some x.
Proof.
  intros [H|[Hl H]]%lookup_app_Some; [left|right; exists (i - length l); split; [lia|done]].
  split; [by eapply lookup_lt_Some|done].
Qed.

Lemma old_step t i olds k w c h l s' :
  target t = Some i → i < length olds → Forall retired olds →
  do_turn t (Service (olds ++ k) w c h l) = Some s' →
  ∃ olds', Forall retired olds' ∧ length olds' = length olds ∧ s' = Service (olds' ++ k) w c h l.
Proof.
  intros Hi Hlt Hold Ht. destruct (lookup_lt_is_Some_2 olds i Hlt) as [d Hd].
  destruct (retired_step t i d (Service (olds ++ k) w c h l) s' Hi) as (d' & Hr & ->); [| |exact Ht|].
  { cbn. by rewrite lookup_app_l. }
  { exact (Forall_lookup_1 _ _ _ _ Hold Hd). }
  exists (<[i:=d']> olds). split_and!; [by apply Forall_insert|apply length_insert|].
  unfold set_deployment. cbn. by rewrite insert_app_l.
Qed.

Lemma newest_feed m n old d w c h l f :
  newest n old d w c h l → feed_move m (d_feed d) = Some f → newest n old (set_feed f d) w c h l.
Proof.
  destruct 1; cbn; [by rewrite fresh_still|..]; intros Hm; constructor; try done; by eapply untold_move.
Qed.

Lemma newest_step t olds d w c h l s' :
  Forall retired olds → newest (length olds) (before (length olds)) d w c h l →
  target t = Some (length olds) →
  do_turn t (Service (olds ++ [d]) w c h l) = Some s' → orderly_state s'.
Proof.
  intros Hold Hn Hi Ht.
  assert (∀ d' w' c' h' l', newest (length olds) (before (length olds)) d' w' c' h' l' →
    orderly_state (Service (<[length olds := d']> (olds ++ [d])) w' c' h' l')) as Hnew.
  { intros. rewrite insert_middle. by apply orderly_newest. }
  destruct t as [| |j|j|j|j|j|j|j|j|j|j|j|j|m j|j]; try done; injection Hi as ->; cbn in Ht; rewrite list_lookup_middle in Ht by done;
    cbn in Ht.
  13: { apply bind_Some in Ht as (f & Hm & [= <-]). apply Hnew. by eapply newest_feed. }
  all: destruct Hn as [|f Hf|f Hf|f Hf|f w l Hf [-> | ->] [-> | ->]]; cbn in Ht; try rewrite (untold_here f Hf) in Ht.
  all: try match type of Ht with context [N.ltb 0 ?n] => destruct (N.ltb_spec 0 n) end.
  all: taken Ht; apply Hnew; constructor; try done; rewrite ?Hf; unfold busy, quiet; auto using untold_take.
  { split; [by constructor|done]. }
  all: by apply untold_take.
Qed.

(** A worker that finds its own channels. *)
Lemma send_feed_self i d s :
  deployments s !! i = Some d → dcpStreamClose (d_feed d) = Empty →
  send_feed i (Some i) s
  = Some (set_deployment i (set_worker (ToldFeed (Some i)) (set_feed (set_close Full (d_feed d)) d)) s).
Proof.
  intros Hd Hc. unfold send_feed, set_deployment. cbn. rewrite Hd. cbn. rewrite Hc. cbn.
  rewrite list_lookup_insert_eq by (by eapply lookup_lt_Some). cbn. by rewrite list_insert_insert_eq.
Qed.

Lemma send_timer_self i d s :
  deployments s !! i = Some d → timerEventClose d = Empty →
  send_timer i (Some i) s = Some (set_deployment i (set_worker ToldTimer (set_timer Full (d_timers d) d)) s).
Proof.
  intros Hd Hc. unfold send_timer, set_deployment. cbn. rewrite Hd. cbn. rewrite Hc. cbn.
  rewrite list_lookup_insert_eq by (by eapply lookup_lt_Some). cbn. by rewrite list_insert_insert_eq.
Qed.

Lemma quitting_move m n d h l f :
  quitting n d h l → feed_move m (d_feed d) = Some f → quitting n (set_feed f d) h l.
Proof. destruct 1; cbn; intros Hm; constructor; try done; (by eapply untold_move) || (by eapply told_move). Qed.

Lemma quitting_step t olds d h l s' :
  Forall retired olds → quitting (length olds) d h l → target t = Some (length olds) →
  do_turn t (Service (olds ++ [d; new_deployment]) (Some (length olds)) (Some (length olds)) h l) = Some s' →
  orderly_state s'.
Proof.
  intros Hold Hq Hi Ht. set (n := length olds) in *.
  assert (∀ d' h' l', quitting n d' h' l' →
    orderly_state (Service (<[n := d']> (olds ++ [d; new_deployment])) (Some n) (Some n) h' l')) as Hnew.
  { intros. unfold n. rewrite insert_middle. by apply orderly_quitting. }
  assert (∀ d', retired d' →
    orderly_state (Service (<[n := d']> (olds ++ [d; new_deployment])) (Some n) None None None)) as Hgone.
  { intros d' Hd'. unfold n. rewrite insert_middle.
    change (olds ++ d' :: [new_deployment]) with (olds ++ [d'] ++ [new_deployment]). rewrite app_assoc.
    apply orderly_newest; [apply Forall_app; split; [done|by constructor]|].
    rewrite length_app, Nat.add_1_r. apply newest_connecting. }
  assert (∀ w c h l, deployments (Service (olds ++ [d; new_deployment]) w c h l) !! n = Some d) as Hlook
    by (intros; cbn; by rewrite list_lookup_middle).
  destruct t as [| |j|j|j|j|j|j|j|j|j|j|j|j|m j|j]; try done; injection Hi as ->; open_turn in Ht; rewrite Hlook in Ht;
    cbn -[send_feed send_timer] in Ht.
  13: { apply bind_Some in Ht as (f & Hm & [= <-]). apply Hnew. by eapply quitting_move. }
  all: destruct Hq as [f w Hf [-> | ->]|f Hf|f Hf|f Hf|f k r Hf Hk]; cbn -[send_feed send_timer] in Ht;
    try rewrite (untold_here f Hf) in Ht.
  all: try (rewrite (send_feed_self n _ _ (Hlook _ _ _ _)) in Ht by apply Hf).
  all: try (rewrite (send_timer_self n _ _ (Hlook _ _ _ _)) in Ht by done).
  all: try (destruct Hk as [[-> ->]|[-> ->]]).
  all: try match type of Ht with context [N.ltb 0 ?n] => destruct (N.ltb_spec 0 n) end.
  all: taken Ht.
  all: first [apply Hnew|apply Hgone]; constructor; unfold busy, timer_told; auto using untold_told.
  all: by (apply untold_take || apply untold_told).
Qed.

(** The new deployment waits while the old worker quits. *)
Lemma waiting_step t olds d h l s' :
  quitting (length olds) d h l → target t = Some (S (length olds)) →
  let s := Service (olds ++ [d; new_deployment]) (Some (length olds)) (Some (length olds)) h l in
  do_turn t s = Some s' → orderly_turn t s = false.
Proof.
  intros Hq Hi s Ht.
  assert (deployments s !! S (length olds) = Some new_deployment) as Hlook by apply lookup_next.
  destruct t as [| |j|j|j|j|j|j|j|j|j|j|j|j|m j|j]; try done; injection Hi as ->; open_turn in Ht;
    rewrite Hlook in Ht; cbn in Ht; try done; [|by rewrite fresh_still in Ht].
  cbn. rewrite forallb_app. cbn. apply andb_false_intro2, andb_false_intro1.
  by destruct Hq as [f w _ [-> | ->]| | | |].
Qed.

Lemma orderly_step t s s' :
  orderly_state s → orderly_turn t s = true → do_turn t s = Some s' → orderly_state s'.
Proof.
  intros Hs Ho Ht. destruct (target t) as [i|] eqn:Hi.
  - destruct (take_target t i s s' Hi Ht) as [x Hx]. destruct Hs as [l|olds d w c h l Hold Hn|olds d h l Hold Hq].
    + done.
    + apply index_cases in Hx as [[Hlt _]|(j & -> & Hj)].
      * destruct (old_step t i olds _ _ _ _ _ _ Hi Hlt Hold Ht) as (olds' & Hold' & El & ->).
        apply orderly_newest; [done|]. by rewrite El.
      * destruct j as [|j]; [|done]. rewrite Nat.add_0_r in Hi. by eapply newest_step.
    + apply index_cases in Hx as [[Hlt _]|(j & -> & Hj)].
      * destruct (old_step t i olds _ _ _ _ _ _ Hi Hlt Hold Ht) as (olds' & Hold' & El & ->).
        rewrite <-El in *. by apply orderly_quitting.
      * destruct j as [|[|j]]; [| |done].
        -- rewrite Nat.add_0_r in Hi. by eapply quitting_step.
        -- rewrite Nat.add_1_r in Hi. by rewrite (waiting_step t olds d h l s' Hq Hi Ht) in Ho.
  - destruct Hs as [l [-> | ->]|olds d w c h l Hold Hn|olds d h l Hold Hq]; destruct t; try done.
    + injection Ht as <-. apply orderly_start. by right.
    + injection Ht as <-. apply (orderly_newest []); [done|apply newest_connecting].
    + cbn in Ho. rewrite length_app, Nat.add_1_r, list_lookup_middle in Ho by done.
      destruct Hn as [| | | |f w l Hf Hw [-> | ->]]; try done. injection Ht as <-.
      apply orderly_newest; [done|]. constructor; [done|done|by right].
    + destruct Hn as [| | | |f w l Hf Hw [-> | ->]]; try done. cbn in Ht. rewrite list_lookup_middle in Ht by done.
      injection Ht as <-. unfold set_lock, deploy, set_deployment. cbn. rewrite insert_middle, <-app_assoc.
      apply orderly_quitting; [done|]. by apply quitting_told.
    + cbn in Ho. rewrite length_app, (Nat.add_comm _ 2) in Ho. cbn in Ho. by rewrite lookup_next in Ho.
    + by destruct Hq.
Qed.

Lemma orderly_run ts s s' :
  orderly_state s → orderly ts s = true → run ts s = Some s' → orderly_state s'.
Proof.
  revert s. induction ts as [|t ts IH]; intros s Hs Ho Hr; [by injection Hr as <-|].
  cbn in *. apply andb_true_iff in Ho as [Ho1 Ho2]. destruct (do_turn t s) as [s1|] eqn:Ht; [|done].
  cbn in Hr. eapply IH; [by eapply orderly_step|done|done].
Qed.

(** ** Progress *)

(** Nothing was ever saved, or the newest deployment works, the tables name it,
    nobody holds the lock and all older ones are over. *)
Definition settled (s : service) : Prop :=
  s = start ∨
  ∃ olds, Forall over olds ∧
    let n := length olds in s = Service (olds ++ [live]) (Some n) (Some n) (Some n) None.

Definition moves (s : service) : Prop :=
  ∃ t s', internal t = true ∧ orderly_turn t s = true ∧ do_turn t s = Some s'.

Lemma moves_by t s : internal t = true → orderly_turn t s = true → is_Some (do_turn t s) → moves s.
Proof. intros H1 H2 [s' H3]. by exists t, s'. Qed.

(** A step of a feed, which nothing keeps from being orderly. *)
Lemma feed_moves m i d f s :
  deployments s !! i = Some d → m ≠ Gets → feed_move m (d_feed d) = Some f → moves s.
Proof.
  intros Hd Hm Hf. apply (moves_by (Feeds m i)); [by destruct m|done|].
  open_turn. rewrite Hd. cbn. rewrite Hf. by eexists.
Qed.

Lemma olds_progress olds k w c h l :
  Forall retired olds → Forall over olds ∨ moves (Service (olds ++ k) w c h l).
Proof.
  intros Hold.
  assert (∀ d, retired d → over d ∨ ∀ i s, deployments s !! i = Some d → moves s) as Hd.
  { intros d [f kk r Hf Hk]. destruct (told_progress f Hf) as [Ho|(m & f' & Hm & Hf')].
    - destruct Hk as [[-> ->]|[-> ->]]; [right|left; by exists f].
      intros i s Hi. apply (moves_by (TimerStops i)); [done|done|]. open_turn. rewrite Hi. by eexists.
    - right. intros i s Hi. by eapply (feed_moves m i _ f'). }
  assert (Forall over olds ∨ ∃ i d, olds !! i = Some d ∧ ∀ i s, deployments s !! i = Some d → moves s)
    as [?|(i & d & Hi & Hm)].
  { induction Hold as [|d olds Hr Hold IH]; [by left|]. destruct (Hd d Hr) as [Ho|Hm].
    - destruct IH as [E|(i & e & Hi & ?)]; [left; by constructor|right; by exists (S i), e].
    - right. by exists 0, d. }
  { by left. }
  right. apply (Hm i). cbn. by apply lookup_app_l_Some.
Qed.

(** Retired deployments do not keep a new one from registering. *)
Lemma retired_gone olds k :
  Forall retired olds →
  forallb (λ d, bool_decide (d_worker d = NoWorker ∨ d_worker d = WorkerGone)) (olds ++ k)
  = forallb (λ d, bool_decide (d_worker d = NoWorker ∨ d_worker d = WorkerGone)) k.
Proof. induction 1 as [|d olds Hd _ IH]; [done|]. cbn. rewrite IH. by destruct Hd. Qed.

(** One of these turns of the [i]th deployment, [Ht] being its lookup. *)
Ltac turn t Hlook := right; apply (moves_by t); [done|done|cbn; rewrite Hlook; by eexists].

Lemma newest_progress olds d w c h l :
  Forall retired olds → newest (length olds) (before (length olds)) d w c h l →
  settled (Service (olds ++ [d]) w c h l) ∨ moves (Service (olds ++ [d]) w c h l).
Proof.
  intros Hold Hn. set (n := length olds) in *.
  assert ((olds ++ [d]) !! n = Some d) as Hlook by by rewrite list_lookup_middle.
  destruct Hn as [|f Hf|f Hf|f Hf|f v l Hf [-> | ->] [-> | ->]].
  - right. apply (moves_by (Registers n)); [done| |cbn; rewrite Hlook; by eexists].
    cbn. by rewrite retired_gone.
  - turn (Loads n) Hlook.
  - turn (Refers n) Hlook.
  - turn (Starts n) Hlook.
  - turn (Selects n) Hlook.
  - turn SaveSends Hlook.
  - destruct (untold_progress f Hf) as [->|[Hn|(m & f' & Hm & Hf')]].
    + destruct (olds_progress olds [live] (Some n) (Some n) (Some n) None Hold) as [Ho|?]; [|by right].
      left. right. by exists olds.
    + right. apply (moves_by (Mutation n)); [done|done|]. cbn -[N.ltb]. rewrite Hlook. cbn -[N.ltb]. rewrite Hn. by eexists.
    + right. by eapply (feed_moves m n _ f').
  - turn SaveSends Hlook.
Qed.

Ltac leaving_turn t Hlook := apply (moves_by t); [done|done|]; open_turn; rewrite Hlook; cbn -[send_feed send_timer].

Lemma quitting_progress olds d h l :
  Forall retired olds → quitting (length olds) d h l →
  moves (Service (olds ++ [d; new_deployment]) (Some (length olds)) (Some (length olds)) h l).
Proof.
  intros Hold Hq. set (n := length olds) in *. set (s := Service _ _ _ _ _).
  assert (deployments s !! n = Some d) as Hlook by by (unfold s; cbn; rewrite list_lookup_middle).
  destruct Hq as [f w Hf [-> | ->]|f Hf|f Hf|f Hf|f k r Hf Hk].
  - leaving_turn (Selects n) Hlook. by eexists.
  - leaving_turn (ReadsQuit n) Hlook. by eexists.
  - leaving_turn (LocksToQuit n) Hlook. by eexists.
  - leaving_turn (TellsFeed n) Hlook. rewrite (send_feed_self n _ s Hlook) by apply Hf. by eexists.
  - leaving_turn (TellsTimer n) Hlook. rewrite (send_timer_self n _ s Hlook) by done. by eexists.
  - leaving_turn (Leaves n) Hlook. by eexists.
Qed.

Lemma orderly_progress s : orderly_state s → settled s ∨ moves s.
Proof.
  intros [l [-> | ->]|olds d w c h l Hold Hn|olds d h l Hold Hq].
  - left. by left.
  - right. apply (moves_by SaveSends); [done|done|]. by eexists.
  - by apply newest_progress.
  - right. by apply quitting_progress.
Qed.

(** ** Termination *)

Definition setup_work (p : setup_pc) : nat :=
  match p with Connecting => 60 | ChansSet => 45 | AppLoaded => 30 | Referred => 15 | SetUp => 0 end.
Definition worker_work (p : worker_pc) : nat :=
  match p with
  | NoWorker => 10 | Serving => 9 | Selecting => 8 | GotQuit => 7 | QuitLocked => 6
  | ToldFeed _ => 4 | ToldTimer => 2 | WorkerGone | WorkerPanicked => 0
  end.
Definition message_work (c : channel) : nat := match c with Full => 1 | _ => 0 end.
Definition bucket_work (b : bucket_pc) : nat :=
  match b with Dialling => 2 | Receiving => 1 | Sending => 4 | NotDialled | BucketGone => 0 end.
Definition feed_work (f : feed) : nat :=
  bucket_work (d_startBucket f) + 2 * N.to_nat (rch f) + message_work (dcpStreamClose f).
Definition deployment_work (d : deployment) : nat :=
  setup_work (d_setup d) + worker_work (d_worker d) + feed_work (d_feed d) + message_work (timerEventClose d).

Definition lock_work (l : option holder) : nat := match l with Some Saver => 80 | _ => 0 end.

(** A bound on what the service can do by itself. *)
Definition work (s : service) : nat :=
  sum_list_with deployment_work (deployments s) + lock_work (tableLock s).

Lemma sum_insert l i d d' :
  l !! i = Some d →
  sum_list_with deployment_work (<[i := d']> l) + deployment_work d = sum_list_with deployment_work l + deployment_work d'.
Proof.
  revert i. induction l as [|x l IH]; intros [|i] Hi; try done; cbn in Hi.
  - injection Hi as ->. cbn -[deployment_work]. lia.
  - specialize (IH i Hi). cbn -[deployment_work insert] in *. change (<[S i:=d']> (x :: l)) with (x :: <[i:=d']> l). cbn -[deployment_work insert]. lia.
Qed.

(** The effect of one assignment on the bound. *)
Lemma work_set i d d' s :
  deployments s !! i = Some d → work (set_deployment i d' s) + deployment_work d = work s + deployment_work d'.
Proof. intros Hi. unfold work. cbn. pose proof (sum_insert _ i d d' Hi). lia. Qed.

Lemma work_told i w j d' s :
  deployments s !! j = Some d' → ∀ d x,
  deployments (set_deployment j d s) !! i = Some x →
  work (set_deployment i (set_worker w x) (set_deployment j d s)) + worker_work (d_worker x) + deployment_work d'
  = work s + worker_work w + deployment_work d.
Proof.
  intros Hj d x Hi. pose proof (work_set j d' d s Hj) as W1. pose proof (work_set i x (set_worker w x) _ Hi) as W2.
  assert (deployment_work (set_worker w x) + worker_work (d_worker x) = deployment_work x + worker_work w)
    by (unfold deployment_work; cbn; lia). lia.
Qed.

(** Opens the options that a step goes through. *)
Ltac opened Ht :=
  repeat match type of Ht with
    | (_ ≫= _) = Some _ => apply bind_Some in Ht as (? & ? & Ht); cbv beta in Ht
    end.

Lemma guard_Some b u : guard b = Some u → b = true.
Proof. by destruct b. Qed.

Lemma work_lt i d d' s s' :
  deployments s !! i = Some d → deployments s' = <[i := d']> (deployments s) →
  lock_work (tableLock s') <= lock_work (tableLock s) → deployment_work d' < deployment_work d → work s' < work s.
Proof. intros Hi Hd Hl Hw. unfold work. rewrite Hd. pose proof (sum_insert _ i d d' Hi). lia. Qed.

(** A message to any deployment leaves the workers where they are. *)
Lemma same_worker i j d d' e x s :
  deployments s !! i = Some d → deployments s !! j = Some d' → d_worker e = d_worker d' →
  deployments (set_deployment j e s) !! i = Some x → d_worker x = d_worker d.
Proof.
  intros Hi Hj He Hx. cbn in Hx. destruct (decide (j = i)) as [->|Hne].
  - rewrite list_lookup_insert_eq in Hx by (eapply lookup_lt_Some; exact Hi). congruence.
  - rewrite list_lookup_insert_ne in Hx by done. congruence.
Qed.

Lemma send_feed_work i d h s s' :
  deployments s !! i = Some d → d_worker d = QuitLocked → send_feed i h s = Some s' → work s' < work s.
Proof.
  intros Hi Hw Ht. unfold send_feed in Ht. apply bind_Some in Ht as (j & -> & Ht).
  apply bind_Some in Ht as (d' & Hj & Ht). destruct (dcpStreamClose (d_feed d')) eqn:Hc; [|done|];
    apply bind_Some in Ht as (x & Hx & [= <-]).
  - pose proof (work_told i (ToldFeed (Some j)) j d' s Hj _ x Hx) as W.
    rewrite (same_worker i j d d' (set_feed (set_close Full (d_feed d')) d') x s Hi Hj eq_refl Hx), Hw in W.
    assert (deployment_work (set_feed (set_close Full (d_feed d')) d') = S (deployment_work d')) as E
      by (unfold deployment_work, feed_work; cbn; rewrite Hc; cbn; lia).
    rewrite E in W. cbn [worker_work] in W. lia.
  - rewrite Hi in Hx. injection Hx as <-. apply (work_lt i d (set_worker WorkerPanicked d)); [done|done|cbn; lia|]. unfold deployment_work. cbn. rewrite Hw. cbn. lia.
Qed.

Lemma send_timer_work i d h s s' :
  deployments s !! i = Some d → d_worker d = ToldFeed h → send_timer i h s = Some s' → work s' < work s.
Proof.
  intros Hi Hw Ht. unfold send_timer in Ht. apply bind_Some in Ht as (j & -> & Ht).
  apply bind_Some in Ht as (d' & Hj & Ht). apply bind_Some in Ht as (u & Hc%guard_Some%bool_decide_eq_true & Ht).
  apply bind_Some in Ht as (x & Hx & [= <-]).
  pose proof (work_told i ToldTimer j d' s Hj _ x Hx) as W.
  rewrite (same_worker i j d d' (set_timer Full (d_timers d') d') x s Hi Hj eq_refl Hx), Hw in W.
  assert (deployment_work (set_timer Full (d_timers d') d') = S (deployment_work d')) as E
    by (unfold deployment_work; cbn; rewrite Hc; cbn; lia).
  rewrite E in W. cbn [worker_work] in W. lia.
Qed.

Lemma save_work s s' : do_turn SaveSends s = Some s' → work s' < work s.
Proof.
  intros Ht. cbn in Ht. apply bind_Some in Ht as (u & Hl%guard_Some%bool_decide_eq_true & Ht).
  destruct (workerTable s) as [i|].
  - apply bind_Some in Ht as (d & Hd & Ht). apply bind_Some in Ht as (u' & _ & [= <-]).
    pose proof (work_set i d (set_quit Full d) s Hd) as W. unfold work in *. cbn in *. rewrite Hl in *.
    rewrite sum_list_with_app. change (deployment_work (set_quit Full d)) with (deployment_work d) in W.
    cbn -[deployment_work] in *. change (deployment_work new_deployment) with 70. lia.
  - injection Ht as <-. unfold work. cbn. rewrite Hl, sum_list_with_app. cbn. lia.
Qed.

Lemma feed_move_work m f f' : m ≠ Gets → feed_move m f = Some f' → feed_work f' < feed_work f.
Proof.
  intros Hm Hf. destruct f as [c d b n]. destruct m; [|done|..]; cbn in Hf;
    apply bind_Some in Hf as (u & Hg%guard_Some & [= <-]); rewrite ?andb_true_iff, ?bool_decide_eq_true in Hg;
    cbn in Hg; destruct_and?; subst; unfold feed_work; cbn; lia.
Qed.

(** Every internal step makes the bound smaller. *)
Lemma take_work t s s' : internal t = true → do_turn t s = Some s' → work s' < work s.
Proof.
  intros Hint Ht. destruct t as [| |i|i|i|i|i|i|i|i|i|i|i|i|m i|i]; try done; [by apply save_work|..];
    open_turn in Ht; apply bind_Some in Ht as (d & Hd & Ht).
  all: try (apply bind_Some in Ht as (u & Hg%guard_Some & Ht); rewrite ?andb_true_iff, ?bool_decide_eq_true, ?N.ltb_lt in Hg).
  all: try (injection Ht as <-; eapply work_lt; [exact Hd|reflexivity|cbn; lia|]; unfold deployment_work, feed_work; cbn; destruct_and?;
    repeat match goal with
      | H : d_setup _ = _ |- _ => rewrite ?H; clear H
      | H : d_worker _ = _ |- _ => rewrite ?H; clear H
      | H : timerEventClose _ = _ |- _ => rewrite ?H; clear H
      end; cbn; lia).
  - by eapply send_feed_work.
  - destruct (d_worker d) eqn:Hw; try done. by eapply send_timer_work.
  - apply bind_Some in Ht as (f & Hf & [= <-]). apply feed_move_work in Hf; [|by intros ->].
    eapply work_lt; [exact Hd|reflexivity|cbn; lia|]. unfold deployment_work. cbn. lia.
Qed.

Lemma run_work ts s s' : forallb internal ts = true → run ts s = Some s' → length ts + work s' <= work s.
Proof.
  revert s. induction ts as [|t ts IH]; intros s Hi Hr; [by injection Hr as <-|].
  cbn in *. apply andb_true_iff in Hi as [Ht Hi]. destruct (do_turn t s) as [s1|] eqn:E; [|done].
  pose proof (take_work t s s1 Ht E). specialize (IH s1 Hi Hr). lia.
Qed.

(** ** Properties *)

(** C32: redeployments settle.  Let an application be saved any
    number of times, each time when its last deployment serves, and let a new
    deployment register its channels only after the old worker has gone.  Then in
    every interleaving of the set-ups, the workers, the feeds and the timer
    routines: whatever the service does by itself, with the events that are
    waiting, ends within a bounded number of steps; until then some step can be
    taken; and at the end the newest deployment serves with its feed and its
    timers, nothing is waiting, [tableLock] is free, all tables name it, and of
    every older one the worker, the timer routine and [startDcp] are gone.  So is
    its [startBucket], unless it has an event for a channel that is full: then it
    waits for ever (see [full_channel_keeps_bucket]). *)
Theorem orderly_redeployments_settle ts s :
  run ts start = Some s → orderly ts start = true →
  ∀ ts' s', forallb internal ts' = true → orderly ts' s = true → run ts' s = Some s' →
    length ts' <= work s ∧ (settled s' ∨ moves s').
Proof.
  intros Hr Ho ts' s' Hi Ho' Hr'. split; [pose proof (run_work ts' s s' Hi Hr'); lia|].
  apply orderly_progress. eapply orderly_run; [|exact Ho'|exact Hr'].
  eapply orderly_run; [|exact Ho|exact Hr]. apply orderly_start. by left.
Qed.

(** ** What goes wrong without the order *)

(** The set-up of the [i]th deployment up to its service, and its end. *)
Definition setting_up (i : nat) : list turn := [Registers i; Loads i; Refers i; Starts i; Selects i].
Definition leaving (i : nat) : list turn := [ReadsQuit i; LocksToQuit i; TellsFeed i; TellsTimer i; Leaves i].
Definition save : list turn := [SaveLocks; SaveSends].

(** The lock is held by a save that waits for a worker that has gone. *)
Definition hung (s : service) : Prop :=
  tableLock s = Some Saver ∧ workerTable s = Some 0 ∧
  ∃ f k r, deployments s = [Deployment SetUp WorkerGone Full f k r; new_deployment; new_deployment].

Lemma hung_step t s s' : hung s → do_turn t s = Some s' → hung s'.
Proof.
  intros (Hl & Hw & f & k & r & Hd) Ht. destruct s as [ds wt ct ht l]. cbn in *. subst.
  destruct t as [| |i|i|i|i|i|i|i|i|i|i|i|i|m i|i]; try done; cbn in Ht; destruct i as [|[|[|i]]]; cbn in Ht; try done;
    try (by rewrite fresh_still in Ht).
  all: try (apply bind_Some in Ht as (f' & _ & [= <-]); split_and!; try done; by repeat eexists).
  all: repeat (case_bool_decide; simplify_eq/=); try done; simplify_eq/=; split_and!; try done; by repeat eexists.
Qed.

(** C38: three saves in a row hang the service.  While the first of three
    saves is still being set up, which takes more than a second, the worker table
    names the old worker: the second save leaves another message in its channel,
    which nobody reads any more, and the third waits for room in it with
    [tableLock] held.  Nobody gets the lock again: neither of the new deployments
    ever registers its channels or loads a worker, and the old one has gone. *)
Theorem three_saves_hang :
  ∃ s, run (save ++ setting_up 0 ++ save ++ leaving 0 ++ save ++ [SaveLocks]) start = Some s ∧
    ∀ ts s', run ts s = Some s' →
      tableLock s' = Some Saver ∧ d_worker <$> deployments s' = [WorkerGone; NoWorker; NoWorker] ∧
      d_setup <$> drop 1 (deployments s') = [Connecting; Connecting].
Proof.
  eexists. split; [vm_compute; reflexivity|]. intros ts s' Hr.
  assert (hung s') as (Hl & _ & f & k & r & ->).
  { revert Hr. match goal with |- run _ ?s0 = _ → _ => assert (hung s0) as Hs by (split_and!; [done..|by repeat eexists]);
      generalize s0 Hs end.
    induction ts as [|t ts IH]; intros s0 H0 Hr; [by injection Hr as <-|].
    cbn in Hr. destruct (do_turn t s0) as [s1|] eqn:E; [|done]. eapply IH; [|exact Hr]. by eapply hung_step. }
  done.
Qed.

(** A new deployment that registers its channels while the old worker is busy with
    an event: the old worker then stops the feed and the timers of the new one
    and leaves its own running.  The new worker panics at the end of its feed, and
    nothing is left that could happen by itself. *)
Theorem early_registration_stops_successor :
  let s := Service [Deployment SetUp WorkerGone Empty (Feed Empty Running Receiving 0) Empty Running;
                    Deployment SetUp WorkerPanicked Empty (Feed Closed Ended BucketGone 0) Empty Ended]
             (Some 1) None (Some 1) None in
  run (save ++ setting_up 0 ++ [Feeds Opens 0] ++ save ++ [Registers 1; Feeds Opens 1] ++ leaving 0 ++
       [Feeds FeedStops 1; Feeds Closes 1; Loads 1; Refers 1; Starts 1; TimerStops 1; Selects 1; ReadsNil 1]) start
  = Some s ∧
  ∀ t, internal t = true → do_turn t s = None.
Proof.
  intros s. split; [reflexivity|]. intros t Ht.
  destruct t as [| |i|i|i|i|i|i|i|i|i|i|i|i|m i|i]; try done; destruct i as [|[|i]]; try done; by destruct m.
Qed.

(** ** A full channel *)

Lemma run_app ts us s : run (ts ++ us) s = s ← run ts s; run us s.
Proof.
  revert s. induction ts as [|t ts IH]; intros s; [done|]. cbn. by destruct (do_turn t s) as [s1|]; [apply IH|].
Qed.

(** Events that the cluster has while the worker takes none. *)
Definition arriving (i n : nat) : list turn := concat (replicate n [Feeds Gets i; Feeds Sends i]).

Lemma feeds_eq m i d f s :
  deployments s !! i = Some d → feed_move m (d_feed d) = Some f →
  do_turn (Feeds m i) s = Some (set_deployment i (set_feed f d) s).
Proof. intros Hd Hf. open_turn. rewrite Hd. cbn. by rewrite Hf. Qed.

Lemma set_lookup i d e s :
  deployments s !! i = Some d → deployments (set_deployment i e s) !! i = Some e.
Proof. intros Hd. cbn. by rewrite list_lookup_insert_eq by (by eapply lookup_lt_Some). Qed.

Lemma set_twice i d e s : set_deployment i d (set_deployment i e s) = set_deployment i d s.
Proof. unfold set_deployment. cbn. by rewrite list_insert_insert_eq. Qed.

Lemma arriving_fill i n d c q k s :
  deployments s !! i = Some d → d_feed d = Feed c q Receiving k → (k + N.of_nat n <= capacity)%N →
  run (arriving i n) s = Some (set_deployment i (set_feed (Feed c q Receiving (k + N.of_nat n)) d) s).
Proof.
  revert d k s. induction n as [|n IH]; intros d k s Hd Hf Hn.
  - rewrite N.add_0_r, <-Hf. cbn. f_equal. destruct s as [ds wt ct ht l], d. unfold set_deployment, set_feed. cbn in *.
    by rewrite list_insert_id.
  - change (arriving i (S n)) with ([Feeds Gets i; Feeds Sends i] ++ arriving i n). rewrite run_app.
    assert (run [Feeds Gets i; Feeds Sends i] s
            = Some (set_deployment i (set_feed (Feed c q Receiving (k + 1)) d) s)) as ->.
    { cbn [run]. rewrite (feeds_eq Gets i _ (Feed c q Sending k) s Hd) by by rewrite Hf.
      cbn [mbind option_bind]. erewrite (feeds_eq Sends i _ (Feed c q Receiving (k + 1)));
        [|by eapply set_lookup|apply sends_room; lia].
      cbn [mbind option_bind]. by rewrite set_twice. }
    cbn [mbind option_bind]. rewrite (IH (set_feed (Feed c q Receiving (k + 1)) d) (k + 1)%N).
    + rewrite set_twice. by replace (k + 1 + N.of_nat n)%N with (k + N.of_nat (S n))%N by lia.
    + by eapply set_lookup.
    + done.
    + lia.
Qed.

(** A feed that is over, of a worker that is gone, but for an event that [rch] has
    no room for. *)
Definition stuck (s : service) : Prop :=
  ∃ d, deployments s !! 0 = Some d ∧ d_setup d = SetUp ∧ d_worker d = WorkerGone ∧
       d_feed d = Feed Closed Ended Sending capacity.

Lemma stuck_same s s' : stuck s → deployments s' !! 0 = deployments s !! 0 → stuck s'.
Proof. intros (d & Hd & Hr) E. exists d. by rewrite E. Qed.

Lemma stuck_other i e s s' :
  stuck s → i ≠ 0 → deployments s' = <[i := e]> (deployments s) → stuck s'.
Proof. intros Hs Hi E. apply (stuck_same s); [done|]. rewrite E. by apply list_lookup_insert_ne. Qed.

Lemma stuck_self e s s' :
  stuck s → deployments s' = <[0 := e]> (deployments s) →
  d_setup e = SetUp → d_worker e = WorkerGone → d_feed e = Feed Closed Ended Sending capacity → stuck s'.
Proof.
  intros (d & Hd & _) E H1 H2 H3. exists e. rewrite E. split; [|done].
  apply list_lookup_insert_eq. by eapply lookup_lt_Some.
Qed.

Lemma stuck_feed m : feed_move m (Feed Closed Ended Sending capacity) = None.
Proof. by destruct m. Qed.

Lemma stuck_save s s' : stuck s → save_sends s = Some s' → stuck s'.
Proof.
  intros Hs Ht. pose proof Hs as (d & Hd & H1 & H2 & H3). cbn in Ht. apply bind_Some in Ht as (_ & _ & Ht).
  destruct (workerTable s) as [i|].
  - apply bind_Some in Ht as (d' & Hd' & Ht). apply bind_Some in Ht as (_ & _ & [= <-]).
    assert (stuck (set_deployment i (set_quit Full d') s)) as Hs1.
    { destruct (decide (i = 0)) as [->|Hi]; [|by eapply stuck_other].
      rewrite Hd in Hd'. injection Hd' as <-. by eapply stuck_self. }
    apply (stuck_same _ _ Hs1). cbn. apply lookup_app_l. rewrite length_insert. by eapply lookup_lt_Some.
  - injection Ht as <-. apply (stuck_same _ _ Hs). cbn. apply lookup_app_l. by eapply lookup_lt_Some.
Qed.

(** A worker of another deployment finds the channel closed. *)
Lemma stuck_send_feed i h s s' : stuck s → i ≠ 0 → send_feed i h s = Some s' → stuck s'.
Proof.
  intros Hs Hi Ht. pose proof Hs as (d & Hd & H1 & H2 & H3).
  apply bind_Some in Ht as (j & _ & Ht). apply bind_Some in Ht as (d' & Hd' & Ht).
  destruct (decide (j = 0)) as [->|Hj].
  - rewrite Hd in Hd'. injection Hd' as <-. rewrite H3 in Ht. cbn in Ht.
    apply bind_Some in Ht as (x & _ & [= <-]). by eapply stuck_other.
  - destruct (dcpStreamClose (d_feed d')); [|done|]; cbn in Ht; apply bind_Some in Ht as (x & _ & [= <-]).
    + eapply (stuck_other i); [|done|reflexivity]. by eapply (stuck_other j).
    + by eapply (stuck_other i).
Qed.

Lemma stuck_send_timer i h s s' : stuck s → i ≠ 0 → send_timer i h s = Some s' → stuck s'.
Proof.
  intros Hs Hi Ht. pose proof Hs as (d & Hd & H1 & H2 & H3).
  apply bind_Some in Ht as (j & _ & Ht). apply bind_Some in Ht as (d' & Hd' & Ht).
  apply bind_Some in Ht as (_ & _ & Ht). apply bind_Some in Ht as (x & _ & [= <-]).
  eapply (stuck_other i); [|done|reflexivity].
  destruct (decide (j = 0)) as [->|Hj]; [|by eapply (stuck_other j)].
  rewrite Hd in Hd'. injection Hd' as <-. by eapply stuck_self.
Qed.

Lemma stuck_step t s s' : stuck s → do_turn t s = Some s' → stuck s'.
Proof.
  intros Hs Ht. pose proof Hs as (d & Hd & H1 & H2 & H3).
  destruct t as [| |i|i|i|i|i|i|i|i|i|i|i|i|m i|i]; [|by eapply stuck_save|..]; open_turn in Ht.
  { apply bind_Some in Ht as (_ & _ & [= <-]). by apply (stuck_same s). }
  all: apply bind_Some in Ht as (d' & Hd' & Ht); destruct (decide (i = 0)) as [->|Hi];
    [rewrite Hd in Hd'; injection Hd' as <-; rewrite ?H1, ?H2, ?H3, ?stuck_feed in Ht; try done|].
  all: try (apply bind_Some in Ht as (_ & _ & Ht)); try (injection Ht as <-; by eapply stuck_other).
  - by eapply stuck_send_feed.
  - destruct (d_worker d'); try done. by eapply stuck_send_timer.
  - apply bind_Some in Ht as (f & _ & [= <-]). by eapply (stuck_other i).
  - injection Ht as <-. by eapply stuck_self.
Qed.

Lemma stuck_run ts s s' : stuck s → run ts s = Some s' → stuck s'.
Proof.
  revert s. induction ts as [|t ts IH]; intros s Hs Hr; [by injection Hr as <-|].
  cbn in Hr. destruct (do_turn t s) as [s1|] eqn:E; [|done]. eapply IH; [|exact Hr]. by eapply stuck_step.
Qed.

(** Mutations fill [rch] while the worker is busy with one of them; then the
    application is saved. *)
Definition filling : list turn :=
  save ++ setting_up 0 ++ [Feeds Opens 0; Feeds Gets 0; Feeds Sends 0; Mutation 0].
Definition redeploying : list turn :=
  [Feeds Gets 0] ++ save ++ [Selects 0] ++ leaving 0 ++ [Feeds FeedStops 0; TimerStops 0].

(** C18: a full channel keeps [startBucket] for ever.  While a handler takes its
    time, as many mutations come as [rch] has room for, and one more; then the
    application is saved, the worker leaves and [startDcp] stops.  Whatever
    happens then, any further saves included: [startBucket] of this deployment
    waits with the last mutation for room in a channel that nobody reads, and
    none of the mutations in it reaches a handler. *)
Theorem full_channel_keeps_bucket :
  ∃ s, run (filling ++ arriving 0 (N.to_nat capacity) ++ redeploying) start = Some s ∧
    ∀ ts s', run ts s = Some s' →
      ∃ d, deployments s' !! 0 = Some d ∧ d_worker d = WorkerGone ∧ d_startDcp (d_feed d) = Ended ∧
           d_startBucket (d_feed d) = Sending ∧ rch (d_feed d) = capacity.
Proof.
  assert (run (filling ++ arriving 0 (N.to_nat capacity) ++ redeploying) start
          = Some (Service [Deployment SetUp WorkerGone Empty (Feed Closed Ended Sending capacity) Empty Ended; new_deployment]
                    (Some 0) None None None)) as ->.
  { rewrite run_app.
    assert (run filling start = Some (Service [Deployment SetUp Serving Empty (Feed Empty Running Receiving 0) Empty Running]
                    (Some 0) (Some 0) (Some 0) None)) as -> by reflexivity.
    cbn [mbind option_bind]. rewrite run_app. erewrite arriving_fill by (reflexivity || lia).
    rewrite N2Nat.id. reflexivity. }
  eexists. split; [done|]. intros ts s' Hr. apply stuck_run in Hr as (d & Hd & _ & Hw & Hf); [|by eexists].
  exists d. by rewrite Hf.
Qed.

(** An application that is deployed, handles a mutation and is redeployed. *)
Definition first_deployment : list turn :=
  save ++ setting_up 0 ++ [Feeds Opens 0; Feeds Gets 0; Feeds Sends 0; Mutation 0; Selects 0] ++ save ++ [ReadsQuit 0].
Definition second_deployment : list turn :=
  [LocksToQuit 0; TellsFeed 0; Feeds FeedStops 0; TellsTimer 0; Leaves 0; Feeds Closes 0] ++
  setting_up 1 ++ [TimerStops 0; Feeds Opens 1].

Lemma orderly_redeployments_settle_witness :
  ∃ s s', run first_deployment start = Some s ∧ run second_deployment s = Some s' ∧
    13 <= work s ∧ (settled s' ∨ moves s').
Proof.
  do 2 eexists. split; [vm_compute; reflexivity|]. split; [vm_compute; reflexivity|].
  apply (orderly_redeployments_settle first_deployment _) with (ts' := second_deployment); vm_compute; reflexivity.
Defined.

(** It does settle. *)
Example second_deployment_settled s :
  run (first_deployment ++ second_deployment) start = Some s → settled s.
Proof.
  intros E. right. eexists [_]. vm_compute in E. injection E as <-. split; [|reflexivity].
  constructor; [|done]. eexists. split; [reflexivity|]. split_and!; [done..|by left].
Qed.
