(* ===== verification/Spec.v ===== *)
(** * What the binding promises to a handler

    An abstract store, with a map of JSON texts per bucket, a list per queue, the
    body of the reply and the timers, and what a property access, a function
    call, an event or a tick of the clock does to it.  Handles, callbacks,
    cookies, templates and the documents of markers and timers do not occur.  The
    specification is partial: [None] where the binding promises nothing (a query
    that fails or writes, a key that the servers refuse, a queue name of more
    than 22 bytes, a printed value, text that overflows).  [Refine.v] shows that
    the binding implements it. *)

From stdpp Require Import functions.
From S2P Require Import Prelude CStd StdMap Calendar Endian Kv Json V8 Engine Timers HttpResponse.
From S2P Require Import Heap Bucket N1ql Queue Mail Debug Host HostSafety Worker.
#[local] Open Scope Z_scope.

(** ** The store *)

Record store := Store {
  s_docs : string → gmap string string;     (** by connection: name and JSON text *)
  s_queues : gmap string (list string);     (** newest first *)
  s_body : string_map;                      (** name and JSON text *)
  s_timers : gmap string string;            (** by document id: the callback *)
  s_due : gmap string (list string)         (** by second: document ids, in order *)
}.

Definition set_docs (b : string) (m : gmap string string) (st : store) : store :=
  Store (<[b := m]> (s_docs st)) (s_queues st) (s_body st) (s_timers st) (s_due st).
Definition push (q x : string) (st : store) : store :=
  Store (s_docs st) (<[q := x :: default [] (s_queues st !! q)]> (s_queues st)) (s_body st) (s_timers st) (s_due st).
Definition set_body (m : string_map) (st : store) : store :=
  Store (s_docs st) (s_queues st) m (s_timers st) (s_due st).
Definition set_timers (t : gmap string string) (d : gmap string (list string)) (st : store) : store :=
  Store (s_docs st) (s_queues st) (s_body st) t d.

(** The name of a second: 19 bytes with a colon. *)
Definition marker_key (ts : string) : bool := (slen ts =? 19) && negb (lacks ":" ts).

(** An id that can carry a timer: a legal key without the separator that is
    neither a number, as set markers are, nor the name of a second. *)
Definition timer_id (id : string) : bool :=
  nul_free id && valid_key id && lacks ";" id && negb (all_digits id) && negb (marker_key id).

(** What the objects stand for. *)
Record meaning := Meaning {
  buckets : list string;        (** the connections of the bucket objects *)
  queries : list string;        (** those of the query objects *)
  queue_names : list string;    (** the names of the queues *)
  app_name : string             (** the application's name *)
}.

Definition conn (objs : meaning) (n : nat) : option string := buckets objs !! n.
Definition queue (objs : meaning) (n : nat) : option string := queue_names objs !! n.

(** The query service, for queries that only read: the buckets a query reads, and
    its rows as JSON texts. *)
Class QueryService := {
  query_reads : string → string → list string;
  query_rows : string → string → (string → gmap string string) → option (list string)
}.

#[export] Instance js_object_eq_dec : EqDecision js_object.
Proof. solve_decision. Defined.

(** The number of a bucket, query or queue object. *)
Definition bucket_number (o : js_object) : option nat :=
  match o_fields o !! 1%nat with
  | Some (Some (PLcb (BucketLcb n))) => if decide (o = bucket_object n) then Some n else None
  | _ => None
  end.
Definition n1ql_number (o : js_object) : option nat :=
  match o_fields o !! 1%nat with
  | Some (Some (PLcb (N1qlLcb n))) => if decide (o = n1ql_object n) then Some n else None
  | _ => None
  end.
Definition queue_number (o : js_object) : option nat :=
  match o_fields o !! 1%nat with
  | Some (Some (PRedis n)) => if decide (o = queue_object n) then Some n else None
  | _ => None
  end.

Definition only_if {A} (b : bool) (x : A) : option A := if b then Some x else None.

(** The value of an outcome. *)
Definition ok {A} (x : outcome A) : option A := match x with Ok a => Some a | Fail _ => None end.

Section spec.
Context `{Engine} `{RapidJson} `{QueryService} (now : Z) (objs : meaning).
Implicit Types st : store.

(** ** Property accesses and calls *)

Definition spec_get (o : js_object) (name : string) st : option (store * reply) :=
  let key := c_str name in
  match o_handlers o with
  | BucketHandlers =>
      n ← bucket_number o;
      b ← conn objs n;
      only_if (valid_key key) (st, return_handle (json_parse (default EmptyString (s_docs st b !! key))))
  | QueueHandlers =>
      n ← queue_number o;
      q ← queue objs n;
      only_if (nul_free q && (slen q <=? short_max)) (push q key st, Pass)
  | ResponseHandlers =>
      only_if (bool_decide (o = response_object)) (st, Return (js_host body_object))
  | BodyHandlers => Some (st, Pass)
  | N1qlHandlers =>
      n ← n1ql_number o;
      b ← queries objs !! n;
      _ ← only_if (forallb (λ b', bool_decide (b' ∈ buckets objs)) (query_reads b key)) tt;
      rows ← query_rows b key (s_docs st);
      vs ← mapM (λ row, json_parse (c_str row)) rows;
      Some (st, Return (js_array (Some <$> vs)))
  end.

Definition spec_set (o : js_object) (name : string) (v : jsval) st : option (store * reply) :=
  let key := c_str name in
  match o_handlers o with
  | BucketHandlers =>
      n ← bucket_number o;
      b ← conn objs n;
      text ← ok (ToString v);
      only_if (valid_key key && (slen text <=? max_value))
        (set_docs b (<[key := text]> (s_docs st b)) st, Return v)
  | BodyHandlers =>
      text ← ok (ToString v);
      only_if (bool_decide (o = body_object)) (set_body (<[key := text]> (s_body st)) st, Return v)
  | _ => Some (st, Pass)
  end.

Definition spec_delete (o : js_object) (name : string) st : option (store * reply) :=
  let key := c_str name in
  match o_handlers o with
  | BucketHandlers =>
      n ← bucket_number o;
      b ← conn objs n;
      only_if (valid_key key) (set_docs b (delete key (s_docs st b)) st, Return js_true)
  | _ => Some (st, Pass)
  end.

(** A timer for the second that the expiry stands for; none for an expiry of 0. *)
Definition spec_register (cf id startTs : string) st : option store :=
  v ← ok (atoi startTs);
  if v =? 0 then Some st else
  ts ← ok (ConvertToISO8601 now startTs);
  let ids := default [] (s_due st !! ts) ++ [id] in
  only_if (timer_id id && marker_key ts && (slen (timer_blob cf id ts) <=? max_value)
           && (slen (join_term ";" ids) <=? max_value))
    (set_timers (<[id := cf]> (s_timers st)) (<[ts := ids]> (s_due st)) st).

(** A mail leaves the store as it is. *)
Definition spec_function (f : host_function) (args : list jsval) st : option (store * reply) :=
  match f with
  | Flog => only_if (bool_decide (length args = O)) (st, Return js_undefined)
  | FregisterCallback =>
      cf ← utf8 (argument args 0);
      id ← utf8 (argument args 1);
      startTs ← utf8 (argument args 2);
      st ← spec_register (c_str cf) (c_str id) (c_str startTs) st;
      Some (st, Return js_undefined)
  | Fsendmail =>
      mail_to ← ok (mail_argument args 0);
      mail_subject ← ok (mail_argument args 1);
      mail_body ← ok (mail_argument args 2);
      only_if (slen (c_str (app_name objs)) + slen (c_str mail_to) + slen (c_str mail_subject)
               + slen (c_str mail_body) <=? 971)
        (st, Return js_undefined)
  end.

Definition spec_call (c : host_call) st : option (store * reply) :=
  match c with
  | HGet o (NString name) => spec_get o name st
  | HSet o (NString name) v => spec_set o name v st
  | HDelete o (NString name) => spec_delete o name st
  | HGet _ NSymbol | HSet _ NSymbol _ | HDelete _ NSymbol => Some (st, Pass)
  | HCall f args => spec_function f args st
  end.

(** ** Handlers *)

(** The store and the engine's state after a handler, and its result. *)
Fixpoint spec_run (p : js_prog js_state) st : option (store * js_state * (jsval + jsval)) :=
  match p with
  | JDone s v => Some (st, s, inl v)
  | JThrow s e => Some (st, s, inr e)
  | JHost c k => '(st, r) ← spec_call c st; spec_run (k r) st
  end.

(** ** Events *)

Inductive answer : Type :=
  | Code (z : Z)
  | Reply (text : string)
  | Done.

(** What the Go program hands over, to a worker with these handlers. *)
Inductive event : Type :=
  | EvUpdate (value meta type : string)
  | EvDelete (msg : string)
  | EvGet (http_req : string)
  | EvPost (http_req : string)
  | EvTick (second : string).

Definition code_of (r : jsval + jsval) (failed : Z) : answer := Code (match r with inl _ => 0 | inr _ => failed end).

(** The request's handler, from an empty body. *)
Definition spec_http (handler : option jsval) (req : string) (ss : store * js_state)
    : option (store * js_state * answer) :=
  f ← handler;
  arg0 ← json_parse (c_str req);
  '(st, s, _) ← spec_run (call f [arg0; js_host response_object] ss.2) (set_body ∅ ss.1);
  Some (st, s, Reply (rj_write (raw_object (in_order (s_body st))))).

(** The callbacks of the timers [ids], one after the other. *)
Fixpoint spec_timers (ids : list string) (ss : store * js_state) : option (store * js_state) :=
  match ids with
  | [] => Some ss
  | id :: ids =>
      cf ← s_timers ss.1 !! id;
      f ← global_get cf ss.2;
      _ ← only_if (is_function f) tt;
      '(st, s, _) ← spec_run (call f [js_string id] ss.2) ss.1;
      spec_timers ids (st, s)
  end.

(** The second [ts] with its timers is over, also for those registered anew by
    the callbacks. *)
Definition expire (ts : string) (ids : list string) st : store :=
  set_timers (foldr delete (s_timers st) ids) (delete ts (s_due st)) st.

Definition spec_event (w : Worker) (e : event) (ss : store * js_state)
    : option (store * js_state * answer) :=
  match e with
  | EvUpdate value meta type =>
      f ← on_update_ w;
      arg0 ← (if decide (c_str type = "json"%string) then json_parse (c_str value)
              else Some (js_string (c_str value)));
      arg1 ← json_parse (c_str meta);
      '(st, s, r) ← spec_run (call f [arg0; arg1] ss.2) ss.1;
      Some (st, s, code_of r 7)
  | EvDelete msg =>
      f ← on_delete_ w;
      '(st, s, r) ← spec_run (call f [js_string (c_str msg)] ss.2) ss.1;
      Some (st, s, code_of r 8)
  | EvGet req => spec_http (on_http_get_ w) req ss
  | EvPost req => spec_http (on_http_post_ w) req ss
  | EvTick ts =>
      let ids := default [] (s_due ss.1 !! ts) in
      _ ← only_if (marker_key ts) tt;
      '(st, s) ← spec_timers ids ss;
      Some (expire ts ids st, s, Done)
  end.

End spec.

(** Events in their order, each with the clock's reading during it. *)
Fixpoint spec_events `{Engine} `{RapidJson} `{QueryService} (objs : meaning) (w : Worker) (es : list (Z * event))
    (ss : store * js_state) : option (store * js_state * list answer) :=
  match es with
  | [] => Some (ss.1, ss.2, [])
  | (now, e) :: es =>
      '(st, s, a) ← spec_event now objs w e ss;
      '(st, s, l) ← spec_events objs w es (st, s);
      Some (st, s, a :: l)
  end.

(** A timer that a callback registers for its own id in another second loses its
    document with the second that is over, not its place in the other one: the
    next tick finds an id without a timer. *)
Lemma expire_forgets ts ts' ids id (st : store) :
  id ∈ ids → ts ≠ ts' →
  s_timers (expire ts ids st) !! id = None ∧ s_due (expire ts ids st) !! ts' = s_due st !! ts'.
Proof.
  intros Hid Hts. split; [|by apply lookup_delete_ne]. cbn. clear Hts.
  induction ids as [|k ids IH]; [by apply not_elem_of_nil in Hid|]. cbn.
  destruct (decide (k = id)) as [->|Hne]; [apply lookup_delete_eq|].
  rewrite lookup_delete_ne by done. apply IH. by apply elem_of_cons in Hid as [->|].
Qed.
