(* ===== verification/Refine.v ===== *)
(** * The binding implements its specification: calls and handlers

    When a store describes a world: the relation between [Spec.v] and the
    binding's state.  Whenever the specification says what a property access, a
    function call or a handler does, the binding returns, with that answer, in a
    world that the resulting store describes. *)

From stdpp Require Import functions.
From S2P Require Import Prelude CStd StdMap Calendar Endian Kv Json V8 Engine Timers HttpResponse.
From S2P Require Import Heap Bucket N1ql Queue Mail Debug ExceptionFmt Host HostSafety Worker.
From S2P Require Import WorkerFacts GoTimers Spec.
#[local] Open Scope Z_scope.

(** A query that the service answers from the documents of the buckets it reads
    brings these rows, ends with success and changes no document. *)
Class QueryLaws `{LcbLaws} `{!LcbN1ql} `{QueryService} := {
  query_answers b q c docs texts :
    query_rows b q docs = Some texts → (∀ b', b' ∈ query_reads b q → docs b' = doc_value <$> contents c b') →
    ∃ c' rs fin, lcb_n1ql_query b q c = (c', rs ++ [fin]) ∧ n_row <$> rs = texts ∧
      Forall (λ r, rflags_final r = false) rs ∧ rflags_final fin = true ∧ n_rc fin = LCB_SUCCESS ∧
      ∀ b', contents c' b' = contents c b'
}.

Section refinement.
Context `{LcbHealthy} `{!LcbN1ql} `{QueryService} `{!QueryLaws} `{RedisLaws} `{Curl} `{RapidJsonLaws} `{Engine} `{!V8Laws}.
Context (little : bool) (now : Z) (alloc address : Z).
Implicit Types w : world.

(** ** The relation *)

(** What the objects of a world stand for. *)
Definition meaning_of w : meaning :=
  Meaning ((λ b, connstr (bucket_lcb_obj b)) <$> w_buckets w) ((λ b, connstr (n1ql_lcb_obj b)) <$> w_n1qls w)
    (queue_name <$> w_queues w) (app_name_ (w_worker w)).

(** The worker is loaded, and no bucket of the deployment is its own. *)
Definition serving w : Prop :=
  wf w ∧ data_slot_1 (w_worker w) = true ∧
  ∀ n b, conn (meaning_of w) n = Some b → cb_instance (w_worker w) ≠ Some (worker_handle b).

Record describes (st : store) w : Prop := {
  d_docs n b : conn (meaning_of w) n = Some b → s_docs st b = doc_value <$> contents (w_cluster w) b;
  d_queues : redis_lists (w_redis w) = s_queues st;
  d_body : w_maps w BodyMap = s_body st;
  d_timers wb id cf :
    cb_instance (w_worker w) = Some (worker_handle wb) → s_timers st !! id = Some cf →
    timer_id id = true ∧ nul_free cf = true ∧ has_timer wb (w_cluster w) cf id;
  d_due wb ts :
    cb_instance (w_worker w) = Some (worker_handle wb) → marker_key ts = true →
    marker wb ts (w_cluster w) = join_term ";" <$> s_due st !! ts;
  d_ids ts ids : s_due st !! ts = Some ids → Forall (λ id, timer_id id = true) ids
}.

(** The worker's bucket is as before, up to markers of sets. *)
Definition meta_kept w (c : cluster) : Prop :=
  ∀ wb k, cb_instance (w_worker w) = Some (worker_handle wb) → all_digits k = false →
    contents c wb !! k = contents (w_cluster w) wb !! k.

(** [w'] has the objects of [w], is described by [st] and serves. *)
Definition follows (st : store) w w' : Prop := same_objects w w' ∧ describes st w'.

Lemma same_meaning w w' : same_objects w w' → meaning_of w' = meaning_of w.
Proof. intros (E1 & E2 & E3 & _ & E5). unfold meaning_of. by rewrite E1, E2, E3, E5. Qed.

Lemma same_serving w w' : same_objects w w' → serving w → serving w'.
Proof.
  intros Hs (Hw & Hd & Hc). pose proof (same_meaning w w' Hs) as Em. split_and!.
  - by eapply same_objects_wf.
  - destruct Hs as (_ & _ & _ & _ & ->). done.
  - intros n b. rewrite Em. destruct Hs as (_ & _ & _ & _ & ->). apply Hc.
Qed.

Lemma same_objects_trans w1 w2 w3 : same_objects w1 w2 → same_objects w2 w3 → same_objects w1 w3.
Proof.
  intros (A1 & A2 & A3 & A4 & A5) (B1 & B2 & B3 & B4 & B5). unfold same_objects.
  by rewrite B1, B2, B3, B4, B5.
Qed.

(** A bucket that stands for [b] is connected to it, and the worker elsewhere. *)
Lemma serving_connected n b w :
  serving w → conn (meaning_of w) n = Some b → ∃ wb, connected n b wb w ∧ b ≠ wb.
Proof.
  intros ((Wb & _ & _ & _ & wb & Hwb) & _ & Hne) Hn. exists wb.
  pose proof (Hne n b Hn) as Hd. unfold conn in Hn. cbn in Hn. rewrite list_lookup_fmap in Hn.
  destruct (w_buckets w !! n) as [o|] eqn:Ho; [|done].
  destruct (Forall_lookup_1 _ _ _ _ Wb Ho) as [[cs Hcs] _].
  cbn in Hn. rewrite Hcs in Hn. injection Hn as <-. split.
  - split; [|exact Hwb]. change (lcb_at (BucketLcb n) w) with (bucket_lcb_obj <$> w_buckets w !! n).
    rewrite Ho. cbn. by rewrite Hcs.
  - intros ->. by rewrite Hwb in Hd.
Qed.

(** ** Worlds that differ in one part *)

(** Keys with a colon are no numbers. *)
Lemma colon_no_number s : lacks ":" s = false → all_digits s = false.
Proof.
  induction s as [|a s IH]; [done|]. unfold lacks, all_digits in *. cbn.
  destruct (Ascii.eqb_spec a ":") as [->|_]; [done|]. cbn. intros E. rewrite IH by done. by rewrite andb_false_r.
Qed.

Lemma marker_key_colon ts : marker_key ts = true → all_digits ts = false.
Proof. intros [_ Hc%negb_true_iff]%andb_true_iff. by apply colon_no_number. Qed.

Lemma timer_id_facts id :
  timer_id id = true →
  nul_free id = true ∧ valid_key id = true ∧ lacks ";" id = true ∧ all_digits id = false ∧ marker_key id = false.
Proof. unfold timer_id. rewrite !andb_true_iff, !negb_true_iff. tauto. Qed.

Lemma marker_key_valid ts : marker_key ts = true → valid_key ts = true.
Proof. intros [Hl%Z.eqb_eq _]%andb_true_iff. unfold valid_key. by rewrite Hl. Qed.

(** What a tick removes besides its own ids and marker: nothing of the others. *)
Lemma timer_id_not_purged ts ids id :
  marker_key ts = true → timer_id id = true → id ∉ ids →
  id ∉ (list_to_set (ts :: ids ++ [EmptyString]) : gset string).
Proof.
  intros Hk (_ & Hv & _ & _ & Hm)%timer_id_facts Hid.
  rewrite elem_of_list_to_set, elem_of_cons, elem_of_app, list_elem_of_singleton.
  intros [->|[?| ->]]; [by rewrite Hk in Hm|done|done].
Qed.

Lemma marker_key_not_purged ts ts' ids :
  marker_key ts' = true → ts' ≠ ts → Forall (λ id, timer_id id = true) ids →
  ts' ∉ (list_to_set (ts :: ids ++ [EmptyString]) : gset string).
Proof.
  intros Hk Hne Hids. rewrite elem_of_list_to_set, elem_of_cons, elem_of_app, list_elem_of_singleton.
  intros [?|[Hin| ->]]; [done| |done]. rewrite Forall_forall in Hids.
  pose proof (timer_id_facts ts' (Hids ts' Hin)) as (_ & _ & _ & _ & Hmk). by rewrite Hk in Hmk.
Qed.

(** What the store says of the servers other than the buckets stays so. *)
Lemma describes_cluster st st' w (c : cluster) :
  describes st w → meta_kept w c →
  (∀ n b, conn (meaning_of w) n = Some b → s_docs st' b = doc_value <$> contents c b) →
  s_queues st' = s_queues st → s_body st' = s_body st → s_timers st' = s_timers st → s_due st' = s_due st →
  describes st' (update c w).
Proof.
  intros Hd Hm Hb Eq Eb Et Ed. split; rewrite ?Eq, ?Eb, ?Et, ?Ed; [exact Hb|apply Hd|apply Hd| | |apply Hd].
  - intros wb id cf Hwb Hid. destruct (d_timers _ _ Hd wb id cf Hwb Hid) as (Ht & Hn & ts & Hb').
    split_and!; [done..|]. exists ts. cbn. rewrite (Hm wb id Hwb); [done|]. by apply timer_id_facts.
  - intros wb ts Hwb Hk. unfold marker. cbn. rewrite (Hm wb ts Hwb) by by apply marker_key_colon.
    by apply Hd.
Qed.

(** Setting documents of one bucket. *)
Lemma follows_docs st w (c : cluster) b m :
  describes st w → meta_kept w c → (doc_value <$> contents c b) = m →
  (∀ n' b', conn (meaning_of w) n' = Some b' → b' ≠ b → contents c b' = contents (w_cluster w) b') →
  follows (set_docs b m st) w (update c w).
Proof.
  intros Hd Hmeta Hm Ho. split; [apply same_objects_cluster|].
  apply (describes_cluster st); [done|done| |done..].
  intros n' b' Hb'. cbn. destruct (decide (b' = b)) as [->|Hne].
  - by rewrite fn_lookup_insert.
  - rewrite fn_lookup_insert_ne by done. rewrite (d_docs _ _ Hd n' b' Hb'). by rewrite (Ho n' b').
Qed.

(** Changing nothing that the store sees. *)
Lemma follows_cluster st w (c : cluster) :
  describes st w → (∀ b, contents c b = contents (w_cluster w) b) → follows st w (update c w).
Proof.
  intros Hd Ho. split; [apply same_objects_cluster|]. apply (describes_cluster st); [done| | |done..].
  - intros wb k _ _. by rewrite Ho.
  - intros n b Hb. by rewrite (d_docs _ _ Hd n b Hb), Ho.
Qed.

(** A change of another part. *)
Lemma describes_other st w w' :
  describes st w → w_cluster w' = w_cluster w → same_objects w w' →
  redis_lists (w_redis w') = redis_lists (w_redis w) → w_maps w' BodyMap = w_maps w BodyMap →
  describes st w'.
Proof.
  intros [D1 D2 D3 D4 D5 D6] Ec Hs Er Em. pose proof (same_meaning w w' Hs) as Hm.
  destruct Hs as (_ & _ & _ & _ & Ew).
  split; rewrite ?Hm, ?Ec, ?Er, ?Em, ?Ew; done.
Qed.

Lemma follows_refl st w : describes st w → follows st w w.
Proof. intros Hd. split; [apply same_objects_refl|done]. Qed.

Lemma bucket_number_inv o n : bucket_number o = Some n → o = bucket_object n.
Proof. unfold bucket_number. repeat case_match; try done. by intros [= ->]. Qed.

Lemma n1ql_number_inv o n : n1ql_number o = Some n → o = n1ql_object n.
Proof. unfold n1ql_number. repeat case_match; try done. by intros [= ->]. Qed.

Lemma queue_number_inv o n : queue_number o = Some n → o = queue_object n.
Proof. unfold queue_number. repeat case_match; try done. by intros [= ->]. Qed.

Lemma only_if_inv {A} (b : bool) (x y : A) : only_if b x = Some y → b = true ∧ y = x.
Proof. destruct b; [by intros [= ->]|done]. Qed.

Lemma ok_inv {A} (x : outcome A) a : ok x = Some a → x = Ok a.
Proof. destruct x; [by intros [= ->]|done]. Qed.

(** ** Property accesses *)

(** A call that the specification answers is answered so. *)
Definition implemented (m : prog world reply) (spec : option (store * reply)) (st : store) w : Prop :=
  ∀ st' r, spec = Some (st', r) → ∃ w', m w = (w', Ok r) ∧ follows st' w w'.

(** A query reads what the store has. *)
Lemma query_refines o s st w st' r :
  describes st w → o_handlers o = N1qlHandlers →
  spec_get (meaning_of w) o s st = Some (st', r) →
  ∃ w', N1QLEnumGetCall o (NString s) w = (w', Ok r) ∧ follows st' w w'.
Proof.
  intros Hd Ho E. unfold spec_get in E. rewrite Ho in E.
  apply bind_Some in E as (n & ->%n1ql_number_inv & E). apply bind_Some in E as (b & Hb & E).
  apply bind_Some in E as ([] & [Hr _]%only_if_inv & E).
  apply bind_Some in E as (texts & Ha & E). apply bind_Some in E as (vs & Hvs & [= <- <-]).
  cbn in Hb. rewrite list_lookup_fmap in Hb. apply fmap_Some in Hb as (x & Hx & ->).
  destruct (query_answers (connstr (n1ql_lcb_obj x)) (c_str s) (w_cluster w) (s_docs st) texts Ha)
    as (c & rs & fin & Hq & <- & Hrs & Hf & Hrc & Hsame).
  { intros b' Hb'. apply Is_true_eq_left in Hr. rewrite forallb_True, Forall_forall in Hr.
    specialize (Hr b' Hb'). apply bool_decide_unpack in Hr.
    apply list_elem_of_lookup in Hr as (n' & Hn'). by apply (d_docs _ _ Hd n'). }
  exists (update c w). split; [|by apply follows_cluster].
  pose proof (N1QLEnumGetCall_eq n (n1ql_lcb_obj x) s w) as E. cbv zeta in E.
  rewrite E by (change (lcb_at (N1qlLcb n) w) with (n1ql_lcb_obj <$> w_n1qls w !! n); by rewrite Hx).
  unfold after_query. change (view w) with (w_cluster w). rewrite Hq. cbn [fst snd].
  rewrite query_callback_all by done. cbn [rc rows]. rewrite Hrc, Z.eqb_refl.
  rewrite (set_rows_ok _ vs); [done|]. by apply mapM_Some.
Qed.

Lemma get_refines o s st w :
  serving w → describes st w →
  implemented (property_get alloc address o (NString s)) (spec_get (meaning_of w) o s st) st w.
Proof.
  intros Hs Hd st' r E. unfold spec_get in E. unfold property_get.
  destruct (o_handlers o) eqn:Ho.
  - apply bind_Some in E as (n & ->%bucket_number_inv & E). apply bind_Some in E as (b & Hb & E).
    apply only_if_inv in E as [Hk [= -> ->]].
    destruct (serving_connected n b w Hs Hb) as (wb & Hc & _).
    destruct (BucketGet_healthy n b wb s w Hc Hk) as (c & Hrun & Hsame).
    exists (update c w). change (view w) with (w_cluster w) in *.
    rewrite Hrun, (d_docs _ _ Hd n b Hb), lookup_fmap. split; [done|].
    by apply follows_cluster.
  - apply bind_Some in E as (n & ->%queue_number_inv & E). apply bind_Some in E as (q & Hq & E).
    apply only_if_inv in E as [[Hn Hl%Z.leb_le]%andb_true_iff [= -> ->]].
    unfold queue in Hq. cbn in Hq. rewrite list_lookup_fmap in Hq.
    destruct (w_queues w !! n) as [x|] eqn:Hx; [|done]. injection Hq as <-.
    pose proof (QueueGetCall_eq alloc address n x s w Hx) as E. cbv zeta in E.
    rewrite string_object_short, (c_str_id _ Hn) in E by done.
    eexists. split; [exact E|]. split; [apply same_objects_redis|].
    destruct Hd as [D1 D2 D3 D4 D5 D6]. split; [exact D1| |exact D3|exact D4|exact D5|exact D6].
    cbn. rewrite redis_lpush. change (view w) with (w_redis w). by rewrite D2.
  - apply (query_refines o s st); [done|done|]. unfold spec_get. by rewrite Ho.
  - apply only_if_inv in E as [->%bool_decide_eq_true [= -> ->]].
    exists w. split; [|by apply follows_refl]. unfold HTTPResponseGet.
    erewrite bind_Ok by apply lift_Ok_eq, name_string_ok. cbv beta. step. cbv iota. by step.
  - injection E as <- <-. exists w. split; [done|by apply follows_refl].
Qed.

Lemma set_refines o s v st w :
  serving w → describes st w →
  implemented (property_set little o (NString s) v) (spec_set (meaning_of w) o s v st) st w.
Proof.
  intros Hs Hd st' r E. unfold spec_set in E. unfold property_set.
  destruct (o_handlers o) eqn:Ho.
  - apply bind_Some in E as (n & ->%bucket_number_inv & E). apply bind_Some in E as (b & Hb & E).
    apply bind_Some in E as (t & Ht%ok_inv & E).
    apply only_if_inv in E as [[Hk Hl%Z.leb_le]%andb_true_iff [= -> ->]].
    destruct (serving_connected n b w Hs Hb) as (wb & Hc & Hne).
    destruct (BucketSet_healthy little n b wb s v t w Hc Ht Hne Hk Hl) as (c & cas & cas' & Hrun & Hb' & Hwb & Ho' & Hcas).
    exists (update c w). split; [exact Hrun|]. change (view w) with (w_cluster w) in *.
    apply follows_docs; [done| | |].
    + intros wb' k Ew Hk'. assert (wb' = wb) as ->.
      { destruct Hc as [_ Hc]. cbn in Hc. rewrite Ew in Hc. by injection Hc. }
      rewrite Hwb, lookup_insert_ne; [done|]. intros <-. by rewrite (cas_key_digits little cas Hcas) in Hk'.
    + by rewrite Hb', fmap_insert, (d_docs _ _ Hd n b Hb).
    + intros n' b' Hb2 Hd'. apply Ho'; [done|]. intros ->.
      apply Hs in Hb2. apply Hb2. apply Hc.
  - injection E as <- <-. exists w. split; [done|by apply follows_refl].
  - injection E as <- <-. exists w. split; [done|by apply follows_refl].
  - injection E as <- <-. exists w. split; [done|by apply follows_refl].
  - apply bind_Some in E as (t & Ht%ok_inv & E).
    apply only_if_inv in E as [->%bool_decide_eq_true [= -> ->]].
    unfold HTTPBodySet. erewrite bind_Ok by apply lift_Ok_eq, name_string_ok. cbv beta.
    erewrite bind_Ok by apply lift_Ok_eq, Ht. cbv beta. step. step.
    eexists. split; [reflexivity|]. split; [apply same_objects_maps|].
    destruct Hd as [D1 D2 D3 D4 D5 D6]. split; [exact D1|exact D2| |exact D4|exact D5|exact D6].
    cbn. rewrite <-D3. unfold set_map. by rewrite decide_True.
Qed.

Lemma delete_refines o s st w :
  serving w → describes st w →
  implemented (property_delete o (NString s)) (spec_delete (meaning_of w) o s st) st w.
Proof.
  intros Hs Hd st' r E. unfold spec_delete in E. unfold property_delete.
  destruct (o_handlers o) eqn:Ho;
    try (injection E as <- <-; exists w; split; [done|by apply follows_refl]).
  apply bind_Some in E as (n & ->%bucket_number_inv & E). apply bind_Some in E as (b & Hb & E).
  apply only_if_inv in E as [Hk [= -> ->]].
  destruct (serving_connected n b w Hs Hb) as (wb & Hc & _).
  destruct (BucketDelete_healthy n b wb s w Hc Hk) as (c & Hrun & Hb' & Ho').
  exists (update c w). split; [exact Hrun|]. change (view w) with (w_cluster w) in *.
  apply follows_docs; [done| | |].
  - intros wb' k Ew _. rewrite Ho'; [done|]. intros ->. by apply Hs in Hb.
  - by rewrite Hb', fmap_delete, (d_docs _ _ Hd n b Hb).
  - intros n' b' _ Hne. by apply Ho'.
Qed.

(** ** Function calls *)

(** What a registration leaves in the worker's bucket is what the store says. *)
Lemma register_describes st w wb cf id ts (ids : list string) :
  describes st w → cb_instance (w_worker w) = Some (worker_handle wb) →
  (∀ n b, conn (meaning_of w) n = Some b → b ≠ wb) →
  timer_id id = true → nul_free cf = true → marker_key ts = true →
  ids = default [] (s_due st !! ts) ++ [id] →
  slen (timer_blob cf id ts) <= max_value → slen (join_term ";" ids) <= max_value →
  describes (set_timers (<[id := cf]> (s_timers st)) (<[ts := ids]> (s_due st)) st)
    (update (store_timer (worker_handle wb) cf id ts (w_cluster w)).1 w).
Proof.
  intros Hd Hwb Hne Hid Hcf Hts -> Hblob Hsize.
  pose proof (timer_id_facts id Hid) as (Hn & Hk & Hsemi & _ & Hmk).
  assert (id ≠ ts) as Hit by (by intros ->; rewrite Hts in Hmk).
  assert (valid_key ts = true) as Hkt.
  { apply andb_true_iff in Hts as [Hl%Z.eqb_eq _]. unfold valid_key. by rewrite Hl. }
  pose proof (d_due _ _ Hd wb ts Hwb Hts) as Hm.
  assert (default EmptyString (marker wb ts (w_cluster w)) +:+ id +:+ ";"
          = join_term ";" (default [] (s_due st !! ts) ++ [id])) as Ej.
  { rewrite Hm, join_term_app. by destruct (s_due st !! ts). }
  destruct (healthy_store_timer wb cf id ts (w_cluster w) Hit Hk Hkt Hblob) as [Em Eb]; [by rewrite Ej|].
  pose proof (store_timer_frame wb cf id ts (w_cluster w)) as F. cbv zeta in Em, Eb.
  set (c := (store_timer (worker_handle wb) cf id ts (w_cluster w)).1) in *.
  assert (∀ k, k ≠ id → k ≠ ts → contents c wb !! k = contents (w_cluster w) wb !! k) as Hother.
  { intros k H1' H2'. apply F. right. set_solver. }
  assert (∀ wb', cb_instance (w_worker w) = Some (worker_handle wb') → wb' = wb) as Hinj.
  { intros wb' E. rewrite Hwb in E. by injection E. }
  split; cbn [s_docs s_queues s_body s_timers s_due set_timers].
  - intros n b Hb. rewrite (d_docs _ _ Hd n b Hb). f_equal. apply map_eq. intros k. symmetry.
    apply F. left. exact (Hne n b Hb).
  - apply Hd.
  - apply Hd.
  - intros wb' id' cf' ->%Hinj Hl. destruct (decide (id' = id)) as [->|Hd'].
    + rewrite lookup_insert_eq in Hl. injection Hl as <-. split_and!; [done..|]. by exists ts.
    + rewrite lookup_insert_ne in Hl by done.
      destruct (d_timers _ _ Hd wb id' cf' Hwb Hl) as (Ht & Hc & ts' & Hb').
      split_and!; [done..|]. exists ts'. rewrite <-Hb'. f_equal. apply Hother; [done|].
      intros ->. by apply timer_id_facts in Ht as (_ & _ & _ & _ & Ht); rewrite Hts in Ht.
  - intros wb' ts' ->%Hinj Hk'. change (w_cluster (update c w)) with c.
    destruct (decide (ts' = ts)) as [->|Hd'].
    + by rewrite lookup_insert_eq, Em, Ej.
    + rewrite lookup_insert_ne by done. rewrite <-(d_due _ _ Hd wb ts' Hwb Hk'). unfold marker. f_equal.
      apply Hother; [|done]. intros ->. by rewrite Hk' in Hmk.
  - intros ts' ids' Hl. destruct (decide (ts' = ts)) as [->|Hd'].
    + rewrite lookup_insert_eq in Hl. injection Hl as <-. apply Forall_app. split; [|by constructor].
      destruct (s_due st !! ts) as [l|] eqn:E; [|constructor]. by apply (d_ids _ _ Hd ts).
    + rewrite lookup_insert_ne in Hl by done. by apply (d_ids _ _ Hd ts').
Qed.

Lemma register_refines a0 a1 a2 st st' w :
  serving w → describes st w → spec_register now (c_str a0) (c_str a1) (c_str a2) st = Some st' →
  ∃ w', zoom (RegisterCallback (timer_handle w) now (Some a0) (Some a1) (Some a2)) w = (w', Ok tt) ∧
        follows st' w w'.
Proof.
  intros ((_ & _ & _ & _ & wb & Hwb) & Hslot & Hne) Hd He. unfold spec_register in He.
  unfold zoom, RegisterCallback. cbn [utf8_string]. unfold mbind, prog_bind. cbn [lift].
  apply bind_Some in He as (v & Hv%ok_inv & He). rewrite Hv.
  destruct (Z.eqb_spec v 0) as [->|Hnz].
  { injection He as <-. cbn. eexists. split; [reflexivity|]. by apply follows_cluster. }
  apply bind_Some in He as (ts & Hts%ok_inv & He). rewrite Hts. cbn [lift].
  unfold timer_handle. rewrite Hslot, Hwb. apply only_if_inv in He as [Hc ->].
  rewrite !andb_true_iff, !Z.leb_le in Hc. destruct Hc as [[[Hid Hmk] Hblob] Hsize].
  pose proof (store_timer_eq wb (c_str a0) (c_str a1) ts (w_cluster w)) as E.
  eexists. split; [change (view w) with (w_cluster w); rewrite E; reflexivity|].
  split; [apply same_objects_cluster|].
  replace (after_append _ _ _ _) with (store_timer (worker_handle wb) (c_str a0) (c_str a1) ts (w_cluster w)).1
    by (by rewrite E).
  apply register_describes; [done..| |done|apply c_str_nul_free|done|done|done|done].
  intros n b Hb ->. by apply (Hne n wb).
Qed.

(** A form that fits changes nothing but the client. *)
Lemma PostMail_fits app to subject body w :
  slen (c_str app) + slen (c_str to) + slen (c_str subject) + slen (c_str body) <= 971 →
  ∃ c : curl, PostMail app to subject body w = (update c w, Ok tt).
Proof.
  intros Hlen. unfold PostMail. unfold mbind at 1, prog_bind at 1, zoom at 1.
  destruct (curl_easy_init (view w)) as [c []]; [|by exists c].
  erewrite bind_Ok.
  2: { apply lift_Ok_eq. unfold sprintf. rewrite mail_form_length. unfold mail_buffer.
       rewrite (proj2 (Z.leb_le _ _)) by lia. reflexivity. }
  cbv beta. rewrite zoom_modify. eexists. by rewrite update_update.
Qed.

Lemma follows_curl st w (c : curl) : describes st w → follows st w (update c w).
Proof. intros Hd. split; [done|]. by apply (describes_other st w). Qed.

Lemma function_refines f args st w :
  serving w → describes st w →
  implemented (_ ← call_function now f args; mret (Return js_undefined))
    (spec_function now (meaning_of w) f args st) st w.
Proof.
  intros Hs Hd st' r E. unfold spec_function in E. destruct f; cbn [call_function].
  - apply only_if_inv in E as [Ha%bool_decide_eq_true [= -> ->]].
    destruct args; [|done]. exists w. split; [done|by apply follows_refl].
  - apply bind_Some in E as (a0 & E0 & E). apply bind_Some in E as (a1 & E1 & E).
    apply bind_Some in E as (a2 & E2 & E). apply bind_Some in E as (st1 & He & [= <- <-]).
    destruct (register_refines a0 a1 a2 st st1 w Hs Hd He) as (w' & Hrun & Hf).
    exists w'. split; [|done]. rewrite E0, E1, E2.
    erewrite bind_Ok; [reflexivity|]. by erewrite bind_Ok by reflexivity.
  - apply bind_Some in E as (a0 & E0%ok_inv & E). apply bind_Some in E as (a1 & E1%ok_inv & E).
    apply bind_Some in E as (a2 & E2%ok_inv & E). apply only_if_inv in E as [Hl%Z.leb_le [= -> ->]].
    destruct (PostMail_fits _ _ _ _ w Hl) as [c Hrun]. exists (update c w).
    split; [|by apply follows_curl].
    erewrite bind_Ok; [reflexivity|]. erewrite bind_Ok by reflexivity. cbv beta. unfold SendMail.
    rewrite E0, E1, E2. by do 3 step.
Qed.

Lemma call_refines c st w :
  serving w → describes st w →
  implemented (host little now alloc address c) (spec_call now (meaning_of w) c st) st w.
Proof.
  intros Hs Hd. destruct c as [o [|s]|o [|s] v|o [|s]|f args]; cbn [host spec_call].
  - intros st' r [= <- <-]. exists w. split; [by destruct o as [[] ?]|by apply follows_refl].
  - by apply get_refines.
  - intros st' r [= <- <-]. exists w. split; [by destruct o as [[] ?]|by apply follows_refl].
  - by apply set_refines.
  - intros st' r [= <- <-]. exists w. split; [by destruct o as [[] ?]|by apply follows_refl].
  - by apply delete_refines.
  - by apply function_refines.
Qed.

(** ** Handlers *)

Lemma run_refines p st w st' s' r :
  serving w → describes st w → spec_run now (meaning_of w) p st = Some (st', s', r) →
  ∃ w', run_js little now alloc address p w = (w', Ok r) ∧ follows st' w w' ∧ w_js w' = s'.
Proof.
  revert st w. induction p as [s v|s e|c k IH]; intros st w Hs Hd E; cbn [spec_run run_js] in *.
  - injection E as <- <- <-. eexists. split; [by erewrite bind_Ok by apply zoom_put|].
    split; [|done]. split; [done|]. by apply (describes_other st w).
  - injection E as <- <- <-. eexists. split; [by erewrite bind_Ok by apply zoom_put|].
    split; [|done]. split; [done|]. by apply (describes_other st w).
  - apply bind_Some in E as ([st1 r1] & Hc & E).
    destruct (call_refines c st w Hs Hd _ _ Hc) as (w1 & Hrun & Hso & Hd1).
    rewrite <-(same_meaning w w1 Hso) in E.
    destruct (IH r1 st1 w1 (same_serving w w1 Hso Hs) Hd1 E) as (w2 & Hrun2 & [Hso2 Hd2] & Hj).
    exists w2. split_and!; [by erewrite bind_Ok by exact Hrun| |done].
    split; [by eapply same_objects_trans|done].
Qed.
End refinement.
