(* ===== verification/FeedLoop.v ===== *)
(** * The loop of the feed comes to an end (v8_worker.go, bucket.cc)

    A handler that is called for the mutation of a document may write documents
    of the same bucket, and the feed brings these mutations back.  Here the loop
    is closed: a round takes any version of a document that the feed has not
    handled yet, as DCP does, which brings of every document the last version
    only, and hands it to [handleDcpEvent], which may make new ones.  The
    theorem: the loop stops, and no handler is called for a version that a
    handler has made. *)

From S2P Require Import Prelude CStd StdMap Calendar Endian Kv Json V8 Engine Timers HttpResponse.
From S2P Require Import Heap Bucket N1ql Queue Mail Debug Host HostSafety Worker WorkerFacts GoFeed Refine.
#[local] Open Scope Z_scope.

(** ** New CAS values *)

Section fresh.
Context `{LcbLaws}.
Implicit Types c : cluster.

Inductive get_step : cluster → cluster → Prop :=
  | get_step_get b k c : get_step c (lcb_get3 b k c).1.

(** The next [n] stores and removals, with any gets between them, give no store a
    CAS of [used] or of each other. *)
Fixpoint fresh_for (n : nat) (used : list Z) (c : cluster) : Prop :=
  match n with
  | O => True
  | S n =>
      ∀ c1, rtc get_step c c1 →
        (∀ b cmd x, (lcb_store3 b cmd c1).2 = Some x → store_ok (Some x) = true →
           store_cas x ∉ used ∧ fresh_for n (store_cas x :: used) (lcb_store3 b cmd c1).1) ∧
        (∀ b k, fresh_for n used (lcb_remove3 b k c1).1)
  end.

Lemma fresh_get n used c b k : fresh_for n used c → fresh_for n used (lcb_get3 b k c).1.
Proof.
  destruct n as [|n]; [done|]. intros H1 c1 Hc. apply H1. by eapply rtc_l; [constructor|].
Qed.

Lemma fresh_remove n used c b k : fresh_for (S n) used c → fresh_for n used (lcb_remove3 b k c).1.
Proof. intros Hf. by apply (Hf c). Qed.

Lemma fresh_store n used c b cmd x :
  fresh_for (S n) used c → (lcb_store3 b cmd c).2 = Some x → store_ok (Some x) = true →
  store_cas x ∉ used ∧ fresh_for n (store_cas x :: used) (lcb_store3 b cmd c).1.
Proof. intros Hf. by apply (Hf c). Qed.

Lemma fresh_less n m used c : (m <= n)%nat → fresh_for n used c → fresh_for m used c.
Proof.
  revert m used c. induction n as [|n IH]; intros [|m] used c Hm Hf; try done; [lia|].
  intros c1 Hc. destruct (Hf c1 Hc) as [H1 H2]. split.
  - intros b cmd x Hx Hok. destruct (H1 b cmd x Hx Hok) as [Hn Hf']. split; [done|].
    apply IH; [lia|done].
  - intros b k. apply IH; [lia|]. apply H2.
Qed.
End fresh.

(** ** What is pending *)

Section pending.
Context `{LcbLaws}.
Context (little : bool) (src wb : string).
Implicit Types (c : cluster) (seen : list (string * doc)).

Definition marker_name (d : doc) : string := cas_key little (doc_cas d).

(** The versions that the feed has still to bring, and those of them for which
    there is no marker. *)
Definition pending seen c : gmap string doc := filter (λ kd, kd ∉ seen) (contents c src).
Definition foreign seen c : gmap string doc :=
  filter (λ kd, contents c wb !! marker_name kd.2 = None) (pending seen c).

(** A bound on the rounds to come, for handlers of at most [n] writes. *)
Definition rounds_left (n : nat) seen c : nat := (n * size (foreign seen c) + size (pending seen c))%nat.

Lemma pending_lookup seen c k d :
  pending seen c !! k = Some d ↔ contents c src !! k = Some d ∧ (k, d) ∉ seen.
Proof. unfold pending. by rewrite map_lookup_filter_Some. Qed.

Lemma foreign_lookup seen c k d :
  foreign seen c !! k = Some d ↔
  contents c src !! k = Some d ∧ (k, d) ∉ seen ∧ contents c wb !! marker_name d = None.
Proof. unfold foreign. rewrite map_lookup_filter_Some, pending_lookup. cbn. tauto. Qed.

(** The CAS values of the bucket are in use, distinct, and 64 bits wide. *)
Record cas_ok (used : list Z) c : Prop := {
  c_used k d : contents c src !! k = Some d → doc_cas d ∈ used;
  c_distinct k1 k2 d1 d2 :
    contents c src !! k1 = Some d1 → contents c src !! k2 = Some d2 → doc_cas d1 = doc_cas d2 → k1 = k2;
  c_range x : x ∈ used → 0 <= x < 2 ^ 64
}.

Lemma cas_ok_same used c c' : contents c' src = contents c src → cas_ok used c → cas_ok used c'.
Proof. intros E [C1 C2 C3]. split; rewrite ?E; done. Qed.

Lemma cas_ok_more used c x : 0 <= x < 2 ^ 64 → cas_ok used c → cas_ok (x :: used) c.
Proof.
  intros Hx [C1 C2 C3]. split; [|done|].
  - intros k d Hk. apply elem_of_cons. right. by eapply C1.
  - intros y [->|Hy]%elem_of_cons; [done|by apply C3].
Qed.

Lemma cas_ok_insert used c c' k d :
  contents c' src = <[k := d]> (contents c src) → doc_cas d ∉ used → 0 <= doc_cas d < 2 ^ 64 →
  cas_ok used c → cas_ok (doc_cas d :: used) c'.
Proof.
  intros E Hn Hr [C1 C2 C3]. split; rewrite ?E.
  - intros k' d' [[<- <-]|[_ Hd]]%lookup_insert_Some; [by left|]. right. by eapply C1.
  - intros k1 k2 d1 d2 [[<- <-]|[H1 Hd1]]%lookup_insert_Some [[<- <-]|[H2 Hd2]]%lookup_insert_Some Hc.
    + done.
    + destruct Hn. rewrite Hc. by eapply C1.
    + destruct Hn. rewrite <-Hc. by eapply C1.
    + by eapply C2.
  - intros y [->|Hy]%elem_of_cons; [done|by apply C3].
Qed.

(** A version that has been brought. *)
Lemma pending_seen seen c k d :
  pending seen c !! k = Some d → (S (size (pending ((k, d) :: seen) c)) <= size (pending seen c))%nat.
Proof.
  intros Hk. assert (pending ((k, d) :: seen) c ⊆ delete k (pending seen c)) as Hsub%map_subseteq_size.
  { apply map_subseteq_spec. intros k' d' [Hd Hn]%pending_lookup. rewrite not_elem_of_cons in Hn.
    apply lookup_delete_Some. split; [|apply pending_lookup; tauto].
    intros <-. apply pending_lookup in Hk as [Hk _]. rewrite Hk in Hd. injection Hd as <-. tauto. }
  rewrite map_size_delete_Some in Hsub by done.
  destruct (size (pending seen c)) eqn:Hs; [|cbn in Hsub; lia].
  apply map_size_empty_inv in Hs. by rewrite Hs, lookup_empty in Hk.
Qed.

Lemma foreign_seen seen c k d :
  foreign seen c !! k = Some d → (S (size (foreign ((k, d) :: seen) c)) <= size (foreign seen c))%nat.
Proof.
  intros Hk. assert (foreign ((k, d) :: seen) c ⊆ delete k (foreign seen c)) as Hsub%map_subseteq_size.
  { apply map_subseteq_spec. intros k' d' (Hd & Hn & Hm)%foreign_lookup. rewrite not_elem_of_cons in Hn.
    apply lookup_delete_Some. split; [|apply foreign_lookup; tauto].
    intros <-. apply foreign_lookup in Hk as [Hk _]. rewrite Hk in Hd. injection Hd as <-. tauto. }
  rewrite map_size_delete_Some in Hsub by done.
  destruct (size (foreign seen c)) eqn:Hs; [|cbn in Hsub; lia].
  apply map_size_empty_inv in Hs. by rewrite Hs, lookup_empty in Hk.
Qed.

Lemma foreign_seen_le seen c kd : (size (foreign (kd :: seen) c) <= size (foreign seen c))%nat.
Proof.
  apply map_subseteq_size, map_subseteq_spec. intros k' d' (Hd & Hn & Hm)%foreign_lookup.
  rewrite not_elem_of_cons in Hn. apply foreign_lookup. tauto.
Qed.

(** A change that makes no version foreign. *)
Definition tamed seen c c' : Prop := ∀ k d, foreign seen c' !! k = Some d → foreign seen c !! k = Some d.

Lemma tamed_size seen c c' : tamed seen c c' → (size (foreign seen c') <= size (foreign seen c))%nat.
Proof. intros Ht. apply map_subseteq_size, map_subseteq_spec. exact Ht. Qed.
End pending.

(** ** Stores *)

Section stores.
Context `{LcbHealthy}.
Context (little : bool) (src wb : string) (Hsrc : src ≠ wb).
Implicit Types c : cluster.

(** A set that the servers take. *)
Lemma fresh_set b k v fl c m used :
  valid_key k = true → slen v <= max_value → fresh_for (S m) used c →
  let c' := (lcb_store3 b (CmdStore k v LCB_SET fl) c).1 in
  ∃ x, (lcb_store3 b (CmdStore k v LCB_SET fl) c).2 = Some x ∧ store_cas x ∉ used ∧ 0 <= store_cas x < 2 ^ 64 ∧
    fresh_for m (store_cas x :: used) c' ∧ contents c' b = <[k := Doc v fl (store_cas x)]> (contents c b) ∧
    ∀ b', b' ≠ b → contents c' b' = contents c b'.
Proof.
  intros Hk Hv Hf. destruct (healthy_set_response b k v fl c Hk Hv) as (x & Hx & Hb & Ho).
  assert (store_ok (Some x) = true) as Hok.
  { rewrite <-Hx. apply (healthy_store b (CmdStore k v LCB_SET fl) c _ eq_refl Hk). cbn. intros d.
    rewrite lookup_insert_eq. by intros [= <-]. }
  destruct (fresh_store _ used c b _ x Hf Hx Hok) as [Hn Hf'].
  exists x. destruct (store_response_range _ _ _ _ Hx) as [? ?]. by split_and!.
Qed.

(** What the two stores of a set by a handler leave. *)
Record was_set (b k t : string) (used used' : list Z) c c' : Prop := {
  ws_new : ∃ cas,
    cas ∉ used ∧ 0 <= cas < 2 ^ 64 ∧ contents c' b = <[k := Doc t json_flags cas]> (contents c b) ∧
    (∃ d, contents c' wb = <[cas_key little cas := d]> (contents c wb)) ∧ cas ∈ used';
  ws_others b' : b' ≠ b → b' ≠ wb → contents c' b' = contents c b';
  ws_used : used ⊆ used';
  ws_range : (∀ x, x ∈ used → 0 <= x < 2 ^ 64) → ∀ x, x ∈ used' → 0 <= x < 2 ^ 64
}.

Lemma set_requests b k t c m used :
  b ≠ wb → valid_key k = true → slen t <= max_value → fresh_for (S (S m)) used c →
  let first := lcb_store3 b (CmdStore k t LCB_SET json_flags) c in
  let mark := CmdStore (cas_key little (set_cas first.2)) k LCB_SET 0 in
  ∃ used', fresh_for m used' (lcb_store3 wb mark first.1).1 ∧ was_set b k t used used' c (lcb_store3 wb mark first.1).1.
Proof.
  intros Hne Hk Ht Hf. cbv zeta.
  destruct (fresh_set b k t json_flags c (S m) used Hk Ht Hf) as (x & Hx & Hn & Hr & Hf1 & Hb1 & Ho1).
  rewrite Hx. cbn [set_cas]. set (c1 := (lcb_store3 b _ c).1) in *.
  destruct (fresh_set wb (cas_key little (store_cas x)) k 0 c1 m _ (cas_key_valid little _ Hr)
              ltac:(unfold valid_key, max_value in *; lia) Hf1) as (y & _ & _ & Hr2 & Hf2 & Hb2 & Ho2).
  exists (store_cas y :: store_cas x :: used). split; [exact Hf2|]. split.
  - exists (store_cas x). split_and!; [done|apply Hr|apply Hr| | |right; by left].
    + by rewrite Ho2.
    + eexists. by rewrite Hb2, Ho1.
  - intros b' H1' H2'. by rewrite Ho2, Ho1.
  - set_solver.
  - intros Hu z [->|[->|Hz]%elem_of_cons]%elem_of_cons; auto.
Qed.

(** A set by a handler makes one version at most pending, and none foreign. *)
Lemma set_cas_ok b k t used used' c c' :
  b ≠ wb → was_set b k t used used' c c' → cas_ok src used c → cas_ok src used' c'.
Proof.
  intros Hne [(cas & Hn & Hr & Hb & _ & Hin) Ho Hsub Hrange] [C1 C2 C3].
  assert (∀ k' d, contents c' src !! k' = Some d →
    (contents c src !! k' = Some d ∨ (b = src ∧ k' = k ∧ doc_cas d = cas))) as Hcase.
  { intros k' d Hd. destruct (decide (b = src)) as [->|Hb']; [|left; by rewrite Ho in Hd].
    rewrite Hb in Hd. apply lookup_insert_Some in Hd as [[<- <-]|[_ Hd]]; [by right|by left]. }
  split; [| |by apply Hrange].
  - intros k' d [Hd|(_ & _ & ->)]%Hcase; [|done]. apply Hsub. by eapply C1.
  - intros k1 k2 d1 d2 [G1|(_ & -> & E1)]%Hcase [G2|(_ & -> & E2)]%Hcase Hc; [by eapply C2| | |done].
    + destruct Hn. rewrite <-E2, <-Hc. by eapply C1.
    + destruct Hn. rewrite <-E1, Hc. by eapply C1.
Qed.

Lemma set_tamed b k t used used' c c' seen :
  b ≠ wb → was_set b k t used used' c c' → tamed little src wb seen c c'.
Proof.
  intros Hne [(cas & _ & _ & Hb & [d' Hwb] & _) Ho _ _] k' d (Hd & Hs & Hm)%foreign_lookup.
  rewrite Hwb in Hm. apply lookup_insert_None in Hm as [Hm Hmk]. apply foreign_lookup. split_and!; [|done..].
  destruct (decide (b = src)) as [->|Hb']; [|by rewrite <-Ho].
  rewrite Hb in Hd. apply lookup_insert_Some in Hd as [[<- <-]|[_ Hd]]; [|done]. by destruct Hmk.
Qed.

Lemma set_pending b k t used used' c c' seen :
  was_set b k t used used' c c' → (size (pending src seen c') <= S (size (pending src seen c)))%nat.
Proof.
  intros [(cas & _ & _ & Hb & _) Ho _ _]. destruct (decide (b = src)) as [->|Hb'].
  - set (d := Doc t json_flags cas) in *.
    assert (pending src seen c' ⊆ <[k := d]> (pending src seen c)) as Hsub%map_subseteq_size.
    { apply map_subseteq_spec. intros k' d' [Hd Hs]%pending_lookup. rewrite Hb in Hd.
      apply lookup_insert_Some in Hd as [[<- <-]|[Hne Hd]]; apply lookup_insert_Some; [by left|right].
      split; [done|]. by apply pending_lookup. }
    rewrite map_size_insert in Hsub. destruct (pending src seen c !! k); cbn in *; lia.
  - unfold pending. rewrite Ho; [lia|congruence|done].
Qed.
End stores.

(** ** Handlers that only write documents *)

Section loop.
Context `{LcbHealthy} `{!LcbN1ql} `{Redis} `{Curl} `{RapidJson} `{Engine} `{!V8Laws}.
Context (little : bool) (now : Z) (alloc address : Z) (process : prog debug_globals unit).
Context (quote : string → string) (marshal_event : DcpEvent → option string).
(** The source bucket, the worker's own bucket, and what the server has as the
    expiry of a document. *)
Context (src wb : string) (Hsrc : src ≠ wb) (expiry : string → doc → Z).
Implicit Types w : world.

#[local] Notation handle := (handleDcpEvent little now alloc address process quote marshal_event wb).
#[local] Notation run := (run_js little now alloc address).
#[local] Notation tamed := (tamed little src wb).
#[local] Notation pending := (pending src).
#[local] Notation foreign := (foreign little src wb).
#[local] Notation rounds_left := (rounds_left little src wb).
#[local] Notation marker_name := (marker_name little).

(** A call that leaves the servers alone. *)
Definition off_servers w0 (x : host_call) : Prop :=
  ∀ w, same_objects w0 w →
    ∃ w' r, host little now alloc address x w = (w', Ok r) ∧ w_cluster w' = w_cluster w ∧ same_objects w w'.

(** A handler that reads properties of bucket objects and sets at most [n] of
    them, to values with a text, and leaves the servers alone otherwise. *)
Inductive tame w0 : nat → js_prog js_state → Prop :=
  | tame_done n s v : tame w0 n (JDone s v)
  | tame_throw n s e : tame w0 n (JThrow s e)
  | tame_get n i b s k :
      connected i b wb w0 → valid_key (c_str s) = true → (∀ r, tame w0 n (k r)) →
      tame w0 n (JHost (HGet (bucket_object i) (NString s)) k)
  | tame_set n i b s v t k :
      connected i b wb w0 → b ≠ wb → ToString v = Ok t → valid_key (c_str s) = true → slen t <= max_value →
      (∀ r, tame w0 n (k r)) →
      tame w0 (S n) (JHost (HSet (bucket_object i) (NString s) v) k)
  | tame_other n x k : off_servers w0 x → (∀ r, tame w0 n (k r)) → tame w0 n (JHost x k).

(** A push on a queue of the worker is such a call. *)
Lemma push_off_servers w0 i q s :
  w_queues w0 !! i = Some q → off_servers w0 (HGet (queue_object i) (NString s)).
Proof.
  intros Hq w (_ & _ & Eq & _). rewrite <-Eq in Hq.
  pose proof (QueueGetCall_eq alloc address i q s w Hq) as E. cbv zeta in E.
  eexists _, _. split; [exact E|]. split; [done|apply same_objects_redis].
Qed.

Lemma same_connected i b w w' : same_objects w w' → connected i b wb w → connected i b wb w'.
Proof. intros (E1 & _ & _ & _ & E5). unfold connected. cbn. by rewrite E1, E5. Qed.

(** One set: a new version with a new CAS, and its marker. *)
Lemma set_step i b s v t w m used seen :
  connected i b wb w → b ≠ wb → ToString v = Ok t → valid_key (c_str s) = true → slen t <= max_value →
  fresh_for (S (S m)) used (w_cluster w) → cas_ok src used (w_cluster w) →
  ∃ (c : cluster) used',
    BucketSet little (bucket_object i) (NString s) v w = (update c w, Ok (Return v)) ∧
    fresh_for m used' c ∧ cas_ok src used' c ∧ tamed seen (w_cluster w) c ∧
    (size (pending seen c) <= S (size (pending seen (w_cluster w))))%nat.
Proof.
  intros Hc Hne Ht Hk Hs Hf Hok. pose proof (BucketSet_eq little i b wb s v t w Hc Ht) as Hset. cbv zeta in Hset.
  change (view w) with (w_cluster w) in Hset.
  destruct (set_requests little src wb Hsrc b (c_str s) t (w_cluster w) m used Hne Hk Hs Hf) as (used' & Hf' & Hw).
  eexists _, used'. split; [exact Hset|]. split; [exact Hf'|]. split_and!.
  - by eapply set_cas_ok.
  - by eapply set_tamed.
  - by eapply set_pending.
Qed.

(** What a run of a handler leaves, besides the objects. *)
Definition run_leaves (n m : nat) (seen : list (string * doc)) w w' : Prop :=
  ∃ used', fresh_for m used' (w_cluster w') ∧ cas_ok src used' (w_cluster w') ∧
    tamed seen (w_cluster w) (w_cluster w') ∧
    (size (pending seen (w_cluster w')) <= n + size (pending seen (w_cluster w)))%nat.

Lemma fresh_two n m : (2 * S n + m = S (S (2 * n + m)))%nat.
Proof. lia. Qed.

(** A handler that makes [n] writes at most. *)
Lemma run_tame w0 n p w m used seen :
  tame w0 n p → same_objects w0 w → fresh_for (2 * n + m) used (w_cluster w) → cas_ok src used (w_cluster w) →
  ∃ w' r, run p w = (w', Ok r) ∧ same_objects w w' ∧ run_leaves n m seen w w'.
Proof.
  intros Hp. revert w used. induction Hp as [n s v|n s e|n i b s k Hc Hk _ IH|n i b s v t k Hc Hne Ht Hk Hs _ IH|n x k Hx _ IH];
    intros w used Hso Hf Hok; cbn [run_js].
  1,2: eexists _, _; split; [by erewrite bind_Ok by apply zoom_put|]; split; [by destruct w|]; exists used;
    split; [by eapply fresh_less, Hf; lia|]; split; [done|]; split; [by intros ???|cbn; lia].
  - pose proof (same_connected i b w0 w Hso Hc) as Hcw.
    destruct (IH (return_handle (json_parse (got (lcb_get3 b (c_str s) (w_cluster w)).2)))
                (update (lcb_get3 b (c_str s) (w_cluster w)).1 w) used) as (w' & r & Hrun & Hso' & used' & Hf' & Hok' & Htame & Hsize).
    + by eapply same_objects_trans, same_objects_cluster.
    + by apply fresh_get.
    + eapply cas_ok_same, Hok. apply get_contents.
    + exists w', r. split; [|split; [by eapply same_objects_trans, Hso'; apply same_objects_cluster|]].
      * erewrite bind_Ok; [exact Hrun|]. exact (BucketGet_eq i b wb s w Hcw).
      * exists used'. split_and!; [done..| |].
        -- intros k' d Hd%Htame. apply foreign_lookup in Hd. apply foreign_lookup.
           change (w_cluster (update ?c w)) with c in Hd. by rewrite !get_contents in Hd.
        -- change (w_cluster (update ?c w)) with c in Hsize. unfold pending in *. by rewrite get_contents in Hsize.
  - pose proof (same_connected i b w0 w Hso Hc) as Hcw. rewrite fresh_two in Hf.
    destruct (set_step i b s v t w _ used seen Hcw Hne Ht Hk Hs Hf Hok) as (c & used1 & Hset & Hf1 & Hok1 & Ht1 & Hs1).
    destruct (IH (Return v) (update c w) used1) as (w' & r & Hrun & Hso' & used' & Hf' & Hok' & Htame & Hsize);
      [by eapply same_objects_trans, same_objects_cluster|done|done|].
    exists w', r. split; [by erewrite bind_Ok by exact Hset|].
    split; [by eapply same_objects_trans, Hso'; apply same_objects_cluster|].
    exists used'. split_and!; [done..| |].
    + intros k' d Hd%Htame. by apply Ht1.
    + change (w_cluster (update c w)) with c in Hsize. lia.
  - destruct (Hx w Hso) as (w1 & r1 & Hrun1 & Ec & Hso1).
    destruct (IH r1 w1 used) as (w' & r & Hrun & Hso' & Hl);
      [by eapply same_objects_trans|by rewrite Ec|by rewrite Ec|].
    exists w', r. split; [by erewrite bind_Ok by exact Hrun1|]. split; [by eapply same_objects_trans|].
    unfold run_leaves in *. by rewrite Ec in Hl.
Qed.

(** ** Rounds *)

Definition event_of (k : string) (d : doc) : DcpEvent := mutation_of little k (expiry k d) d.

Lemma event_marker k d : marker_of (event_of k d) = marker_name d.
Proof. done. Qed.

(** Rounds of the feed: what was brought, and whether the handler was called. *)
Inductive rounds : list (string * doc) → world → list (string * doc * bool) → list (string * doc) → world → Prop :=
  | rounds_nil seen w : rounds seen w [] seen w
  | rounds_cons seen w k d w1 ls seen' w' :
      pending seen (w_cluster w) !! k = Some d →
      handle (event_of k d) w = (w1, Ok tt) →
      rounds ((k, d) :: seen) w1 ls seen' w' →
      rounds seen w ((k, d, bool_decide (contents (w_cluster w) wb !! marker_name d = None)) :: ls) seen' w'.

Lemma rounds_next seen w k d called w1 ls seen' w' :
  pending seen (w_cluster w) !! k = Some d →
  bool_decide (contents (w_cluster w) wb !! marker_name d = None) = called →
  handle (event_of k d) w = (w1, Ok tt) →
  rounds ((k, d) :: seen) w1 ls seen' w' → rounds seen w ((k, d, called) :: ls) seen' w'.
Proof. intros Hp <- Hrun Hr. by eapply rounds_cons. Qed.

(** The arguments of the handler for a version: the document and its metadata. *)
Definition handler_args (k : string) (d : doc) : option (jsval * jsval) :=
  let json := doc_flags d =? JSONType in
  a0 ← (if json then json_parse (c_str (doc_value d)) else Some (js_string (c_str (doc_value d))));
  a1 ← json_parse (c_str (marshal_meta quote
         (EventMeta k (if json then "json" else "base64") (FormatUint16 (htonll_64 little (doc_cas d)))
            (dec (expiry k d)))));
  Some (a0, a1).

(** On these arguments the handler [f] is tame. *)
Definition tame_on (w0 : world) (f : jsval) (n : nat) (k : string) (d : doc) : Prop :=
  ∃ a0 a1, handler_args k d = Some (a0, a1) ∧ ∀ s, tame w0 n (call f [a0; a1] s).

(** The worker has this handler, and is not being debugged. *)
Definition loop_worker (w0 : world) (f : jsval) : Prop :=
  on_update_ (w_worker w0) = Some f ∧ start_debug_flag (w_worker w0) = false.

(** The feed from [seen0] and [w0] on. *)
Record loop_inv (n : nat) w0 (seen0 seen : list (string * doc)) w : Prop := {
  l_objects : same_objects w0 w;
  l_foreign k d : foreign seen (w_cluster w) !! k = Some d → foreign seen0 (w_cluster w0) !! k = Some d;
  l_fresh : ∃ used,
    fresh_for (S (2 * n) * rounds_left n seen (w_cluster w)) used (w_cluster w) ∧ cas_ok src used (w_cluster w)
}.

(** The next round makes the bound smaller. *)
Definition next_round (n : nat) w0 seen0 seen k d w : Prop :=
  ∃ w1, handle (event_of k d) w = (w1, Ok tt) ∧ loop_inv n w0 seen0 ((k, d) :: seen) w1 ∧
    (rounds_left n ((k, d) :: seen) (w_cluster w1) < rounds_left n seen (w_cluster w))%nat.

Lemma rounds_left_pos n seen c k d : pending seen c !! k = Some d → (1 <= rounds_left n seen c)%nat.
Proof. intros Hp. pose proof (pending_seen src seen c k d Hp). unfold rounds_left. lia. Qed.

Lemma budget n R R' : (R' < R)%nat → (S (2 * n) * R' + S (2 * n) <= S (2 * n) * R)%nat.
Proof. intros Hr. replace R with (S R' + (R - S R'))%nat by lia. nia. Qed.

Lemma marked_round n w0 seen0 seen w k d m :
  loop_inv n w0 seen0 seen w → pending seen (w_cluster w) !! k = Some d →
  contents (w_cluster w) wb !! marker_name d = Some m → next_round n w0 seen0 seen k d w.
Proof.
  intros [Hso Hfor (used & Hf & Hok)] Hp Hm. pose proof Hp as [Hd Hs]%pending_lookup.
  pose proof (c_range _ _ _ Hok _ (c_used _ _ _ Hok k d Hd)) as Hr.
  destruct (handle_marked little now alloc address process quote marshal_event wb (event_of k d) w eq_refl)
    as (c & Hrun & Hwb & Ho & Ec).
  { by apply htonll_64_range. }
  { by exists m. }
  rewrite event_marker in Hwb. set (c0 := w_cluster w) in *. pose proof (Ho src Hsrc) as Esrc.
  assert (∀ k' d', foreign ((k, d) :: seen) c !! k' = Some d' → foreign seen c0 !! k' = Some d') as Hback.
  { intros k' d' (Hd' & Hs' & Hm')%foreign_lookup. rewrite Esrc in Hd'. rewrite not_elem_of_cons in Hs'.
    rewrite Hwb in Hm'. apply foreign_lookup. split_and!; [done|tauto|].
    apply lookup_delete_None in Hm' as [Em|?]; [exfalso|done]. apply (proj1 Hs').
    pose proof (c_range _ _ _ Hok _ (c_used _ _ _ Hok k' d' Hd')) as Hr'.
    assert (k' = k) as ->.
    { eapply (c_distinct _ _ _ Hok); [done..|]. symmetry. by apply (cas_key_inj little). }
    congruence. }
  assert (rounds_left n ((k, d) :: seen) c < rounds_left n seen c0)%nat as HR.
  { unfold rounds_left. pose proof (pending_seen src seen c0 k d Hp) as P1.
    assert (size (foreign ((k, d) :: seen) c) <= size (foreign seen c0))%nat as P2
      by (apply map_subseteq_size, map_subseteq_spec; exact Hback).
    assert (pending ((k, d) :: seen) c = pending ((k, d) :: seen) c0) as P3 by (unfold pending; by rewrite Esrc).
    rewrite P3. nia. }
  exists (update c w). split; [exact Hrun|]. split; [|exact HR]. split.
  - by eapply same_objects_trans, same_objects_cluster.
  - intros k' d' Hk'. by apply Hfor, Hback.
  - exists used. split; [|by eapply cas_ok_same]. change (w_cluster (update c w)) with c. pose proof (budget n _ _ HR).
    eapply fresh_less with (n := pred (S (2 * n) * rounds_left n seen c0)); [lia|]. rewrite Ec.
    apply fresh_remove. destruct (S (2 * n) * rounds_left n seen c0)%nat eqn:E; [lia|]. by apply fresh_get.
Qed.

(** The handler runs on a version without a marker. *)
Lemma handle_foreign f w k d a0 a1 w2 r :
  loop_worker w f → handler_args k d = Some (a0, a1) → contents (w_cluster w) wb !! marker_name d = None →
  run (call f [a0; a1] (w_js w)) (update (lcb_get3 wb (marker_name d) (w_cluster w)).1 w) = (w2, Ok r) →
  handle (event_of k d) w = (marked w2, Ok tt).
Proof.
  intros [Hu Hdbg] Ha Hm Hrun. set (w1 := update (lcb_get3 wb (marker_name d) (w_cluster w)).1 w) in *.
  pose proof (handle_unmarked little now alloc address process quote marshal_event wb (event_of k d) w eq_refl Hm) as E.
  cbv zeta in E. rewrite event_marker in E. fold w1 in E. rewrite E. clear E.
  unfold handler_args in Ha. apply bind_Some in Ha as (a0' & H0' & Ha). apply bind_Some in Ha as (a1' & H1' & [= -> ->]).
  unfold feed_update, worker_send_update. change (Flags (event_of k d)) with (doc_flags d).
  destruct (doc_flags d =? JSONType); cbn [fst snd];
    (erewrite bind_Ok; [reflexivity|]; erewrite bind_Ok; [reflexivity|];
     by apply (SendUpdate_eq little now alloc address process _ _ _ w1 f a0 a1 w2 r)).
Qed.

Lemma foreign_round n f w0 seen0 seen w k d :
  loop_worker w0 f → (∀ k d, foreign seen0 (w_cluster w0) !! k = Some d → tame_on w0 f n k d) →
  loop_inv n w0 seen0 seen w → pending seen (w_cluster w) !! k = Some d →
  contents (w_cluster w) wb !! marker_name d = None → next_round n w0 seen0 seen k d w.
Proof.
  intros Hw Hread [Hso Hfor (used & Hf & Hok)] Hp Hm. pose proof Hp as [Hd Hs]%pending_lookup.
  set (c0 := w_cluster w) in *. assert (foreign seen c0 !! k = Some d) as Hforeign by by apply foreign_lookup.
  assert (loop_worker w f) as Hw' by (assert (w_worker w = w_worker w0) as Ew by apply Hso; unfold loop_worker; by rewrite Ew).
  destruct (Hread k d (Hfor k d Hforeign)) as (a0 & a1 & Ha & Htame).
  pose proof (λ w2 r, handle_foreign f w k d a0 a1 w2 r Hw' Ha Hm) as Hhandle. change (w_cluster w) with c0 in Hhandle.
  set (c1 := (lcb_get3 wb (marker_name d) c0).1) in *.
  assert (∀ b, contents c1 b = contents c0 b) as Ec by (intros b; apply get_contents).
  pose proof (pending_seen src seen c0 k d Hp) as P1. pose proof (foreign_seen little src wb seen c0 k d Hforeign) as P2.
  set (m := (S (2 * n) * pred (rounds_left n seen c0))%nat).
  destruct (run_tame w0 n (call f [a0; a1] (w_js w)) (update c1 w) m used ((k, d) :: seen) (Htame _))
    as (w2 & r & Hrun & Hso2 & used' & Hf' & Hok' & Ht & Hsz).
  { by eapply same_objects_trans, same_objects_cluster. }
  { apply fresh_get. eapply fresh_less, Hf. unfold m. pose proof (rounds_left_pos n seen c0 k d Hp). nia. }
  { eapply cas_ok_same, Hok. apply Ec. }
  change (w_cluster (update c1 w)) with c1 in *.
  assert (tamed ((k, d) :: seen) c0 (w_cluster w2)) as Ht0.
  { intros k' d' Hk'%Ht. apply foreign_lookup in Hk'. rewrite !Ec in Hk'. by apply foreign_lookup. }
  assert (pending ((k, d) :: seen) c1 = pending ((k, d) :: seen) c0) as P3 by (unfold pending; by rewrite Ec).
  assert (rounds_left n ((k, d) :: seen) (w_cluster w2) < rounds_left n seen c0)%nat as HR.
  { pose proof (tamed_size little src wb _ _ _ Ht0) as P4. unfold rounds_left. rewrite P3 in Hsz. nia. }
  exists (marked w2). split; [by apply (Hhandle w2 r)|]. split; [|exact HR]. split.
  - eapply same_objects_trans; [exact Hso|]. eapply same_objects_trans; [apply (same_objects_cluster c1)|].
    eapply same_objects_trans; [exact Hso2|]. by destruct w2.
  - intros k' d' Hk'%Ht0. apply Hfor. apply foreign_lookup in Hk' as (? & Hn & ?).
    rewrite not_elem_of_cons in Hn. apply foreign_lookup. tauto.
  - exists used'. split; [|exact Hok']. eapply fresh_less, Hf'. unfold m. apply Nat.mul_le_mono_l.
    change (w_cluster (marked w2)) with (w_cluster w2). lia.
Qed.

Lemma round_step n f w0 seen0 seen w k d :
  loop_worker w0 f → (∀ k d, foreign seen0 (w_cluster w0) !! k = Some d → tame_on w0 f n k d) →
  loop_inv n w0 seen0 seen w → pending seen (w_cluster w) !! k = Some d → next_round n w0 seen0 seen k d w.
Proof.
  intros Hw Hread HI Hp. destruct (contents (w_cluster w) wb !! marker_name d) as [m|] eqn:Hm.
  - by eapply marked_round.
  - by eapply foreign_round.
Qed.

Lemma rounds_run n f w0 seen0 ls seen1 w1 seen w :
  loop_worker w0 f → (∀ k d, foreign seen0 (w_cluster w0) !! k = Some d → tame_on w0 f n k d) →
  rounds seen1 w1 ls seen w → loop_inv n w0 seen0 seen1 w1 →
  loop_inv n w0 seen0 seen w ∧
  (length ls + rounds_left n seen (w_cluster w) <= rounds_left n seen1 (w_cluster w1))%nat ∧
  ∀ k d, (k, d, true) ∈ ls → foreign seen0 (w_cluster w0) !! k = Some d.
Proof.
  intros Hw Hread. induction 1 as [seen1 w1|seen1 w1 k d w2 ls seen w Hp Hrun _ IH]; intros HI.
  { split_and!; [done|cbn; lia|]. by intros k d Hin%not_elem_of_nil. }
  destruct (round_step n f w0 seen0 seen1 w1 k d Hw Hread HI Hp) as (w2' & Hrun' & HI' & HR).
  rewrite Hrun in Hrun'. injection Hrun' as <-. destruct (IH HI') as (HI2 & Hl & Hin).
  split_and!; [done|cbn; lia|]. intros k' d' [[= <- <- Hm]|Hls]%elem_of_cons; [|by apply Hin].
  apply (l_foreign _ _ _ _ _ HI). apply pending_lookup in Hp as [Hd Hs]. apply foreign_lookup. split_and!; [done..|].
  symmetry in Hm. by apply bool_decide_eq_true in Hm.
Qed.

(** ** Property *)

(** C4: the feedback loop ends.  Let the handler [OnUpdate], on the
    versions that have no marker, read and write properties of bucket objects,
    at most [n] writes a call, to documents of any buckets but the worker's own,
    those of the bucket that feeds it too.  Let servers where no request fails
    give new CAS values to its writes.  From any state, the feed, which brings
    the versions it has not brought yet in any order, comes to an end: after at
    most [n] rounds for each version without a marker and one for each pending
    version.  It never gets stuck on the way, and the handler is only called for
    versions that were there at the start and had no marker: never for a version
    of its own. *)
Theorem feedback_loop_ends n f w0 seen0 used ls seen w :
  loop_worker w0 f → (∀ k d, foreign seen0 (w_cluster w0) !! k = Some d → tame_on w0 f n k d) →
  cas_ok src used (w_cluster w0) →
  fresh_for (S (2 * n) * rounds_left n seen0 (w_cluster w0)) used (w_cluster w0) →
  rounds seen0 w0 ls seen w →
  (length ls <= rounds_left n seen0 (w_cluster w0))%nat ∧
  (∀ k d, (k, d, true) ∈ ls → foreign seen0 (w_cluster w0) !! k = Some d) ∧
  (∀ k d, pending seen (w_cluster w) !! k = Some d → ∃ w1, handle (event_of k d) w = (w1, Ok tt)).
Proof.
  intros Hw Hread Hok Hf Hr.
  assert (loop_inv n w0 seen0 seen0 w0) as HI by (split; [done|done|by exists used]).
  destruct (rounds_run n f w0 seen0 ls seen0 w0 seen w Hw Hread Hr HI) as (HI' & Hl & Hin).
  split_and!; [lia|done|]. intros k d Hp.
  destruct (round_step n f w0 seen0 seen w k d Hw Hread HI' Hp) as (w1 & Hrun & _). by exists w1.
Qed.
End loop.
