(* ===== verification/RefineEvents.v ===== *)
(** * The binding implements its specification: events

    Updates, deletions, requests and ticks of the clock, one after the other.
    The text of a reply is the one its pointer had when it was made. *)

From stdpp Require Import functions.
From S2P Require Import Prelude CStd StdMap Calendar Endian Kv Json V8 Engine Timers HttpResponse.
From S2P Require Import Heap Bucket N1ql Queue Mail Debug ExceptionFmt Host HostSafety Worker.
From S2P Require Import WorkerFacts GoTimers Spec Refine.
#[local] Open Scope Z_scope.

Section events.
Context `{LcbHealthy} `{!LcbN1ql} `{QueryService} `{!QueryLaws} `{RedisLaws} `{Curl} `{RapidJsonLaws} `{Engine} `{!V8Laws}.
Context (little : bool) (now : Z) (alloc address : Z).
Implicit Types w : world.

(** ** Events *)

Context (process : prog debug_globals unit).

(** The Go program opens the metadata bucket too. *)
Definition serve (e : event) : prog world answer :=
  match e with
  | EvUpdate value meta type =>
      z ← worker_send_update little now alloc address process value meta type; mret (Code z)
  | EvDelete msg => z ← worker_send_delete little now alloc address process msg; mret (Code z)
  | EvGet req => p ← worker_send_http_get little now alloc address req; mret (Reply (pointed_text p))
  | EvPost req => p ← worker_send_http_post little now alloc address req; mret (Reply (pointed_text p))
  | EvTick ts =>
      w ← the_worker;
      match cb_instance w with
      | Some h => _ ← processTimerEvent little now alloc address (connstr h) ts; mret Done
      | None => throw (Undefined "lcb_t that is not initialised")
      end
  end.

(** A world in which the next event finds what this one found. *)
Definition goes_on (st : store) w w' : Prop :=
  serving w' ∧ describes st w' ∧ w_worker w' = w_worker w ∧ meaning_of w' = meaning_of w.

Lemma follows_goes_on st w w' : serving w → follows st w w' → goes_on st w w'.
Proof.
  intros Hs [Hso Hd]. split_and!; [by eapply same_serving|done|apply Hso|by apply same_meaning].
Qed.

(** Changes of what the store does not describe. *)
Lemma goes_on_marked st w w1 : goes_on st w w1 → goes_on st w (marked w1).
Proof.
  intros (Hs & Hd & E1 & E2). split_and!; [done| |done|done]. by apply (describes_other st w1).
Qed.

Lemma goes_on_map st w w1 id m :
  id ≠ BodyMap → goes_on st w w1 → goes_on st w (update (set_map id m (w_maps w1)) w1).
Proof.
  intros Hid (Hs & Hd & E1 & E2). split_and!; [done| |done|done].
  apply (describes_other st w1); [done..|]. cbn. unfold set_map. by rewrite decide_False.
Qed.

(** The world in which the handler of a request runs. *)
Definition for_request w : world :=
  update (HTTPResponseObject (Some MakeHTTPResponseMapTemplate))
    (update (set_map BodyMap ∅ (w_maps w)) w).

Lemma for_request_serves st w :
  serving w → describes st w → serving (for_request w) ∧ describes (set_body ∅ st) (for_request w).
Proof.
  intros ((W1 & W2 & W3 & W4 & W5) & Hr) [D1 D2 D3 D4 D5 D6]. split.
  - split; [|exact Hr]. split_and!; try done. by right.
  - split; [exact D1|exact D2| |exact D4|exact D5|exact D6]. cbn. unfold set_map. by rewrite decide_True.
Qed.

Lemma SendHTTP_eq handler req w f a0 w1 r :
  slot_ok (http_response_map_template_ (w_http w)) MakeHTTPResponseMapTemplate →
  handler (w_worker w) = Some f → json_parse (c_str req) = Some a0 →
  run_js little now alloc address (call f [a0; js_host response_object] (w_js w)) (for_request w) = (w1, Ok r) →
  SendHTTP little now alloc address handler req w
  = (update (set_map ResponseMap ∅ (w_maps w1)) w1,
     Ok (Dangling (rj_write (raw_object (in_order (w_maps w1 BodyMap)))))).
Proof.
  intros Hslot Hh Ha Hrun. unfold SendHTTP, clear_body. step.
  erewrite bind_Ok.
  2: { unfold WrapHTTPResponseMap. step. cbv zeta.
       change (http_response_map_template_ _) with (http_response_map_template_ (w_http w)).
       rewrite (cached_ok _ _ Hslot). step. step. reflexivity. }
  cbv beta. rewrite Ha. cbn [parse_failure log_parse_failure]. erewrite bind_Ok by reflexivity.
  erewrite bind_Ok by apply the_worker_eq. cbv beta.
  change (handler _) with (handler (w_worker w)). rewrite Hh.
  erewrite bind_Ok.
  2: { etransitivity; [exact (Call_eq little now alloc address f [a0; js_host response_object] (for_request w))|].
       exact Hrun. }
  cbv beta. unfold ConvertMapToJson. step. step. reflexivity.
Qed.

Lemma http_refines handler req st w st' s' a :
  serving w → describes st w →
  spec_http now (meaning_of w) (handler (w_worker w)) req (st, w_js w) = Some (st', s', a) →
  ∃ w', (p ← SendHTTP little now alloc address handler req; mret (Reply (pointed_text p))) w = (w', Ok a) ∧
        goes_on st' w w' ∧ w_js w' = s'.
Proof.
  intros Hs Hd E. unfold spec_http in E. apply bind_Some in E as (f & Hf & E).
  apply bind_Some in E as (a0 & Ha & E). apply bind_Some in E as ([[st1 s1] r] & Hrun & [= <- <- <-]).
  cbn [fst snd] in Hrun. destruct (for_request_serves st w Hs Hd) as [Hs0 Hd0].
  change (meaning_of w) with (meaning_of (for_request w)) in Hrun.
  destruct (run_refines little now alloc address _ _ _ _ _ _ Hs0 Hd0 Hrun) as (w1 & Hr & Hfol & Hj).
  pose proof (follows_goes_on _ _ _ Hs0 Hfol) as Hg. destruct Hfol as [_ [_ _ Hbody]].
  exists (update (set_map ResponseMap ∅ (w_maps w1)) w1). split; [|split; [|exact Hj]].
  - erewrite bind_Ok by (apply (SendHTTP_eq handler req w f a0 w1 r); [apply Hs|done..]).
    rewrite Hbody. reflexivity.
  - apply goes_on_map; [done|]. exact Hg.
Qed.

(** ** Ticks of the clock *)

Lemma split_ids ids :
  Forall (λ id, timer_id id = true) ids → split (c_str (join_term ";" ids)) ";" = ids.
Proof.
  intros Hids. unfold split. rewrite c_str_id.
  - apply getline_join_term. eapply Forall_impl; [exact Hids|]. intros id Hid. by apply timer_id_facts.
  - induction Hids as [|id ids Hid _ IH]; [done|]. apply timer_id_facts in Hid as (Hn & _).
    cbn in *. unfold nul_free in *. rewrite sforall_app. cbn. by rewrite Hn, IH.
Qed.

(** The store's ids are those of the marker. *)
Lemma described_marker st w wb ts :
  describes st w → cb_instance (w_worker w) = Some (worker_handle wb) → marker_key ts = true →
  default EmptyString (marker wb ts (w_cluster w)) = join_term ";" (default [] (s_due st !! ts)).
Proof. intros Hd Hwb Hk. rewrite (d_due _ _ Hd wb ts Hwb Hk). by destruct (s_due st !! ts). Qed.

(** The callbacks of the named timers run as the store says. *)
Lemma timers_refine wb ids st w st' s' :
  serving w → cb_instance (w_worker w) = Some (worker_handle wb) → describes st w →
  spec_timers now (meaning_of w) ids (st, w_js w) = Some (st', s') →
  ∃ w', timer_loop (call_global little now alloc address) (worker_handle wb) ids w = (w', Ok tt) ∧
        follows st' w w' ∧ w_js w' = s'.
Proof.
  revert st w. induction ids as [|id ids IH]; intros st w Hs Hwb Hd E.
  { injection E as <- <-. exists w. split; [done|]. split; [by apply follows_refl|done]. }
  cbn [spec_timers fst snd] in E. apply bind_Some in E as (cf & Hcf & E).
  apply bind_Some in E as (f & Hf & E). apply bind_Some in E as ([] & [Hfun _]%only_if_inv & E).
  apply bind_Some in E as ([[st1 s1] r] & Hrun & E).
  destruct (d_timers _ _ Hd wb id cf Hwb Hcf) as (Hid & Hn & Ht).
  pose proof (timer_id_facts id Hid) as (Hidn & Hk & _).
  rewrite (timer_loop_cons _ wb cf id ids w) by done.
  change (view w) with (w_cluster w). set (w1 := update _ w).
  destruct (follows_cluster st w (lcb_get3 wb id (w_cluster w)).1 Hd) as [Hso Hd1].
  { intros b. by rewrite get_contents. }
  pose proof (same_serving w w1 Hso Hs) as Hs1.
  rewrite <-(same_meaning w w1 Hso) in Hrun, E. change (w_js w) with (w_js w1) in Hrun.
  destruct (run_refines little now alloc address _ _ _ _ _ _ Hs1 Hd1 Hrun) as (w2 & Hr & [Hso2 Hd2] & Hj).
  rewrite <-Hj, <-(same_meaning w1 w2 Hso2) in E.
  pose proof (same_objects_trans _ _ _ Hso Hso2) as Hso12.
  destruct (IH st1 w2) as (w3 & Hrun3 & [Hso3 Hd3] & Hj3); [by eapply same_serving| |done|exact E|].
  { destruct Hso12 as (_ & _ & _ & _ & ->). exact Hwb. }
  exists w3. split; [|split; [split; [by eapply same_objects_trans|done]|done]].
  erewrite bind_Ok; [exact Hrun3|]. unfold call_global. step.
  change (view w1) with (w_js w). rewrite (c_str_id cf Hn), Hf, Hfun, (c_str_id id Hidn).
  erewrite bind_Ok by (etransitivity; [exact (Call_eq little now alloc address f [js_string id] w1)|exact Hr]).
  done.
Qed.

(** The documents that a tick removes are those of the second that is over. *)
Lemma purge_describes st w wb ts ids (c : cluster) :
  serving w → describes st w → cb_instance (w_worker w) = Some (worker_handle wb) → marker_key ts = true →
  Forall (λ id, timer_id id = true) ids →
  frame wb (list_to_set (ts :: ids ++ [EmptyString])) (w_cluster w) c →
  contents c wb !! ts = None →
  describes (expire ts ids st) (update c w).
Proof.
  intros (_ & _ & Hne) Hd Hwb Hk Hids F Hnone.
  assert (∀ wb', cb_instance (w_worker w) = Some (worker_handle wb') → wb' = wb) as Hinj.
  { intros wb' E. rewrite Hwb in E. by injection E. }
  split; cbn [s_docs s_queues s_body s_timers s_due set_timers expire].
  - intros n b Hb. rewrite (d_docs _ _ Hd n b Hb). f_equal. apply map_eq. intros k. symmetry.
    apply F. left. intros ->. by apply (Hne n wb).
  - apply Hd.
  - apply Hd.
  - intros wb' id cf ->%Hinj [Hid Hout]%lookup_foldr_delete_Some.
    destruct (d_timers _ _ Hd wb id cf Hwb Hout) as (Ht & Hn & ts' & Hb). split_and!; [done..|].
    exists ts'. rewrite <-Hb. f_equal. apply F. right. by apply timer_id_not_purged.
  - intros wb' ts' ->%Hinj Hk'. unfold marker. change (w_cluster (update c w)) with c.
    destruct (decide (ts' = ts)) as [->|Hd'].
    + by rewrite lookup_delete_eq, Hnone.
    + rewrite lookup_delete_ne by done. rewrite <-(d_due _ _ Hd wb ts' Hwb Hk'). unfold marker. f_equal.
      apply F. right. by apply marker_key_not_purged.
  - intros ts' ids' [_ Hl]%lookup_delete_Some. by apply (d_ids _ _ Hd ts').
Qed.

Lemma tick_refines wb ts st w st' s' :
  serving w → cb_instance (w_worker w) = Some (worker_handle wb) → describes st w → marker_key ts = true →
  let ids := default [] (s_due st !! ts) in
  spec_timers now (meaning_of w) ids (st, w_js w) = Some (st', s') →
  ∃ w', processTimerEvent little now alloc address wb ts w = (w', Ok tt) ∧
        goes_on (expire ts ids st') w w' ∧ w_js w' = s'.
Proof.
  intros Hs Hwb Hd Hk ids E.
  assert (Forall (λ id, timer_id id = true) ids) as Hids.
  { unfold ids. destruct (s_due st !! ts) as [l|] eqn:El; [by apply (d_ids _ _ Hd ts)|constructor]. }
  set (c := (lcb_get3 wb ts (w_cluster w)).1).
  destruct (follows_cluster st w c Hd) as [Hso Hd1]; [intros b; apply get_contents|]. set (w1 := update c w) in *.
  pose proof (same_serving w w1 Hso Hs) as Hs1. rewrite <-(same_meaning w w1 Hso) in E.
  destruct (timers_refine wb ids st w1 st' s' Hs1 Hwb Hd1 E) as (w2 & Hrun & [Hso2 Hd2] & Hj).
  pose proof (same_serving w1 w2 Hso2 Hs1) as Hs2.
  assert (cb_instance (w_worker w2) = Some (worker_handle wb)) as Hwb2
    by (destruct Hso2 as (_ & _ & _ & _ & ->); exact Hwb).
  pose proof (marker_key_valid ts Hk) as Hv.
  destruct (timer_tick_run (worker_send_timer_callback little now alloc address) wb ts ids w w2 Hv)
    as (c3 & Htick & F & Hnone).
  { eapply Forall_impl; [exact Hids|]. intros id Hid. by apply timer_id_facts. }
  { by apply described_marker. }
  { unfold worker_send_timer_callback, Worker_SendTimerCallback.
    erewrite bind_Ok by apply the_worker_eq. cbv beta.
    change (w_worker (update _ w)) with (w_worker w). rewrite Hwb. unfold SendTimerCallback.
    rewrite (split_ids ids Hids). exact Hrun. }
  exists (update c3 w2). split; [exact Htick|split; [|exact Hj]].
  pose proof (same_objects_trans _ _ _ Hso Hso2) as Hso12.
  split_and!; [exact Hs2| |apply Hso12|exact (same_meaning w w2 Hso12)].
  apply purge_describes with wb; [done..| |]; [exact F|]. apply Hnone; [by left|done].
Qed.

Lemma serve_refines e st w st' s' a :
  serving w → start_debug_flag (w_worker w) = false → describes st w →
  spec_event now (meaning_of w) (w_worker w) e (st, w_js w) = Some (st', s', a) →
  ∃ w', serve e w = (w', Ok a) ∧ goes_on st' w w' ∧ w_js w' = s'.
Proof.
  intros Hs Hf Hd E. destruct e as [value meta type|msg|req|req|ts]; cbn [spec_event serve] in *.
  - apply bind_Some in E as (f & Hu & E). apply bind_Some in E as (a0 & Ha0 & E).
    apply bind_Some in E as (a1 & Ha1 & E). apply bind_Some in E as ([[st1 s1] r] & Hrun & [= <- <- <-]).
    destruct (run_refines little now alloc address _ _ _ _ _ _ Hs Hd Hrun) as (w1 & Hr & Hfol & Hj).
    exists (marked w1). split; [|split; [by apply goes_on_marked, follows_goes_on|done]].
    erewrite bind_Ok.
    2: { unfold worker_send_update. erewrite bind_Ok by (by eapply SendUpdate_eq). reflexivity. }
    by destruct r.
  - apply bind_Some in E as (f & Hu & E). apply bind_Some in E as ([[st1 s1] r] & Hrun & [= <- <- <-]).
    destruct (run_refines little now alloc address _ _ _ _ _ _ Hs Hd Hrun) as (w1 & Hr & Hfol & Hj).
    exists (marked w1). split; [|split; [by apply goes_on_marked, follows_goes_on|done]].
    erewrite bind_Ok.
    2: { unfold worker_send_delete. erewrite bind_Ok by (by eapply SendDelete_eq). reflexivity. }
    by destruct r.
  - exact (http_refines on_http_get_ req st w st' s' a Hs Hd E).
  - exact (http_refines on_http_post_ req st w st' s' a Hs Hd E).
  - pose proof Hs as ((_ & _ & _ & _ & wb & Hwb) & _).
    apply bind_Some in E as ([] & [Hk _]%only_if_inv & E). apply bind_Some in E as ([st1 s1] & E & [= <- <- <-]).
    destruct (tick_refines wb ts st w st1 s1 Hs Hwb Hd Hk E) as (w' & Hrun & Hg & Hj).
    exists w'. split; [|done]. erewrite bind_Ok by apply the_worker_eq. cbv beta. rewrite Hwb.
    by erewrite bind_Ok by exact Hrun.
Qed.

End events.

(** ** Property *)

Section property.
Context `{LcbHealthy} `{!LcbN1ql} `{QueryService} `{!QueryLaws} `{RedisLaws} `{Curl} `{RapidJsonLaws} `{Engine} `{!V8Laws}.
Context (little : bool) (alloc address : Z) (process : prog debug_globals unit).
Implicit Types w : world.

(** Events in their order, each with the clock's reading during it. *)
Fixpoint serve_all (es : list (Z * event)) : prog world (list answer) :=
  match es with
  | [] => mret []
  | (now, e) :: es => a ← serve little now alloc address process e; l ← serve_all es; mret (a :: l)
  end.

(** C2: the binding implements its specification.  Take a worker that is
    loaded and not being debugged, whose buckets are not its own, on servers
    where no request fails.  Whatever its handlers do in any sequence of
    updates, deletions, requests and ticks of the clock, at any times, as long as the
    specification says what their property accesses and function calls do to the
    abstract store: each event returns, with the code or reply that the
    specification gives it (the text of a reply is the one that was written,
    before its buffer is freed), each tick calls exactly the timers that the store
    has for that second, in order, and the servers, the lists, the body and the
    documents of the timers are at the end as the store has them. *)
Theorem worker_implements_spec es st w st' s' answers :
  serving w → start_debug_flag (w_worker w) = false → describes st w →
  spec_events (meaning_of w) (w_worker w) es (st, w_js w) = Some (st', s', answers) →
  ∃ w', serve_all es w = (w', Ok answers) ∧ describes st' w' ∧ serving w' ∧ w_js w' = s'.
Proof.
  revert st w st' s' answers. induction es as [|[now e] es IH]; intros st w st' s' answers Hs Hf Hd E.
  - injection E as <- <- <-. by exists w.
  - cbn [spec_events serve_all] in *. apply bind_Some in E as ([[st1 s1] a] & He & E).
    apply bind_Some in E as ([[st2 s2] l] & Hl & [= <- <- <-]).
    destruct (serve_refines little now alloc address process _ _ _ _ _ _ Hs Hf Hd He) as (w1 & Hrun & (Hs1 & Hd1 & Ew & Em) & Hj).
    rewrite <-Ew, <-Em, <-Hj in Hl. rewrite <-Ew in Hf.
    destruct (IH _ _ _ _ _ Hs1 Hf Hd1 Hl) as (w2 & Hrun2 & Hd2 & Hs2 & Hj2).
    exists w2. split; [|done]. erewrite bind_Ok by exact Hrun. by erewrite bind_Ok by exact Hrun2.
Qed.
End property.
