(* ===== verification/Agenda.v ===== *)
(** * What becomes of a timer in time (worker.cc, proccess_timer_callbacks.go)

    [RegisterCallback] and the ticks of the Go program share nothing but the
    documents of a bucket.  Here is what they amount to: an agenda, with a list
    of ids for every second and a callback for every id.  The abstract agenda
    knows no keys, texts, blobs or markers.  The theorems show that runs of the
    code are runs of the agenda, and that a timer is called in the one tick that
    comes two seconds after it is due. *)

From S2P Require Import Prelude CStd StdMap Calendar Kv Json V8 Timers Heap Bucket N1ql Queue Mail.
From S2P Require Import HttpResponse Engine Debug Host HostSafety Worker WorkerFacts GoTimers Spec Refine RefineEvents.
#[local] Open Scope Z_scope.

(** ** The agenda *)

Inductive timer_event :=
  | Register (r : timer_request)     (** a call of [RegisterCallback] *)
  | TickAt (t : Z).                  (** the ticker of the Go program, in nanoseconds *)

Record agenda := Agenda {
  a_timers : gmap string string;     (** by id: the callback *)
  a_due : gmap Z (list string)       (** by second: the ids, in order *)
}.

Definition no_agenda : agenda := Agenda ∅ ∅.

(** The second a request asks for. *)
Definition due (r : timer_request) : option Z :=
  match atoi (req_start r) with
  | Ok v => if v =? 0 then None else Some (expiry_time (req_now r) v)
  | Fail _ => None
  end.

Definition ids_at (a : agenda) (s : Z) : list string := default [] (a_due a !! s).

(** The calls of a tick: the ids in order, up to the first without a timer. *)
Fixpoint calls_of (a : agenda) (ids : list string) : list (string * string) :=
  match ids with
  | [] => []
  | id :: ids => match a_timers a !! id with Some cf => (cf, id) :: calls_of a ids | None => [] end
  end.

(** An event's effect, and the calls it makes. *)
Definition agenda_step (e : timer_event) (a : agenda) : agenda * list (string * string) :=
  match e with
  | Register r =>
      match due r with
      | None => (a, [])
      | Some s =>
          (Agenda (<[req_doc r := req_callback r]> (a_timers a)) (<[s := ids_at a s ++ [req_doc r]]> (a_due a)), [])
      end
  | TickAt t =>
      let s := NewISO8601 t in
      (Agenda (foldr delete (a_timers a) (ids_at a s)) (delete s (a_due a)), calls_of a (ids_at a s))
  end.

Fixpoint agenda_run (es : list timer_event) (a : agenda) : agenda * list (list (string * string)) :=
  match es with
  | [] => (a, [])
  | e :: es =>
      let '(a, calls) := agenda_step e a in
      let '(a, rest) := agenda_run es a in
      (a, calls :: rest)
  end.

(** The ids that are called have timers; what is left, if anything, starts with
    an id that has none. *)
Lemma calls_split a ids :
  ∃ rest, ids = (calls_of a ids).*2 ++ rest ∧ (∀ t, t ∈ calls_of a ids → a_timers a !! t.2 = Some t.1) ∧
    (rest = [] ∨ ∃ id rest', rest = id :: rest' ∧ a_timers a !! id = None).
Proof.
  induction ids as [|id ids (rest & E & Hin & Hrest)]; [by exists []; split_and!; [|set_solver|left]|].
  cbn [calls_of]. destruct (a_timers a !! id) as [cf|] eqn:Hid.
  - exists rest. split_and!; [by rewrite E at 1| |done]. intros t [->|Ht]%elem_of_cons; [done|by apply Hin].
  - exists (id :: ids). split_and!; [done|set_solver|right; by exists id, ids].
Qed.

(** ** The code *)

Section code.
Context `{Lcb} `{RapidJson}.
Context (Format : string → Z → string) (act : string → string → cluster → cluster) (b : string).

Definition perform (e : timer_event) : prog (cluster * list (string * string)) unit :=
  match e with
  | Register r => zoom (register b r)
  | TickAt t => timer_tick (SendTimerCallback (logged act) (worker_handle b)) b (tick_docID Format t)
  end.

(** An event, and the calls it makes. *)
Definition perform_step (e : timer_event) : prog cluster (list (string * string)) := λ c,
  match perform e (c, []) with
  | ((c, calls), Ok _) => (c, Ok calls)
  | ((c, _), Fail e) => (c, Fail e)
  end.

Fixpoint perform_all (es : list timer_event) : prog cluster (list (list (string * string))) :=
  match es with
  | [] => mret []
  | e :: es => calls ← perform_step e; rest ← perform_all es; mret (calls :: rest)
  end.
End code.

(** What an event needs: texts without a zero byte, an id and sizes that the
    servers take, and times before the year 10000. *)
Definition admissible `{RapidJson} (e : timer_event) (a : agenda) : bool :=
  match e with
  | Register r =>
      nul_free (req_callback r) && nul_free (req_start r) && timer_id (req_doc r) &&
      (0 <=? req_now r) && (req_now r <? 253402300800 - expiry_bound) &&
      match atoi (req_start r), ConvertToISO8601 (req_now r) (req_start r) with
      | Ok v, Ok key =>
          (v =? 0) ||
          (slen (timer_blob (req_callback r) (req_doc r) key) <=? max_value) &&
          (slen (join_term ";" (ids_at a (expiry_time (req_now r) v) ++ [req_doc r])) <=? max_value)
      | _, _ => false
      end
  | TickAt t => (2 <=? t / 1000000000) && (t / 1000000000 <? 253402300800)
  end.

Fixpoint admissible_all `{RapidJson} (es : list timer_event) (a : agenda) : bool :=
  match es with
  | [] => true
  | e :: es => admissible e a && admissible_all es (agenda_step e a).1
  end.

(** ** The documents of an agenda *)

Section documents.
Context `{LcbHealthy} `{RapidJsonLaws}.
Context (b : string).
Implicit Types (c : cluster) (a : agenda).

(** Every second's marker lists its ids; every timer has its blob, and an id in
    a marker without a timer has no document. *)
Record keeps (a : agenda) (c : cluster) : Prop := {
  k_marker s key :
    -2203891200 <= s < 253402300800 → iso8601 s = Ok key →
    default EmptyString (marker b key c) = join_term ";" (ids_at a s);
  k_ids s id : id ∈ ids_at a s → timer_id id = true;
  k_timer id cf : a_timers a !! id = Some cf → timer_id id = true ∧ nul_free cf = true ∧ has_timer b c cf id;
  k_gone s id : id ∈ ids_at a s → a_timers a !! id = None → contents c b !! id = None
}.

(** The texts of these seconds are marker keys. *)
Lemma iso8601_marker_key s key : -2203891200 <= s < 253402300800 → iso8601 s = Ok key → marker_key key = true.
Proof.
  intros Hs E. destruct (iso8601_total s Hs) as (key' & E' & Hl). rewrite E in E'. injection E' as <-.
  apply iso8601_ok in E as (x & _ & ->). unfold marker_key. rewrite Hl. cbn.
  unfold format_iso. rewrite !lacks_app, (eq_refl : lacks ":" ":" = false), !andb_false_r. done.
Qed.

(** The documents an agenda is kept in. *)
Definition timer_key (k : string) : bool := timer_id k || marker_key k.

Lemma keeps_same a c c' :
  keeps a c → (∀ k, timer_key k = true → contents c' b !! k = contents c b !! k) → keeps a c'.
Proof.
  intros [K1 K2 K3 K4] Hc. split.
  - intros s key Hs E. unfold marker. rewrite Hc; [by apply K1|].
    unfold timer_key. by rewrite (iso8601_marker_key s key Hs E), orb_true_r.
  - exact K2.
  - intros id cf Hid. destruct (K3 id cf Hid) as (Ht & Hn & ts & Hb). split_and!; [done..|].
    exists ts. rewrite Hc; [done|]. unfold timer_key. by rewrite Ht.
  - intros s id Hid Hn. rewrite Hc; [by eapply K4|]. unfold timer_key. by rewrite (K2 s id Hid).
Qed.

(** ** Registrations *)

Lemma ids_at_insert a s l m s' : ids_at (Agenda m (<[s := l]> (a_due a))) s' = if decide (s' = s) then l else ids_at a s'.
Proof.
  unfold ids_at. cbn. destruct (decide (s' = s)) as [->|Hne]; [by rewrite lookup_insert_eq|].
  by rewrite lookup_insert_ne.
Qed.

(** What an admissible request with a timer asks for. *)
Lemma admissible_register r a v :
  admissible (Register r) a = true → atoi (req_start r) = Ok v → v ≠ 0 →
  let s := expiry_time (req_now r) v in
  ∃ key, iso8601 s = Ok key ∧ -2203891200 <= s < 253402300800 ∧ due r = Some s ∧
    timer_id (req_doc r) = true ∧ nul_free (req_callback r) = true ∧ good_request key r ∧
    slen (join_term ";" (ids_at a s ++ [req_doc r])) <= max_value.
Proof.
  intros E Hv Hnz s. cbn [admissible] in E. rewrite Hv in E. apply andb_true_iff in E as [E Hsize].
  rewrite !andb_true_iff, Z.leb_le, Z.ltb_lt in E. destruct E as ((((Hcf & Hst) & Hid) & Hn1) & Hn2).
  destruct (ConvertToISO8601 (req_now r) (req_start r)) as [key|] eqn:Hkey; [|done].
  rewrite (proj2 (Z.eqb_neq v 0) Hnz), orb_false_l, andb_true_iff, !Z.leb_le in Hsize.
  pose proof Hkey as Hiso. unfold ConvertToISO8601 in Hiso. rewrite Hv in Hiso. cbn in Hiso. fold s in Hiso, Hsize.
  assert (-2203891200 <= s < 253402300800) as Hs by (apply expiry_time_range; [lia|by apply atoi_in_int in Hv]).
  pose proof (timer_id_facts _ Hid) as (Hidn & Hk & Hsep & _ & Hm).
  destruct Hsize as [Hblob Hsize]. exists key. split_and!; try done.
  - apply Hs.
  - apply Hs.
  - unfold due. by rewrite Hv, (proj2 (Z.eqb_neq v 0) Hnz).
  - split; [by exists v|]. split_and!; try done.
    intros E. rewrite E, (iso8601_marker_key s key Hs Hiso) in Hm. done.
Qed.

Lemma register_keeps r a c :
  admissible (Register r) a = true → keeps a c →
  ∃ c', register b r c = (c', Ok tt) ∧ keeps (agenda_step (Register r) a).1 c'.
Proof.
  intros E HK. destruct (atoi (req_start r)) as [v|] eqn:Hv.
  2: { cbn in E. by rewrite Hv, andb_false_r in E. }
  destruct (decide (v = 0)) as [->|Hnz].
  { exists c. unfold agenda_step, due. rewrite Hv. split; [|done]. apply no_expiry_no_timer.
    rewrite c_str_id; [done|]. cbn in E. rewrite !andb_true_iff in E. apply E. }
  destruct (admissible_register r a v E Hv Hnz) as (key & Hiso & Hs & Hdue & Hid & Hcf & Hr & Hsize).
  set (s := expiry_time (req_now r) v) in *. pose proof (iso8601_marker_key s key Hs Hiso) as Hkey.
  destruct (register_run b key r c Hr) as (c' & Hrun & F & Ec'). exists c'. split; [done|].
  destruct HK as [K1 K2 K3 K4].
  destruct (healthy_store_timer b (req_callback r) (req_doc r) key c) as [Em Eb]; try apply Hr.
  { by apply marker_key_valid. }
  { rewrite (K1 s key Hs Hiso). by rewrite join_term_app in Hsize. }
  rewrite <-Ec' in Em, Eb. unfold agenda_step. rewrite Hdue. cbn [fst].
  pose proof (timer_id_facts _ Hid) as (_ & _ & _ & _ & Hmid).
  split; [intros s' key' Hs' Hiso'|intros s' id'|intros id' cf'|intros s' id'];
    rewrite ?ids_at_insert; cbn [a_timers].
  - case_decide as Hd; [subst s'|].
    + rewrite Hiso in Hiso'. injection Hiso' as <-. by rewrite Em, (K1 s key Hs Hiso), join_term_app.
    + rewrite <-(K1 s' key' Hs' Hiso'). f_equal. eapply marker_frame; [exact F|].
      pose proof (iso8601_marker_key s' key' Hs' Hiso') as Hk'.
      rewrite elem_of_union, !elem_of_singleton. intros [-> |Heq]; [congruence|].
      apply Hd, (iso8601_inj _ _ _ _ Hiso' Hiso), Heq.
  - case_decide; [|by apply K2]. subst. intros [Hin| ->%list_elem_of_singleton]%elem_of_app; [by eapply K2|done].
  - intros [[<- <-]|[Hne Hl]]%lookup_insert_Some; [split_and!; [done..|by exists key]|].
    destruct (K3 id' cf' Hl) as (Ht & Hn & ts & Hb). split_and!; [done..|]. exists ts. rewrite F; [done|].
    right. rewrite elem_of_union, !elem_of_singleton. intros [->| ->]; [done|].
    apply timer_id_facts in Ht as (_ & _ & _ & _ & Ht). congruence.
  - intros Hin [Hl Hne]%lookup_insert_None. assert (id' ∈ ids_at a s') as Hold.
    { case_decide; [|done]. subst. by apply elem_of_app in Hin as [?| ->%list_elem_of_singleton]. }
    rewrite F; [by eapply K4|]. right. rewrite elem_of_union, !elem_of_singleton.
    intros [->| ->]; [done|]. apply K2, timer_id_facts in Hold as (_ & _ & _ & _ & Ht). congruence.
Qed.

(** ** Ticks *)

Context (act : string → string → cluster → cluster).

(** The callbacks leave the documents of markers and timers alone. *)
Definition act_spares : Prop :=
  ∀ f arg c k, timer_key k = true → contents (act f arg c) b !! k = contents c b !! k.

Context (Hact : act_spares).

Lemma loop_calls a c ids log :
  keeps a c → (∀ id, id ∈ ids → ∃ s, id ∈ ids_at a s) →
  ∃ c', timer_loop (logged act) (worker_handle b) ids (c, log) = ((c', log ++ calls_of a ids), Ok tt) ∧
    ∀ k, timer_key k = true → contents c' b !! k = contents c b !! k.
Proof.
  intros [_ K2 K3 K4] Hids. destruct (calls_split a ids) as (rest & E & Hcalls & Hrest).
  set (calls := calls_of a ids) in *. rewrite E in Hids |- *.
  destruct (timer_loop_prefix b act calls rest c log) as (c1 & Hrun & Hc1).
  - apply Forall_forall. intros [cf id] Ht. destruct (K3 id cf) as (Hid & Hcf & _); [by apply Hcalls in Ht|].
    apply timer_id_facts in Hid. unfold good_timer. cbn. tauto.
  - intros f arg c0 id (t & -> & Ht)%list_elem_of_fmap. apply Hact. unfold timer_key.
    apply orb_true_iff. left. by apply (K3 t.2 t.1), Hcalls.
  - intros t Ht. by apply (K3 t.2 t.1), Hcalls.
  - assert (∀ k, timer_key k = true → contents c1 b !! k = contents c b !! k) as Hkept by (intros k Hk; apply Hc1; auto).
    rewrite Hrun. destruct Hrest as [->|(id & rest' & -> & Hno)]; [by exists c1|].
    destruct (Hids id) as [s Hs]; [set_solver|].
    destruct (timer_loop_stops b act id rest' c1 (log ++ calls)) as (c2 & Hstop & Hc2).
    + rewrite Hkept; [by eapply K4|]. unfold timer_key. by rewrite (K2 s id Hs).
    + exists c2. split; [done|]. intros k Hk. by rewrite Hc2, Hkept.
Qed.

(** A second that is over. *)
Lemma expire_keeps a c c' s key :
  keeps a c → -2203891200 <= s < 253402300800 → iso8601 s = Ok key →
  frame b (list_to_set (key :: ids_at a s ++ [EmptyString])) c c' →
  (∀ k, k ∈ key :: ids_at a s → valid_key k = true → contents c' b !! k = None) →
  keeps (Agenda (foldr delete (a_timers a) (ids_at a s)) (delete s (a_due a))) c'.
Proof.
  intros [K1 K2 K3 K4] Hs Hiso F Hnone. pose proof (iso8601_marker_key s key Hs Hiso) as Hkey.
  assert (∀ s', ids_at (Agenda (foldr delete (a_timers a) (ids_at a s)) (delete s (a_due a))) s'
          = if decide (s' = s) then [] else ids_at a s') as Hat.
  { intros s'. unfold ids_at at 1. cbn. destruct (decide (s' = s)) as [->|]; [by rewrite lookup_delete_eq|].
    by rewrite lookup_delete_ne. }
  assert (Forall (λ id, timer_id id = true) (ids_at a s)) as Hids by (apply Forall_forall; apply K2).
  split; [intros s' key' Hs' Hiso'|intros s' id'|intros id' cf' [Hl Hout]%lookup_foldr_delete_Some|intros s' id'];
    rewrite ?Hat; cbn [a_timers].
  - case_decide as Hd; [subst s'|].
    + rewrite Hiso in Hiso'. injection Hiso' as <-. unfold marker.
      by rewrite Hnone; [|left|apply marker_key_valid].
    + rewrite <-(K1 s' key' Hs' Hiso'). f_equal. eapply marker_frame; [exact F|].
      apply marker_key_not_purged; [by eapply iso8601_marker_key| |done].
      intros ->. by apply Hd, (iso8601_inj _ _ _ _ Hiso' Hiso).
  - case_decide; [set_solver|apply K2].
  - destruct (K3 id' cf' Hout) as (Ht & Hn & ts & Hb). split_and!; [done..|]. exists ts.
    rewrite F; [done|]. right. by apply timer_id_not_purged.
  - case_decide; [set_solver|]. intros Hin Hl. pose proof (K2 s' id' Hin) as Ht.
    destruct (decide (id' ∈ ids_at a s)) as [Hi|Ho].
    + apply Hnone; [by right|]. apply timer_id_facts in Ht as (_ & Hv & _). exact Hv.
    + rewrite F; [|right; by apply timer_id_not_purged]. eapply K4; [done|].
      destruct (a_timers a !! id') as [cf|] eqn:Hcf; [|done].
      by rewrite (proj2 (lookup_foldr_delete_Some _ _ _ _) (conj Ho Hcf)) in Hl.
Qed.

Context (Format : string → Z → string) (HFormat : formats_iso Format).

Lemma tick_keeps t a c :
  admissible (TickAt t) a = true → keeps a c →
  ∃ c', perform_step Format act b (TickAt t) c = (c', Ok (agenda_step (TickAt t) a).2) ∧
        keeps (agenda_step (TickAt t) a).1 c'.
Proof.
  cbn [admissible]. rewrite andb_true_iff, Z.leb_le, Z.ltb_lt. intros Ht HK.
  pose proof (tick_docID_iso Format HFormat t Ht) as Hiso. set (key := tick_docID Format t) in *.
  set (s := NewISO8601 t) in *. assert (-2203891200 <= s < 253402300800) as Hs by (unfold s, NewISO8601; lia).
  pose proof (k_ids a c HK s) as Hids. pose proof (k_marker a c HK s key Hs Hiso) as Hm.
  set (c0 := (lcb_get3 b key c).1).
  destruct (loop_calls a c0 (ids_at a s) []) as (c1 & Hloop & Hc1).
  { apply (keeps_same a c); [done|]. intros k _. unfold c0. by rewrite get_contents. }
  { intros id Hid. by exists s. }
  assert (Forall (λ id, timer_id id = true) (ids_at a s)) as Hall by (by apply Forall_forall).
  destruct (timer_tick_run (SendTimerCallback (logged act) (worker_handle b)) b key (ids_at a s) (c, [])
              (c1, calls_of a (ids_at a s))) as (c2 & Hrun & F & Hnone).
  { by eapply marker_key_valid, iso8601_marker_key. }
  { eapply Forall_impl; [exact Hall|]. intros id Hid. by apply timer_id_facts. }
  { exact Hm. }
  { unfold SendTimerCallback. rewrite (split_ids _ Hall). exact Hloop. }
  exists c2. split.
  - unfold perform_step, perform. fold key. by rewrite Hrun.
  - apply (expire_keeps a c1 c2 s key); [|done..]. apply (keeps_same a c); [done|].
    intros k Hk. rewrite Hc1 by done. unfold c0. by rewrite get_contents.
Qed.

Lemma event_keeps e a c :
  admissible e a = true → keeps a c →
  ∃ c', perform_step Format act b e c = (c', Ok (agenda_step e a).2) ∧ keeps (agenda_step e a).1 c'.
Proof.
  destruct e as [r|t]; [|apply tick_keeps]. intros E HK.
  destruct (register_keeps r a c E HK) as (c' & Hrun & HK'). exists c'. split; [|done].
  unfold perform_step, perform, zoom. cbn [view log_lens fst]. rewrite Hrun. cbn.
  by destruct (due r).
Qed.

Lemma run_keeps es a c :
  admissible_all es a = true → keeps a c →
  ∃ c', perform_all Format act b es c = (c', Ok (agenda_run es a).2) ∧ keeps (agenda_run es a).1 c'.
Proof.
  revert a c. induction es as [|e es IH]; intros a c; [by exists c|].
  cbn [admissible_all perform_all agenda_run]. intros [He Hes]%andb_true_iff HK.
  destruct (event_keeps e a c He HK) as (c1 & Hrun1 & HK1).
  destruct (agenda_step e a) as [a1 calls]. cbn [fst snd] in *.
  destruct (IH a1 c1 Hes HK1) as (c2 & Hrun2 & HK2). destruct (agenda_run es a1) as [a2 rest]. cbn [fst snd] in *.
  exists c2. split; [|done]. erewrite bind_Ok by exact Hrun1. cbv beta. by erewrite bind_Ok by exact Hrun2.
Qed.
End documents.

(** ** An agenda in time *)

(** The ids of the timers that are set, in order. *)
Definition ids_set (es : list timer_event) : list string :=
  omap (λ e, match e with Register r => (λ _, req_doc r) <$> due r | TickAt _ => None end) es.

(** Every id waits for one second, once, and has a timer. *)
Record sound (a : agenda) (used : list string) : Prop := {
  so_timer s id : id ∈ ids_at a s → is_Some (a_timers a !! id) ∧ id ∈ used;
  so_second s s' id : id ∈ ids_at a s → id ∈ ids_at a s' → s = s';
  so_once s : NoDup (ids_at a s)
}.

Lemma agenda_run_app es1 es2 a :
  agenda_run (es1 ++ es2) a
  = let '(a1, o1) := agenda_run es1 a in let '(a2, o2) := agenda_run es2 a1 in (a2, o1 ++ o2).
Proof.
  revert a. induction es1 as [|e es1 IH]; intros a; cbn; [by destruct (agenda_run es2 a)|].
  destruct (agenda_step e a) as [a0 o]. rewrite IH. destruct (agenda_run es1 a0) as [a1 o1].
  by destruct (agenda_run es2 a1).
Qed.

Lemma agenda_run_length es a : length (agenda_run es a).2 = length es.
Proof.
  revert a. induction es as [|e es IH]; intros a; [done|]. cbn. destruct (agenda_step e a) as [a0 o].
  specialize (IH a0). destruct (agenda_run es a0). cbn in *. by rewrite IH.
Qed.

Lemma ids_set_cons e es : ids_set (e :: es) = ids_set [e] ++ ids_set es.
Proof. unfold ids_set. cbn. by case_match. Qed.

Lemma ids_set_app es1 es2 : ids_set (es1 ++ es2) = ids_set es1 ++ ids_set es2.
Proof. apply omap_app. Qed.

Lemma no_agenda_sound : sound no_agenda [].
Proof. split; intros s; unfold ids_at; cbn; rewrite lookup_empty; cbn; [set_solver..|constructor]. Qed.

Lemma ids_at_tick a t s :
  ids_at (agenda_step (TickAt t) a).1 s = if decide (s = NewISO8601 t) then [] else ids_at a s.
Proof.
  unfold ids_at at 1. cbn. case_decide as Hd; [by rewrite Hd, lookup_delete_eq|by rewrite lookup_delete_ne].
Qed.

(** The calls are calls of the ids; all of them when the agenda is sound. *)
Lemma calls_sub a ids : (calls_of a ids).*2 ⊆ ids.
Proof. destruct (calls_split a ids) as (rest & E & _). rewrite E at 2. set_solver. Qed.

Lemma sound_calls a used s : sound a used → (calls_of a (ids_at a s)).*2 = ids_at a s.
Proof.
  intros HS. destruct (calls_split a (ids_at a s)) as (rest & E & _ & [->|(id & rest' & -> & Hno)]).
  - by rewrite app_nil_r in E.
  - destruct (so_timer _ _ HS s id) as [[cf Hcf] _]; [rewrite E; set_solver|congruence].
Qed.

Lemma sound_step e a used :
  sound a used → NoDup (used ++ ids_set [e]) → sound (agenda_step e a).1 (used ++ ids_set [e]).
Proof.
  intros [S1 S2 S3] Hnd. destruct e as [r|t].
  - unfold agenda_step, ids_set in *. cbn in *. destruct (due r) as [s|]; cbn in *; [|rewrite app_nil_r; by split].
    apply NoDup_app in Hnd as (_ & Hfresh & _).
    assert (∀ s', req_doc r ∉ ids_at a s') as Hnew.
    { intros s' (_ & Hin)%S1. apply (Hfresh _ Hin). by left. }
    split; intros s'; rewrite ?ids_at_insert; cbn [a_timers].
    + intros id Hid. assert (id = req_doc r ∨ id ∈ ids_at a s') as [->|Hold].
      { case_decide; [subst; set_solver|by right]. }
      * split; [rewrite lookup_insert_eq; by eexists|set_solver].
      * destruct (S1 s' id Hold) as [Hsome Hin]. split; [|set_solver].
        destruct (decide (req_doc r = id)) as [<-|]; [rewrite lookup_insert_eq; by eexists|].
        by rewrite lookup_insert_ne.
    + intros s2 id. rewrite ids_at_insert. specialize (S2 s' s2 id).
      pose proof (Hnew s'). pose proof (Hnew s2).
      repeat case_decide; subst; rewrite ?elem_of_app, ?list_elem_of_singleton; naive_solver.
    + case_decide; [subst|done]. apply NoDup_app. split_and!; [done| |apply NoDup_singleton].
      intros id Hid ->%list_elem_of_singleton. by apply (Hnew s).
  - unfold ids_set. cbn [omap list_omap]. rewrite app_nil_r. split; intros s'; rewrite ?ids_at_tick.
    + intros id. case_decide as Hd; [set_solver|]. intros Hid. destruct (S1 s' id Hid) as [[cf Hcf] Hu].
      split; [|done]. exists cf. cbn. apply lookup_foldr_delete_Some. split; [|done].
      intros Hid'. apply Hd. by eapply S2.
    + intros s2 id. rewrite ids_at_tick. case_decide; [set_solver|]. case_decide; [set_solver|apply S2].
    + case_decide; [constructor|done].
Qed.

Lemma sound_run es a used :
  sound a used → NoDup (used ++ ids_set es) → sound (agenda_run es a).1 (used ++ ids_set es).
Proof.
  revert a used. induction es as [|e es IH]; intros a used HS; [by rewrite app_nil_r|].
  rewrite ids_set_cons, app_assoc. intros Hnd. cbn [agenda_run].
  pose proof (sound_step e a used HS) as HS1. destruct (agenda_step e a) as [a1 o]. cbn [fst] in HS1.
  specialize (IH a1 (used ++ ids_set [e])). destruct (agenda_run es a1). cbn [fst] in *.
  apply IH; [|done]. apply HS1. by apply NoDup_app in Hnd as (? & _).
Qed.

(** Nobody calls an id that does not wait and is not set. *)
Lemma absent_run es a id :
  (∀ s, id ∉ ids_at a s) → id ∉ ids_set es → Forall (λ calls, id ∉ calls.*2) (agenda_run es a).2.
Proof.
  revert a. induction es as [|e es IH]; intros a Ha; [constructor|].
  rewrite ids_set_cons, not_elem_of_app. intros [He Hes]. cbn [agenda_run].
  assert (id ∉ (agenda_step e a).2.*2 ∧ ∀ s, id ∉ ids_at (agenda_step e a).1 s) as [Ho Ha1].
  { destruct e as [r|t].
    - unfold agenda_step, ids_set in *. cbn in *. destruct (due r) as [s|]; cbn in *; [|set_solver].
      split; [set_solver|]. intros s'. rewrite ids_at_insert. specialize (Ha s'). case_decide; subst; set_solver.
    - split; [|intros s; rewrite ids_at_tick; case_decide; set_solver].
      cbn [agenda_step snd]. intros Hin%calls_sub. by eapply Ha. }
  destruct (agenda_step e a) as [a1 o]. cbn [fst snd] in *. specialize (IH a1 Ha1 Hes).
  destruct (agenda_run es a1). by constructor.
Qed.

(** An id waits until the tick of its second. *)
Lemma waiting_run es a used s id cf :
  sound a used → NoDup (used ++ ids_set es) → id ∈ ids_at a s → a_timers a !! id = Some cf →
  (∀ t, TickAt t ∈ es → NewISO8601 t ≠ s) →
  let '(a', out) := agenda_run es a in
  id ∈ ids_at a' s ∧ a_timers a' !! id = Some cf ∧ Forall (λ calls, id ∉ calls.*2) out.
Proof.
  revert a used. induction es as [|e es IH]; intros a used HS Hnd Hid Hcf Ht; [done|].
  rewrite ids_set_cons, app_assoc in Hnd. pose proof Hnd as (Hnd1 & _ & _)%NoDup_app.
  pose proof (sound_step e a used HS Hnd1) as HS1. cbn [agenda_run].
  assert (id ∈ ids_at (agenda_step e a).1 s ∧ a_timers (agenda_step e a).1 !! id = Some cf ∧
          id ∉ (agenda_step e a).2.*2) as (Hid1 & Hcf1 & Ho).
  { destruct e as [r|t].
    - apply NoDup_app in Hnd1 as (_ & Hfresh & _). destruct (so_timer _ _ HS s id Hid) as [_ Hu].
      specialize (Hfresh id Hu). unfold agenda_step, ids_set in *. cbn in *.
      destruct (due r) as [s'|]; cbn in *; [|set_solver]. rewrite ids_at_insert. split_and!.
      + case_decide; [subst; set_solver|done].
      + rewrite lookup_insert_ne; [done|set_solver].
      + set_solver.
    - specialize (Ht t ltac:(by left)). rewrite ids_at_tick, decide_False by done.
      assert (id ∉ ids_at a (NewISO8601 t)) as Hother by (intros Hin; apply Ht; by eapply (so_second _ _ HS)).
      split_and!; [done| |]; cbn.
      + by apply lookup_foldr_delete_Some.
      + by intros Hin%calls_sub. }
  destruct (agenda_step e a) as [a1 o]. cbn [fst snd] in *.
  specialize (IH a1 _ HS1 Hnd Hid1 Hcf1). destruct (agenda_run es a1) as [a2 out].
  destruct IH as (? & ? & ?); [intros t Hin; apply Ht; by right|]. split_and!; [done..|by constructor].
Qed.

Lemma filter_once (l : list (string * string)) x :
  NoDup (l.*2) → x ∈ l → filter (λ y, y.2 = x.2) l = [x].
Proof.
  induction l as [|y l IH]; [set_solver|]. rewrite fmap_cons. intros [Hy Hnd]%NoDup_cons Hx.
  apply elem_of_cons in Hx as [->|Hx].
  - rewrite filter_cons_True by done. f_equal.
    destruct (filter (λ y0 : string * string, y0.2 = y.2) l) as [|z k] eqn:E; [done|].
    assert (z ∈ filter (λ y0 : string * string, y0.2 = y.2) l) as [Hz Hin]%list_elem_of_filter by (rewrite E; by left).
    destruct Hy. rewrite <-Hz. by apply list_elem_of_fmap_2.
  - rewrite filter_cons_False; [by apply IH|]. intros E. apply Hy. rewrite E. by apply list_elem_of_fmap_2.
Qed.

(** What becomes of an id that waits. *)
Lemma waiting_on_time es1 t es2 a used s id cf :
  sound a used → NoDup (used ++ ids_set (es1 ++ TickAt t :: es2)) →
  id ∈ ids_at a s → a_timers a !! id = Some cf →
  NewISO8601 t = s → (∀ t', TickAt t' ∈ es1 → NewISO8601 t' ≠ s) →
  ∃ before calls after,
    (agenda_run (es1 ++ TickAt t :: es2) a).2 = before ++ calls :: after ∧ length before = length es1 ∧
    filter (λ call, call.2 = id) calls = [(cf, id)] ∧ Forall (λ calls, id ∉ calls.*2) (before ++ after).
Proof.
  intros HS Hnd Hid Hcf <- Hes1. rewrite ids_set_app, (ids_set_cons (TickAt t)), app_assoc in Hnd. cbn [app] in Hnd.
  pose proof Hnd as (Hnd1 & Hfresh & _)%NoDup_app.
  pose proof (waiting_run es1 a used _ id cf HS Hnd1 Hid Hcf Hes1) as Hw.
  pose proof (sound_run es1 a used HS Hnd1) as HS1. pose proof (agenda_run_length es1 a) as Hl.
  rewrite agenda_run_app. destruct (agenda_run es1 a) as [a1 o1]. cbn [fst snd] in *.
  destruct Hw as (Hid1 & Hcf1 & Hout1). pose proof (sound_calls a1 _ (NewISO8601 t) HS1) as Hcalls.
  assert (Forall (λ calls, id ∉ calls.*2) (agenda_run es2 (agenda_step (TickAt t) a1).1).2) as Hout2.
  { apply absent_run.
    - intros s. rewrite ids_at_tick. case_decide as Hs; [set_solver|]. intros Hin. apply Hs.
      by eapply (so_second _ _ HS1).
    - apply Hfresh, elem_of_app. left. by apply (so_timer _ _ HS _ id Hid). }
  cbn [agenda_run]. set (calls := calls_of a1 (ids_at a1 (NewISO8601 t))) in *.
  change (agenda_step (TickAt t) a1) with ((agenda_step (TickAt t) a1).1, calls).
  cbv beta iota zeta. destruct (agenda_run es2 (agenda_step (TickAt t) a1).1) as [a3 o3]. exists o1, calls, o3. split_and!; [done|done| |by apply Forall_app].
  apply (filter_once calls (cf, id)); [rewrite Hcalls; apply HS1|].
  assert (id ∈ calls.*2) as ([cf' ?] & -> & Hin)%list_elem_of_fmap by by rewrite Hcalls.
  destruct (calls_split a1 (ids_at a1 (NewISO8601 t))) as (_ & _ & Hc & _). specialize (Hc _ Hin). cbn in *. congruence.
Qed.

(** A timer from its registration on. *)
Lemma agenda_on_time es1 r es2 t es3 s :
  let es := es1 ++ Register r :: es2 ++ TickAt t :: es3 in
  NoDup (ids_set es) → due r = Some s → NewISO8601 t = s → (∀ t', TickAt t' ∈ es2 → NewISO8601 t' ≠ s) →
  ∃ before calls after,
    (agenda_run es no_agenda).2 = before ++ calls :: after ∧ length before = (length es1 + S (length es2))%nat ∧
    filter (λ call, call.2 = req_doc r) calls = [req_timer r] ∧
    Forall (λ calls, req_doc r ∉ calls.*2) (before ++ after).
Proof.
  intros es Hnd Hr Ht Hes2. unfold es in *. clear es.
  rewrite ids_set_app, ids_set_cons, app_assoc, <-(app_nil_l (ids_set es1)) in Hnd.
  pose proof Hnd as (Hnd2 & _)%NoDup_app. pose proof Hnd2 as (Hnd1 & Hfresh & _)%NoDup_app.
  pose proof (sound_run es1 no_agenda [] no_agenda_sound Hnd1) as HS1.
  pose proof (sound_step (Register r) _ _ HS1 Hnd2) as HS2.
  assert (Forall (λ calls, req_doc r ∉ calls.*2) (agenda_run es1 no_agenda).2) as Hout1.
  { apply absent_run.
    - intros s'. unfold ids_at. cbn. rewrite lookup_empty. apply not_elem_of_nil.
    - intros Hin. apply (Hfresh _ Hin). unfold ids_set. cbn. rewrite Hr. by left. }
  pose proof (agenda_run_length es1 no_agenda) as Hl. rewrite agenda_run_app.
  destruct (agenda_run es1 no_agenda) as [a1 o1]. cbn [fst snd] in *. cbn [agenda_run].
  unfold agenda_step in HS2. unfold agenda_step at 1. rewrite Hr in *. set (a2 := Agenda _ _) in *. cbn [fst] in HS2.
  destruct (waiting_on_time es2 t es3 a2 _ s (req_doc r) (req_callback r) HS2 Hnd) as (o2 & calls & after & E & Hl2 & Hf & Hout2).
  { unfold a2. rewrite ids_at_insert, decide_True by done. apply elem_of_app. right. by left. }
  { apply lookup_insert_eq. }
  { done. }
  { done. }
  destruct (agenda_run (es2 ++ TickAt t :: es3) a2) as [a3 o3]. cbn [snd] in *. subst o3.
  exists (o1 ++ [] :: o2), calls, after. split_and!; [by rewrite <-app_assoc| |done|].
  - rewrite length_app. cbn. lia.
  - rewrite <-app_assoc. apply Forall_app. split; [done|]. constructor; [apply not_elem_of_nil|done].
Qed.

(** ** Properties *)

Section properties.
Context `{LcbHealthy} `{RapidJsonLaws}.
Context (b : string) (act : string → string → cluster → cluster) (Hact : act_spares b act).
Context (Format : string → Z → string) (HFormat : formats_iso Format).

(** C1: runs of the timer code are runs of the agenda.  Take any
    registrations and ticks, in any order and with ids registered again and
    again, on servers where no request fails, with callbacks that leave the
    documents of markers and timers alone.  Every registration and tick returns;
    a tick calls what the agenda calls: the callbacks of the ids of its second,
    each the one registered last for its id, in the order of registration, up to
    the first id whose timer an earlier tick has removed.  The markers and the
    blobs are at the end those of the agenda. *)
Theorem code_follows_agenda es a c :
  keeps b a c → admissible_all es a = true →
  ∃ c', perform_all Format act b es c = (c', Ok (agenda_run es a).2) ∧ keeps b (agenda_run es a).1 c'.
Proof. intros HK Hes. by apply run_keeps. Qed.

(** C3: a timer is called on time, and once.  Start without timers
    and let every id be set at most once.  A timer that is set for the second [s]
    is called, with its id, in the first tick two seconds later, however many
    registrations and ticks of other seconds come before and between; nothing
    calls it in any other event before or after. *)
Theorem timer_called_on_time es1 r es2 t es3 s c :
  let es := es1 ++ Register r :: es2 ++ TickAt t :: es3 in
  keeps b no_agenda c → admissible_all es no_agenda = true → NoDup (ids_set es) →
  due r = Some s → t / 1000000000 = s + 2 → (∀ t', TickAt t' ∈ es2 → t' / 1000000000 ≠ s + 2) →
  ∃ c' before calls after,
    perform_all Format act b es c = (c', Ok (before ++ calls :: after)) ∧
    length before = (length es1 + S (length es2))%nat ∧
    filter (λ call, call.2 = req_doc r) calls = [req_timer r] ∧
    Forall (λ calls, req_doc r ∉ calls.*2) (before ++ after).
Proof.
  intros es HK Hes Hnd Hr Ht Hes2.
  destruct (run_keeps b act Hact Format HFormat es no_agenda c Hes HK) as (c' & Hrun & _).
  destruct (agenda_on_time es1 r es2 t es3 s Hnd Hr) as (before & calls & after & E & Hl & Hf & Hout).
  - unfold NewISO8601. lia.
  - intros t' Hin. specialize (Hes2 t' Hin). unfold NewISO8601. lia.
  - exists c', before, calls, after. split_and!; [|done..]. by rewrite <-E.
Qed.
End properties.

(** ** Witnesses, on the fault-free service and the small JSON reader *)

From S2P Require Import KvRef MiniJson.

(** Two timers of 10:12:12; the first id is registered again for 10:12:13, with
    another callback, and its timer is gone when that second is over. *)
Definition example_requests_again : list timer_event :=
  [Register (TimerRequest 1470737472 "OnExpiry" "order_1" "60");
   Register (TimerRequest 1470737502 "Remind" "order_2" "30");
   Register (TimerRequest 1470737502 "Cancel" "order_1" "31");
   TickAt 1470737533000000000; TickAt 1470737534000000000; TickAt 1470737535999999999].

(** The same, with an id of its own, and a callback that has no expiry. *)
Definition example_day : list timer_event :=
  [Register (TimerRequest 1470737472 "OnExpiry" "order_1" "60"); TickAt 1470737473000000000;
   Register (TimerRequest 1470737502 "Remind" "order_2" "30");
   Register (TimerRequest 1470737502 "Never" "order_1" "0");
   Register (TimerRequest 1470737502 "Cancel" "order_3" "31");
   TickAt 1470737533000000000; TickAt 1470737534000000000; TickAt 1470737535999999999].

Lemma empty_keeps_none : keeps example_bucket no_agenda example_start.
Proof.
  split.
  - intros s key _ _. reflexivity.
  - intros s id Hin. by apply not_elem_of_nil in Hin.
  - done.
  - intros s id Hin. by apply not_elem_of_nil in Hin.
Qed.

Lemma idle_spares : act_spares example_bucket idle.
Proof. by intros f arg c k _. Qed.

Lemma code_follows_agenda_witness :
  ∃ c', perform_all format_seconds idle example_bucket example_requests_again example_start
        = (c', Ok [[]; []; []; []; [("Cancel", "order_1"); ("Remind", "order_2")]; []]%string) ∧
        keeps example_bucket (agenda_run example_requests_again no_agenda).1 c'.
Proof.
  apply (code_follows_agenda example_bucket idle idle_spares format_seconds format_seconds_iso
           example_requests_again no_agenda example_start).
  - exact empty_keeps_none.
  - vm_compute. reflexivity.
Defined.

Lemma timer_called_on_time_witness :
  ∃ c' before calls after,
    perform_all format_seconds idle example_bucket example_day example_start
    = (c', Ok (before ++ calls :: after)) ∧
    length before = 6%nat ∧
    filter (λ call, call.2 = "order_1"%string) calls = [("OnExpiry", "order_1")]%string ∧
    Forall (λ calls, "order_1"%string ∉ calls.*2) (before ++ after).
Proof.
  apply (timer_called_on_time example_bucket idle idle_spares format_seconds format_seconds_iso
           [] (TimerRequest 1470737472 "OnExpiry" "order_1" "60")
           [TickAt 1470737473000000000;
            Register (TimerRequest 1470737502 "Remind" "order_2" "30");
            Register (TimerRequest 1470737502 "Never" "order_1" "0");
            Register (TimerRequest 1470737502 "Cancel" "order_3" "31");
            TickAt 1470737533000000000] 1470737534000000000 [TickAt 1470737535999999999]
           1470737532 example_start).
  - exact empty_keeps_none.
  - vm_compute. reflexivity.
  - apply (bool_decide_unpack _). vm_compute. exact I.
  - vm_compute. reflexivity.
  - vm_compute. reflexivity.
  - intros t'. rewrite !elem_of_cons. intros Ht E.
    repeat (destruct Ht as [Ht|Ht]; [first [discriminate Ht|injection Ht as ->; vm_compute in E; discriminate E]|]).
    by apply not_elem_of_nil in Ht.
Defined.
