(* ===== verification/LocalTcpClient.v ===== *)
(** * The local TCP client (src/tcp/local_tcp_client.c)

    A program of its own: it connects to a port of the local host, reads once
    and prints what it has read.  The network calls are parameters; the buffer is
    1000 bytes that [malloc] leaves indeterminate. *)

From S2P Require Import Prelude CStd Memory.
#[local] Open Scope Z_scope.

(** ** The network *)

(** [struct addrinfo]: the fields that the program sets or hands on. *)
Record addrinfo := AddrInfo {
  ai_family : Z;
  ai_socktype : Z;
  ai_protocol : Z;
  ai_flags : Z;
  ai_addr : string
}.

Definition AF_UNSPEC : Z := 0.
Definition SOCK_STREAM : Z := 1.
Definition AI_PASSIVE : Z := 1.

(** The calls of the C library, with the state of the network. *)
Class Sockets := {
  net : Type;
  getaddrinfo : string → string → addrinfo → net → net * (Z + addrinfo);
  gai_strerror : Z → string;
  socket : Z → Z → Z → net → net * Z;
  connect : Z → string → net → net * Z;
  read : Z → Z → net → net * (Z * string);
  malloc : Z → net → net * bool;
  errno_text : net → string
}.

(** POSIX: an error of [getaddrinfo] is not 0; [read] returns -1 or the number of
    the bytes it has stored, at most as many as it was asked for. *)
Class SocketsLaws `{Sockets} := {
  getaddrinfo_error node service hints n e : (getaddrinfo node service hints n).2 = inl e → e ≠ 0;
  read_length fd count n :
    0 <= count → let '(len, bytes) := (read fd count n).2 in len = -1 ∨ (len = slen bytes ∧ len <= count)
}.

(** ** The program *)

Section program.
Context `{Sockets}.

Record process := Process { network : net; stdout : string; stderr : string }.

#[export] Program Instance lens_network : Lens process net :=
  {| view := network; update n p := Process n (stdout p) (stderr p) |}.
Solve Obligations with by intros; repeat match goal with p : process |- _ => destruct p end.

Definition endl : string := String "010" EmptyString.

Definition printf (text : string) : prog process unit :=
  modify (λ p, Process (network p) (stdout p +:+ text) (stderr p)).
Definition fprintf_stderr (text : string) : prog process unit :=
  modify (λ p, Process (network p) (stdout p) (stderr p +:+ text)).
Definition perror (what : string) : prog process unit :=
  e ← gets (λ p, errno_text (network p)); fprintf_stderr (what +:+ ": " +:+ e +:+ endl).

(** A call of the C library. *)
Definition syscall {A} (f : net → net * A) : prog process A :=
  zoom (λ n, let '(n, r) := f n in (n, Ok r)).

Definition buffer_size : Z := 1000.

Definition hints : addrinfo := AddrInfo AF_UNSPEC SOCK_STREAM 0 AI_PASSIVE EmptyString.

(** The exit status of [main], for the arguments with the program's name. *)
Definition main (argv : list string) : prog process Z :=
  match argv with
  | [_; port] =>
      allocated ← syscall (malloc buffer_size);
      if negb allocated then _ ← perror "malloc"; mret 1 else
      ret ← syscall (getaddrinfo "127.0.0.1" port hints);
      match ret with
      | inl e => _ ← fprintf_stderr ("getaddrinfo: " +:+ gai_strerror e +:+ endl); mret 1
      | inr res =>
          sockfd ← syscall (socket (ai_family res) (ai_socktype res) (ai_protocol res));
          if sockfd =? -1 then _ ← fprintf_stderr ("socket creation failed" +:+ endl); mret 1 else
          connected ← syscall (connect sockfd (ai_addr res));
          if connected =? -1 then _ ← fprintf_stderr ("connect failed" +:+ endl); mret 1 else
          '(len, bytes) ← syscall (read sockfd buffer_size);
          if len =? -1 then _ ← fprintf_stderr ("read finished/failed" +:+ endl); mret 1 else
          text ← lift (cstring (fill bytes (repeat None (Z.to_nat buffer_size))));
          _ ← printf ("read: " +:+ text +:+ endl);
          mret 0
      end
  | _ => _ ← printf ("usage: local_tcp_client server_port" +:+ endl); mret 1
  end.
End program.

(** ** Properties *)

Section properties.
Context `{SocketsLaws}.
Implicit Types p : process.

(** The text printed for [bytes]. *)
Definition printed (bytes : string) : outcome string :=
  if nul_free bytes
  then Fail (Undefined (if slen bytes =? buffer_size then "read past the end of the buffer" else "indeterminate byte"))
  else Ok (c_str bytes).

Lemma printed_spec bytes :
  slen bytes <= buffer_size →
  cstring (fill bytes (repeat None (Z.to_nat buffer_size))) = printed bytes.
Proof.
  unfold buffer_size. intros Hb. rewrite fill_spec by lia. rewrite cstring_spec. unfold printed, buffer_size.
  destruct (nul_free bytes); [|done]. unfold slen in *. do 2 f_equal.
  destruct (Z.eqb_spec (Z.of_nat (String.length bytes)) 1000); destruct (_ - _)%nat eqn:E; lia || done.
Qed.

Lemma syscall_bind {A B} (f : net → net * A) (k : A → prog process B) p :
  (syscall f ≫= k) p = k (f (network p)).2 (update (f (network p)).1 p).
Proof. unfold mbind, prog_bind, syscall, zoom. cbn. by destruct (f (network p)). Qed.

(** What a run has read: [bytes], in the last network call. *)
Definition has_read p' (bytes : string) : Prop :=
  slen bytes <= buffer_size ∧ ∃ fd n, read fd buffer_size n = (network p', (slen bytes, bytes)).

(** The ways in which a run can end. *)
Inductive ends (argv : list string) p p' : outcome Z → Prop :=
  | ends_usage :
      length argv ≠ 2%nat → stderr p' = stderr p →
      stdout p' = stdout p +:+ "usage: local_tcp_client server_port" +:+ endl → ends argv p p' (Ok 1)
  | ends_error text :
      length argv = 2%nat → stdout p' = stdout p → stderr p' = stderr p +:+ text +:+ endl →
      ends argv p p' (Ok 1)
  | ends_printed bytes :
      length argv = 2%nat → stderr p' = stderr p → has_read p' bytes → nul_free bytes = false →
      stdout p' = stdout p +:+ "read: " +:+ c_str bytes +:+ endl → ends argv p p' (Ok 0)
  | ends_undefined bytes f :
      length argv = 2%nat → stderr p' = stderr p → stdout p' = stdout p → has_read p' bytes →
      printed bytes = Fail f → ends argv p p' (Fail f).

Lemma main_ends argv p : ends argv p (main argv p).1 (main argv p).2.
Proof.
  destruct argv as [|a0 [|port [|a2 argv]]]; [by apply ends_usage..| |by apply ends_usage]. unfold main.
  rewrite syscall_bind. destruct (malloc _ _) as [n1 []]; cbn [negb fst snd].
  2: { by apply (ends_error _ _ _ ("malloc: " +:+ errno_text n1)). }
  rewrite syscall_bind. destruct (getaddrinfo _ _ _ _) as [n2 [e|res]]; cbn [fst snd].
  { by apply (ends_error _ _ _ ("getaddrinfo: " +:+ gai_strerror e)). }
  rewrite syscall_bind. destruct (socket _ _ _ _) as [n3 fd]; cbn [fst snd].
  destruct (fd =? -1); [by eapply ends_error|].
  rewrite syscall_bind. destruct (connect _ _ _) as [n4 c]; cbn [fst snd].
  destruct (c =? -1); [by eapply ends_error|].
  rewrite syscall_bind. cbn [network update lens_network].
  pose proof (read_length fd buffer_size n4 ltac:(done)) as Hlen.
  destruct (read fd buffer_size n4) as [n5 [len bytes]] eqn:Er; cbn [fst snd] in *.
  destruct (Z.eqb_spec len (-1)) as [|Hne]; [by eapply ends_error|].
  destruct Hlen as [|[-> Hlen]]; [done|]. rewrite printed_spec by done.
  assert (∀ p', network p' = n5 → has_read p' bytes) as Hr by (intros p' E; split; [done|exists fd, n4; by rewrite E]).
  destruct (nul_free bytes) eqn:Hn.
  - assert (printed bytes = Fail _) as E by (unfold printed; by rewrite Hn). rewrite E.
    apply (ends_undefined _ _ _ bytes); try done. by apply Hr.
  - assert (printed bytes = Ok (c_str bytes)) as -> by (unfold printed; by rewrite Hn).
    apply (ends_printed _ _ _ bytes); try done. by apply Hr.
Qed.

(** The server of this directory (main.go) greets with [strings.ToUpper(m)], as
    bytes without a terminator. *)
Definition ToUpper_byte (c : ascii) : ascii :=
  let n := Ascii.nat_of_ascii c in
  if Nat.leb 97 n && Nat.leb n 122 then Ascii.ascii_of_nat (n - 32) else c.
Definition greeting : string :=
  String.string_of_list_ascii (ToUpper_byte <$> String.list_ascii_of_string "hello from server").

Lemma greeting_nul_free k : nul_free (stake k greeting) = true.
Proof. do 18 (destruct k as [|k]; [done|]). done. Qed.

(** Every run of the client ends in one of four ways.  Called with
    another number of arguments it prints its usage, status 1; when the
    allocation or a network call fails it prints one line to the standard error
    and nothing to the standard output, status 1; otherwise it has read at most
    1000 bytes and prints those before the first NUL, status 0; and when there
    is no NUL among them it reads the buffer beyond what was received, which is
    undefined.  The server of this directory sends none, so that with it the
    client never succeeds, whatever part of the greeting it reads. *)
Theorem client_main argv p :
  ends argv p (main argv p).1 (main argv p).2 ∧
  ((∀ fd n n' bytes, read fd buffer_size n = (n', (slen bytes, bytes)) → ∃ k, bytes = stake k greeting) →
   (main argv p).2 ≠ Ok 0).
Proof.
  pose proof (main_ends argv p) as Hm. split; [done|]. intros Hg E. rewrite E in Hm.
  inversion Hm as [| |bytes _ _ (_ & fd & n & Hr) Hn _|]; subst.
  destruct (Hg _ _ _ _ Hr) as (k & ->). by rewrite greeting_nul_free in Hn.
Qed.
End properties.

(** ** A small network *)

(** The state is what a server sends and whether the port is open. *)
#[local] Instance mini_sockets : Sockets := {|
  net := string * bool;
  getaddrinfo node service hints n :=
    (n, if String.eqb service "http" then inl (-8) else inr (AddrInfo 2 SOCK_STREAM 6 0 node));
  gai_strerror _ := "Servname not supported for ai_socktype";
  socket _ _ _ n := (n, 3);
  connect _ _ n := (n, if n.2 then 0 else -1);
  read _ count n := let bytes := stake (Z.to_nat count) n.1 in ((sdrop (Z.to_nat count) n.1, n.2), (slen bytes, bytes));
  malloc _ n := (n, true);
  errno_text _ := "Cannot allocate memory"
|}.

Lemma slen_stake n s : slen (stake n s) <= Z.of_nat n.
Proof.
  unfold slen. assert (String.length (stake n s) <= n)%nat; [|lia].
  revert n. induction s as [|c s IH]; intros [|n]; cbn; [lia..|]. specialize (IH n). lia.
Qed.

#[local] Instance mini_sockets_laws : SocketsLaws.
Proof.
  split.
  - intros node service hints n e. cbn. destruct (String.eqb _ _); [|done]. by intros [= <-].
  - intros fd count n Hc. cbn. right. split; [done|]. pose proof (slen_stake (Z.to_nat count) n.1). lia.
Qed.

Definition client_start (sent : string) : process := Process (sent, true) EmptyString EmptyString.

Example client_prints :
  main ["client"; "3491"]%string (client_start ("HELLO" +:+ String nul "rest"))
  = (Process (EmptyString, true) ("read: HELLO" +:+ endl) EmptyString, Ok 0).
Proof. vm_compute. reflexivity. Qed.

Lemma client_main_witness :
  let run := main ["client"; "3491"]%string (client_start greeting) in
  ends ["client"; "3491"]%string (client_start greeting) run.1 run.2 ∧
  run.2 = Fail (Undefined "indeterminate byte").
Proof.
  split; [|vm_compute; reflexivity]. apply (client_main ["client"; "3491"]%string (client_start greeting)).
Defined.
