(* ===== verification/MiniWorld.v ===== *)
(** * A small engine and a small world

    An executable instance of [Engine] and a worker's world over the small
    servers of the other files, on which the theorems about the whole worker are
    applied. *)

From S2P Require Import Prelude CStd StdMap Calendar Endian Kv KvRef Json MiniJson V8 MiniV8.
From S2P Require Import Engine Timers HttpResponse Heap Bucket N1ql Queue Deployment Preprocess.
From S2P Require Import Mail Debug ExceptionFmt Host HostSafety Worker WorkerFacts Construct.
From S2P Require Import Lifecycle Terminate.
From S2P Require Import Session GoTimers GoFeed Spec Refine RefineEvents FeedLoop.
#[local] Open Scope Z_scope.

#[local] Existing Instance two_rows.
#[local] Existing Instance mini_redis.
#[local] Existing Instance mini_redis_laws.
#[local] Existing Instance mini_curl.

(** ** The engine *)

(** What is caught of an exception with this text. *)
Definition mini_caught (text : string) : caught := Caught (Some text) None None.

Definition mini_handlers : list string := ["OnUpdate"; "OnDelete"; "OnHTTPGet"; "OnHTTPPost"]%string.

Definition mini_set (name : string) (v : mval) (s : string → option mval) : string → option mval :=
  λ name', if String.eqb name' name then Some v else s name'.

(** A script defines the handlers it has a function of that name for; one that
    mentions [throw] at its start throws, one that starts with ")" does not
    compile. *)
Definition mini_compile (script : string) (s : string → option mval)
    : caught + @js_prog mini_v8 (string → option mval) :=
  if String.prefix ")" script then inl (mini_caught "SyntaxError")
  else if String.prefix "throw" script then inr (JThrow s (MJson (JString "thrown")))
  else inr (JDone (foldr (λ name s, if strstr script ("function " +:+ name +:+ "(")
                                     then mini_set name (MFunction name) s else s) s mini_handlers)
              MUndefined).

(** [OnUpdate] copies the document to the bucket's "copy" and deletes "old";
    [OnDelete] throws; [OnHTTPGet] answers with the first row of a query; [OnHTTPPost] sets a
    timer on "doc1" for a minute; [Remind], the timer's callback, notes the id. *)
Definition mini_call (f : mval) (args : list mval) (s : string → option mval)
    : @js_prog mini_v8 (string → option mval) :=
  match f with
  | MFunction name =>
      if String.eqb name "OnUpdate" then
        JHost (HSet (bucket_object 0) (NString "copy") (default MUndefined (head args)))
          (λ _, JHost (HDelete (bucket_object 0) (NString "old")) (λ _, JDone s MUndefined))
      else if String.eqb name "Remind" then
        JHost (HSet (bucket_object 0) (NString "reminded") (default MUndefined (head args))) (λ _, JDone s MUndefined)
      else if String.eqb name "OnDelete" then JThrow s (MJson (JString "no delete"))
      else if String.eqb name "OnHTTPPost" then
        JHost (HCall FregisterCallback (MJson ∘ JString <$> ["Remind"; "doc1"; "60"]%string)) (λ _, JDone s MUndefined)
      else
        JHost (HGet (n1ql_object 0) (NString "SELECT 1"))
          (λ r, JHost (HSet body_object (NString "row") (match r with Return (MArray (Some v :: _)) => v | _ => MUndefined end))
            (λ _, JDone s MUndefined))
  | _ => JThrow s (MJson (JString "not a function"))
  end.

#[local] Instance mini_engine : Engine (H := mini_v8) := {|
  js_state := string → option mval;
  new_context names := λ name, if existsb (λ p, String.eqb name p.1) names then Some (MFunction name) else Some MUndefined;
  global_get name s := s name;
  global_set name v s := mini_set name v s;
  compile := mini_compile;
  call := mini_call;
  describe e _ := mini_caught (default EmptyString (mini_utf8 e));
  syntax_error text := mini_caught ("SyntaxError: " +:+ text)
|}.

#[local] Program Instance mini_engine_laws : EngineLaws (H0 := mini_engine).
Next Obligation. intros name v s. cbn. unfold mini_set. by rewrite String.eqb_refl. Qed.
Next Obligation.
  intros name name' v s Hn. cbn. unfold mini_set. by destruct (String.eqb_spec name' name); [congruence|].
Qed.
Next Obligation. intros names name. cbn. by destruct (existsb _ _). Qed.

(** ** Worlds *)

(** The worker of the example deployment, before and after code is loaded. *)
Definition mini_new : Worker :=
  WorkerObject mini_v8 (Some (worker_handle "couchbase://localhost/eventing")) EmptyString 0 "credit_score" false
    EmptyString (Points 0) (Points 0) (Points 0) None None None None false.

Definition mini_loaded : Worker :=
  set_data_slot_1 (set_handlers (MFunction "OnUpdate") (MFunction "OnDelete") (MFunction "OnHTTPGet")
                     (MFunction "OnHTTPPost") mini_new).

(** The globals before any code is loaded, with a callback. *)
Definition mini_globals : js_state := global_set "Remind" (MFunction "Remind") (new_context global_functions).

Definition mini_world (x : Worker) : world :=
  World (ref_empty : @cluster ref_lcb) (∅ : @redis mini_redis) ([] : @curl mini_curl)
    mini_globals (λ _, ∅) HTTPResponse_new
    [Bucket_new "beer-sample" "localhost" "beer"]
    [N1QL_new "default" "localhost" "_n1ql"]
    [QueueObject mini_redis "redis" "q1" "6379" "orders" tt None]
    debug_start (ClusterNames "localhost" "default") x.

Lemma mini_wf x :
  cb_instance x = Some (worker_handle "couchbase://localhost/eventing") → wf (mini_world x).
Proof.
  intros Hx. split_and!; cbn.
  - constructor; [|done]. split; [by eexists|by left].
  - constructor; [by left|done].
  - constructor; [by left|done].
  - by left.
  - by eexists.
Qed.

Lemma two_rows_are_json : rows_are_json (H := ref_lcb).
Proof.
  intros b q c. cbn. destruct (String.eqb q "SELECT 1").
  - repeat constructor; cbn; (by eexists || done).
  - repeat constructor; done.
Qed.

(** ** The theorems, applied *)

Lemma property_access_is_safe_witness :
  ∃ w' r, host true 0 47 4096 (HSet (bucket_object 0) (NString "ale") (MJson (JString "bitter")))
            (mini_world mini_loaded) = (w', Ok r) ∧ wf w' ∧ ∀ o', made (mini_world mini_loaded) o' ↔ made w' o'.
Proof.
  apply (property_access_is_safe true 0 47 4096 (mini_world mini_loaded) (bucket_object 0) (NString "ale")
           (MJson (JString "bitter") : @jsval mini_v8)).
  - by apply mini_wf.
  - left. exists 0%nat. split; [cbn; lia|done].
  - by eexists.
  - apply two_rows_are_json.
  - right. left.
Defined.

(** The program that a handler runs, and where it ends. *)
Definition mini_run (f : string) (args : list (@jsval mini_v8)) : world * outcome (jsval + jsval) :=
  run_js true 0 47 4096 (call (MFunction f : @jsval mini_v8) args (w_js (mini_world mini_loaded)))
    (mini_world mini_loaded).

(** An update and a deletion, by handlers that return and that throw. *)
Lemma SendUpdate_runs_handler_witness :
  ∃ w2, worker_send_update true 0 47 4096 (mret tt) "true" "null" "json" (mini_world mini_loaded) = (w2, Ok 0) ∧
    data_ready (w_debug w2) = true ∧
    last_exception (w_worker w2) = last_exception (w_worker (mini_world mini_loaded)) ∧
    w_cluster w2 = w_cluster (mini_run "OnUpdate" [MJson (JBool true); MJson JNull]).1 ∧
    w_js w2 = w_js (mini_run "OnUpdate" [MJson (JBool true); MJson JNull]).1 ∧
    w_maps w2 = w_maps (mini_run "OnUpdate" [MJson (JBool true); MJson JNull]).1.
Proof.
  apply (SendUpdate_runs_handler true 0 47 4096 (mret tt) "true" "null" "json" (mini_world mini_loaded)
           (MFunction "OnUpdate" : @jsval mini_v8) (MJson (JBool true) : @jsval mini_v8)
           (MJson JNull : @jsval mini_v8)
           (mini_run "OnUpdate" [MJson (JBool true); MJson JNull]).1 (inl (MUndefined : @jsval mini_v8)));
    reflexivity.
Defined.

Lemma SendDelete_runs_handler_witness :
  ∃ w2, worker_send_delete true 0 47 4096 (mret tt) "ale" (mini_world mini_loaded) = (w2, Ok 8) ∧
    data_ready (w_debug w2) = true ∧
    last_exception (w_worker w2) = last_exception (w_worker (mini_world mini_loaded)) ∧
    w_cluster w2 = w_cluster (mini_run "OnDelete" [MJson (JString "ale")]).1 ∧
    w_js w2 = w_js (mini_run "OnDelete" [MJson (JString "ale")]).1 ∧
    w_maps w2 = w_maps (mini_run "OnDelete" [MJson (JString "ale")]).1.
Proof.
  apply (SendDelete_runs_handler true 0 47 4096 (mret tt) "ale" (mini_world mini_loaded)
           (MFunction "OnDelete" : @jsval mini_v8)
           (mini_run "OnDelete" [MJson (JString "ale")]).1 (inr (MJson (JString "no delete") : @jsval mini_v8)));
    reflexivity.
Defined.

Lemma SendUpdate_malformed_witness :
  ∃ w1, worker_send_update true 0 47 4096 (mret tt) "{" "null" "json" (mini_world mini_loaded)
        = (w1, Fail (Undefined "empty handle in a call")) ∧
    last_exception (w_worker w1) = ExceptionString (syntax_error (c_str "{")).
Proof.
  apply (SendUpdate_malformed true 0 47 4096 (mret tt) "{" "null" (mini_world mini_loaded)
           (MFunction "OnUpdate" : @jsval mini_v8) (MJson JNull : @jsval mini_v8)); reflexivity.
Defined.

Lemma log_reads_freed_text_witness :
  call_function 0 Flog [MJson (JBool true) : @jsval mini_v8] (mini_world mini_loaded)
  = (mini_world mini_loaded, Fail (Undefined "read of a freed buffer")).
Proof.
  apply (log_reads_freed_text 0 (MJson (JBool true) : @jsval mini_v8) [] (MJson (JString "true") : @jsval mini_v8)
           "true" (mini_world mini_loaded)); reflexivity.
Defined.

Lemma timer_while_loading_witness :
  call_function 0 FregisterCallback [js_string "f"; js_string "d"; js_string "60"]%string (mini_world mini_new)
  = (mini_world mini_new, Fail (Undefined "null pointer")).
Proof.
  apply (timer_while_loading 0 "f" "d" "60" "1970-01-01T00:01:00" (mini_world mini_new)); try reflexivity.
  exists 60. vm_compute. split_and!; congruence || done.
Defined.

(** Code with the four handlers, and none. *)
Definition mini_source : string :=
  "function OnUpdate(doc, meta) {} function OnDelete(msg) {} function OnHTTPGet(req, res) {} function OnHTTPPost(req, res) {}".

Lemma initialize_installs_three_witness :
  ∃ w', initialize_handles (mini_world mini_new) = (w', Ok SUCCESS) ∧
    global_get "beer" (w_js w') = Some (js_host (bucket_object 0)) ∧
    global_get "_n1ql" (w_js w') = Some (js_host (n1ql_object 0)) ∧
    global_get "orders" (w_js w') = Some (js_host (queue_object 0)) ∧
    (∀ name, name ∉ ["beer"; "_n1ql"; "orders"]%string →
       global_get name (w_js w') = global_get name (w_js (mini_world mini_new))) ∧
    timer_handle w' = Ok (worker_handle "couchbase://localhost/eventing").
Proof.
  apply (initialize_installs_three (mini_world mini_new) 0 0 0
           (Bucket_new "beer-sample" "localhost" "beer") (N1QL_new "default" "localhost" "_n1ql")
           (QueueObject mini_redis "redis" "q1" "6379" "orders" tt None)); try reflexivity.
  - by apply mini_wf.
  - vm_compute. repeat constructor; set_solver.
Defined.

Lemma WorkerLoad_codes_witness :
  (∃ w', worker_load true 0 47 4096 (λ _, None) "app" ") oops" (mini_world mini_new) = (w', Ok 1) ∧
     last_exception (w_worker w') = ExceptionString (mini_caught "SyntaxError") ∧
     w_js w' = w_js (mini_world mini_new) ∧ w_cluster w' = w_cluster (mini_world mini_new)) ∧
  worker_load true 0 47 4096 (λ _, None) "app" "function OnUpdate(doc) {}" (mini_world mini_new)
  = (update (mini_set "OnUpdate" (MFunction "OnUpdate") (w_js (mini_world mini_new)) : @js_state _ mini_engine)
       (update (set_script "function OnUpdate(doc) {}" mini_new) (mini_world mini_new)), Ok 2).
Proof.
  split.
  - apply (WorkerLoad_codes true 0 47 4096 (λ _, None) "app" ") oops" ") oops" (mini_world mini_new)).
    reflexivity.
  - apply (WorkerLoad_codes true 0 47 4096 (λ _, None) "app" "function OnUpdate(doc) {}"
             "function OnUpdate(doc) {}" (mini_world mini_new)).
    reflexivity.
Defined.

(** The example deployment, without its queue. *)
Definition mini_files (path : string) : option string :=
  if String.eqb path "./apps/plain" then
    Some (dquoted ("{'depcfg':{'buckets':[{'bucket_name':'beer-sample','alias':'beer'}],'queue':[],"
      +:+ "'workspace':{'metadata_bucket':'eventing'},'source':{'source_bucket':'default'}}}"))
  else example_files path.

Definition mini_plain_config : deployment_config :=
  DeploymentConfig "eventing" "default" "localhost"
    (<["queue" := ∅]> (<["buckets" := {["beer" := ["beer-sample"; "beer"]]}]> ∅))%string.

Lemma Worker_new_builds_witness :
  ∃ bs qs w' r,
    component_configs mini_plain_config = <["queue" := qs]> (<["buckets" := bs]> ∅)%string ∧
    worker_new mini_files 0 "plain" (mini_world mini_new) = (w', r) ∧
    (qs = ∅ → r = Ok tt) ∧ (r = Ok tt → built_from mini_plain_config bs qs (mini_world mini_new) w').
Proof.
  apply (Worker_new_builds mini_files 0 "plain" mini_plain_config (mini_world mini_new)).
  vm_compute. reflexivity.
Defined.

(** A worker constructed, loaded and given a document, a deletion and a request. *)
Definition mini_before : world := mini_world mini_new.
Definition mini_constructed : world := (worker_new example_files 0 "credit_score" mini_before).1.
Definition mini_enter (now : Z) (e : entry) (w : world) : world * outcome unit :=
  run_entry true now 47 4096 example_files (mret tt) e w.
Definition mini_1 : world := (mini_enter 0 (ELoad "app" mini_source) mini_constructed).1.
Definition mini_2 : world := (mini_enter 5 (EUpdate "true" "null" "json") mini_1).1.
Definition mini_3 : world := (mini_enter 5 (EDelete "ale") mini_2).1.
Definition mini_4 : world := (mini_enter 70 (EHTTPGet "true") mini_3).1.

Lemma mini_step now e w :
  reachable true 47 4096 example_files (mret tt) w → (mini_enter now e w).2 = Ok tt →
  reachable true 47 4096 example_files (mret tt) (mini_enter now e w).1.
Proof.
  intros Hw He. apply (reach_call _ _ _ _ _ w now e); [done|]. unfold mini_enter in *.
  by destruct (run_entry _ _ _ _ _ _ _ _) as [w' r]; cbn in *; subst.
Qed.

Lemma mini_reachable : reachable true 47 4096 example_files (mret tt) mini_4.
Proof.
  do 4 (apply mini_step; [|vm_compute; reflexivity]).
  apply (reach_new _ _ _ _ _ mini_before mini_constructed 0 "credit_score").
  - destruct (mini_wf mini_new eq_refl) as (W1 & W2 & W3 & _). done.
  - unfold mini_constructed. assert ((worker_new example_files 0 "credit_score" mini_before).2 = Ok tt) as E
      by (vm_compute; reflexivity).
    by destruct (worker_new _ _ _ _) as [w' r]; cbn in *; subst.
Qed.

Lemma reachable_invariant_witness : wf mini_4 ∧ handles_ok mini_4.
Proof. apply (reachable_invariant true 47 4096 example_files (mret tt)), mini_reachable. Defined.

(** Handler code that is complete, in a worker whose deployment had no queue. *)
Definition four_handlers : string :=
  "function OnUpdate(d) {} function OnDelete(d) {} function OnHTTPGet(r) {} function OnHTTPPost(r) {}".
Definition mini_queueless : world := mini_world (set_handles (Points 0) (Points 0) Indeterminate mini_new).

Lemma loading_needs_bucket_and_queue_witness :
  (∀ w' z, worker_load true 0 47 4096 (λ _, None) "app" four_handlers mini_queueless = (w', Ok z) → z = 1 ∨ z = 2) ∧
  ∃ w', worker_load true 0 47 4096 (λ _, None) "app" four_handlers mini_queueless
        = (w', Fail (Undefined "indeterminate pointer")).
Proof.
  assert (no_handle (w_worker mini_queueless)) as Hno by (by right).
  destruct (loading_needs_bucket_and_queue true 0 47 4096 (λ _, None) "app" four_handlers mini_queueless Hno) as [H1 H2].
  split; [exact H1|]. eapply (H2 four_handlers).
  - split; [by apply mini_wf|]. split_and!; cbn; lia || done.
  - reflexivity.
  - reflexivity.
  - reflexivity.
  - intros name Hin. repeat (apply elem_of_cons in Hin as [->|Hin]; [vm_compute; by eexists|]).
    by apply not_elem_of_nil in Hin.
Defined.

(** A handler that writes a document and then loops for ever. *)
#[local] Instance endless : Interpreter (H0 := mini_engine) := {|
  code := bool;
  start _ _ _ := true;
  next x := if x then Asks (HSet (bucket_object 0) (NString "copy") (MJson JNull : @jsval mini_v8)) (λ _, false)
            else Computes false;
  heap _ := mini_globals;
  terminated := (MJson JNull : @jsval mini_v8)
|}.

(** It writes, loops, is told to stop, loops once more and stops. *)
Definition endless_start : activity := Running (true : @code mini_v8 mini_engine endless) false (mini_world mini_loaded).

Example endless_is_stopped :
  ∃ w, rtc (act_step true 0 47 4096) endless_start (Ended (inr (MJson JNull : @jsval mini_v8)) w) ∧
    inv w ∧ w_worker w = mini_loaded.
Proof.
  eexists. assert (inv (mini_world mini_loaded)) as Hw.
  { split; [by apply mini_wf|]. split_and!; cbn; lia. }
  match goal with |- rtc ?R ?a ?b ∧ _ => assert (rtc R a b) as Hr end.
  { eapply rtc_l; [apply act_move|]. eapply rtc_l; [apply act_move|]. eapply rtc_l; [apply act_request|].
    eapply rtc_l; [apply act_move|]. eapply rtc_l; [apply act_notice|]. apply rtc_refl. }
  split; [exact Hr|].
  by apply (terminated_worker_is_sound true 0 47 4096 (true : @code mini_v8 mini_engine endless) false _ _ Hw Hr).
Qed.

(** What the run has left in the bucket: the copied document. *)
Example mini_run_stores : (doc_value <$> contents (w_cluster mini_2) "couchbase://localhost/beer-sample" !! "copy")%string
                          = Some "true"%string.
Proof. vm_compute. reflexivity. Qed.

(** ** The specification, run *)

(** The one query of [two_rows] reads no bucket. *)
#[local] Instance one_query : QueryService := {|
  query_reads _ _ := [];
  query_rows _ q _ := if String.eqb q "SELECT 1" then Some ["true"; "null"]%string else None
|}.

#[local] Instance one_query_laws : QueryLaws.
Proof.
  split. intros b q c docs texts E _. cbn in *. destruct (String.eqb q "SELECT 1"); [|done].
  injection E as <-. exists c, [RespN1ql false 0 "true"; RespN1ql false 0 "null"], (RespN1ql true 0 "{}").
  split_and!; [done|done|by repeat constructor|done|done|done].
Qed.

Definition mini_store : store := Store (λ _, ∅) ∅ ∅ ∅ ∅.
Definition mini_events : list (Z * event) :=
  [(0, EvUpdate "true" "null" "json"); (0, EvDelete "ale"); (0, EvPost "true"); (62, EvTick "1970-01-01T00:01:00");
   (62, EvGet "true"); (63, EvPost "true")]%string.

Definition mini_spec : option (store * js_state * list answer) :=
  spec_events (meaning_of (mini_world mini_loaded)) mini_loaded mini_events
    (mini_store, w_js (mini_world mini_loaded)).

(** The store and the engine's state after the events. *)
Definition mini_store_after : store := default mini_store (fst <$> (fst <$> mini_spec)).
Definition mini_js_after : js_state := default (w_js (mini_world mini_loaded)) (snd <$> (fst <$> mini_spec)).
Definition mini_answers : list answer :=
  [Code 0; Code 8; Reply "{}"; Done; Reply (dquoted "{'row':true}"); Reply "{}"].

Example mini_spec_answers : (snd <$> mini_spec) = Some mini_answers.
Proof. vm_compute. reflexivity. Qed.
Example mini_spec_stores :
  (s_docs mini_store_after "couchbase://localhost/beer-sample" !! "copy")%string = Some "true"%string.
Proof. vm_compute. reflexivity. Qed.

(** The timer's callback ran, and the second POST set the timer again. *)
Example mini_spec_timer :
  (s_docs mini_store_after "couchbase://localhost/beer-sample" !! "reminded",
   s_due mini_store_after !! "1970-01-01T00:02:03")%string
  = (Some (dquoted "'doc1'"), Some ["doc1"%string]).
Proof. vm_compute. reflexivity. Qed.

Lemma mini_spec_result : mini_spec = Some (mini_store_after, mini_js_after, mini_answers).
Proof.
  pose proof mini_spec_answers as E. unfold mini_store_after, mini_js_after.
  destruct mini_spec as [[[st s] l]|]; [|discriminate]. cbn in *. by injection E as ->.
Qed.

Lemma mini_describes : describes mini_store (mini_world mini_loaded).
Proof.
  split.
  - intros n b _. symmetry. exact (fmap_empty doc_value).
  - done.
  - done.
  - by intros wb id cf _ [=].
  - intros wb ts _ _. done.
  - by intros ts ids [=].
Qed.

Lemma mini_serving : serving (mini_world mini_loaded).
Proof.
  split_and!; [by apply mini_wf|done|]. intros [|n] b; [|by destruct n]. by intros [= <-].
Qed.

Lemma worker_implements_spec_witness :
  ∃ w', serve_all true 47 4096 (mret tt) mini_events (mini_world mini_loaded) = (w', Ok mini_answers) ∧
        describes mini_store_after w' ∧ serving w' ∧ w_js w' = mini_js_after.
Proof.
  apply (worker_implements_spec true 47 4096 (mret tt) mini_events mini_store (mini_world mini_loaded)
           mini_store_after mini_js_after mini_answers).
  - apply mini_serving.
  - reflexivity.
  - apply mini_describes.
  - apply mini_spec_result.
Defined.

(** ** A session of the Go program *)

Definition mini_session : session := Session (mini_world mini_loaded) true true false.

Definition mini_told_1 : world := (mini_run "OnUpdate" [MJson (JBool true); MJson JNull]).1.
Definition mini_told_2 : world :=
  (run_js true 0 47 4096 (call (MFunction "OnDelete" : @jsval mini_v8) [MJson (JString "ale")] (w_js (marked mini_told_1)))
    (marked mini_told_1)).1.

(** The handler of the deletion throws; Go gets an error without a text. *)
Lemma exceptions_are_not_told_witness :
  let s' := update (marked mini_told_2) (update (marked mini_told_1) mini_session) in
  in_turn [go_SendUpdate true 0 47 4096 (mret tt) "true" "null" "json";
           go_SendDelete true 0 47 4096 (mret tt) "ale"] mini_session
  = (s', Ok [None; Some EmptyString]) ∧ live s' ∧
  last_exception (w_worker (s_world s')) = last_exception (w_worker (s_world mini_session)).
Proof.
  apply (exceptions_are_not_told true 0 47 4096 (mret tt) mini_session
           [go_SendUpdate true 0 47 4096 (mret tt) "true" "null" "json";
            go_SendDelete true 0 47 4096 (mret tt) "ale"]
           [inl (MUndefined : @jsval mini_v8); @inr (@jsval mini_v8) (@jsval mini_v8) (MJson (JString "no delete"))]).
  - done.
  - done.
  - eapply handled_update with (f := MFunction "OnUpdate" : @jsval mini_v8) (a0 := MJson (JBool true) : @jsval mini_v8)
      (a1 := MJson JNull : @jsval mini_v8) (w1 := mini_told_1); [reflexivity..|].
    eapply handled_delete with (f := MFunction "OnDelete" : @jsval mini_v8) (w1 := mini_told_2); [reflexivity..|].
    apply handled_nil.
Defined.

(** ** The feed *)

Definition feed_beer : string := "couchbase://localhost/beer-sample".
Definition feed_meta : string := "couchbase://localhost/eventing".

(** Two writes by a handler, and their events. *)
Definition feed_set (name : string) (j : json) (w : world) : world :=
  (BucketSet true (bucket_object 0) (NString name) (MJson j : @jsval mini_v8) w).1.
Definition feed_1 : world := feed_set "ale" (JBool true) (mini_world mini_loaded).
Definition feed_2 : world := feed_set "stout" JNull feed_1.
Definition feed_doc (w : world) (k : string) : doc := default (Doc EmptyString 0 0) (contents (w_cluster w) feed_beer !! k).
Definition feed_events : list DcpEvent :=
  [mutation_of true "ale" 0 (feed_doc feed_1 "ale"); mutation_of true "stout" 0 (feed_doc feed_2 "stout")].

Lemma feed_writes : writes true feed_meta (mini_world mini_loaded) feed_events feed_2.
Proof.
  apply (writes_set true feed_meta (mini_world mini_loaded) 0 feed_beer "ale" (MJson (JBool true) : @jsval mini_v8)
           "true" feed_1); [split; reflexivity|done|reflexivity|done|done|reflexivity|reflexivity|].
  apply (writes_set true feed_meta feed_1 0 feed_beer "stout" (MJson JNull : @jsval mini_v8)
           "null" feed_2); [split; reflexivity|done|reflexivity|done|done|reflexivity|reflexivity|].
  apply writes_nil.
Qed.

Lemma NoDup_two (x y : Z) : (x =? y) = false → NoDup [x; y].
Proof. intros Hn%Z.eqb_neq. repeat constructor; set_solver. Qed.

Lemma feed_distinct : NoDup (Cas <$> feed_events).
Proof. apply NoDup_two. vm_compute. reflexivity. Qed.

Definition feed_quote (s : string) : string := dquoted ("'" +:+ s +:+ "'").

Lemma own_writes_are_not_fed_back_witness :
  ∃ c : cluster,
    for_each (handleDcpEvent true 0 47 4096 (mret tt) feed_quote (λ _, None) feed_meta) feed_events feed_2
    = (update c feed_2, Ok tt) ∧
    (∀ b, b ≠ feed_meta → contents c b = contents (w_cluster feed_2) b) ∧
    ((∀ e, e ∈ feed_events → contents (w_cluster (mini_world mini_loaded)) feed_meta !! dec (Cas e) = None) →
     contents c feed_meta = contents (w_cluster (mini_world mini_loaded)) feed_meta).
Proof.
  apply (own_writes_are_not_fed_back true 0 47 4096 (mret tt) feed_quote (λ _, None) feed_meta
           (mini_world mini_loaded) feed_events feed_2 feed_writes feed_distinct).
Defined.

(** A mutation from elsewhere reaches the handler, which copies the document. *)
Example foreign_mutation :
  (doc_value <$> contents (w_cluster (handleDcpEvent true 0 47 4096 (mret tt) feed_quote (λ _, None) feed_meta
     (Dcp DCP_MUTATION "porter" "false" JSONType 77 0) (mini_world mini_loaded)).1) feed_beer !! "copy")%string
  = Some "false"%string.
Proof. vm_compute. reflexivity. Qed.

(** ** The feed, closed *)

(** The small servers count their CAS values up. *)
Lemma ref_fresh n used (c : @cluster ref_lcb) :
  0 <= ref_next_cas c → ref_next_cas c + Z.of_nat n < 2 ^ 64 → (∀ x, x ∈ used → x < ref_next_cas c) →
  fresh_for n used c.
Proof.
  revert used c. induction n as [|n IH]; intros used c H0 Hn Hu; [done|]. intros c1 Hc.
  assert (c1 = c) as -> by (induction Hc as [|x y z [b k] _ IHc]; [done|]; by apply IHc).
  split.
  - intros b cmd x. cbn. unfold ref_store. destruct (is_empty (cmd_key cmd)); [done|].
    destruct (apply_store _ _ _) as [m|]; intros [= <-]; [intros _|done]. cbn.
    assert (u64 (ref_next_cas c) = ref_next_cas c) as E by (apply Z.mod_small; lia). rewrite E. split.
    + intros Hin%Hu. lia.
    + apply IH; cbn; [lia..|]. intros y [->|Hy%Hu]%elem_of_cons; lia.
  - intros b k. cbn. unfold ref_remove. destruct (is_empty k); [cbn; apply IH; [lia..|done]|].
    destruct (ref_contents c b !! k); cbn; [|apply IH; [lia..|done]].
    apply IH; cbn; [lia..|]. intros y Hy%Hu. lia.
Qed.

(** [Remind] as the handler of updates: it writes the document to "reminded", in
    the bucket that feeds it. *)
Definition loop_worker_object : Worker :=
  set_handlers (MFunction "Remind") (MFunction "OnDelete") (MFunction "OnHTTPGet") (MFunction "OnHTTPPost") mini_new.

Definition loop_0 : world :=
  @update world (@cluster ref_lcb) _ (ref_store feed_beer (CmdStore "ale" "true" LCB_SET json_flags) ref_empty).1
    (mini_world loop_worker_object).
Definition loop_handle (k : string) (d : doc) : world → world * outcome unit :=
  handleDcpEvent true 0 47 4096 (mret tt) feed_quote (λ _, None) feed_meta (event_of true (λ _ _, 0) k d).
Definition loop_1 : world := (loop_handle "ale" (Doc "true" json_flags 1) loop_0).1.
Definition loop_2 : world := (loop_handle "reminded" (Doc "true" json_flags 2) loop_1).1.

Lemma returned {S A} (x : S * outcome A) (a : A) : x.2 = Ok a → x = (x.1, Ok a).
Proof. destruct x. by intros [= ->]. Qed.

Lemma loop_step_1 : loop_handle "ale" (Doc "true" json_flags 1) loop_0 = (loop_1, Ok tt).
Proof. unfold loop_1. apply returned. vm_compute. reflexivity. Qed.

Lemma loop_step_2 : loop_handle "reminded" (Doc "true" json_flags 2) loop_1 = (loop_2, Ok tt).
Proof. unfold loop_2. apply returned. vm_compute. reflexivity. Qed.

Lemma loop_rounds :
  rounds true 0 47 4096 (mret tt) feed_quote (λ _, None) feed_beer feed_meta (λ _ _, 0) [] loop_0
    [("ale", Doc "true" json_flags 1, true); ("reminded", Doc "true" json_flags 2, false)]%string
    [("reminded", Doc "true" json_flags 2); ("ale", Doc "true" json_flags 1)]%string loop_2.
Proof.
  apply (rounds_next true 0 47 4096 (mret tt) feed_quote (λ _, None) feed_beer feed_meta (λ _ _, 0) [] loop_0
           "ale" (Doc "true" json_flags 1) true loop_1 [("reminded", Doc "true" json_flags 2, false)]%string).
  1,2: vm_compute; reflexivity.
  { exact loop_step_1. }
  apply (rounds_next true 0 47 4096 (mret tt) feed_quote (λ _, None) feed_beer feed_meta (λ _ _, 0) _ loop_1
           "reminded" (Doc "true" json_flags 2) false loop_2 []).
  1,2: vm_compute; reflexivity.
  { exact loop_step_2. }
  apply rounds_nil.
Qed.

Lemma loop_tame k d :
  foreign true feed_beer feed_meta [] (w_cluster loop_0) !! k = Some d →
  tame_on true 0 47 4096 feed_quote feed_meta (λ _ _, 0) loop_0 (MFunction "Remind" : @jsval mini_v8) 1 k d.
Proof.
  assert (foreign true feed_beer feed_meta [] (w_cluster loop_0) = {["ale"%string := Doc "true" json_flags 1]}) as ->
    by (vm_compute; reflexivity).
  intros [<- <-]%lookup_singleton_Some.
  eexists (MJson (JBool true) : @jsval mini_v8), _. split; [vm_compute; reflexivity|]. intros s.
  apply (tame_set true 0 47 4096 feed_meta loop_0 0 0 feed_beer "reminded" (MJson (JBool true) : @jsval mini_v8) "true").
  - split; reflexivity.
  - done.
  - reflexivity.
  - reflexivity.
  - vm_compute. congruence.
  - intros r. exact (tame_done true 0 47 4096 feed_meta loop_0 0 s (MUndefined : @jsval mini_v8)).
Qed.

Lemma feedback_loop_ends_witness :
  (2 <= rounds_left true feed_beer feed_meta 1 [] (w_cluster loop_0))%nat ∧
  foreign true feed_beer feed_meta [] (w_cluster loop_0) !! "ale"%string = Some (Doc "true" json_flags 1).
Proof.
  destruct (feedback_loop_ends true 0 47 4096 (mret tt) feed_quote (λ _, None) feed_beer feed_meta ltac:(done)
              (λ _ _, 0) 1 (MFunction "Remind" : @jsval mini_v8) loop_0 [] [1]
              [("ale", Doc "true" json_flags 1, true); ("reminded", Doc "true" json_flags 2, false)]%string
              [("reminded", Doc "true" json_flags 2); ("ale", Doc "true" json_flags 1)]%string loop_2)
    as (Hl & Hc & _).
  - split; reflexivity.
  - exact loop_tame.
  - split.
    + intros k d. change (contents (w_cluster loop_0) feed_beer) with ({["ale"%string := Doc "true" json_flags 1]} : gmap string doc).
      intros [<- <-]%lookup_singleton_Some. by left.
    + intros k1 k2 d1 d2.
      change (contents (w_cluster loop_0) feed_beer) with ({["ale"%string := Doc "true" json_flags 1]} : gmap string doc).
      by intros [<- <-]%lookup_singleton_Some [<- <-]%lookup_singleton_Some.
    + intros x ->%list_elem_of_singleton. lia.
  - apply ref_fresh; [vm_compute; congruence|vm_compute; reflexivity|].
    intros x ->%list_elem_of_singleton. vm_compute. reflexivity.
  - exact loop_rounds.
  - split; [exact Hl|]. apply Hc. by left.
Defined.
